(** * JogWheel: the motion decoder, the configuration store, the action
    codec, the console commands and the main loop

  A shallow embedding of [src/main.cpp] (JogWheel V1.0, an ATmega32U4
  sketch) and the properties of its specification, settled against it.

  Conventions of the embedding.
  - C integers are [Z]; every wrap-around the target performs is written
    out ([u8], [u16], [u32], [i8]).  The target is an 8-bit AVR: [int] and
    [size_t] are 16 bits wide, [unsigned long] is 32 bits wide, [char] is
    signed, structures have no padding and words are little-endian.
  - Globals and reference parameters are threaded explicitly.
  - The first part of the file holds the definitions, the second part the
    lemmas and theorems. *)

From Stdlib Require Import ZArith List Bool Lia String Ascii.
Import ListNotations.
Local Open Scope Z_scope.

(** ** Fixed-width integers *)

Definition u8 (x : Z) : Z := x mod 256.
Definition u16 (x : Z) : Z := x mod 65536.
Definition u32 (x : Z) : Z := x mod 4294967296.

(** [int8_t] conversion as avr-gcc performs it: reduction modulo 256 into
  the range -128..127. *)
Definition i8 (x : Z) : Z := (x + 128) mod 256 - 128.

Definition is_u8 (x : Z) : bool := (0 <=? x) && (x <? 256).
Definition is_u16 (x : Z) : bool := (0 <=? x) && (x <? 65536).

#[global] Arguments u8 : simpl never.
#[global] Arguments u16 : simpl never.
#[global] Arguments u32 : simpl never.
#[global] Arguments i8 : simpl never.

(** Arrays indexed by a C integer. Reading outside the array yields the
  default [d]; writing outside leaves the list as it is.  The source guards
  every index it uses, see the individual functions. *)
Definition aget {A : Type} (d : A) (l : list A) (i : Z) : A :=
nth (Z.to_nat i) l d.

Fixpoint upd {A : Type} (l : list A) (n : nat) (v : A) : list A :=
match l, n with
| [], _ => []
| _ :: r, O => v :: r
| x :: r, S m => x :: upd r m v
end.

Definition aset {A : Type} (l : list A) (i : Z) (v : A) : list A :=
if i <? 0 then l else upd l (Z.to_nat i) v.

(* ================================================================== *)
(** * Part I: the program *)
(* ================================================================== *)

(** ** The timer interrupt: [ISR(TIMERx_COMPA_vect)] *)

Module Decoder.

Inductive movement_t : Type := cw | none | cc.
Inductive coilState_t : Type := low | rising | rose.

Definition TRIGGER_A : Z := 15.
Definition TRIGGER_B : Z := 15.
Definition TRIGGER (c : Z) : Z := if c =? 0 then TRIGGER_A else TRIGGER_B.
Definition RESET_A : Z := 10.
Definition RESET_B : Z := 10.
Definition RESET (c : Z) : Z := if c =? 0 then RESET_A else RESET_B.
Definition MAX_PULSE_SEP : Z := 40000.

(** The two-element arrays [state], [risingTimestamp] and [coilVal]. *)
Definition get {A : Type} (p : A * A) (c : Z) : A :=
  if c =? 0 then fst p else snd p.
Definition set {A : Type} (p : A * A) (c : Z) (v : A) : A * A :=
  if c =? 0 then (v, snd p) else (fst p, v).

(** The function-static variables of the handler together with the global
    [movement], the mailbox shared with [loop()]. *)
Record vars : Type := mkVars {
  state : coilState_t * coilState_t;
  risingTimestamp : Z * Z;
  movement : movement_t
}.

(** What one tick reads from the outside: [analogRead(coilPin[c])] for
    each coil, and the value [micros()] returns should the handler call it
    while it treats coil [c]. *)
Record tick : Type := mkTick {
  coilVal : Z * Z;
  micros : Z * Z
}.

(** Static initialisers. *)
Definition power_on : vars := mkVars (low, low) (0, 0) none.

(** The body of [for (byte c = 0; c < 2; c++)]. *)
Definition isr_coil (t : tick) (s : vars) (c : Z) : vars :=
  match get (state s) c with
  | low =>
      if get (coilVal t) c >? TRIGGER c
      then mkVars (set (state s) c rising) (risingTimestamp s) (movement s)
      else s
  | rising =>
      let s1 :=
        match movement s with
        | none =>
            let ts := set (risingTimestamp s) c (u32 (get (micros t) c)) in
            if u32 (get ts c - get ts ((c + 1) mod 2)) <=? MAX_PULSE_SEP
            then mkVars (state s) ts (if c =? 0 then cc else cw)
            else mkVars (state s) ts none
        | _ => s
        end in
      mkVars (set (state s1) c rose) (risingTimestamp s1) (movement s1)
  | rose =>
      if get (coilVal t) c <? RESET c
      then mkVars (set (state s) c low) (risingTimestamp s) (movement s)
      else s
  end.

Definition isr (s : vars) (t : tick) : vars :=
  fold_left (isr_coil t) [0; 1] s.

(** A sequence of ticks with no reader of the mailbox in between. *)
Definition run (ts : list tick) (s : vars) : vars := fold_left isr ts s.

(** The events a tick latches: the mailbox going from [none] to a
    direction. *)
Definition latched (s s' : vars) : list movement_t :=
  match movement s, movement s' with
  | none, cw => [cw]
  | none, cc => [cc]
  | _, _ => []
  end.

Fixpoint events (ts : list tick) (s : vars) : list movement_t :=
  match ts with
  | [] => []
  | t :: r => latched s (isr s t) ++ events r (isr s t)
  end.

(** Vocabulary for pulse scenarios.  A coil [starts] a rise in a tick whose
    sample exceeds its trigger; it is [quiet] in a tick that cannot start
    one. *)
Definition starts (c : Z) (t : tick) : bool := get (coilVal t) c >? TRIGGER c.
Definition quiet (c : Z) (t : tick) : bool := negb (starts c t).

(** What one tick does to the state of coil [c]: the three [case]s of the
    handler, which look at the coil's own sample only. *)
Definition next_state (c : Z) (st : coilState_t) (t : tick) : coilState_t :=
  match st with
  | low => if get (coilVal t) c >? TRIGGER c then rising else low
  | rising => rose
  | rose => if get (coilVal t) c <? RESET c then low else rose
  end.

Definition coil_run (c : Z) (st : coilState_t) (ts : list tick)
  : coilState_t := fold_left (next_state c) ts st.

(** Coil [c], in state [st], begins no rise in the ticks [ts]: it never
    comes to [rising]. *)
Fixpoint no_rise (c : Z) (st : coilState_t) (ts : list tick) : bool :=
  match ts with
  | [] => true
  | t :: r =>
      match next_state c st t with
      | rising => false
      | st' => no_rise c st' r
      end
  end.

(** A pulse pair: coil [c] begins a rise in [a1]; the other coil [d]
    begins none in [a1] nor in the ticks [mid], there may be none, and
    begins one in [b1], which [b2] completes.  The tick after [a1]
    completes the rise of [c], and from there on [c] begins no second
    rise, whatever its samples are: it may stay high. *)
Definition pulse_pair (c d : Z) (a1 : tick) (mid : list tick)
           (b1 b2 : tick) : bool :=
  starts c a1 && quiet d a1 && forallb (quiet d) mid && starts d b1 &&
  no_rise c rising (mid ++ [b1; b2]).

Definition pair_ticks (a1 : tick) (mid : list tick) (b1 b2 : tick)
  : list tick := a1 :: mid ++ [b1; b2].

(** The tick after [a1], in which the first rise is recorded. *)
Definition second_tick (mid : list tick) (b1 : tick) : tick := hd b1 mid.

(** A tick in which both samples are below the reset level. *)
Definition falls (t : tick) : bool :=
  (get (coilVal t) 0 <? RESET 0) && (get (coilVal t) 1 <? RESET 1).

Definition other (c : Z) : Z := (c + 1) mod 2.

(** The direction latched by a pair that coil [d] completes. *)
Definition completes (d : Z) : movement_t := if d =? 0 then cc else cw.

(** No coil is in the middle of a rise. *)
Definition settled (s : vars) : Prop :=
  fst (state s) <> rising /\ snd (state s) <> rising.

(** The window test of the handler on two recorded times. *)
Definition within_window (t_first t_second : Z) : bool :=
  u32 (t_second - t_first) <=? MAX_PULSE_SEP.

(** The mailbox overwritten from outside (as [loop()] does when it clears
    it). *)
Definition with_movement (s : vars) (m : movement_t) : vars :=
  mkVars (state s) (risingTimestamp s) m.

End Decoder.

(** ** The EEPROM helper functions *)

Module Store.

Definition FINGERPRINT : Z := 0xC29D.
Definition KEY_UP_ARROW : Z := 0xDA.
Definition KEY_DOWN_ARROW : Z := 0xD9.

(** [struct headerBlock]: [curConfig] has 7 cells, [configPtr] 8. *)
Record headerBlock : Type := mkHeader {
  fingerprint : Z;
  selection : Z;
  curConfig : list Z;
  configPtr : list Z
}.

(** [N_ELEMENTS(header.curConfig)], [N_ELEMENTS(header.configPtr)] and
    [sizeof(header)] = 2 + 1 + 7 + 2 * 8. *)
Definition N_COMBOS : Z := 7.
Definition N_CONFIGS : Z := 8.
Definition sizeof_header : Z := 26.

(** [struct configBlock].  [entry] lists the cells of [entry[32][2]] from
    index 0 on, a pair per cell (clockwise, counterclockwise).  The
    functions below only touch the cells below [nEntries]. *)
Record configBlock : Type := mkConfig {
  nEntries : Z;
  entry : list (Z * Z)
}.

(** [sizeof(cb.nEntries)] and [sizeof(cb.entry[0])]. *)
Definition sizeof_nEntries : Z := 1.
Definition sizeof_entry : Z := 4.

(** A local [configBlock cb;] before anything is assigned to it. *)
Definition uninit : configBlock := mkConfig 0 [].

(** The EEPROM: a cell for every address, of which a read sees eight
    bits.  [eeprom_read_block] and [eeprom_write_block] of avr-libc copy
    [n] consecutive bytes. *)
Definition eeprom : Type := Z -> Z.

Definition peek (e : eeprom) (a : Z) : Z := u8 (e a).

Definition eeprom_read_block (e : eeprom) (src : Z) (n : Z) : list Z :=
  map (fun i => peek e (src + Z.of_nat i)) (seq 0 (Z.to_nat n)).

Definition eeprom_write_block (bytes : list Z) (dst : Z) (e : eeprom)
  : eeprom :=
  fun a =>
    if (dst <=? a) && (a <? dst + Z.of_nat (List.length bytes))
    then nth (Z.to_nat (a - dst)) bytes 0
    else e a.

(** Little-endian 16-bit words. *)
Definition word_bytes (w : Z) : list Z := [u8 w; u8 (w / 256)].
Definition word_of (bs : list Z) : Z := nth 0 bs 0 + 256 * nth 1 bs 0.

(** The bytes of [header] as [eeprom_write_block] sees them in
    [writeHeader], all [sizeof(header)] of them, and back. *)
Definition header_bytes (h : headerBlock) : list Z :=
  word_bytes (fingerprint h) ++ [selection h] ++ curConfig h ++
  flat_map word_bytes (configPtr h).

Definition header_of_bytes (bs : list Z) : headerBlock :=
  mkHeader (word_of (firstn 2 bs))
           (nth 2 bs 0)
           (firstn 7 (skipn 3 bs))
           (map (fun i => word_of (firstn 2 (skipn (10 + 2 * i) bs)))
                (seq 0 8)).

(** The bytes of the first [n] cells of [entry]. *)
Definition pair_bytes (p : Z * Z) : list Z :=
  word_bytes (fst p) ++ word_bytes (snd p).

Definition entries_bytes (n : Z) (es : list (Z * Z)) : list Z :=
  flat_map pair_bytes (firstn (Z.to_nat n) es).

Fixpoint entries_of_bytes (bs : list Z) : list (Z * Z) :=
  match bs with
  | a :: b :: c :: d :: r => (word_of [a; b], word_of [c; d]) :: entries_of_bytes r
  | _ => []
  end.

(** The globals the helpers work on: the copy of the header in RAM, and
    the EEPROM. *)
Record machine : Type := mkMachine {
  header : headerBlock;
  rom : eeprom
}.

Definition ptr (m : machine) (cbn : Z) : Z := aget 0 (configPtr (header m)) cbn.

Definition set_configPtr (m : machine) (cbn v : Z) : machine :=
  mkMachine
    (mkHeader (fingerprint (header m)) (selection (header m))
              (curConfig (header m)) (aset (configPtr (header m)) cbn v))
    (rom m).

Definition set_curConfig (m : machine) (cur : list Z) : machine :=
  mkMachine
    (mkHeader (fingerprint (header m)) (selection (header m))
              cur (configPtr (header m)))
    (rom m).

Definition writeHeader (m : machine) : machine :=
  mkMachine (header m)
            (eeprom_write_block (header_bytes (header m)) 0 (rom m)).

(** [writeConfig(int8_t cbn, configBlock &cb)]: the block comes back
    because a bad [cbn] sets [cb.nEntries = 0]. *)
Definition writeConfig (cbn : Z) (cb : configBlock) (m : machine)
  : configBlock * machine :=
  if (cbn <? 0) || (u8 cbn >=? N_CONFIGS)
  then (mkConfig 0 (entry cb), m)
  else (cb,
        mkMachine (header m)
          (eeprom_write_block
             (nEntries cb :: entries_bytes (nEntries cb) (entry cb))
             (ptr m cbn) (rom m))).

(** [readConfig(int8_t cbn, configBlock &cb)].  The count is the byte at
    [configPtr[cbn]]; the cells are read from the following address, kept
    in an [int16_t]; cells of [cb.entry] beyond the count keep what they
    held.  The source copies 4 bytes per counted entry into the 128 bytes
    of [cb.entry] and tests the count nowhere: for a count above 32 the
    list returned here is longer than the array, where the source runs
    over the end of [cb] (see [read_fits] below). *)
Definition readConfig (cbn : Z) (cb : configBlock) (m : machine)
  : bool * configBlock :=
  if (cbn <? 0) || (u8 cbn >=? N_CONFIGS)
  then (false, mkConfig 0 (entry cb))
  else
    let n := nth 0 (eeprom_read_block (rom m) (ptr m cbn) sizeof_nEntries) 0 in
    let entryEepromAddr := u16 (ptr m cbn + sizeof_nEntries) in
    (true,
     mkConfig n
       (entries_of_bytes
          (eeprom_read_block (rom m) entryEepromAddr (sizeof_entry * n))
        ++ skipn (Z.to_nat n) (entry cb))).

(** [readHeader()].  [FACTORY_RESET] is not defined. *)
Definition readHeader (m : machine) : bool * machine :=
  let h := header_of_bytes (eeprom_read_block (rom m) 0 sizeof_header) in
  if fingerprint h =? FINGERPRINT then (true, mkMachine h (rom m))
  else
    let cur := fold_left (fun l i => aset l i 0)
                         (map Z.of_nat (seq 0 7)) (curConfig h) in
    let ptrs := fold_left (fun l i => aset l i 0)
                          (map Z.of_nat (seq 1 7))
                          (aset (configPtr h) 0 sizeof_header) in
    let cb := mkConfig 1 [(KEY_UP_ARROW, KEY_DOWN_ARROW)] in
    let m1 := writeHeader (mkMachine (mkHeader FINGERPRINT 1 cur ptrs) (rom m)) in
    (false, snd (writeConfig 0 cb m1)).

(** [setConfig(uint8_t combo, uint8_t cbn)]. *)
Definition setConfig (combo cbn : Z) (m : machine) : bool * machine :=
  if (cbn >=? N_CONFIGS) || (combo >=? N_COMBOS) || (ptr m cbn =? 0)
  then (false, m)
  else (true,
        writeHeader (set_curConfig m (aset (curConfig (header m)) combo cbn))).

(** [freeSpace()]: [size_t] is 16 bits wide. *)
Fixpoint freeSpace_loop (cbns : list Z) (fs : Z) (cb : configBlock)
         (m : machine) : Z :=
  match cbns with
  | [] => fs
  | cbn :: r =>
      if ptr m cbn =? 0 then fs
      else
        let cb' := snd (readConfig (i8 cbn) cb m) in
        freeSpace_loop r (u16 (fs - u16 (nEntries cb' * sizeof_entry))) cb' m
  end.

Definition freeSpace (m : machine) : Z :=
  freeSpace_loop (map Z.of_nat (seq 0 8)) (u16 (1024 - sizeof_header))
                 uninit m.

(** [nConfigs()]: the [while] loop runs at most seven times. *)
Fixpoint nConfigs_loop (fuel : nat) (m : machine) (answer : Z) : Z :=
  match fuel with
  | O => answer
  | S f =>
      if answer <? N_CONFIGS
      then if ptr m answer =? 0 then answer
           else nConfigs_loop f m (u8 (answer + 1))
      else answer
  end.

Definition nConfigs (m : machine) : Z := nConfigs_loop 8 m 1.

(** [removeConfig(uint8_t cbn)]. *)
Definition remap_combo (cbn : Z) (cur : list Z) (combo : Z) : list Z :=
  let cur1 := if aget 0 cur combo =? cbn then aset cur combo 0 else cur in
  if aget 0 cur1 combo >? cbn
  then aset cur1 combo (u8 (aget 0 cur1 combo - 1))
  else cur1.

Fixpoint remove_loop (cbis : list Z) (delta : Z) (cb : configBlock)
         (m : machine) : machine :=
  match cbis with
  | [] => m
  | cbi :: rest =>
      if ptr m cbi =? 0 then set_configPtr m (cbi - 1) 0
      else
        let cb1 := snd (readConfig (i8 cbi) cb m) in
        let newPtr := u16 (ptr m cbi - delta) in
        let m1 := set_configPtr m cbi 0 in
        let (cb2, m2) := writeConfig (i8 (cbi - 1)) cb1 m1 in
        let m3 := set_configPtr m2 (cbi - 1) newPtr in
        remove_loop rest delta cb2 m3
  end.

Definition removeConfig (cbn : Z) (m : machine) : bool * machine :=
  if (cbn <? 1) || (cbn >=? N_CONFIGS) || (ptr m cbn =? 0)
  then (false, m)
  else
    let m1 := set_curConfig m
                (fold_left (remap_combo cbn) (map Z.of_nat (seq 0 7))
                           (curConfig (header m))) in
    let cb := snd (readConfig (i8 cbn) uninit m1) in
    let delta := u16 (u16 (nEntries cb * sizeof_entry) + sizeof_nEntries) in
    let cbis := map Z.of_nat (seq (Z.to_nat (cbn + 1)) (Z.to_nat (7 - cbn))) in
    (true, writeHeader (remove_loop cbis delta cb m1)).

(** [addConfig(configBlock toAdd)].  The [while] loop stops at the first
    unused slot; the guard before it makes slot 7 unused. *)
Fixpoint first_unused (fuel : nat) (m : machine) (cbn : Z) : Z :=
  match fuel with
  | O => cbn
  | S f => if ptr m cbn =? 0 then cbn else first_unused f m (i8 (cbn + 1))
  end.

Definition addConfig (toAdd : configBlock) (m : machine) : bool * machine :=
  if (u16 (nEntries toAdd * sizeof_entry) >? freeSpace m)
     || negb (ptr m (N_CONFIGS - 1) =? 0)
  then (false, m)
  else
    let cbn := first_unused 7 m 1 in
    let cb := snd (readConfig (i8 (cbn - 1)) uninit m) in
    let m1 := set_configPtr m cbn
                (u16 (ptr m (cbn - 1) + sizeof_nEntries
                      + u16 (nEntries cb * sizeof_entry))) in
    (true, writeHeader (snd (writeConfig cbn toAdd m1))).

(** *** Vocabulary of the specification *)

(** The entry count stored for block [cbn] and the footprint of the block:
    count field plus all entry pairs. *)
Definition stored_count (m : machine) (cbn : Z) : Z :=
  peek (rom m) (ptr m cbn).
Definition footprint (m : machine) (cbn : Z) : Z :=
  sizeof_nEntries + stored_count m cbn * sizeof_entry.

(** [cb.entry] has room for 32 cells.  [readConfig] copies
    [sizeof(cb.entry[0]) * cb.nEntries] bytes into it with the count byte
    it has just read, whatever that is: the copy stays inside [cb.entry]
    when the count is at most 32.  With a larger count the source writes
    past the end of [cb], which is beyond what [readConfig] above
    describes: its cells are the source's only where [read_fits] holds. *)
Definition entry_cells : Z := 32.
Definition read_fits (cbn : Z) (m : machine) : bool :=
  stored_count m cbn <=? entry_cells.

(** Sum of the footprints of the used blocks: slots 0, 1, ... up to the
    first unused one. *)
Fixpoint used_footprints (cbns : list Z) (m : machine) : Z :=
  match cbns with
  | [] => 0
  | cbn :: r =>
      if ptr m cbn =? 0 then 0 else footprint m cbn + used_footprints r m
  end.

Definition all_slots : list Z := map Z.of_nat (seq 0 8).

(** The entry pairs stored for block [cbn], read word by word behind the
    count. *)
Definition word_at (e : eeprom) (a : Z) : Z := peek e a + 256 * peek e (a + 1).

Definition entries_at (e : eeprom) (a : Z) (n : nat) : list (Z * Z) :=
  map (fun i => (word_at e (a + 4 * Z.of_nat i),
                 word_at e (a + 4 * Z.of_nat i + 2)))
      (seq 0 n).

Definition stored_entries (m : machine) (cbn : Z) : list (Z * Z) :=
  entries_at (rom m) (u16 (ptr m cbn + 1)) (Z.to_nat (stored_count m cbn)).

(** A block as the handlers build it: at most 32 entries, all of them
    assigned, each a pair of 16-bit words. *)
Definition pair_ok (p : Z * Z) : bool := is_u16 (fst p) && is_u16 (snd p).

Definition block_ok (cb : configBlock) : bool :=
  (0 <=? nEntries cb) && (nEntries cb <=? 32) &&
  (nEntries cb <=? Z.of_nat (List.length (entry cb))) &&
  forallb pair_ok (entry cb).

(** The header as the EEPROM holds it. *)
Definition stored_header (m : machine) : headerBlock :=
  header_of_bytes (eeprom_read_block (rom m) 0 sizeof_header).

(** The header in RAM has the shape of [struct headerBlock]: 7 and 8
    cells, bytes in [selection] and [curConfig], 16-bit words in
    [fingerprint] and [configPtr]. *)
Definition header_ok (h : headerBlock) : bool :=
  is_u16 (fingerprint h) && is_u8 (selection h) &&
  (Z.of_nat (List.length (curConfig h)) =? N_COMBOS) &&
  forallb is_u8 (curConfig h) &&
  (Z.of_nat (List.length (configPtr h)) =? N_CONFIGS) &&
  forallb is_u16 (configPtr h).

(** The layout invariant of the specification: block 0 right behind the
    header, every further used block right behind its predecessor, unused
    slots trailing; every count between 1 and 32, and the last block
    inside the 1024 bytes. *)
Fixpoint chain (e : eeprom) (expected : Z) (ptrs : list Z) : bool :=
  match ptrs with
  | [] => expected <=? 1024
  | p :: r =>
      if p =? 0 then forallb (Z.eqb 0) r && (expected <=? 1024)
      else (p =? expected) && (1 <=? peek e p) && (peek e p <=? 32) &&
           chain e (p + sizeof_nEntries + peek e p * sizeof_entry) r
  end.

Definition store_ok (m : machine) : bool :=
  header_ok (header m) && negb (ptr m 0 =? 0) &&
  chain (rom m) sizeof_header (configPtr (header m)).

(** What removing block [n] does to one combo mapping, and to the table of
    offsets: the effect of the two loops of [removeConfig] on the header
    alone. *)
Definition remapped (n v : Z) : Z :=
  if v =? n then 0 else if v >? n then u8 (v - 1) else v.

Fixpoint shift_ptrs (cbis : list Z) (delta : Z) (ptrs : list Z) : list Z :=
  match cbis with
  | [] => ptrs
  | cbi :: rest =>
      if aget 0 ptrs cbi =? 0 then aset ptrs (cbi - 1) 0
      else shift_ptrs rest delta
             (aset (aset ptrs cbi 0) (cbi - 1) (u16 (aget 0 ptrs cbi - delta)))
  end.

(** The header [readHeader] leaves when the fingerprint does not match. *)
Definition default_header : headerBlock :=
  mkHeader FINGERPRINT 1 [0; 0; 0; 0; 0; 0; 0]
           [sizeof_header; 0; 0; 0; 0; 0; 0; 0].

(** An erased EEPROM, and the store [setup()] builds on it. *)
Definition erased : eeprom := fun _ => 255.
Definition factory : machine :=
  snd (readHeader (mkMachine (mkHeader 0 0 [] []) erased)).

(** Example stores: the factory store with three blocks added (offsets
    26, 31, 36, 41), and with seven blocks added (all eight slots used). *)
Definition blockA : configBlock := mkConfig 1 [(0x0061, 0x0062)].
Definition blockB : configBlock := mkConfig 1 [(0x0063, 0x0064)].
Definition blockC : configBlock :=
  mkConfig 2 [(0x0065, 0x0066); (0x0067, 0x0068)].

Definition store3 : machine :=
  snd (addConfig blockC (snd (addConfig blockB (snd (addConfig blockA factory))))).

Definition store8 : machine :=
  fold_left (fun m _ => snd (addConfig blockA m)) (seq 0 7) factory.

End Store.

(* ================================================================== *)
(** ** The action codec *)
(* ================================================================== *)

Module Codec.

(** The masks of a packed action code. *)
Definition CE_TYPE_MASK : Z := 0x8000.
Definition KB_CTRL_MASK : Z := 0x0800.
Definition KB_ALT_MASK : Z := 0x0400.
Definition KB_SHIFT_MASK : Z := 0x0200.
Definition KB_GUI_MASK : Z := 0x0100.
Definition KB_VALUE_MASK : Z := 0x00FF.
Definition ME_TYPE_MASK : Z := 0x3000.
Definition ME_TYPE_WHEEL : Z := 0.
Definition ME_TYPE_X : Z := 1.
Definition ME_TYPE_Y : Z := 2.
Definition ME_TYPE_CLICK : Z := 3.
Definition ME_VALUE_MASK : Z := 0x00FF.
Definition ME_CTRL_MASK : Z := 0x0800.
Definition ME_ALT_MASK : Z := 0x0400.
Definition ME_SHIFT_MASK : Z := 0x0200.
Definition ME_GUI_MASK : Z := 0x0100.
Definition ME1_LEFT_MASK : Z := 0x0400.
Definition ME1_MID_MASK : Z := 0x0200.
Definition ME1_RIGHT_MASK : Z := 0x0100.
Definition ME3_LEFT_MASK : Z := 0x1.
Definition ME3_RIGHT_MASK : Z := 0x2.
Definition ME3_MID_MASK : Z := 0x4.

(** [ME_TYPE(e)] and [SET_ME_TYPE(e, v)] on a [uint16_t]. *)
Definition ME_TYPE (e : Z) : Z := Z.shiftr (Z.land e ME_TYPE_MASK) 12.

Definition SET_ME_TYPE (e v : Z) : Z :=
  u16 (Z.lor (Z.land e (Z.lnot ME_TYPE_MASK))
             (Z.land (Z.shiftl v 12) ME_TYPE_MASK)).

(** *** Characters and strings *)

(** The value of a [char]: signed on this target. *)
Definition chr (a : ascii) : Z := i8 (Z.of_N (N_of_ascii a)).

(** The character a [char] (or the low byte of an integer) prints as. *)
Definition ascii_of (c : Z) : ascii := ascii_of_N (Z.to_N (u8 c)).

(** [String::charAt(i)] yields NUL outside the string and
    [String::remove(0, 1)] does nothing on the empty string. *)
Definition charAt (s : string) (i : nat) : Z :=
  match String.get i s with
  | Some a => chr a
  | None => 0
  end.

Definition remove1 (s : string) : string :=
  match s with
  | EmptyString => EmptyString
  | String _ r => r
  end.

(** [isPrintable], [isdigit] and [isHexadecimalDigit] of the C library. *)
Definition isPrintable (c : Z) : bool := (32 <=? c) && (c <=? 126).

Definition isdigit (c : Z) : bool := (chr "0" <=? c) && (c <=? chr "9").

Definition isHexadecimalDigit (c : Z) : bool :=
  isdigit c || ((chr "A" <=? c) && (c <=? chr "F"))
            || ((chr "a" <=? c) && (c <=? chr "f")).

(** *** Parsing *)

(** The scan of the modifier letters, as [parseK], [parseW] and [parseC]
    each spell it out: at most [fuel] rounds (five in the source); every
    round takes one character off [sp], also the round that stops. *)
Fixpoint scan_modifiers (fuel : nat) (sp : string) (answer nc : Z)
  : Z * string * Z :=
  match fuel with
  | O => (answer, sp, nc)
  | S f =>
    let nc := charAt sp 0 in
    let sp := remove1 sp in
    if (nc =? chr "C") || (nc =? chr "c") then
      scan_modifiers f sp (Z.lor answer KB_CTRL_MASK) nc
    else if (nc =? chr "A") || (nc =? chr "a") then
      scan_modifiers f sp (Z.lor answer KB_ALT_MASK) nc
    else if (nc =? chr "S") || (nc =? chr "s") then
      scan_modifiers f sp (Z.lor answer KB_SHIFT_MASK) nc
    else if (nc =? chr "G") || (nc =? chr "g") then
      scan_modifiers f sp (Z.lor answer KB_GUI_MASK) nc
    else (answer, sp, nc)
  end.

(** The conversion of one hexadecimal digit in [parseK], assigned back to
    a [char]. *)
Definition hex_digit (h : Z) : Z :=
  i8 (if h <=? chr "9" then h - chr "0"
      else if h <? chr "F" then h - chr "A" + 10
      else h - chr "a" + 10).

(** [parseK] after the scan of the modifiers. *)
Definition key_value (st : Z * string * Z) : Z :=
  let '(answer, sp, nc) := st in
  if nc =? chr "'" then
    let nc := charAt sp 0 in
    let bad := negb (isPrintable nc) in
    let answer := u16 (Z.lor answer (Z.land nc 0x7F)) in
    let answer := u16 (Z.land answer (Z.lnot KB_SHIFT_MASK)) in
    if bad then 0 else answer
  else if nc =? chr "0" then
    let nc := charAt sp 0 in
    let sp := remove1 sp in
    if ((nc =? chr "x") || (nc =? chr "X")) && (Z.of_nat (String.length sp) =? 2)
    then
      let hh := charAt sp 0 in
      let hl := charAt sp 1 in
      if negb (isHexadecimalDigit hh) || negb (isHexadecimalDigit hl) then 0
      else
        let val := u8 (Z.shiftl (hex_digit hh) 4 + hex_digit hl) in
        u16 (Z.lor answer val)
    else 0
  else 0.

(** [uint16_t parseK(String spec)]: 0 reports a failure. *)
Definition parseK (spec : string) : Z :=
  key_value (scan_modifiers 5 spec 0 0).

(** The digits of an amount: [for (digit = 0; !bad && digit < 3; digit++)]
    on an [int8_t val]. *)
Fixpoint digits (fuel : nat) (sp : string) (val nc : Z) : Z * string * Z :=
  match fuel with
  | O => (val, sp, nc)
  | S f =>
    let val := i8 (val * 10 + (nc - chr "0")) in
    let nc := charAt sp 0 in
    let sp := remove1 sp in
    if negb (isdigit nc) then (val, sp, nc) else digits f sp val nc
  end.

(** A signed amount, as [parseW] reads its one and [parseM] each of its
    two: the sign is in [nc], the digits follow in [sp].  The result is
    [bad], the bits for the value field, and the rest of the text with the
    character taken off it last.  The test [val > 255] is made on the
    [int8_t]. *)
Definition amount (sp : string) (nc : Z) : bool * Z * string * Z :=
  let isPos := nc =? chr "+" in
  let bad := negb ((nc =? chr "+") || (nc =? chr "-")) in
  let nc := charAt sp 0 in
  let sp := remove1 sp in
  let bad := bad || negb (isdigit nc) in
  let '(val, sp, nc) := if bad then (0, sp, nc) else digits 3 sp 0 nc in
  let bad := bad || (val >? 255) in
  (bad, Z.land (if isPos then val else - val) ME_VALUE_MASK, sp, nc).

(** [uint16_t parseW(String spec)]. *)
Definition wheel_value (st : Z * string * Z) : Z :=
  let '(answer, sp, nc) := st in
  let '(bad, v, _, _) := amount sp nc in
  if bad then 0 else Z.lor answer v.

Definition parseW (spec : string) : Z :=
  wheel_value (scan_modifiers 5 spec CE_TYPE_MASK 0).

(** The scan of [parseM]: eight rounds, the modifiers go to [answer[1]]
    and the held buttons to [answer[0]]. *)
Fixpoint scan_move (fuel : nat) (sp : string) (a0 a1 nc : Z)
  : Z * Z * string * Z :=
  match fuel with
  | O => (a0, a1, sp, nc)
  | S f =>
    let nc := charAt sp 0 in
    let sp := remove1 sp in
    if (nc =? chr "C") || (nc =? chr "c") then
      scan_move f sp a0 (Z.lor a1 ME_CTRL_MASK) nc
    else if (nc =? chr "A") || (nc =? chr "a") then
      scan_move f sp a0 (Z.lor a1 ME_ALT_MASK) nc
    else if (nc =? chr "S") || (nc =? chr "s") then
      scan_move f sp a0 (Z.lor a1 ME_SHIFT_MASK) nc
    else if (nc =? chr "G") || (nc =? chr "g") then
      scan_move f sp a0 (Z.lor a1 ME_GUI_MASK) nc
    else if (nc =? chr "L") || (nc =? chr "l") then
      scan_move f sp (Z.lor a0 ME1_LEFT_MASK) a1 nc
    else if (nc =? chr "M") || (nc =? chr "m") then
      scan_move f sp (Z.lor a0 ME1_MID_MASK) a1 nc
    else if (nc =? chr "R") || (nc =? chr "r") then
      scan_move f sp (Z.lor a0 ME1_RIGHT_MASK) a1 nc
    else (a0, a1, sp, nc)
  end.

(** [uint32_t parseM(String spec)]: the X code in the high half, the Y
    code in the low half. *)
Definition move_value (st : Z * Z * string * Z) : Z :=
  let '(a0, a1, sp, nc) := st in
  let '(bad, v, sp, nc) := amount sp nc in
  if bad then 0 else
  let a0 := Z.lor a0 v in
  let '(bad, v, _, _) := amount sp nc in
  if bad then 0 else
  let a1 := Z.lor a1 v in
  u32 (Z.lor (Z.shiftl a0 16) a1).

Definition parseM (spec : string) : Z :=
  move_value (scan_move 8 spec (SET_ME_TYPE CE_TYPE_MASK ME_TYPE_X)
                        (SET_ME_TYPE CE_TYPE_MASK ME_TYPE_Y) 0).

(** The button letters of [parseC]:
    [for (i = 0; i < 3 && (uint8_t)nc != 0; i++)]; the result is [bad] and
    [answer]. *)
Fixpoint click_buttons (fuel : nat) (sp : string) (answer nc : Z)
  : bool * Z :=
  match fuel with
  | O => (false, answer)
  | S f =>
    if u8 nc =? 0 then (false, answer)
    else if (nc =? chr "L") || (nc =? chr "l") then
      click_buttons f (remove1 sp) (Z.lor answer ME3_LEFT_MASK) (charAt sp 0)
    else if (nc =? chr "M") || (nc =? chr "m") then
      click_buttons f (remove1 sp) (Z.lor answer ME3_MID_MASK) (charAt sp 0)
    else if (nc =? chr "R") || (nc =? chr "r") then
      click_buttons f (remove1 sp) (Z.lor answer ME3_RIGHT_MASK) (charAt sp 0)
    else (true, answer)
  end.

(** [uint16_t parseC(String spec)]. *)
Definition click_value (st : Z * string * Z) : Z :=
  let '(answer, sp, nc) := st in
  if u8 nc =? 0 then 0
  else
    let '(bad, answer) := click_buttons 3 sp answer nc in
    if bad then 0 else answer.

Definition parseC (spec : string) : Z :=
  click_value (scan_modifiers 5 spec (SET_ME_TYPE CE_TYPE_MASK ME_TYPE_CLICK) 0).

(** *** Printing *)

(** Text is put together with [++] on strings; [when b s] is the text [s]
    of a [Serial.print] guarded by [b]. *)
Definition when (b : bool) (s : string) : string :=
  if b then s else EmptyString.

(** [Serial.print(n, HEX)] of a [uint8_t] and [Serial.print(val)] of an
    [int8_t]: no leading zeros, capital hexadecimal digits, a minus sign
    before a negative number. *)
Definition print_digit (d : Z) : string :=
  String (ascii_of (if d <? 10 then chr "0" + d else chr "A" + d - 10)) "".

Definition print_hex (n : Z) : string :=
  (when (16 <=? n)%Z (print_digit (n / 16)) ++ print_digit (n mod 16))%string.

Definition print_unsigned (n : Z) : string :=
  (when (100 <=? n)%Z (print_digit (n / 100))
   ++ when (10 <=? n)%Z (print_digit (n / 10 mod 10))
   ++ print_digit (n mod 10))%string.

Definition print_int (v : Z) : string :=
  if v <? 0 then ("-" ++ print_unsigned (- v))%string else print_unsigned v.

(** The modifier letters every [printConfig] function starts a direction
    with. *)
Definition print_modifiers (e : Z) : string :=
  (when (negb (Z.land e ME_CTRL_MASK =? 0))%Z "c"
   ++ when (negb (Z.land e ME_ALT_MASK =? 0))%Z "a"
   ++ when (negb (Z.land e ME_SHIFT_MASK =? 0))%Z "s"
   ++ when (negb (Z.land e ME_GUI_MASK =? 0))%Z "g")%string.

(** [int8_t val = entry & ME_VALUE_MASK] printed with its sign. *)
Definition print_amount (e : Z) : string :=
  let val := i8 (Z.land e ME_VALUE_MASK) in
  (when (val >=? 0)%Z "+" ++ print_int val)%string.

(** One direction of [printConfigK], without the blank that ends it. *)
Definition textK (e : Z) : string :=
  let ks := i8 (Z.land e KB_VALUE_MASK) in
  (print_modifiers e
   ++ (if (isPrintable ks && (ks >? chr " "))%Z
       then String "'" (String (ascii_of ks) "")
       else "0x" ++ print_hex (u8 ks)))%string.

(** One direction of [printConfigM]: [a] is the X code, [b] the Y code. *)
Definition textM (a b : Z) : string :=
  (print_modifiers b
   ++ when (negb (Z.land a ME1_LEFT_MASK =? 0))%Z "l"
   ++ when (negb (Z.land a ME1_MID_MASK =? 0))%Z "m"
   ++ when (negb (Z.land a ME1_RIGHT_MASK =? 0))%Z "r"
   ++ print_amount a ++ print_amount b)%string.

(** One direction of [printConfigW]. *)
Definition textW (e : Z) : string :=
  (print_modifiers e ++ print_amount e)%string.

(** One direction of [printConfigC]. *)
Definition textC (e : Z) : string :=
  (print_modifiers e
   ++ when (negb (Z.land e ME3_LEFT_MASK =? 0))%Z "l"
   ++ when (negb (Z.land e ME3_MID_MASK =? 0))%Z "m"
   ++ when (negb (Z.land e ME3_RIGHT_MASK =? 0))%Z "r")%string.

Definition printConfigK (entry : Z * Z) : string :=
  (textK (fst entry) ++ " " ++ textK (snd entry) ++ " ")%string.

Definition printConfigM (entryA entryB : Z * Z) : string :=
  (textM (fst entryA) (fst entryB) ++ " "
   ++ textM (snd entryA) (snd entryB) ++ " ")%string.

Definition printConfigW (entry : Z * Z) : string :=
  (textW (fst entry) ++ " " ++ textW (snd entry) ++ " ")%string.

Definition printConfigC (entry : Z * Z) : string :=
  (textC (fst entry) ++ " " ++ textC (snd entry) ++ " ")%string.

(** The type letter [onDisplay] derives from the clockwise code of an
    entry. *)
Definition eType (entryA0 : Z) : Z :=
  if Z.land entryA0 CE_TYPE_MASK =? 0 then chr "k"
  else
    let meType := u8 (ME_TYPE entryA0) in
    if meType =? ME_TYPE_CLICK then chr "c"
    else if meType =? ME_TYPE_WHEEL then chr "w"
    else chr "m".

End Codec.

(* ================================================================== *)
(** ** The console: a new configuration *)
(* ================================================================== *)

Module Console.
Import Store Codec.

(** The console library splits the command line at white space;
    [ui.getWord(i)] is word [i] of the line, the command itself being word
    0, and the empty string when the line has no such word. *)
Definition getWord (line : list string) (i : Z) : string :=
  nth (Z.to_nat i) line EmptyString.

(** [sizeof(cb.entry) / sizeof(cb.entry[0])]. *)
Definition MAX_ENTRIES : Z := 32.

(** [cb.entry[n][dir] = v].  A move spec read when [cb.nEntries] is 31
    writes the cell past the array before the request is given up; the
    model leaves that write out. *)
Definition set_entry (cb : configBlock) (n dir v : Z) : configBlock :=
  let old := aget (0, 0) (entry cb) n in
  mkConfig (nEntries cb)
           (aset (entry cb) n (if dir =? 0 then (v, snd old) else (fst old, v))).

(** The parser the type letter [st] selects in the second branch of the
    loop; [entry] keeps its value when the letter is none of the three. *)
Definition parse_single (st : Z) (spec : string) (entry : Z) : Z :=
  if (st =? chr "K") || (st =? chr "k") then parseK spec
  else if (st =? chr "W") || (st =? chr "w") then parseW spec
  else if (st =? chr "C") || (st =? chr "c") then parseC spec
  else entry.

(** One round of the [while] loop of [onNew].  [None]: the line has no
    further spec, the loop is left with [bad] as it was (false);
    [Some (bad, cb)] otherwise. *)
Definition onNew_round (line : list string) (eNum : Z) (cb : configBlock)
  : option (bool * configBlock) :=
  let spec0 := getWord line (1 + 2 * eNum) in
  let spec1 := getWord line (2 + 2 * eNum) in
  if Z.of_nat (String.length spec0) =? 0 then None
  else
    let bad := Z.of_nat (String.length spec1) =? 0 in
    let st := u8 (charAt spec0 0) in
    let spec0 := remove1 spec0 in
    if (st =? chr "M") || (st =? chr "m") then
      let bad := bad || (nEntries cb + 1 >=? MAX_ENTRIES) in
      let d0 := parseM spec0 in
      let bad := bad || (d0 =? 0) in
      let cb := if d0 =? 0 then cb
                else set_entry (set_entry cb (nEntries cb) 0 (Z.shiftr d0 16))
                               (nEntries cb + 1) 0 (Z.land d0 0xFFFF) in
      let d1 := parseM spec1 in
      let bad := bad || (d1 =? 0) in
      let cb := if d1 =? 0 then cb
                else set_entry (set_entry cb (nEntries cb) 1 (Z.shiftr d1 16))
                               (nEntries cb + 1) 1 (Z.land d1 0xFFFF) in
      Some (bad, if bad then cb else mkConfig (u8 (nEntries cb + 2)) (entry cb))
    else
      let e0 := parse_single st spec0 0 in
      let bad := bad || (e0 =? 0) in
      let cb := if e0 =? 0 then cb else set_entry cb (nEntries cb) 0 e0 in
      let e1 := parse_single st spec1 e0 in
      let bad := bad || (e1 =? 0) in
      let cb := if e1 =? 0 then cb else set_entry cb (nEntries cb) 1 e1 in
      Some (bad, if bad then cb else mkConfig (u8 (nEntries cb + 1)) (entry cb)).

(** The loop [while (cb.nEntries < 32)]: every round that goes on adds an
    entry, so 33 rounds of fuel are never used up. *)
Fixpoint onNew_loop (fuel : nat) (line : list string) (eNum : Z)
  (cb : configBlock) : bool * configBlock :=
  match fuel with
  | O => (false, cb)
  | S f =>
    if nEntries cb <? MAX_ENTRIES then
      match onNew_round line eNum cb with
      | None => (false, cb)
      | Some (bad, cb') =>
        if bad then (true, cb') else onNew_loop f line (u8 (eNum + 1)) cb'
      end
    else (false, cb)
  end.

(** The block [onNew] gathers from the line; [cells] is what the local
    [cb.entry] holds when the function is entered. *)
Definition gather (line : list string) (cells : list (Z * Z))
  : bool * configBlock :=
  onNew_loop 33 line 0 (mkConfig 0 cells).

(** [void onNew()]: a bad request returns before [addConfig]. *)
Definition onNew (line : list string) (cells : list (Z * Z)) (m : machine)
  : machine :=
  let '(bad, cb) := gather line cells in
  if bad then m else snd (addConfig cb m).

(** No entry below [cb.nEntries] holds a code 0 in either direction. *)
Definition nonzero_entries (cb : configBlock) : Prop :=
  forall i, 0 <= i < nEntries cb ->
    fst (aget (0, 0) (entry cb) i) <> 0 /\ snd (aget (0, 0) (entry cb) i) <> 0.

(** The code, or for a move the two codes, that a round of [onNew] enters
    for one direction of a spec of type [st]; the second is 0 when there
    is one code only. *)
Definition codes (st : Z) (spec : string) : Z * Z :=
  if (st =? chr "M") || (st =? chr "m") then
    let d := parseM spec in (Z.shiftr d 16, Z.land d 0xFFFF)
  else (parse_single st spec 0, 0).

(** What [onDisplay] prints for one direction of an entry: the type letter
    found from the code [a] and the text of the [printConfig] function the
    [switch] selects; [b] is the code of the entry that follows, which a
    move uses. *)
Definition display_direction (a b : Z) : Z * string :=
  let t := eType a in
  (t, if t =? chr "k" then textK a
      else if t =? chr "m" then textM a b
      else if t =? chr "w" then textW a
      else textC a).

End Console.

(* ================================================================== *)
(** ** Vocabulary of the specification: specs and the actions they spell *)
(* ================================================================== *)

Module Grammar.
Import Codec Console.

(** The modifier set (ctrl, alt, shift, gui) and the button set (left,
    middle, right) of an action. *)
Definition modifiers : Type := (bool * bool * bool * bool)%type.
Definition buttons : Type := (bool * bool * bool)%type.

Definition no_modifiers : modifiers := (false, false, false, false).
Definition no_buttons : buttons := (false, false, false).

(** An action: its type letter in lower case, its modifier set, its button
    set (held during a move, or clicked) and its values (a key code, a
    wheel amount, or the two distances of a move). *)
Record action : Type := mkAction {
  a_type : Z;
  a_modifiers : modifiers;
  a_buttons : buttons;
  a_values : list Z
}.

Definition lower (a : ascii) : ascii :=
  let n := N_of_ascii a in
  if ((65 <=? n) && (n <=? 90))%N then ascii_of_N (n + 32) else a.

(** [is_letter l a]: [a] is the letter [l] (given in lower case) in either
    case. *)
Definition is_letter (l a : ascii) : bool := Ascii.eqb (lower a) l.

Definition is_modifier (a : ascii) : bool :=
  is_letter "c" a || is_letter "a" a || is_letter "s" a || is_letter "g" a.

Definition is_button (a : ascii) : bool :=
  is_letter "l" a || is_letter "m" a || is_letter "r" a.

Definition is_digit (a : ascii) : bool := isdigit (chr a).

Definition add_modifier (a : ascii) (m : modifiers) : modifiers :=
  let '(c, al, s, g) := m in
  (c || is_letter "c" a, al || is_letter "a" a,
   s || is_letter "s" a, g || is_letter "g" a).

Definition add_button (a : ascii) (b : buttons) : buttons :=
  let '(l, m, r) := b in
  (l || is_letter "l" a, m || is_letter "m" a, r || is_letter "r" a).

(** The flag letters a text starts with; [held] tells whether button
    letters count among them, as they do in a move. *)
Fixpoint read_prefix (held : bool) (s : list ascii) (m : modifiers)
  (b : buttons) : modifiers * buttons * list ascii :=
  match s with
  | [] => (m, b, s)
  | a :: r =>
    if is_modifier a then read_prefix held r (add_modifier a m) b
    else if held && is_button a then read_prefix held r m (add_button a b)
    else (m, b, s)
  end.

Definition digit_value (a : ascii) : Z := chr a - chr "0".

Fixpoint read_digits (s : list ascii) (n : Z) : Z * list ascii :=
  match s with
  | [] => (n, s)
  | a :: r => if is_digit a then read_digits r (10 * n + digit_value a)
              else (n, s)
  end.

Definition is_sign (a : ascii) : bool := Ascii.eqb a "+" || Ascii.eqb a "-".

(** A sign and the decimal number after it. *)
Definition read_signed (s : list ascii) : option (Z * list ascii) :=
  match s with
  | sg :: d :: r =>
    if is_sign sg && is_digit d then
      let '(n, rest) := read_digits (d :: r) 0 in
      Some (if Ascii.eqb sg "+" then n else - n, rest)
    else None
  | _ => None
  end.

Definition is_hex (a : ascii) : bool := isHexadecimalDigit (chr a).

Definition hex_value (a : ascii) : Z :=
  if is_digit a then digit_value a else chr (lower a) - chr "a" + 10.

(** A key: a quote and the character, or [0x] and one or two hexadecimal
    digits. *)
Definition read_key (s : list ascii) : option Z :=
  match s with
  | [q; c] => if Ascii.eqb q "'" then Some (chr c) else None
  | [z; x; h] =>
    if Ascii.eqb z "0" && is_letter "x" x && is_hex h
    then Some (hex_value h) else None
  | [z; x; h; l] =>
    if Ascii.eqb z "0" && is_letter "x" x && is_hex h && is_hex l
    then Some (16 * hex_value h + hex_value l) else None
  | _ => None
  end.

Fixpoint read_buttons (s : list ascii) (b : buttons) : option buttons :=
  match s with
  | [] => Some b
  | a :: r => if is_button a then read_buttons r (add_button a b) else None
  end.

(** The action that the text [s] of a direction spells out under the type
    letter [t]: the flag letters as they stand, then the key, the amount,
    the two distances or the buttons. *)
Definition lower_code (t : Z) : Z :=
  if (chr "A" <=? t) && (t <=? chr "Z") then t + 32 else t.

Definition read_action (t : Z) (s : list ascii) : option action :=
  let t := lower_code t in
  if t =? chr "k" then
    let '(m, _, rest) := read_prefix false s no_modifiers no_buttons in
    match read_key rest with
    | Some v => Some (mkAction t m no_buttons [v])
    | None => None
    end
  else if t =? chr "w" then
    let '(m, _, rest) := read_prefix false s no_modifiers no_buttons in
    match read_signed rest with
    | Some (v, []) => Some (mkAction t m no_buttons [v])
    | _ => None
    end
  else if t =? chr "m" then
    let '(m, b, rest) := read_prefix true s no_modifiers no_buttons in
    match read_signed rest with
    | Some (x, rest) =>
      match read_signed rest with
      | Some (y, []) => Some (mkAction t m b [x; y])
      | _ => None
      end
    | None => None
    end
  else if t =? chr "c" then
    let '(m, _, rest) := read_prefix false s no_modifiers no_buttons in
    match rest with
    | [] => None
    | _ => match read_buttons rest no_buttons with
           | Some b => Some (mkAction t m b [])
           | None => None
           end
    end
  else None.

(** The syntactically valid specs, by their parts: the type letter that
    starts the first spec of a pair, the flag letters, and what follows
    them. *)
Inductive body : Type :=
| Quoted (c : ascii)
| Hex (x h l : ascii)
| Amount (sg : ascii) (ds : list ascii)
| Amounts (sx : ascii) (dx : list ascii) (sy : ascii) (dy : list ascii)
| Clicked (bs : list ascii).

Record spec : Type := mkSpec {
  letter : ascii;
  flags : list ascii;
  what : body
}.

Definition body_text (b : body) : list ascii :=
  match b with
  | Quoted c => ["'"%char; c]
  | Hex x h l => ["0"%char; x; h; l]
  | Amount sg ds => sg :: ds
  | Amounts sx dx sy dy => (sx :: dx) ++ (sy :: dy)
  | Clicked bs => bs
  end.

(** The text of the spec, without the type letter: what the parser is
    given. *)
Definition text (d : spec) : list ascii := flags d ++ body_text (what d).

Definition number (ds : list ascii) : Z :=
  fold_left (fun n a => 10 * n + digit_value a) ds 0.

Definition width (ds : list ascii) : Z := Z.of_nat (List.length ds).

(** A sign and one to three digits, the magnitude at most [bound]. *)
Definition amount_ok (bound : Z) (sg : ascii) (ds : list ascii) : bool :=
  is_sign sg && (1 <=? width ds) && (width ds <=? 3)
  && forallb is_digit ds && (number ds <=? bound).

Definition flags_ok (held : bool) (most : Z) (fs : list ascii) : bool :=
  (width fs <=? most)
  && forallb (fun a => is_modifier a || (held && is_button a)) fs.

(** Validity with the magnitudes bounded by [bound], and of the
    hexadecimal digits the capital F allowed in the low place only when
    [capital_f] says so. *)
Definition valid_within (bound : Z) (capital_f : bool) (d : spec) : bool :=
  match what d with
  | Quoted c =>
    is_letter "k" (letter d) && flags_ok false 4 (flags d)
    && isPrintable (chr c)
  | Hex x h l =>
    is_letter "k" (letter d) && flags_ok false 4 (flags d)
    && is_letter "x" x
    && is_hex h && is_hex l
    && (capital_f || negb (Ascii.eqb l "F"))
  | Amount sg ds =>
    is_letter "w" (letter d) && flags_ok false 4 (flags d)
    && amount_ok bound sg ds
  | Amounts sx dx sy dy =>
    is_letter "m" (letter d) && flags_ok true 7 (flags d)
    && amount_ok bound sx dx && amount_ok bound sy dy
  | Clicked bs =>
    is_letter "c" (letter d) && flags_ok false 4 (flags d)
    && (1 <=? width bs) && (width bs <=? 3) && forallb is_button bs
  end.

(** The modifier set and the button set that a list of flag letters
    names, the bits that stand for them in a code and the letters that a
    display shows for them. *)
Definition modifiers_from (m : modifiers) (fs : list ascii) : modifiers :=
  fold_left (fun m a => add_modifier a m) fs m.

Definition buttons_from (b : buttons) (fs : list ascii) : buttons :=
  fold_left (fun b a => add_button a b) fs b.

Definition modifiers_of (fs : list ascii) : modifiers :=
  modifiers_from no_modifiers fs.

Definition buttons_of (fs : list ascii) : buttons :=
  buttons_from no_buttons fs.

Definition bit (b : bool) (mask : Z) : Z := if b then mask else 0.

Definition modifier_bits (m : modifiers) : Z :=
  let '(c, al, s, g) := m in
  Z.lor (Z.lor (Z.lor (bit c KB_CTRL_MASK) (bit al KB_ALT_MASK))
               (bit s KB_SHIFT_MASK)) (bit g KB_GUI_MASK).

Definition held_bits (b : buttons) : Z :=
  let '(l, m, r) := b in
  Z.lor (Z.lor (bit l ME1_LEFT_MASK) (bit m ME1_MID_MASK))
        (bit r ME1_RIGHT_MASK).

Definition click_bits (b : buttons) : Z :=
  let '(l, m, r) := b in
  Z.lor (Z.lor (bit l ME3_LEFT_MASK) (bit m ME3_MID_MASK))
        (bit r ME3_RIGHT_MASK).

Definition letter_if (b : bool) (a : ascii) : list ascii :=
  if b then [a] else [].

Definition modifier_letters (m : modifiers) : list ascii :=
  let '(c, al, s, g) := m in
  letter_if c "c" ++ letter_if al "a" ++ letter_if s "s" ++ letter_if g "g".

Definition button_letters (b : buttons) : list ascii :=
  let '(l, m, r) := b in
  letter_if l "l" ++ letter_if m "m" ++ letter_if r "r".

(** [stops p rest]: the text [rest] does not go on with a character of
    the class [p]. *)
Definition stops (p : ascii -> bool) (rest : list ascii) : bool :=
  match rest with
  | [] => true
  | a :: _ => negb (p a)
  end.

(** The value of the digits [ds] after [d0] when every step is put into
    an [int8_t], as the parsers compute it. *)
Definition number8 (v : Z) (ds : list ascii) : Z :=
  fold_left (fun v a => i8 (v * 10 + digit_value a)) ds v.

Definition signed (sg : ascii) (n : Z) : Z :=
  if Ascii.eqb sg "+" then n else - n.

(** Every character, byte, modifier set and button set, for the facts
    settled by running through them. *)
Definition all_ascii : list ascii := map ascii_of_nat (seq 0 256).
Definition bytes : list Z := map Z.of_nat (seq 0 256).

Definition all_modifiers : list modifiers :=
  list_prod (list_prod (list_prod [true; false] [true; false]) [true; false])
            [true; false].

Definition all_buttons : list buttons :=
  list_prod (list_prod [true; false] [true; false]) [true; false].

Definition no_shift (m : modifiers) : modifiers :=
  let '(c, al, _, g) := m in (c, al, false, g).

Definition is_quoted (d : spec) : bool :=
  match what d with
  | Quoted _ => true
  | _ => false
  end.

(** The action as the device holds it: an amount or a distance is a signed
    byte, and a quoted character carries no shift. *)
Definition as_held (quoted : bool) (a : action) : action :=
  mkAction (a_type a)
           (if quoted then no_shift (a_modifiers a) else a_modifiers a)
           (a_buttons a)
           (if a_type a =? chr "k" then a_values a else map i8 (a_values a)).

(** The action that the display of the code [a], followed in the block by
    the code [b], spells out. *)
Definition shown (a b : Z) : option action :=
  read_action (fst (display_direction a b))
              (list_ascii_of_string (snd (display_direction a b))).

(** Parsing the text of a spec and displaying the result. *)
Definition round_trip (d : spec) : option action :=
  shown (fst (codes (chr (letter d)) (string_of_list_ascii (text d))))
        (snd (codes (chr (letter d)) (string_of_list_ascii (text d)))).

Definition spelled (d : spec) : option action :=
  read_action (chr (letter d)) (text d).

End Grammar.


(* ================================================================== *)
(** ** Vocabulary of the specification: what the store holds *)
(* ================================================================== *)

Module Layout.
Import Store.

(** The entry pairs held by the used blocks, all together: slots 0, 1,
    ... up to the first unused one. *)
Fixpoint used_entries (cbns : list Z) (m : machine) : Z :=
  match cbns with
  | [] => 0
  | cbn :: r =>
      if ptr m cbn =? 0 then 0 else stored_count m cbn + used_entries r m
  end.

(** The address behind the last used block. *)
Definition store_end (m : machine) : Z :=
  sizeof_header + used_footprints all_slots m.

(** Slot [cbn] holds the same block in both stores: same offset, same
    count, same entry pairs. *)
Definition same_block (m m' : machine) (cbn : Z) : Prop :=
  ptr m' cbn = ptr m cbn /\
  stored_count m' cbn = stored_count m cbn /\
  stored_entries m' cbn = stored_entries m cbn.

(** The cells of a block in RAM are 32 pairs of 16-bit words. *)
Definition cells_ok (cb : configBlock) : Prop :=
  List.length (entry cb) = 32%nat /\ forallb pair_ok (entry cb) = true.

End Layout.


(* ================================================================== *)
(** ** The console commands [use] and [remove] *)
(* ================================================================== *)

Module Commands.
Import Store Codec Console.

(** [String::toInt()] hands the characters to [atol]: white space is
    skipped, a sign is taken, and the decimal digits that follow are
    gathered in a 32-bit [long]; a text without digits gives 0. *)
Definition i32 (x : Z) : Z := (x + 2147483648) mod 4294967296 - 2147483648.

Definition isspace (c : Z) : bool := (c =? 32) || ((9 <=? c) && (c <=? 13)).

Fixpoint skip_space (s : string) : string :=
  match s with
  | String a r => if isspace (chr a) then skip_space r else s
  | EmptyString => s
  end.

Fixpoint gather_digits (s : string) (n : Z) : Z :=
  match s with
  | String a r =>
      if isdigit (chr a) then gather_digits r (n * 10 + (chr a - chr "0"))
      else n
  | EmptyString => n
  end.

Definition toInt (s : string) : Z :=
  match skip_space s with
  | String a r =>
      if chr a =? chr "-" then i32 (- gather_digits r 0)
      else if chr a =? chr "+" then i32 (gather_digits r 0)
      else i32 (gather_digits (String a r) 0)
  | EmptyString => 0
  end.

(** [uint8_t toCbn(String token)]: the number goes into a [uint8_t]
    before it is looked at. *)
Definition toCbn (token : string) (m : machine) : Z :=
  let n := u8 (toInt token) in
  if negb (isdigit (charAt token 0))
     || (Z.of_nat (String.length token) =? 0)
     || (n <? 0) || (n >=? N_CONFIGS) || (ptr m n =? 0)
  then N_CONFIGS else n.

(** [void onUse()]: [combo] is an [int8_t]; a request that is turned down
    prints the usage and changes nothing. *)
Definition onUse (line : list string) (m : machine) : machine :=
  let combo := i8 (toInt (getWord line 1)) in
  let cbn := toCbn (getWord line 2) m in
  if (combo <? 0) || (u8 combo >=? N_COMBOS) || (cbn =? N_CONFIGS) then m
  else writeHeader (set_curConfig m (aset (curConfig (header m)) combo cbn)).

(** [void onRemove()]: the usage is printed for block 0 and for a word
    that names no block, and [removeConfig] is called all the same. *)
Definition onRemove (line : list string) (m : machine) : machine :=
  snd (removeConfig (toCbn (getWord line 1) m) m).

(** The text of a number below ten: its digit. *)
Definition digit_text (n : Z) : string :=
  String (ascii_of (chr "0" + n)) EmptyString.

End Commands.


(* ================================================================== *)
(** ** [loop()]: playing a movement, and the buttons *)
(* ================================================================== *)

Module Jog.
Import Decoder Store Codec Console Grammar.

(** The calls into the Keyboard and Mouse libraries, with the arguments as
    the callee receives them: [Keyboard.press] takes a [uint8_t],
    [Mouse.move] three [signed char]. *)
Inductive hid : Type :=
| KeyPress (k : Z)
| KeyReleaseAll
| MousePress (b : Z)
| MouseMove (x y wheel : Z)
| MouseRelease (b : Z)
| MouseClick (b : Z).

(** Constants of [Keyboard.h] and [Mouse.h]. *)
Definition KEY_LEFT_CTRL : Z := 0x80.
Definition KEY_LEFT_SHIFT : Z := 0x81.
Definition KEY_LEFT_ALT : Z := 0x82.
Definition KEY_LEFT_GUI : Z := 0x83.
Definition MOUSE_LEFT : Z := 1.
Definition MOUSE_RIGHT : Z := 2.
Definition MOUSE_MIDDLE : Z := 4.

Definition DEBOUNCE_MILLIS : Z := 10.
Definition FINGER_MILLIS : Z := 150.

(** The four [if]s that press the modifier keys named in a code; the
    masks are [KB_..._MASK] for a key and [ME_..._MASK] otherwise. *)
Definition press_if (e mask key : Z) : list hid :=
  if negb (Z.land e mask =? 0) then [KeyPress key] else [].

Definition key_modifiers (e : Z) : list hid :=
  press_if e KB_CTRL_MASK KEY_LEFT_CTRL ++ press_if e KB_ALT_MASK KEY_LEFT_ALT
  ++ press_if e KB_SHIFT_MASK KEY_LEFT_SHIFT
  ++ press_if e KB_GUI_MASK KEY_LEFT_GUI.

Definition mouse_modifiers (e : Z) : list hid :=
  press_if e ME_CTRL_MASK KEY_LEFT_CTRL ++ press_if e ME_ALT_MASK KEY_LEFT_ALT
  ++ press_if e ME_SHIFT_MASK KEY_LEFT_SHIFT
  ++ press_if e ME_GUI_MASK KEY_LEFT_GUI.

(** The [uint8_t m] put together from three mask tests. *)
Definition pick (e mask button : Z) : Z :=
  if negb (Z.land e mask =? 0) then button else 0.

Definition held_mask (e : Z) : Z :=
  Z.lor (Z.lor (pick e ME1_LEFT_MASK MOUSE_LEFT)
               (pick e ME1_MID_MASK MOUSE_MIDDLE))
        (pick e ME1_RIGHT_MASK MOUSE_RIGHT).

Definition click_mask (e : Z) : Z :=
  Z.lor (Z.lor (pick e ME3_LEFT_MASK MOUSE_LEFT)
               (pick e ME3_MID_MASK MOUSE_MIDDLE))
        (pick e ME3_RIGHT_MASK MOUSE_RIGHT).

(** [cb.entry[e][dir]]; outside the cells the model reads 0. *)
Definition cell (cb : configBlock) (e dir : Z) : Z :=
  let p := aget (0, 0) (entry cb) e in
  if dir =? 0 then fst p else snd p.

(** The calls of the four cases of the [switch]: [a] is [entryA], [b] the
    [entryB] that a move reads from the following cell. *)
Definition play_key (a : Z) : list hid :=
  key_modifiers a ++ [KeyPress (Z.land a KB_VALUE_MASK); KeyReleaseAll].

Definition play_move (a b : Z) : list hid :=
  [MousePress (held_mask a)] ++ mouse_modifiers b
  ++ [MouseMove (i8 (Z.land a ME_VALUE_MASK)) (i8 (Z.land b ME_VALUE_MASK)) 0;
      KeyReleaseAll;
      MouseRelease (Z.lor (Z.lor MOUSE_LEFT MOUSE_MIDDLE) MOUSE_RIGHT)].

Definition play_wheel (a : Z) : list hid :=
  mouse_modifiers a
  ++ [MouseMove 0 0 (i8 (Z.land a ME_VALUE_MASK)); KeyReleaseAll].

Definition play_click (a : Z) : list hid :=
  mouse_modifiers a ++ [MouseClick (click_mask a); KeyReleaseAll].

(** The loop [for (uint8_t e = 0; e < cb.nEntries; e++)] from [e] on; a
    move steps [e] once more.  Every round steps [e], so that 256 rounds
    of fuel see a block of at most 254 entries through. *)
Fixpoint play (fuel : nat) (cb : configBlock) (dir e : Z) : list hid :=
  match fuel with
  | O => []
  | S f =>
    if e <? nEntries cb then
      let entryA := cell cb e dir in
      let t := eType entryA in
      if t =? chr "k" then play_key entryA ++ play f cb dir (u8 (e + 1))
      else if t =? chr "m" then
        let e := u8 (e + 1) in
        play_move entryA (cell cb e dir) ++ play f cb dir (u8 (e + 1))
      else if t =? chr "w" then
        play_wheel entryA ++ play f cb dir (u8 (e + 1))
      else if t =? chr "c" then
        play_click entryA ++ play f cb dir (u8 (e + 1))
      else play f cb dir (u8 (e + 1))
    else []
  end.

(** The first part of [loop()]: a latched movement is played with the
    block that [header.curConfig[header.selection]] names and the mailbox
    is cleared.  [cells] is what the local [cb.entry] holds before
    [readConfig] fills it. *)
Definition direction (mv : movement_t) : Z :=
  match mv with cw => 0 | _ => 1 end.

Definition selected (m : machine) : Z :=
  aget 0 (curConfig (header m)) (selection (header m)).

Definition wheel_part (cells : list (Z * Z)) (m : machine) (s : vars)
  : list hid * vars :=
  match movement s with
  | none => ([], s)
  | mv =>
      let cb := snd (readConfig (i8 (selected m)) (mkConfig 0 cells) m) in
      (play 256 cb (direction mv) 0, with_movement s none)
  end.

(** The function-static variables of the second part, and the three LED
    pins (red, green, blue). *)
Record panel : Type := mkPanel {
  button : list Z;
  buttonMillis : list Z;
  pendingCombo : Z;
  pendingMillis : Z;
  led : bool * bool * bool
}.

(** Static initialisers; the pins are low after reset. *)
Definition power_on : panel :=
  mkPanel [0; 0; 0] [0; 0; 0] 0 0 (false, false, false).

(** What one pass reads: [digitalRead(BUTTON_x) == LOW] for the three
    buttons, as 0 or 1, and [millis()]. *)
Record pass : Type := mkPass {
  curButton : list Z;
  curMillis : Z
}.

(** The body of the debounce loop for button [i]. *)
Definition debounce (i : Z) (x : pass) (p : panel) : panel :=
  if negb (aget 0 (curButton x) i =? aget 0 (button p) i) then
    if aget 0 (buttonMillis p) i =? 0 then
      mkPanel (button p) (aset (buttonMillis p) i (u32 (curMillis x)))
              (pendingCombo p) (pendingMillis p) (led p)
    else if u32 (u32 (curMillis x) - aget 0 (buttonMillis p) i)
            >? DEBOUNCE_MILLIS then
      mkPanel (aset (button p) i (aget 0 (curButton x) i))
              (aset (buttonMillis p) i 0)
              (pendingCombo p) (pendingMillis p) (led p)
    else p
  else
    mkPanel (button p) (aset (buttonMillis p) i 0)
            (pendingCombo p) (pendingMillis p) (led p).

Definition debounced (x : pass) (p : panel) : panel :=
  fold_left (fun p i => debounce i x p) [0; 1; 2] p.

(** [button[2] << 2 | button[1] << 1 | button[0]] in a [uint8_t]. *)
Definition combo_of (b : list Z) : Z :=
  u8 (Z.lor (Z.lor (Z.shiftl (aget 0 b 2) 2) (Z.shiftl (aget 0 b 1) 1))
            (aget 0 b 0)).

Definition set_selection (m : machine) (v : Z) : machine :=
  mkMachine
    (mkHeader (fingerprint (header m)) v (curConfig (header m))
              (configPtr (header m)))
    (rom m).

(** The chord logic on the debounced buttons. *)
Definition chord (x : pass) (p : panel) (m : machine) : panel * machine :=
  let curCombo := combo_of (button p) in
  let p :=
    if pendingCombo p =? 0 then
      let pc := u8 (selection (header m) + 1) in
      mkPanel (button p) (buttonMillis p) pc (pendingMillis p)
              (negb (Z.land pc 1 =? 0), negb (Z.land pc 2 =? 0),
               negb (Z.land pc 4 =? 0))
    else p in
  if negb (curCombo =? 0) then
    if negb (pendingCombo p =? curCombo) then
      if pendingMillis p =? 0 then
        (mkPanel (button p) (buttonMillis p) (pendingCombo p)
                 (u32 (curMillis x)) (led p), m)
      else if u32 (u32 (curMillis x) - pendingMillis p) >? FINGER_MILLIS then
        (mkPanel (button p) (buttonMillis p) curCombo 0
                 (negb (aget 0 (button p) 0 =? 0),
                  negb (aget 0 (button p) 1 =? 0),
                  negb (aget 0 (button p) 2 =? 0)), m)
      else (p, m)
    else
      (mkPanel (button p) (buttonMillis p) (pendingCombo p) 0 (led p), m)
  else if negb (pendingCombo p - 1 =? selection (header m)) then
    (p, writeHeader (set_selection m (u8 (pendingCombo p - 1))))
  else (p, m).

(** The second part of [loop()], up to the call of [ui.run()]. *)
Definition button_part (x : pass) (p : panel) (m : machine)
  : panel * machine :=
  chord x (debounced x p) m.

(** Pass after pass. *)
Fixpoint passes (xs : list pass) (p : panel) (m : machine)
  : panel * machine :=
  match xs with
  | [] => (p, m)
  | x :: r => let '(p', m') := button_part x p m in passes r p' m'
  end.

(** *** Vocabulary of the specification *)

(** What is held down after a list of calls: whether any key is, and the
    mouse buttons.  [Mouse.click] presses and releases. *)
Definition after_call (st : bool * Z) (c : hid) : bool * Z :=
  match c with
  | KeyPress _ => (true, snd st)
  | KeyReleaseAll => (false, snd st)
  | MousePress b => (fst st, Z.lor (snd st) b)
  | MouseRelease b => (fst st, Z.land (snd st) (Z.lnot b))
  | MouseMove _ _ _ => st
  | MouseClick _ => (fst st, 0)
  end.

Definition held_after (calls : list hid) (st : bool * Z) : bool * Z :=
  fold_left after_call calls st.

(** The LED shows the number [n]: red, green and blue for its bits 1, 2
    and 4. *)
Definition shows (l : bool * bool * bool) (n : Z) : Prop :=
  l = (Z.testbit n 0, Z.testbit n 1, Z.testbit n 2).

(** The buttons hold 0 or 1 each. *)
Definition binary (b : list Z) : bool :=
  (Z.of_nat (List.length b) =? 3) && forallb (fun v => (v =? 0) || (v =? 1)) b.

(** The calls that an action stands for: the modifier keys go down in the
    order ctrl, alt, shift, gui; a move holds its buttons from before the
    modifiers until after them. *)
Definition modifier_presses (m : modifiers) : list hid :=
  let '(c, al, s, g) := m in
  (if c then [KeyPress KEY_LEFT_CTRL] else [])
  ++ (if al then [KeyPress KEY_LEFT_ALT] else [])
  ++ (if s then [KeyPress KEY_LEFT_SHIFT] else [])
  ++ (if g then [KeyPress KEY_LEFT_GUI] else []).

Definition button_mask (b : buttons) : Z :=
  let '(l, m, r) := b in
  Z.lor (Z.lor (if l then MOUSE_LEFT else 0) (if m then MOUSE_MIDDLE else 0))
        (if r then MOUSE_RIGHT else 0).

Definition perform (a : action) : list hid :=
  if a_type a =? chr "k" then
    modifier_presses (a_modifiers a)
    ++ [KeyPress (nth 0 (a_values a) 0); KeyReleaseAll]
  else if a_type a =? chr "w" then
    modifier_presses (a_modifiers a)
    ++ [MouseMove 0 0 (nth 0 (a_values a) 0); KeyReleaseAll]
  else if a_type a =? chr "m" then
    [MousePress (button_mask (a_buttons a))]
    ++ modifier_presses (a_modifiers a)
    ++ [MouseMove (nth 0 (a_values a) 0) (nth 1 (a_values a) 0) 0;
        KeyReleaseAll; MouseRelease 7]
  else
    modifier_presses (a_modifiers a)
    ++ [MouseClick (button_mask (a_buttons a)); KeyReleaseAll].

(** The calls of one round of [play] on the code [a], followed in the
    block by the code [b]. *)
Definition play_entry (a b : Z) : list hid :=
  let t := eType a in
  if t =? chr "k" then play_key a
  else if t =? chr "m" then play_move a b
  else if t =? chr "w" then play_wheel a
  else play_click a.

(** The calls played for the codes that the text of a spec parses to. *)
Definition played (d : spec) : list hid :=
  play_entry (fst (codes (chr (letter d)) (string_of_list_ascii (text d))))
             (snd (codes (chr (letter d)) (string_of_list_ascii (text d)))).

(** The state the button logic keeps: debounced buttons that hold 0 or 1,
    a selection that indexes [header.curConfig], and, once the first pass
    is over, a pending chord between 1 and 7 that the LED shows. *)
Definition steady (p : panel) (m : machine) : Prop :=
  binary (button p) = true /\ 0 <= selection (header m) < 7
  /\ (pendingCombo p = 0
      \/ (1 <= pendingCombo p <= 7 /\ shows (led p) (pendingCombo p))).

(** The passes are made at times that do not go back, from [lo] on. *)
Fixpoint ascending (lo : Z) (xs : list pass) : bool :=
  match xs with
  | [] => true
  | x :: r => (lo <=? curMillis x) && ascending (curMillis x) r
  end.

(** The debounce timer [bm] is idle, or was started in the span that
    began at [t0] and has come to [lo]. *)
Definition in_span (t0 lo bm : Z) : Prop := bm = 0 \/ t0 <= bm <= lo.

End Jog.

(* ================================================================== *)
(** * Part II: properties *)
(* ================================================================== *)

Section DecoderFacts.
Import Decoder.

Lemma isr_unfold (s : vars) (t : tick) :
  isr s t = isr_coil t (isr_coil t s 0) 1.
Proof. reflexivity. Qed.

(** The coil state machines do not look at the mailbox or the time
    stamps. *)
Lemma isr_coil_state (t : tick) (s s' : vars) (c : Z) :
  state s = state s' -> state (isr_coil t s c) = state (isr_coil t s' c).
Proof.
  intros E. unfold isr_coil. rewrite <- E.
  destruct (get (state s) c); simpl.
  - destruct (get (coilVal t) c >? TRIGGER c); simpl; congruence.
  - destruct (movement s), (movement s'); simpl;
      repeat match goal with |- context [if ?b then _ else _] =>
               destruct b; simpl end; congruence.
  - destruct (get (coilVal t) c <? RESET c); simpl; congruence.
Qed.

Lemma isr_state (t : tick) (s s' : vars) :
  state s = state s' -> state (isr s t) = state (isr s' t).
Proof.
  intros E. rewrite !isr_unfold. now apply isr_coil_state, isr_coil_state.
Qed.

Lemma run_state (ts : list tick) : forall s s',
  state s = state s' -> state (run ts s) = state (run ts s').
Proof.
  induction ts as [|t ts IH]; intros s s' E; simpl; [exact E|].
  apply IH, isr_state, E.
Qed.

(** With a direction pending in the mailbox, a tick neither records a time
    stamp nor latches anything. *)
Lemma isr_coil_full (t : tick) (s : vars) (c : Z) :
  movement s <> none ->
  movement (isr_coil t s c) = movement s /\
  risingTimestamp (isr_coil t s c) = risingTimestamp s.
Proof.
  intros M. unfold isr_coil.
  destruct (get (state s) c); simpl.
  - destruct (get (coilVal t) c >? TRIGGER c); simpl; auto.
  - destruct (movement s) eqn:E; simpl; rewrite ?E; auto. now elim M.
  - destruct (get (coilVal t) c <? RESET c); simpl; auto.
Qed.

Lemma isr_full (t : tick) (s : vars) :
  movement s <> none ->
  movement (isr s t) = movement s /\
  risingTimestamp (isr s t) = risingTimestamp s.
Proof.
  intros M. rewrite isr_unfold.
  destruct (isr_coil_full t s 0 M) as [M0 T0].
  destruct (isr_coil_full t (isr_coil t s 0) 1) as [M1 T1]; [congruence|].
  split; congruence.
Qed.

Lemma latched_full (s s' : vars) : movement s <> none -> latched s s' = [].
Proof. unfold latched. destruct (movement s); congruence. Qed.

Lemma latched_same (s s' : vars) : movement s' = movement s -> latched s s' = [].
Proof. unfold latched. intros ->. destruct (movement s); reflexivity. Qed.

Lemma run_full (ts : list tick) : forall s,
  movement s <> none ->
  events ts s = [] /\ movement (run ts s) = movement s /\
  risingTimestamp (run ts s) = risingTimestamp s.
Proof.
  induction ts as [|t ts IH]; intros s M; simpl; [auto|].
  destruct (isr_full t s M) as [M1 T1].
  destruct (IH (isr s t)) as (E & M2 & T2); [congruence|].
  rewrite (latched_full _ _ M), E. repeat split; congruence.
Qed.

(** Ticks in which no coil starts a rise, taken with no coil in [rising]:
    nothing is recorded and nothing latched; a coil that is [low] stays
    [low]. *)
Lemma isr_quiet (t : tick) (s : vars) :
  quiet 0 t && quiet 1 t = true -> settled s ->
  movement (isr s t) = movement s /\
  risingTimestamp (isr s t) = risingTimestamp s /\
  settled (isr s t) /\
  (fst (state s) = low -> fst (state (isr s t)) = low) /\
  (snd (state s) = low -> snd (state (isr s t)) = low).
Proof.
  intros Q [SA SB]. apply andb_prop in Q as [QA QB].
  unfold quiet, starts, get in QA, QB. simpl in QA, QB.
  apply negb_true_iff in QA, QB.
  rewrite isr_unfold. destruct s as [[sa sb] ts m]. simpl in SA, SB.
  unfold settled, isr_coil, get, set; simpl.
  destruct sa; try congruence; destruct sb; try congruence; destruct m; simpl;
    rewrite ?QA, ?QB; simpl;
    repeat match goal with
           | |- context [if ?b then _ else _] => destruct b; simpl
           end; rewrite ?QA, ?QB; simpl;
    repeat split; try congruence.
Qed.

Lemma run_quiet (ts : list tick) : forall s,
  forallb (fun t => quiet 0 t && quiet 1 t) ts = true -> settled s ->
  events ts s = [] /\
  movement (run ts s) = movement s /\
  risingTimestamp (run ts s) = risingTimestamp s /\
  settled (run ts s) /\
  (fst (state s) = low -> fst (state (run ts s)) = low) /\
  (snd (state s) = low -> snd (state (run ts s)) = low).
Proof.
  induction ts as [|t ts IH]; intros s Q S; simpl in *.
  - repeat split; auto; apply S.
  - apply andb_prop in Q as [Qt Qr].
    destruct (isr_quiet t s Qt S) as (M & T & S' & LA & LB).
    destruct (IH (isr s t) Qr S') as (E & M' & T' & S'' & LA' & LB').
    rewrite (latched_same _ _ M), E. unfold run in *. simpl.
    split; [reflexivity|]. split; [congruence|]. split; [congruence|].
    split; [exact S''|]. split; intros L; [apply LA', LA, L | apply LB', LB, L].
Qed.

Lemma events_app (l1 l2 : list tick) : forall s,
  events (l1 ++ l2) s = events l1 s ++ events l2 (run l1 s).
Proof.
  induction l1 as [|t l1 IH]; intros s; simpl; [reflexivity|].
  rewrite IH, app_assoc. reflexivity.
Qed.

Lemma run_app (l1 l2 : list tick) (s : vars) :
  run (l1 ++ l2) s = run l2 (run l1 s).
Proof. apply fold_left_app. Qed.

(** Symbolic execution of a few ticks on an explicit state: the handler's
    body, one coil in one state at a time. *)
Lemma coilA_low t sb ts m :
  isr_coil t (mkVars (low, sb) ts m) 0 =
  if fst (coilVal t) >? TRIGGER 0 then mkVars (rising, sb) ts m
  else mkVars (low, sb) ts m.
Proof. reflexivity. Qed.

Lemma coilB_low t sa ts m :
  isr_coil t (mkVars (sa, low) ts m) 1 =
  if snd (coilVal t) >? TRIGGER 1 then mkVars (sa, rising) ts m
  else mkVars (sa, low) ts m.
Proof. reflexivity. Qed.

Lemma coilA_rose t sb ts m :
  isr_coil t (mkVars (rose, sb) ts m) 0 =
  if fst (coilVal t) <? RESET 0 then mkVars (low, sb) ts m
  else mkVars (rose, sb) ts m.
Proof. reflexivity. Qed.

Lemma coilB_rose t sa ts m :
  isr_coil t (mkVars (sa, rose) ts m) 1 =
  if snd (coilVal t) <? RESET 1 then mkVars (sa, low) ts m
  else mkVars (sa, rose) ts m.
Proof. reflexivity. Qed.

Lemma coilA_rising t sb ta tb :
  isr_coil t (mkVars (rising, sb) (ta, tb) none) 0 =
  if u32 (u32 (fst (micros t)) - tb) <=? MAX_PULSE_SEP
  then mkVars (rose, sb) (u32 (fst (micros t)), tb) cc
  else mkVars (rose, sb) (u32 (fst (micros t)), tb) none.
Proof.
  unfold isr_coil, get, set; cbn [state movement risingTimestamp fst snd].
  change (0 =? 0) with true. change ((0 + 1) mod 2 =? 0) with false.
  cbv iota. cbn [fst snd].
  destruct (u32 (u32 (fst (micros t)) - tb) <=? MAX_PULSE_SEP); reflexivity.
Qed.

Lemma coilB_rising t sa ta tb :
  isr_coil t (mkVars (sa, rising) (ta, tb) none) 1 =
  if u32 (u32 (snd (micros t)) - ta) <=? MAX_PULSE_SEP
  then mkVars (sa, rose) (ta, u32 (snd (micros t))) cw
  else mkVars (sa, rose) (ta, u32 (snd (micros t))) none.
Proof.
  unfold isr_coil, get, set; cbn [state movement risingTimestamp fst snd].
  change (1 =? 0) with false. change ((1 + 1) mod 2 =? 0) with true.
  cbv iota. cbn [fst snd].
  destruct (u32 (u32 (snd (micros t)) - ta) <=? MAX_PULSE_SEP); reflexivity.
Qed.

(** *** One tick, by the states of the two coils *)

(** The states after a tick are those of the two coil machines. *)
Lemma isr_states (s : vars) (t : tick) :
  state (isr s t) =
  (next_state 0 (fst (state s)) t, next_state 1 (snd (state s)) t).
Proof.
  destruct s as [[sa sb] [ta tb] m]. rewrite isr_unfold.
  unfold isr_coil, next_state, get, set.
  cbn [state movement risingTimestamp fst snd].
  change (0 =? 0) with true. change (1 =? 0) with false. cbv iota.
  destruct sa, sb, m; cbn [state movement risingTimestamp fst snd];
    repeat match goal with
           | |- context [if ?b then _ else _] =>
               destruct b; cbn [state movement risingTimestamp fst snd]
           end; reflexivity.
Qed.

Lemma run_states (ts : list tick) : forall s,
  state (run ts s) =
  (coil_run 0 (fst (state s)) ts, coil_run 1 (snd (state s)) ts).
Proof.
  induction ts as [|t ts IH]; intros s.
  - change (run [] s) with s. destruct (state s); reflexivity.
  - change (run (t :: ts) s) with (run ts (isr s t)).
    rewrite IH, isr_states. reflexivity.
Qed.

(** With no coil in [rising], a tick leaves the mailbox and the recorded
    times alone, whatever the samples are. *)
Lemma isr_settled (s : vars) (t : tick) :
  settled s ->
  isr s t =
  mkVars (next_state 0 (fst (state s)) t, next_state 1 (snd (state s)) t)
         (risingTimestamp s) (movement s).
Proof.
  intros [SA SB]. destruct s as [[sa sb] ts m]. rewrite isr_unfold.
  cbn [state movement risingTimestamp fst snd] in *.
  destruct sa; try congruence; destruct sb; try congruence;
    unfold isr_coil, next_state, get, set;
    cbn [state movement risingTimestamp fst snd];
    change (0 =? 0) with true; change (1 =? 0) with false; cbv iota;
    repeat match goal with
           | |- context [if ?b then _ else _] =>
               destruct b; cbn [state movement risingTimestamp fst snd]
           end; reflexivity.
Qed.

(** The tick that completes a rise of coil A, or of coil B, with the
    mailbox empty and the other coil not in [rising]: the time is
    recorded and the direction latched when the other coil's recorded
    time lies within the window. *)
Lemma complete_A (t : tick) (sb : coilState_t) (ta tb : Z) :
  sb <> rising ->
  isr (mkVars (rising, sb) (ta, tb) none) t =
  mkVars (rose, next_state 1 sb t) (u32 (fst (micros t)), tb)
         (if within_window tb (u32 (fst (micros t))) then cc else none).
Proof.
  intros SB. rewrite isr_unfold, coilA_rising. unfold within_window.
  destruct (u32 (u32 (fst (micros t)) - tb) <=? MAX_PULSE_SEP);
    destruct sb; try congruence;
    unfold isr_coil, next_state, get, set;
    cbn [state movement risingTimestamp fst snd];
    change (1 =? 0) with false; cbv iota;
    repeat match goal with
           | |- context [if ?b then _ else _] =>
               destruct b; cbn [state movement risingTimestamp fst snd]
           end; reflexivity.
Qed.

Lemma complete_B (t : tick) (sa : coilState_t) (ta tb : Z) :
  sa <> rising ->
  isr (mkVars (sa, rising) (ta, tb) none) t =
  mkVars (next_state 0 sa t, rose) (ta, u32 (snd (micros t)))
         (if within_window ta (u32 (snd (micros t))) then cw else none).
Proof.
  intros SA. rewrite isr_unfold. unfold within_window.
  destruct sa; try congruence.
  - rewrite coilA_low. unfold next_state, get. cbn [fst snd].
    change (0 =? 0) with true. cbv iota.
    destruct (fst (coilVal t) >? TRIGGER 0); rewrite coilB_rising;
      destruct (u32 (u32 (snd (micros t)) - ta) <=? MAX_PULSE_SEP);
      reflexivity.
  - rewrite coilA_rose. unfold next_state, get. cbn [fst snd].
    change (0 =? 0) with true. cbv iota.
    destruct (fst (coilVal t) <? RESET 0); rewrite coilB_rising;
      destruct (u32 (u32 (snd (micros t)) - ta) <=? MAX_PULSE_SEP);
      reflexivity.
Qed.

(** *** Stretches in which no rise begins *)

Lemma coil_run_app c st l1 l2 :
  coil_run c st (l1 ++ l2) = coil_run c (coil_run c st l1) l2.
Proof. apply fold_left_app. Qed.

Lemma no_rise_app c l1 : forall st l2,
  no_rise c st (l1 ++ l2) =
  no_rise c st l1 && no_rise c (coil_run c st l1) l2.
Proof.
  induction l1 as [|t l1 IH]; intros st l2; [reflexivity|].
  cbn [app no_rise coil_run fold_left].
  destruct (next_state c st t) eqn:N; [apply IH | reflexivity | apply IH].
Qed.

Lemma no_rise_end c ts : forall st,
  st <> rising -> no_rise c st ts = true -> coil_run c st ts <> rising.
Proof.
  induction ts as [|t ts IH]; intros st S N; [exact S|].
  cbn [no_rise coil_run fold_left] in *.
  destruct (next_state c st t) eqn:E; [|discriminate N|];
    apply IH; [discriminate | exact N | discriminate | exact N].
Qed.

Lemma no_rise_step c st t :
  no_rise c st [t] = true -> next_state c st t <> rising.
Proof.
  cbn [no_rise]. destruct (next_state c st t); congruence.
Qed.

Lemma quiet_low d t : quiet d t = true -> next_state d low t = low.
Proof.
  unfold quiet, starts, next_state. intros Q.
  apply negb_true_iff in Q. rewrite Q. reflexivity.
Qed.

Lemma starts_rising d t : starts d t = true -> next_state d low t = rising.
Proof. unfold starts, next_state. intros Q. rewrite Q. reflexivity. Qed.

Lemma quiet_run d ts :
  forallb (quiet d) ts = true ->
  coil_run d low ts = low /\ no_rise d low ts = true.
Proof.
  induction ts as [|t ts IH]; intros Q; [split; reflexivity|].
  cbn [forallb] in Q. apply andb_prop in Q as [Qt Qr].
  cbn [coil_run fold_left no_rise]. rewrite (quiet_low d t Qt).
  exact (IH Qr).
Qed.

Lemma run_settled (ts : list tick) : forall s,
  settled s ->
  no_rise 0 (fst (state s)) ts = true ->
  no_rise 1 (snd (state s)) ts = true ->
  events ts s = [] /\
  run ts s =
  mkVars (coil_run 0 (fst (state s)) ts, coil_run 1 (snd (state s)) ts)
         (risingTimestamp s) (movement s).
Proof.
  induction ts as [|t ts IH]; intros s S N0 N1.
  - split; [reflexivity|]. destruct s as [[sa sb] tsp m]. reflexivity.
  - cbn [no_rise] in N0, N1.
    change (run (t :: ts) s) with (run ts (isr s t)). cbn [events].
    rewrite (isr_settled s t S) in *.
    cbn [coil_run fold_left].
    destruct (next_state 0 (fst (state s)) t) eqn:E0; try discriminate N0;
    destruct (next_state 1 (snd (state s)) t) eqn:E1; try discriminate N1;
    match goal with
    | |- context [run ts ?s'] =>
        destruct (IH s') as [Ev Rn];
          [ split; cbn [state fst snd]; discriminate
          | exact N0 | exact N1 | ];
        rewrite Ev, Rn; unfold latched; cbn [movement state
          risingTimestamp fst snd];
        split; [destruct (movement s); reflexivity | reflexivity]
    end.
Qed.

Lemma no_rise_last c st t ts :
  no_rise c st (t :: ts) = true -> coil_run c st (t :: ts) <> rising.
Proof.
  cbn [no_rise coil_run fold_left].
  destruct (next_state c st t) eqn:E; [|discriminate|];
    intros N; apply no_rise_end; [discriminate | exact N
                                 | discriminate | exact N].
Qed.

Lemma events_one (t : tick) (s : vars) : events [t] s = latched s (isr s t).
Proof. cbn [events]. apply app_nil_r. Qed.

Lemma events_cons (t : tick) (ts : list tick) (s : vars) :
  events (t :: ts) s = latched s (isr s t) ++ events ts (isr s t).
Proof. reflexivity. Qed.

Lemma run_cons (t : tick) (ts : list tick) (s : vars) :
  run (t :: ts) s = run ts (isr s t).
Proof. reflexivity. Qed.

(** *** The pulse pair *)

(** The parts of a pulse pair. *)
Lemma pulse_pair_parts c d a1 mid b1 b2 :
  pulse_pair c d a1 mid b1 b2 = true ->
  starts c a1 = true /\ quiet d a1 = true /\ forallb (quiet d) mid = true
  /\ starts d b1 = true /\ no_rise c rising (mid ++ [b1; b2]) = true.
Proof.
  unfold pulse_pair. intros P.
  apply andb_prop in P as [P N]. apply andb_prop in P as [P B].
  apply andb_prop in P as [P Q]. apply andb_prop in P as [A Qa].
  auto.
Qed.

(** A pair begun by coil A and completed by coil B, from the first tick to
    the tick that completes the second rise. *)
Lemma pair_AB (s : vars) a1 mid b1 b2 :
  state s = (low, low) -> movement s = none ->
  pulse_pair 0 1 a1 mid b1 b2 = true ->
  let t_c := u32 (fst (micros (second_tick mid b1))) in
  let t_d := u32 (snd (micros b2)) in
  within_window (snd (risingTimestamp s)) t_c = false ->
  let ticks := pair_ticks a1 mid b1 b2 in
  events ticks s = (if within_window t_c t_d then [cw] else []) /\
  movement (run ticks s) = (if within_window t_c t_d then cw else none) /\
  risingTimestamp (run ticks s) = (t_c, t_d).
Proof.
  intros S M P t_c t_d W ticks. subst ticks t_c t_d.
  destruct (pulse_pair_parts _ _ _ _ _ _ P) as (A & Qa & Q & B & N).
  destruct s as [st [ta tb] m].
  cbn [state movement risingTimestamp fst snd] in *. subst st m.
  unfold pair_ticks.
  assert (E1 : isr (mkVars (low, low) (ta, tb) none) a1
               = mkVars (rising, low) (ta, tb) none).
  { rewrite isr_settled by (split; discriminate).
    cbn [state fst snd movement risingTimestamp].
    rewrite (starts_rising 0 a1 A), (quiet_low 1 a1 Qa). reflexivity. }
  rewrite events_cons, run_cons, E1.
  unfold latched at 1. cbn [movement app].
  destruct mid as [|a2 mid].
  - cbn [app second_tick hd] in *.
    rewrite events_cons, !run_cons, complete_A by discriminate.
    rewrite W. rewrite (starts_rising 1 b1 B).
    unfold latched at 1. cbn [movement app].
    rewrite events_one, complete_B by discriminate.
    unfold latched. cbn [movement risingTimestamp run fold_left].
    destruct (within_window (u32 (fst (micros b1))) (u32 (snd (micros b2))));
      repeat split; reflexivity.
  - cbn [app second_tick hd forallb] in *.
    apply andb_prop in Q as [Q2 Q].
    destruct (quiet_run 1 mid Q) as [R1 N1].
    cbn [no_rise next_state] in N.
    rewrite no_rise_app in N. apply andb_prop in N as [N0 Nb].
    pose proof (no_rise_end 0 mid rose ltac:(discriminate) N0) as X.
    rewrite events_cons, run_cons, complete_A by discriminate.
    rewrite W. rewrite (quiet_low 1 a2 Q2).
    unfold latched at 1. cbn [movement app].
    rewrite events_app, run_app.
    destruct (run_settled mid (mkVars (rose, low) (u32 (fst (micros a2)), tb)
                                      none))
      as [Ev Rn]; [split; discriminate | exact N0 | exact N1 |].
    cbn [state fst snd movement risingTimestamp] in Rn.
    rewrite Ev, Rn, R1. cbn [app].
    set (x := coil_run 0 rose mid) in *.
    rewrite events_cons, !run_cons.
    rewrite isr_settled by (split; [exact X | discriminate]).
    cbn [state fst snd movement risingTimestamp].
    rewrite (starts_rising 1 b1 B).
    unfold latched at 1. cbn [movement app].
    assert (X' : next_state 0 x b1 <> rising).
    { cbn [no_rise] in Nb. destruct (next_state 0 x b1); congruence. }
    rewrite events_one, complete_B by exact X'.
    unfold latched. cbn [movement risingTimestamp run fold_left].
    destruct (within_window (u32 (fst (micros a2))) (u32 (snd (micros b2))));
      repeat split; reflexivity.
Qed.

(** The same pair begun by coil B and completed by coil A. *)
Lemma pair_BA (s : vars) a1 mid b1 b2 :
  state s = (low, low) -> movement s = none ->
  pulse_pair 1 0 a1 mid b1 b2 = true ->
  let t_c := u32 (snd (micros (second_tick mid b1))) in
  let t_d := u32 (fst (micros b2)) in
  within_window (fst (risingTimestamp s)) t_c = false ->
  let ticks := pair_ticks a1 mid b1 b2 in
  events ticks s = (if within_window t_c t_d then [cc] else []) /\
  movement (run ticks s) = (if within_window t_c t_d then cc else none) /\
  risingTimestamp (run ticks s) = (t_d, t_c).
Proof.
  intros S M P t_c t_d W ticks. subst ticks t_c t_d.
  destruct (pulse_pair_parts _ _ _ _ _ _ P) as (A & Qa & Q & B & N).
  destruct s as [st [ta tb] m].
  cbn [state movement risingTimestamp fst snd] in *. subst st m.
  unfold pair_ticks.
  assert (E1 : isr (mkVars (low, low) (ta, tb) none) a1
               = mkVars (low, rising) (ta, tb) none).
  { rewrite isr_settled by (split; discriminate).
    cbn [state fst snd movement risingTimestamp].
    rewrite (starts_rising 1 a1 A), (quiet_low 0 a1 Qa). reflexivity. }
  rewrite events_cons, run_cons, E1.
  unfold latched at 1. cbn [movement app].
  destruct mid as [|a2 mid].
  - cbn [app second_tick hd] in *.
    rewrite events_cons, !run_cons, complete_B by discriminate.
    rewrite W. rewrite (starts_rising 0 b1 B).
    unfold latched at 1. cbn [movement app].
    rewrite events_one, complete_A by discriminate.
    unfold latched. cbn [movement risingTimestamp run fold_left].
    destruct (within_window (u32 (snd (micros b1))) (u32 (fst (micros b2))));
      repeat split; reflexivity.
  - cbn [app second_tick hd forallb] in *.
    apply andb_prop in Q as [Q2 Q].
    destruct (quiet_run 0 mid Q) as [R1 N1].
    cbn [no_rise next_state] in N.
    rewrite no_rise_app in N. apply andb_prop in N as [N0 Nb].
    pose proof (no_rise_end 1 mid rose ltac:(discriminate) N0) as X.
    rewrite events_cons, run_cons, complete_B by discriminate.
    rewrite W. rewrite (quiet_low 0 a2 Q2).
    unfold latched at 1. cbn [movement app].
    rewrite events_app, run_app.
    destruct (run_settled mid (mkVars (low, rose) (ta, u32 (snd (micros a2)))
                                      none))
      as [Ev Rn]; [split; discriminate | exact N1 | exact N0 |].
    cbn [state fst snd movement risingTimestamp] in Rn.
    rewrite Ev, Rn, R1. cbn [app].
    set (x := coil_run 1 rose mid) in *.
    rewrite events_cons, !run_cons.
    rewrite isr_settled by (split; [discriminate | exact X]).
    cbn [state fst snd movement risingTimestamp].
    rewrite (starts_rising 0 b1 B).
    unfold latched at 1. cbn [movement app].
    assert (X' : next_state 1 x b1 <> rising).
    { cbn [no_rise] in Nb. destruct (next_state 1 x b1); congruence. }
    rewrite events_one, complete_A by exact X'.
    unfold latched. cbn [movement risingTimestamp run fold_left].
    destruct (within_window (u32 (snd (micros a2))) (u32 (fst (micros b2))));
      repeat split; reflexivity.
Qed.

(** A tick with both samples under the reset levels brings a coil that is
    not in the middle of a rise to [low]. *)
Lemma falls_low (c : Z) (st : coilState_t) (fall : tick) :
  c = 0 \/ c = 1 -> falls fall = true -> st <> rising ->
  next_state c st fall = low.
Proof.
  unfold falls, RESET, RESET_A, RESET_B. intros C F N.
  apply andb_prop in F as [F0 F1].
  cbn [get Z.eqb fst snd] in F0, F1. apply Z.ltb_lt in F0, F1.
  destruct st; [|congruence|]; cbn [next_state];
    destruct C as [-> | ->];
    unfold TRIGGER, TRIGGER_A, TRIGGER_B, RESET, RESET_A, RESET_B;
    cbn [get Z.eqb fst snd].
  - destruct (Z.gtb_spec (fst (coilVal fall)) 15); [lia | reflexivity].
  - destruct (Z.gtb_spec (snd (coilVal fall)) 15); [lia | reflexivity].
  - destruct (Z.ltb_spec (fst (coilVal fall)) 10); [reflexivity | lia].
  - destruct (Z.ltb_spec (snd (coilVal fall)) 10); [reflexivity | lia].
Qed.

(** The states of the two coils along a pulse pair, whatever the mailbox
    holds. *)
Lemma pair_states (c d : Z) a1 mid b1 b2 fall :
  c = 0 \/ c = 1 -> d = 0 \/ d = 1 ->
  pulse_pair c d a1 mid b1 b2 = true -> falls fall = true ->
  coil_run c low [a1] = rising /\
  coil_run c low [a1; second_tick mid b1] = rose /\
  coil_run d low (a1 :: mid ++ [b1]) = rising /\
  coil_run d low (pair_ticks a1 mid b1 b2) = rose /\
  coil_run c low (pair_ticks a1 mid b1 b2 ++ [fall]) = low /\
  coil_run d low (pair_ticks a1 mid b1 b2 ++ [fall]) = low.
Proof.
  intros C D P F.
  destruct (pulse_pair_parts _ _ _ _ _ _ P) as (A & Qa & Q & B & N).
  assert (R1 : coil_run c low [a1] = rising)
    by (cbn [coil_run fold_left]; now apply starts_rising).
  assert (Rd : coil_run d low (a1 :: mid) = low).
  { apply (quiet_run d (a1 :: mid)). cbn [forallb]. now rewrite Qa, Q. }
  assert (R3 : coil_run d low (a1 :: mid ++ [b1]) = rising).
  { rewrite app_comm_cons, coil_run_app, Rd. cbn [coil_run fold_left].
    now apply starts_rising. }
  assert (R4 : coil_run d low (pair_ticks a1 mid b1 b2) = rose).
  { unfold pair_ticks.
    change (a1 :: mid ++ [b1; b2]) with (a1 :: mid ++ [b1] ++ [b2]).
    rewrite app_assoc, app_comm_cons, coil_run_app, R3. reflexivity. }
  assert (Rc : coil_run c low (pair_ticks a1 mid b1 b2) <> rising).
  { unfold pair_ticks. change (a1 :: mid ++ [b1; b2])
      with ([a1] ++ mid ++ [b1; b2]).
    rewrite coil_run_app, R1.
    destruct mid as [|a2 mid]; apply no_rise_last; exact N. }
  split; [exact R1|]. split.
  { cbn [coil_run fold_left]. rewrite (starts_rising c a1 A). reflexivity. }
  split; [exact R3|]. split; [exact R4|].
  rewrite !coil_run_app. cbn [coil_run fold_left].
  split; apply falls_low; try assumption.
  fold (coil_run d low (pair_ticks a1 mid b1 b2)). rewrite R4. discriminate.
Qed.

(** C2, as stated, fails: with both coils [low] and the mailbox empty, a
    rise on A followed by a rise on B inside the window latches
    CounterClockwise, not Clockwise, when A's rise is itself inside the
    window of an earlier recorded rise of B.  The state is reached from
    power-on by one pulse on B, recorded at 100000us.  A then rises and is
    recorded at 120000us, which latches CounterClockwise against the old
    time of B; B rises 30000us later and finds the mailbox full, so its
    time stays 100000.  Had [loop()] emptied the mailbox in between, the
    rise of B would have latched Clockwise as a second event. *)
Lemma decoder_stale_rise_counterexample :
  let hi_B := mkTick (0, 100) (100000, 100000) in
  let idle := mkTick (0, 0) (110000, 110000) in
  let s := run [hi_B; hi_B; idle] power_on in
  let a1 := mkTick (100, 0) (119000, 119000) in
  let a2 := mkTick (100, 0) (120000, 120000) in
  let b1 := mkTick (0, 100) (149000, 149000) in
  let b2 := mkTick (0, 100) (150000, 150000) in
  let read := with_movement (run [a1; a2; idle] s) none in
  state s = (low, low) /\ movement s = none /\
  pulse_pair 0 1 a1 [a2; idle] b1 b2 = true /\
  within_window 120000 150000 = true /\
  events (pair_ticks a1 [a2; idle] b1 b2) s = [cc] /\
  movement (run (pair_ticks a1 [a2; idle] b1 b2) s) = cc /\
  risingTimestamp (run (pair_ticks a1 [a2; idle] b1 b2) s)
    = (120000, 100000) /\
  events [a1; a2; idle] s = [cc] /\
  events [b1; b2] read = [cw] /\
  risingTimestamp (run [b1; b2] read) = (120000, 150000).
Proof. vm_compute. repeat split; reflexivity. Qed.

(** C2 (amended).  Start with both coils [low] and the mailbox empty.  One
    coil begins a rise; the other begins one in a later tick, as early as
    the very next; no other rise begins in between, while the first coil's
    sample may fall or stay high; and the first rise is recorded outside
    the window of the other coil's last recorded rise.  Then both rises
    are recorded, the first in the tick after it began and the second in
    [b2]; A followed by B latches exactly one Clockwise event when the two
    recorded times are within [MAX_PULSE_SEP] (modulo 2^32), the reversed
    order exactly one CounterClockwise event, and a separation beyond the
    window latches nothing.  With the mailbox already holding a direction
    [m], the same ticks latch nothing and leave [m] in place, while the
    coils still go [rising], [rose] and, once both samples are under the
    reset level, back to [low]. *)
Theorem decoder_pulse_pair
  (c d : Z) (s : vars) (a1 : tick) (mid : list tick)
  (b1 b2 fall : tick) (m : movement_t) :
  (c = 0 /\ d = 1) \/ (c = 1 /\ d = 0) ->
  state s = (low, low) -> movement s = none ->
  pulse_pair c d a1 mid b1 b2 = true -> falls fall = true ->
  within_window (get (risingTimestamp s) d)
                (u32 (get (micros (second_tick mid b1)) c)) = false ->
  m <> none ->
  let ticks := pair_ticks a1 mid b1 b2 in
  let t_c := u32 (get (micros (second_tick mid b1)) c) in
  let t_d := u32 (get (micros b2) d) in
  let within := within_window t_c t_d in
  let full := with_movement s m in
  events ticks s = (if within then [completes d] else []) /\
  movement (run ticks s) = (if within then completes d else none) /\
  get (risingTimestamp (run ticks s)) c = t_c /\
  get (risingTimestamp (run ticks s)) d = t_d /\
  events (ticks ++ [fall]) full = [] /\
  movement (run (ticks ++ [fall]) full) = m /\
  get (state (run [a1] full)) c = rising /\
  get (state (run [a1; second_tick mid b1] full)) c = rose /\
  get (state (run (a1 :: mid ++ [b1]) full)) d = rising /\
  get (state (run ticks full)) d = rose /\
  state (run (ticks ++ [fall]) full) = (low, low).
Proof.
  intros CD S M P F W N ticks t_c t_d within full.
  assert (FS : forall ts, state (run ts full)
                          = (coil_run 0 low ts, coil_run 1 low ts)).
  { intros ts. rewrite run_states. unfold full. cbn [with_movement state].
    rewrite S. reflexivity. }
  destruct (run_full (ticks ++ [fall]) full N) as (EF & MF & _).
  rewrite !FS, EF, MF. subst ticks t_c t_d within full.
  destruct CD as [[-> ->] | [-> ->]]; cbn [get Z.eqb fst snd] in *.
  - destruct (pair_AB s a1 mid b1 b2 S M P W) as (E & M' & T).
    destruct (pair_states 0 1 a1 mid b1 b2 fall) as (Q1 & Q2 & Q3 & Q4 & Q5 & Q6);
      [now left | now right | exact P | exact F |].
    rewrite E, M', T, Q5, Q6. cbn [fst snd completes Z.eqb].
    repeat (split; [assumption || reflexivity|]). reflexivity.
  - destruct (pair_BA s a1 mid b1 b2 S M P W) as (E & M' & T).
    destruct (pair_states 1 0 a1 mid b1 b2 fall) as (Q1 & Q2 & Q3 & Q4 & Q5 & Q6);
      [now right | now left | exact P | exact F |].
    rewrite E, M', T, Q5, Q6. cbn [fst snd completes Z.eqb].
    repeat (split; [assumption || reflexivity|]). reflexivity.
Qed.

Lemma decoder_pulse_pair_witness :
  let a1 := mkTick (100, 0) (99000, 99000) in
  let a2 := mkTick (100, 0) (100000, 100000) in
  let high := mkTick (100, 0) (110000, 110000) in
  let b1 := mkTick (100, 100) (119000, 119000) in
  let b2 := mkTick (12, 100) (120000, 120000) in
  let fall := mkTick (0, 0) (130000, 130000) in
  let ticks := pair_ticks a1 [a2; high] b1 b2 in
  events ticks power_on = [cw] /\
  movement (run ticks power_on) = cw /\
  risingTimestamp (run ticks power_on) = (100000, 120000) /\
  events (ticks ++ [fall]) (with_movement power_on cc) = [] /\
  movement (run (ticks ++ [fall]) (with_movement power_on cc)) = cc /\
  state (run (ticks ++ [fall]) (with_movement power_on cc)) = (low, low).
Proof.
  intros a1 a2 high b1 b2 fall ticks.
  destruct (decoder_pulse_pair 0 1 power_on a1 [a2; high] b1 b2 fall cc)
    as (E & M & Tc & Td & EF & MF & _ & _ & _ & _ & SF);
    [ left; split; reflexivity | reflexivity | reflexivity | reflexivity
    | reflexivity | reflexivity | discriminate | ].
  split; [exact E|]. split; [exact M|]. split.
  { cbn [get Z.eqb] in Tc, Td.
    rewrite (surjective_pairing (risingTimestamp (run ticks power_on))).
    fold ticks in Tc, Td. rewrite Tc, Td. reflexivity. }
  repeat split; assumption.
Defined.

(** *** The mailbox between two reads *)

Lemma events_at_most_one (ts : list tick) : forall s,
  (events ts s = [] /\ movement (run ts s) = movement s)
  \/ (movement s = none /\ movement (run ts s) <> none
      /\ events ts s = [movement (run ts s)]).
Proof.
  induction ts as [|t r IH]; intros s; [left; split; reflexivity|].
  cbn [events]. change (run (t :: r) s) with (run r (isr s t)).
  destruct (movement s) eqn:M.
  - left. destruct (isr_full t s) as [F _]; [congruence|].
    destruct (run_full r (isr s t)) as (E1 & E2 & _); [congruence|].
    rewrite E1, E2, F, M. unfold latched. rewrite M. split; reflexivity.
  - destruct (movement (isr s t)) eqn:M'.
    + right. destruct (run_full r (isr s t)) as (E1 & E2 & _); [congruence|].
      rewrite E1, E2, M'. unfold latched. rewrite M, M'.
      split; [reflexivity|]. split; [discriminate | reflexivity].
    + destruct (IH (isr s t)) as [[E1 E2] | (N & E1 & E2)].
      * left. rewrite E1, E2, M'. unfold latched. rewrite M, M'.
        split; reflexivity.
      * right. rewrite E2. unfold latched. rewrite M, M'.
        split; [reflexivity|]. split; [exact E1 | reflexivity].
    + right. destruct (run_full r (isr s t)) as (E1 & E2 & _); [congruence|].
      rewrite E1, E2, M'. unfold latched. rewrite M, M'.
      split; [reflexivity|]. split; [discriminate | reflexivity].
  - left. destruct (isr_full t s) as [F _]; [congruence|].
    destruct (run_full r (isr s t)) as (E1 & E2 & _); [congruence|].
    rewrite E1, E2, F, M. unfold latched. rewrite M. split; reflexivity.
Qed.

(** Whatever the ticks between two reads of the mailbox, the handler
    latches at most one event: either none, and the mailbox is as it was,
    or exactly one, while the mailbox was empty, and that event is what
    the mailbox holds at the end. *)
Theorem one_event_between_reads (ts : list tick) (s : vars) :
  (events ts s = [] /\ movement (run ts s) = movement s)
  \/ (movement s = none /\ movement (run ts s) <> none
      /\ events ts s = [movement (run ts s)]).
Proof. exact (events_at_most_one ts s). Qed.

(** While the mailbox holds a direction, no sequence of ticks latches an
    event, changes the mailbox or records a rise time. *)
Theorem full_mailbox_is_kept (ts : list tick) (s : vars) :
  movement s <> none ->
  events ts s = [] /\ movement (run ts s) = movement s /\
  risingTimestamp (run ts s) = risingTimestamp s.
Proof. exact (run_full ts s). Qed.

Lemma full_mailbox_is_kept_witness :
  let s := mkVars (low, low) (0, 0) cw in
  let ts := [mkTick (20, 0) (100, 100); mkTick (20, 20) (400, 400);
             mkTick (0, 20) (700, 700)] in
  events ts s = [] /\ movement (run ts s) = movement s /\
  risingTimestamp (run ts s) = risingTimestamp s.
Proof.
  apply (full_mailbox_is_kept
           [mkTick (20, 0) (100, 100); mkTick (20, 20) (400, 400);
            mkTick (0, 20) (700, 700)]
           (mkVars (low, low) (0, 0) cw)).
  discriminate.
Defined.

(** Ticks in which neither sample exceeds its trigger latch nothing when
    no coil is in the middle of a rise: the mailbox and the recorded rise
    times stay, no coil starts a rise, and a coil in Low stays in Low. *)
Theorem quiet_ticks_latch_nothing (ts : list tick) (s : vars) :
  forallb (fun t => quiet 0 t && quiet 1 t) ts = true -> settled s ->
  events ts s = [] /\
  movement (run ts s) = movement s /\
  risingTimestamp (run ts s) = risingTimestamp s /\
  settled (run ts s) /\
  (fst (state s) = low -> fst (state (run ts s)) = low) /\
  (snd (state s) = low -> snd (state (run ts s)) = low).
Proof. exact (run_quiet ts s). Qed.

Lemma quiet_ticks_latch_nothing_witness :
  let s := mkVars (rose, low) (500, 0) none in
  let ts := [mkTick (15, 3) (100, 100); mkTick (9, 15) (400, 400)] in
  events ts s = [] /\
  movement (run ts s) = movement s /\
  risingTimestamp (run ts s) = risingTimestamp s /\
  settled (run ts s) /\
  (fst (state s) = low -> fst (state (run ts s)) = low) /\
  (snd (state s) = low -> snd (state (run ts s)) = low).
Proof.
  apply (quiet_ticks_latch_nothing
           [mkTick (15, 3) (100, 100); mkTick (9, 15) (400, 400)]
           (mkVars (rose, low) (500, 0) none)).
  - reflexivity.
  - split; discriminate.
Defined.

End DecoderFacts.

Section StoreFacts.
Import Store.

(** *** Arrays *)

Lemma upd_length {A} (l : list A) : forall n v,
  List.length (upd l n v) = List.length l.
Proof.
  induction l as [|x l IH]; intros [|n] v; simpl; auto.
Qed.

Lemma nth_upd {A} (d : A) (l : list A) : forall n k v,
  nth k (upd l n v) d =
  if Nat.eqb n k && Nat.ltb n (List.length l) then v else nth k l d.
Proof.
  induction l as [|x l IH]; intros [|n] [|k] v; simpl; auto.
  now rewrite andb_false_r.
Qed.

Lemma aset_length {A} (l : list A) i v :
  List.length (aset l i v) = List.length l.
Proof. unfold aset. destruct (i <? 0); [reflexivity | apply upd_length]. Qed.

Lemma aget_aset_same {A} (d : A) (l : list A) i v :
  0 <= i < Z.of_nat (List.length l) -> aget d (aset l i v) i = v.
Proof.
  intros R. unfold aget, aset.
  destruct (i <? 0) eqn:N; [apply Z.ltb_lt in N; lia|].
  rewrite nth_upd, Nat.eqb_refl.
  replace (Nat.ltb _ _) with true; [reflexivity|].
  symmetry. apply Nat.ltb_lt. lia.
Qed.

Lemma aget_aset_other {A} (d : A) (l : list A) i j v :
  0 <= j -> i <> j -> aget d (aset l i v) j = aget d l j.
Proof.
  intros J N. unfold aget, aset.
  destruct (i <? 0) eqn:L; [reflexivity|]. apply Z.ltb_ge in L.
  rewrite nth_upd.
  replace (Nat.eqb _ _) with false; [reflexivity|].
  symmetry. apply Nat.eqb_neq. lia.
Qed.

(** *** The EEPROM block functions *)

Lemma u8_range x : 0 <= u8 x < 256.
Proof. unfold u8. apply Z.mod_pos_bound. lia. Qed.

Lemma u8_small x : 0 <= x < 256 -> u8 x = x.
Proof. unfold u8. apply Z.mod_small. Qed.

Lemma u16_small x : 0 <= x < 65536 -> u16 x = x.
Proof. unfold u16. apply Z.mod_small. Qed.

Lemma i8_small x : -128 <= x < 128 -> i8 x = x.
Proof. intros R. unfold i8. rewrite Z.mod_small; lia. Qed.

Lemma geb_lt x y : x < y -> (x >=? y) = false.
Proof. intros L. rewrite Z.geb_leb. apply Z.leb_gt, L. Qed.

Lemma geb_ge x y : y <= x -> (x >=? y) = true.
Proof. intros L. rewrite Z.geb_leb. apply Z.leb_le, L. Qed.

Lemma peek_range e a : 0 <= peek e a < 256.
Proof. apply u8_range. Qed.

Lemma write_inside bs dst e a :
  dst <= a < dst + Z.of_nat (List.length bs) ->
  eeprom_write_block bs dst e a = nth (Z.to_nat (a - dst)) bs 0.
Proof.
  intros R. unfold eeprom_write_block.
  replace (dst <=? a) with true by (symmetry; apply Z.leb_le; lia).
  replace (a <? _) with true by (symmetry; apply Z.ltb_lt; lia).
  reflexivity.
Qed.

Lemma write_outside bs dst e a :
  a < dst \/ dst + Z.of_nat (List.length bs) <= a ->
  eeprom_write_block bs dst e a = e a.
Proof.
  intros R. unfold eeprom_write_block.
  destruct (dst <=? a) eqn:L; [|reflexivity].
  destruct (a <? _) eqn:U; [|reflexivity].
  apply Z.leb_le in L. apply Z.ltb_lt in U. lia.
Qed.

Lemma read_block_length e src n :
  List.length (eeprom_read_block e src n) = Z.to_nat n.
Proof. unfold eeprom_read_block. now rewrite length_map, length_seq. Qed.

Lemma read_block_nth e src n k :
  (k < Z.to_nat n)%nat ->
  nth k (eeprom_read_block e src n) 0 = peek e (src + Z.of_nat k).
Proof.
  intros K. unfold eeprom_read_block.
  rewrite (nth_indep _ 0 (peek e (src + Z.of_nat 0)))
    by (now rewrite length_map, length_seq).
  rewrite (map_nth (fun i => peek e (src + Z.of_nat i))
                   (seq 0 (Z.to_nat n)) O k).
  rewrite seq_nth by assumption. reflexivity.
Qed.

Lemma read_block_ext e e' src n :
  (forall a, src <= a < src + n -> e a = e' a) ->
  eeprom_read_block e src n = eeprom_read_block e' src n.
Proof.
  intros E. unfold eeprom_read_block. apply map_ext_in.
  intros i I. apply in_seq in I. unfold peek. rewrite E; [reflexivity|]. lia.
Qed.

(** Bytes read back from where they were written. *)
Lemma read_written bs dst e :
  Forall (fun b => 0 <= b < 256) bs ->
  eeprom_read_block (eeprom_write_block bs dst e) dst
                    (Z.of_nat (List.length bs)) = bs.
Proof.
  intros B. apply (nth_ext _ _ 0 0).
  - now rewrite read_block_length, Nat2Z.id.
  - intros k K. rewrite read_block_length, Nat2Z.id in K.
    rewrite read_block_nth by (now rewrite Nat2Z.id).
    unfold peek. rewrite write_inside by lia.
    replace (Z.to_nat (dst + Z.of_nat k - dst)) with k by lia.
    apply u8_small. rewrite Forall_forall in B. apply B, nth_In, K.
Qed.

(** *** The header and its bytes *)

Lemma word_roundtrip w :
  0 <= w < 65536 -> word_of (word_bytes w) = w.
Proof.
  intros R. unfold word_of, word_bytes, u8. simpl nth.
  rewrite (Z.mod_small (w / 256)).
  - rewrite Z.add_comm, Z.mul_comm. symmetry.
    rewrite Z.mul_comm. apply Z.div_mod. lia.
  - split; [apply Z.div_pos; lia | apply Z.div_lt_upper_bound; lia].
Qed.

Lemma is_u8_true x : is_u8 x = true <-> 0 <= x < 256.
Proof. unfold is_u8. rewrite andb_true_iff, Z.leb_le, Z.ltb_lt. tauto. Qed.

Lemma is_u16_true x : is_u16 x = true <-> 0 <= x < 65536.
Proof. unfold is_u16. rewrite andb_true_iff, Z.leb_le, Z.ltb_lt. tauto. Qed.

Lemma length_7 (l : list Z) :
  (Z.of_nat (List.length l) =? N_COMBOS) = true ->
  exists a b c d e f g, l = [a; b; c; d; e; f; g].
Proof.
  intros H. apply Z.eqb_eq in H. unfold N_COMBOS in H.
  do 7 (destruct l as [|? l]; [simpl in H; lia|]).
  destruct l; [|simpl in H; lia]. repeat eexists.
Qed.

Lemma length_8 (l : list Z) :
  (Z.of_nat (List.length l) =? N_CONFIGS) = true ->
  exists a b c d e f g h, l = [a; b; c; d; e; f; g; h].
Proof.
  intros H. apply Z.eqb_eq in H. unfold N_CONFIGS in H.
  do 8 (destruct l as [|? l]; [simpl in H; lia|]).
  destruct l; [|simpl in H; lia]. repeat eexists.
Qed.

Ltac header_cases H :=
  let fp := fresh "fp" in let sel := fresh "sel" in
  let cur := fresh "cur" in let ptrs := fresh "ptrs" in
  match type of H with
  | header_ok ?h = true =>
      destruct h as [fp sel cur ptrs];
      unfold header_ok in H;
      cbn [fingerprint selection curConfig configPtr] in H;
      repeat (let X := fresh "X" in apply andb_prop in H as [H X]);
      match goal with
      | X : (Z.of_nat (List.length cur) =? N_COMBOS) = true |- _ =>
          destruct (length_7 cur X) as (?c & ?c & ?c & ?c & ?c & ?c & ?c & ->);
          clear X
      end;
      match goal with
      | X : (Z.of_nat (List.length ptrs) =? N_CONFIGS) = true |- _ =>
          destruct (length_8 ptrs X)
            as (?p & ?p & ?p & ?p & ?p & ?p & ?p & ?p & ->);
          clear X
      end;
      cbn [forallb] in *;
      repeat match goal with
             | X : _ && _ = true |- _ => apply andb_prop in X as [? ?]
             | X : is_u8 _ = true |- _ => apply is_u8_true in X
             | X : is_u16 _ = true |- _ => apply is_u16_true in X
             | X : (_ <=? _) = true |- _ => apply Z.leb_le in X
             | X : (_ <? _) = true |- _ => apply Z.ltb_lt in X
             end
  end.

Lemma header_roundtrip h :
  header_ok h = true -> header_of_bytes (header_bytes h) = h.
Proof.
  intros H. header_cases H.
  unfold header_of_bytes, header_bytes.
  cbn [fingerprint selection curConfig configPtr flat_map app word_bytes
       firstn skipn nth seq map Nat.add Nat.mul].
  repeat match goal with
         | |- context [word_of [u8 ?w; u8 (?w / 256)]] =>
             change (word_of [u8 w; u8 (w / 256)])
               with (word_of (word_bytes w));
             rewrite (word_roundtrip w) by lia
         end.
  reflexivity.
Qed.

Lemma header_bytes_ok h :
  header_ok h = true ->
  List.length (header_bytes h) = 26%nat /\
  Forall (fun b => 0 <= b < 256) (header_bytes h).
Proof.
  intros H. header_cases H. split; [reflexivity|].
  unfold header_bytes.
  cbn [fingerprint selection curConfig configPtr flat_map app word_bytes].
  repeat constructor; try lia; apply u8_range.
Qed.

(** [writeHeader] makes the EEPROM hold the header in RAM and touches
    nothing behind it. *)
Lemma writeHeader_stored m :
  header_ok (header m) = true ->
  stored_header (writeHeader m) = header m.
Proof.
  intros H. destruct (header_bytes_ok _ H) as [L B].
  unfold stored_header, writeHeader. cbn [rom].
  change sizeof_header with (Z.of_nat 26). rewrite <- L.
  rewrite read_written by assumption. apply header_roundtrip, H.
Qed.

Lemma writeHeader_rest m a :
  header_ok (header m) = true ->
  sizeof_header <= a -> rom (writeHeader m) a = rom m a.
Proof.
  intros H A. destruct (header_bytes_ok _ H) as [L _].
  unfold writeHeader. cbn [rom]. apply write_outside. rewrite L.
  unfold sizeof_header in A. lia.
Qed.

Lemma forallb_upd (P : Z -> bool) (l : list Z) : forall n v,
  P v = true -> forallb P l = true -> forallb P (upd l n v) = true.
Proof.
  induction l as [|x l IH]; intros [|n] v V H; simpl in *; auto.
  - apply andb_prop in H as [_ H]. now rewrite V.
  - apply andb_prop in H as [X H]. rewrite X. simpl. now apply IH.
Qed.

Lemma forallb_aset (P : Z -> bool) (l : list Z) i v :
  P v = true -> forallb P l = true -> forallb P (aset l i v) = true.
Proof.
  intros V H. unfold aset. destruct (i <? 0); [exact H|].
  now apply forallb_upd.
Qed.

(** *** Blocks and their bytes *)

Lemma read_block_cons e a (k : nat) :
  eeprom_read_block e a (Z.of_nat (S k)) =
  peek e a :: eeprom_read_block e (a + 1) (Z.of_nat k).
Proof.
  unfold eeprom_read_block. rewrite !Nat2Z.id.
  cbn [seq map]. rewrite Z.add_0_r. f_equal.
  rewrite <- seq_shift, map_map. apply map_ext. intros i.
  apply f_equal. lia.
Qed.

Lemma entries_of_read e (n : nat) : forall a,
  entries_of_bytes (eeprom_read_block e a (sizeof_entry * Z.of_nat n)) =
  entries_at e a n.
Proof.
  unfold sizeof_entry.
  induction n as [|n IH]; intros a; [reflexivity|].
  replace (4 * Z.of_nat (S n)) with (Z.of_nat (S (S (S (S (4 * n)))))) by lia.
  rewrite !read_block_cons. cbn [entries_of_bytes].
  replace (Z.of_nat (4 * n)) with (4 * Z.of_nat n) by lia.
  replace (a + 1 + 1 + 1 + 1) with (a + 4) by lia. rewrite IH.
  unfold entries_at. cbn [seq map]. f_equal.
  - unfold word_at, word_of. cbn [nth].
    change (Z.of_nat 0) with 0. rewrite Z.mul_0_r, Z.add_0_r.
    replace (a + 1 + 1) with (a + 2) by lia. reflexivity.
  - rewrite <- seq_shift, map_map. apply map_ext. intros i.
    replace (a + 4 + 4 * Z.of_nat i) with (a + 4 * Z.of_nat (S i)) by lia.
    reflexivity.
Qed.

Lemma entries_at_length e a n : List.length (entries_at e a n) = n.
Proof. unfold entries_at. now rewrite length_map, length_seq. Qed.

Lemma entries_at_ext e e' a n :
  (forall x, a <= x < a + 4 * Z.of_nat n -> e x = e' x) ->
  entries_at e a n = entries_at e' a n.
Proof.
  intros E. unfold entries_at. apply map_ext_in. intros i I.
  apply in_seq in I. unfold word_at, peek. rewrite !E by lia. reflexivity.
Qed.

Lemma pair_ok_true p :
  pair_ok p = true <-> 0 <= fst p < 65536 /\ 0 <= snd p < 65536.
Proof. unfold pair_ok. now rewrite andb_true_iff, !is_u16_true. Qed.

Lemma entries_roundtrip (es : list (Z * Z)) :
  forallb pair_ok es = true ->
  entries_of_bytes (flat_map pair_bytes es) = es.
Proof.
  induction es as [|[c k] es IH]; intros H; [reflexivity|].
  cbn [forallb] in H. apply andb_prop in H as [P H].
  apply pair_ok_true in P. cbn [fst snd] in P.
  cbn [flat_map pair_bytes fst snd word_bytes app entries_of_bytes].
  rewrite IH by assumption.
  change (word_of [u8 c; u8 (c / 256)]) with (word_of (word_bytes c)).
  change (word_of [u8 k; u8 (k / 256)]) with (word_of (word_bytes k)).
  now rewrite !word_roundtrip.
Qed.

Lemma forallb_firstn {A} (P : A -> bool) (l : list A) : forall n,
  forallb P l = true -> forallb P (firstn n l) = true.
Proof.
  induction l as [|x l IH]; intros [|n] H; simpl in *; auto.
  apply andb_prop in H as [X H]. rewrite X. simpl. now apply IH.
Qed.

Lemma entries_bytes_ok n es :
  Forall (fun b => 0 <= b < 256) (entries_bytes n es).
Proof.
  unfold entries_bytes. generalize (firstn (Z.to_nat n) es). intros l.
  induction l as [|p l IH]; [constructor|].
  cbn [flat_map pair_bytes word_bytes app].
  repeat (constructor; [apply u8_range|]). exact IH.
Qed.

Lemma entries_bytes_length n es :
  0 <= n <= Z.of_nat (List.length es) ->
  Z.of_nat (List.length (entries_bytes n es)) = sizeof_entry * n.
Proof.
  intros R. unfold entries_bytes, sizeof_entry.
  assert (L : List.length (firstn (Z.to_nat n) es) = Z.to_nat n)
    by (apply firstn_length_le; lia).
  revert L. generalize (firstn (Z.to_nat n) es). intros l L.
  replace n with (Z.of_nat (List.length l)) by lia. clear.
  induction l as [|p l IH]; [reflexivity|].
  cbn [flat_map pair_bytes word_bytes app List.length]. lia.
Qed.

(** Bytes read back from behind the first byte of a written block. *)
Lemma read_written_tail b bs dst e :
  Forall (fun x => 0 <= x < 256) bs ->
  eeprom_read_block (eeprom_write_block (b :: bs) dst e) (dst + 1)
                    (Z.of_nat (List.length bs)) = bs.
Proof.
  intros B. apply (nth_ext _ _ 0 0).
  - now rewrite read_block_length, Nat2Z.id.
  - intros k K. rewrite read_block_length, Nat2Z.id in K.
    rewrite read_block_nth by (now rewrite Nat2Z.id).
    unfold peek. rewrite write_inside by (cbn [List.length]; lia).
    replace (Z.to_nat (dst + 1 + Z.of_nat k - dst)) with (S k) by lia.
    cbn [nth]. apply u8_small. rewrite Forall_forall in B.
    apply B, nth_In, K.
Qed.

(** [readConfig] in range: the count byte and the pairs behind it. *)
Lemma readConfig_in_range m cbn cb :
  0 <= cbn < 8 ->
  readConfig cbn cb m =
  (true, mkConfig (stored_count m cbn)
           (stored_entries m cbn
            ++ skipn (Z.to_nat (stored_count m cbn)) (entry cb))).
Proof.
  intros R. unfold readConfig.
  replace (cbn <? 0) with false by (symmetry; apply Z.ltb_ge; lia).
  rewrite u8_small, geb_lt by (unfold N_CONFIGS; lia). cbn [orb].
  unfold sizeof_nEntries.
  assert (C : nth 0 (eeprom_read_block (rom m) (ptr m cbn) 1) 0
              = stored_count m cbn).
  { change 1 with (Z.of_nat 1). rewrite read_block_cons. reflexivity. }
  rewrite !C. unfold stored_entries.
  rewrite <- entries_of_read, Z2Nat.id by (apply peek_range).
  reflexivity.
Qed.

Lemma readConfig_out_of_range m cbn cb :
  -128 <= cbn < 128 -> cbn < 0 \/ 8 <= cbn ->
  readConfig cbn cb m = (false, mkConfig 0 (entry cb)).
Proof.
  intros T R. unfold readConfig.
  destruct (cbn <? 0) eqn:N; [reflexivity|]. apply Z.ltb_ge in N.
  rewrite u8_small, geb_ge by (unfold N_CONFIGS; lia). reflexivity.
Qed.

(** What [writeConfig] stores is what [readConfig] finds. *)
Lemma read_after_write m cbn cb0 cb :
  0 <= cbn < 8 -> block_ok cb0 = true ->
  0 <= ptr m cbn -> ptr m cbn + 1 < 65536 ->
  readConfig cbn cb (snd (writeConfig cbn cb0 m)) =
  (true, mkConfig (nEntries cb0)
           (firstn (Z.to_nat (nEntries cb0)) (entry cb0)
            ++ skipn (Z.to_nat (nEntries cb0)) (entry cb))).
Proof.
  intros R B P0 P1. unfold block_ok in B.
  rewrite !andb_true_iff, !Z.leb_le in B. destruct B as (((N0 & N1) & NL) & E).
  rewrite readConfig_in_range by assumption.
  unfold writeConfig.
  replace (cbn <? 0) with false by (symmetry; apply Z.ltb_ge; lia).
  rewrite u8_small, geb_lt by (unfold N_CONFIGS; lia). cbn [orb snd].
  unfold stored_count, stored_entries, stored_count, ptr.
  cbn [header rom]. fold (ptr m cbn).
  set (p := ptr m cbn) in *. set (n := nEntries cb0) in *.
  set (bs := entries_bytes n (entry cb0)).
  assert (C : peek (eeprom_write_block (n :: bs) p (rom m)) p = n).
  { unfold peek. rewrite write_inside by (cbn [List.length]; lia).
    rewrite Z.sub_diag. cbn [nth Z.to_nat]. apply u8_small. lia. }
  rewrite C, u16_small by lia. f_equal. f_equal. f_equal.
  rewrite <- entries_of_read, Z2Nat.id by lia.
  rewrite <- (entries_bytes_length n (entry cb0)) by lia. fold bs.
  rewrite read_written_tail by apply entries_bytes_ok.
  unfold bs, entries_bytes. apply entries_roundtrip.
  now apply forallb_firstn.
Qed.

(** The count byte of a written block is its [nEntries]. *)
Lemma stored_count_written m cbn cb0 :
  0 <= cbn < 8 -> 0 <= nEntries cb0 < 256 ->
  stored_count (snd (writeConfig cbn cb0 m)) cbn = nEntries cb0.
Proof.
  intros R N. unfold writeConfig.
  replace (cbn <? 0) with false by (symmetry; apply Z.ltb_ge; lia).
  rewrite u8_small, geb_lt by (unfold N_CONFIGS; lia). cbn [orb snd].
  unfold stored_count, ptr. cbn [header rom]. fold (ptr m cbn).
  unfold peek. rewrite write_inside by (cbn [List.length]; lia).
  rewrite Z.sub_diag. cbn [nth Z.to_nat]. apply u8_small. lia.
Qed.

(** A read that fits fills the first cells of the 32 and keeps the
    others. *)
Lemma readConfig_cells m cbn cb :
  0 <= cbn < 8 -> read_fits cbn m = true ->
  List.length (entry cb) = 32%nat ->
  List.length (entry (snd (readConfig cbn cb m))) = 32%nat.
Proof.
  intros R F L. rewrite readConfig_in_range by assumption.
  cbn [snd entry]. unfold read_fits, entry_cells in F. apply Z.leb_le in F.
  pose proof (peek_range (rom m) (ptr m cbn)) as P.
  fold (stored_count m cbn) in P.
  rewrite length_app, length_skipn, L. unfold stored_entries.
  rewrite entries_at_length. lia.
Qed.

(** C8 fails as stated: slot 1 of the factory store is unused, yet
    [readConfig(1, cb)] passes the range test, the only test there is, and
    reads its count at offset 0, where the low byte of the fingerprint
    sits: it reports 157 entries, not zero, and goes on to the statement
    [return true].  The 628 bytes it copies on the way do not fit the 128
    of [cb.entry]: far from changing nothing, the call writes past the end
    of [cb]. *)
Lemma readConfig_unused_counterexample :
  ptr factory 1 = 0 /\
  fst (readConfig 1 uninit factory) = true /\
  nEntries (snd (readConfig 1 uninit factory)) = 157 /\
  (1 <? 0) || (u8 1 >=? N_CONFIGS) = false /\
  stored_count factory 1 = 157 /\
  read_fits 1 factory = false /\
  sizeof_entry * stored_count factory 1 = 628.
Proof. repeat split; reflexivity. Qed.

(** C8 (amended).  For a block number in 0..7 whose count byte, the byte
    stored at the slot's offset, is at most 32, [readConfig] succeeds and
    fills [cb] with that count followed by exactly that many entry pairs;
    the other cells of the 32 keep what they held.  Whether the slot is
    used is not looked at.  What [writeConfig] has put there is such a
    block, and is read back.  For a block number below 0 or above 7
    [readConfig] fails, reports zero entries and leaves the entries of
    [cb] alone. *)
Theorem readConfig_spec (m : machine) (cbn : Z) (cb cb0 : configBlock) :
  -128 <= cbn < 128 ->
  block_ok cb0 = true -> 0 <= ptr m cbn -> ptr m cbn + 1 < 65536 ->
  (0 <= cbn < 8 -> read_fits cbn m = true ->
   readConfig cbn cb m =
     (true, mkConfig (stored_count m cbn)
              (stored_entries m cbn
               ++ skipn (Z.to_nat (stored_count m cbn)) (entry cb))) /\
   Z.of_nat (List.length (stored_entries m cbn)) = stored_count m cbn /\
   (List.length (entry cb) = 32%nat ->
    List.length (entry (snd (readConfig cbn cb m))) = 32%nat)) /\
  (0 <= cbn < 8 ->
   read_fits cbn (snd (writeConfig cbn cb0 m)) = true /\
   readConfig cbn cb (snd (writeConfig cbn cb0 m)) =
     (true, mkConfig (nEntries cb0)
              (firstn (Z.to_nat (nEntries cb0)) (entry cb0)
               ++ skipn (Z.to_nat (nEntries cb0)) (entry cb)))) /\
  (cbn < 0 \/ 8 <= cbn ->
   readConfig cbn cb m = (false, mkConfig 0 (entry cb))).
Proof.
  intros T B P0 P1. split; [|split].
  - intros R F. split; [now apply readConfig_in_range|]. split.
    + unfold stored_entries. rewrite entries_at_length, Z2Nat.id;
        [reflexivity | apply peek_range].
    + now apply readConfig_cells.
  - intros R. split; [|now apply read_after_write].
    pose proof B as B'. unfold block_ok in B'.
    rewrite !andb_true_iff, !Z.leb_le in B'.
    unfold read_fits, entry_cells.
    rewrite stored_count_written by lia. apply Z.leb_le. lia.
  - intros R. now apply readConfig_out_of_range.
Qed.

Lemma readConfig_spec_witness :
  readConfig 0 uninit factory =
    (true, mkConfig 1 [(KEY_UP_ARROW, KEY_DOWN_ARROW)]) /\
  readConfig 0 uninit (snd (writeConfig 0 blockC factory)) = (true, blockC) /\
  readConfig 9 uninit factory = (false, mkConfig 0 []).
Proof.
  destruct (readConfig_spec factory 0 uninit blockC) as (In & Wr & _);
    [lia | reflexivity | discriminate | reflexivity |].
  destruct In as (R & _); [lia | reflexivity |].
  destruct Wr as (_ & W); [lia|].
  destruct (readConfig_spec factory 9 uninit blockC) as (_ & _ & Out);
    [lia | reflexivity | discriminate | reflexivity |].
  split; [exact R|]. split; [exact W | apply Out; lia].
Defined.

(** *** Loading the header *)

Lemma stored_header_shape m :
  exists a b c d e f g p0 p1 p2 p3 p4 p5 p6 p7,
    curConfig (stored_header m) = [a; b; c; d; e; f; g] /\
    configPtr (stored_header m) = [p0; p1; p2; p3; p4; p5; p6; p7].
Proof.
  unfold stored_header, header_of_bytes, eeprom_read_block.
  change (Z.to_nat sizeof_header) with 26%nat.
  cbn [seq map firstn skipn curConfig configPtr Nat.add Nat.mul].
  repeat eexists.
Qed.

Lemma readHeader_mismatch m :
  fingerprint (stored_header m) <> FINGERPRINT ->
  readHeader m =
  (false,
   snd (writeConfig 0 (mkConfig 1 [(KEY_UP_ARROW, KEY_DOWN_ARROW)])
          (writeHeader (mkMachine default_header (rom m))))).
Proof.
  intros F. unfold readHeader. fold (stored_header m).
  apply Z.eqb_neq in F. rewrite F.
  destruct (stored_header_shape m)
    as (a & b & c & d & e & f & g & p0 & p1 & p2 & p3 & p4 & p5 & p6 & p7
        & -> & ->).
  reflexivity.
Qed.

(** C6 fails as stated: the defaults put on an erased EEPROM have
    selection 1, not 0. *)
Lemma readHeader_selection_counterexample :
  let m := mkMachine (mkHeader 0 0 [] []) erased in
  fingerprint (stored_header m) <> FINGERPRINT /\
  fst (readHeader m) = false /\
  selection (header (snd (readHeader m))) = 1.
Proof. repeat split; discriminate. Qed.

(** C6 (amended).  When the stored fingerprint does not match,
    [readHeader] puts the defaults in RAM and in the EEPROM (selection 1,
    each of the seven button combinations mapped to block 0, block 0
    holding the single pair 0xDA, 0xD9 at the offset right behind the
    header, the other seven slots unused), leaves the EEPROM behind block
    0 alone and returns false; when it matches, the header in RAM is the
    stored one, the EEPROM is unchanged and the result is true. *)
Theorem readHeader_spec (m : machine) (cb : configBlock) :
  (fingerprint (stored_header m) <> FINGERPRINT ->
   let m' := snd (readHeader m) in
   fst (readHeader m) = false /\
   header m' = default_header /\
   stored_header m' = default_header /\
   ptr m' 0 = sizeof_header /\
   readConfig 0 cb m' =
     (true, mkConfig 1 ((KEY_UP_ARROW, KEY_DOWN_ARROW) :: skipn 1 (entry cb)))
   /\
   (forall a, sizeof_header + 5 <= a -> rom m' a = rom m a)) /\
  (fingerprint (stored_header m) = FINGERPRINT ->
   readHeader m = (true, mkMachine (stored_header m) (rom m))).
Proof.
  split.
  - intros F. rewrite (readHeader_mismatch m F). cbn [fst snd].
    set (m1 := writeHeader (mkMachine default_header (rom m))).
    set (cb0 := mkConfig 1 [(KEY_UP_ARROW, KEY_DOWN_ARROW)]).
    assert (H1 : header_ok (header m1) = true) by reflexivity.
    split; [reflexivity|]. split; [reflexivity|]. split; [|split; [|split]].
    + transitivity (stored_header m1);
        [| exact (writeHeader_stored
                    (mkMachine default_header (rom m)) eq_refl)].
      unfold stored_header. apply f_equal. apply read_block_ext.
      intros a A. unfold writeConfig. cbn [snd orb rom Z.ltb].
      apply write_outside. left.
      change (ptr m1 0) with 26. unfold sizeof_header in A. lia.
    + reflexivity.
    + rewrite (read_after_write m1 0 cb0 cb);
        [reflexivity | lia | reflexivity | discriminate | reflexivity].
    + intros a A. unfold sizeof_header in A.
      change (rom (snd (writeConfig 0 cb0 m1)))
        with (eeprom_write_block
                (nEntries cb0 :: entries_bytes (nEntries cb0) (entry cb0))
                26 (rom m1)).
      rewrite write_outside
        by (right;
            change (Z.of_nat (List.length
                      (nEntries cb0
                       :: entries_bytes (nEntries cb0) (entry cb0))))
              with 5; lia).
      unfold m1. rewrite writeHeader_rest;
        [reflexivity | reflexivity | unfold sizeof_header; lia].
  - intros F. unfold readHeader. fold (stored_header m).
    apply Z.eqb_eq in F. now rewrite F.
Qed.

Lemma readHeader_spec_witness :
  let m := mkMachine (mkHeader 0 0 [] []) erased in
  header (snd (readHeader m)) = default_header /\
  readHeader (snd (readHeader m)) = (true, snd (readHeader m)) /\
  stored_header (snd (readHeader m)) = default_header.
Proof.
  intros m.
  destruct (readHeader_spec m uninit) as [Fresh _].
  destruct Fresh as (_ & H & S & _); [discriminate|].
  destruct (readHeader_spec (snd (readHeader m)) uninit) as [_ Again].
  split; [exact H|]. split; [|exact S].
  rewrite Again; [|rewrite S; reflexivity].
  rewrite S, <- H. now destruct (snd (readHeader m)).
Defined.

(** *** Free space *)

(** C1 on the factory store: one block of one entry.  The block takes 5
    bytes, the count byte and one pair of two words, so 993 bytes are
    free behind it; [freeSpace()] answers 994, having subtracted the
    pairs only. *)
Theorem freeSpace_factory :
  nConfigs factory = 1 /\
  used_footprints all_slots factory = 5 /\
  1024 - sizeof_header - used_footprints all_slots factory = 993 /\
  freeSpace factory = 994.
Proof. repeat split; reflexivity. Qed.

(** *** Removing a block: the header *)

Lemma upd_same {A} (d : A) (l : list A) : forall n,
  upd l n (nth n l d) = l.
Proof.
  induction l as [|x l IH]; intros [|n]; simpl; auto. now rewrite IH.
Qed.

Lemma aset_same (l : list Z) i : 0 <= i -> aset l i (aget 0 l i) = l.
Proof.
  intros I. unfold aset, aget.
  replace (i <? 0) with false by (symmetry; apply Z.ltb_ge; lia).
  apply upd_same.
Qed.

Lemma remap_combo_aset n cur combo :
  1 <= n -> 0 <= combo < Z.of_nat (List.length cur) ->
  remap_combo n cur combo = aset cur combo (remapped n (aget 0 cur combo)).
Proof.
  intros N C. unfold remap_combo, remapped.
  destruct (aget 0 cur combo =? n) eqn:E.
  - rewrite aget_aset_same by assumption.
    replace (0 >? n) with false; [reflexivity|].
    symmetry. rewrite Z.gtb_ltb. apply Z.ltb_ge. lia.
  - destruct (aget 0 cur combo >? n); [reflexivity|].
    symmetry. apply aset_same. lia.
Qed.

Lemma remap_all n a b c d e f g :
  1 <= n ->
  fold_left (remap_combo n) (map Z.of_nat (seq 0 7)) [a; b; c; d; e; f; g] =
  map (remapped n) [a; b; c; d; e; f; g].
Proof.
  intros N. cbn [seq map fold_left].
  repeat match goal with
         | |- context [remap_combo n (?x :: ?l) ?k] =>
             rewrite (remap_combo_aset n (x :: l) k)
               by (cbn [List.length]; lia);
             let v := eval cbv in (Z.to_nat k) in
             change (aget 0 (x :: l) k) with (nth v (x :: l) 0);
             change (aset (x :: l) k) with (upd (x :: l) v);
             cbn [upd nth]
         end.
  reflexivity.
Qed.

Lemma remove_loop_header (cbis : list Z) (delta : Z) : forall cb m,
  let m' := remove_loop cbis delta cb m in
  fingerprint (header m') = fingerprint (header m) /\
  selection (header m') = selection (header m) /\
  curConfig (header m') = curConfig (header m) /\
  configPtr (header m') = shift_ptrs cbis delta (configPtr (header m)).
Proof.
  induction cbis as [|cbi rest IH]; intros cb m; cbn [remove_loop shift_ptrs].
  - auto.
  - fold (ptr m cbi). destruct (ptr m cbi =? 0); [cbn; auto|].
    destruct (writeConfig _ _ _) as [cb2 m2] eqn:W.
    assert (H2 : header m2 = header (set_configPtr m cbi 0)).
    { unfold writeConfig in W.
      destruct (_ || _); inversion W; reflexivity. }
    specialize (IH cb2 (set_configPtr m2 (cbi - 1) (u16 (ptr m cbi - delta)))).
    cbn zeta in IH. destruct IH as (I1 & I2 & I3 & I4).
    rewrite I1, I2, I3, I4. unfold set_configPtr at 1 2 3 4.
    cbn [header fingerprint selection curConfig configPtr].
    rewrite H2. cbn. auto.
Qed.

Lemma removeConfig_header m n :
  header_ok (header m) = true ->
  1 <= n < 8 -> ptr m n <> 0 ->
  fst (removeConfig n m) = true /\
  header (snd (removeConfig n m)) =
    mkHeader (fingerprint (header m)) (selection (header m))
             (map (remapped n) (curConfig (header m)))
             (shift_ptrs
                (map Z.of_nat (seq (Z.to_nat (n + 1)) (Z.to_nat (7 - n))))
                (u16 (u16 (stored_count m n * sizeof_entry)
                      + sizeof_nEntries))
                (configPtr (header m))).
Proof.
  intros H N P. unfold removeConfig.
  replace (n <? 1) with false by (symmetry; apply Z.ltb_ge; lia).
  rewrite geb_lt by (unfold N_CONFIGS; lia).
  replace (ptr m n =? 0) with false by (symmetry; now apply Z.eqb_neq).
  cbn [orb fst snd]. split; [reflexivity|].
  rewrite i8_small by lia.
  set (m1 := set_curConfig m _).
  rewrite (readConfig_in_range m1 n uninit) by lia. cbn [snd nEntries].
  change (stored_count m1 n) with (stored_count m n).
  match goal with
  | |- header (writeHeader (remove_loop ?c ?d ?cb ?mm)) = _ =>
      destruct (remove_loop_header c d cb mm) as (I1 & I2 & I3 & I4);
      change (header (writeHeader (remove_loop c d cb mm)))
        with (header (remove_loop c d cb mm));
      destruct (header (remove_loop c d cb mm)) as [f s cu pt]
  end.
  cbn [fingerprint selection curConfig configPtr] in *. subst.
  unfold m1.
  cbn [set_curConfig header fingerprint selection curConfig configPtr].
  f_equal.
  unfold header_ok in H. rewrite !andb_true_iff in H.
  destruct H as (((((H1 & H2) & H3) & H4) & H5) & H6).
  destruct (length_7 _ H3) as (a & b & c & d & e & f & g & ->).
  apply remap_all. lia.
Qed.

Lemma chain_cons e x p r :
  chain e x (p :: r) =
  if p =? 0 then forallb (Z.eqb 0) r && (x <=? 1024)
  else (p =? x) && (1 <=? peek e p) && (peek e p <=? 32) &&
       chain e (p + sizeof_nEntries + peek e p * sizeof_entry) r.
Proof. reflexivity. Qed.

Lemma chain_nil e x : chain e x [] = (x <=? 1024).
Proof. reflexivity. Qed.

Lemma shift_cons cbi rest d ptrs :
  shift_ptrs (cbi :: rest) d ptrs =
  if aget 0 ptrs cbi =? 0 then aset ptrs (cbi - 1) 0
  else shift_ptrs rest d
         (aset (aset ptrs cbi 0) (cbi - 1) (u16 (aget 0 ptrs cbi - d))).
Proof. reflexivity. Qed.

Lemma nConfigs_explicit f s c e a0 a1 a2 a3 a4 a5 a6 a7 :
  nConfigs (mkMachine (mkHeader f s c [a0; a1; a2; a3; a4; a5; a6; a7]) e) =
  if a1 =? 0 then 1 else if a2 =? 0 then 2 else if a3 =? 0 then 3
  else if a4 =? 0 then 4 else if a5 =? 0 then 5 else if a6 =? 0 then 6
  else if a7 =? 0 then 7 else 8.
Proof. reflexivity. Qed.

(** Array reads and writes at literal indices. *)
Ltac arr :=
  repeat match goal with
         | |- context [aget 0 (?x :: ?l) ?i] =>
             let v := eval cbv in (Z.to_nat i) in
             change (aget 0 (x :: l) i) with (nth v (x :: l) 0);
             cbn [nth]
         | |- context [aset (?x :: ?l) ?i ?w] =>
             let v := eval cbv in (Z.to_nat i) in
             change (aset (x :: l) i w) with (upd (x :: l) v w);
             cbn [upd]
         end.

(** The cases of the layout invariant: how many slots are used. *)
Ltac chain_cases C :=
  repeat first
    [ rewrite chain_nil in C
    | rewrite chain_cons in C;
      match type of C with
      | (if ?p =? 0 then _ else _) = true =>
          let Zp := fresh "Zp" in
          destruct (p =? 0) eqn:Zp;
          [ apply Z.eqb_eq in Zp; subst p;
            apply andb_prop in C as [C ?]; cbn [forallb] in C;
            repeat match type of C with
                   | _ && _ = true =>
                       let Q := fresh "Q" in
                       apply andb_prop in C as [Q C];
                       apply Z.eqb_eq in Q;
                       match type of Q with 0 = ?v => subst v end
                   end
          | let E := fresh "E" in let L := fresh "L" in let U := fresh "U" in
            apply andb_prop in C as [C ?];
            apply andb_prop in C as [C U];
            apply andb_prop in C as [E L];
            apply Z.eqb_eq in E; apply Z.leb_le in L; apply Z.leb_le in U;
            match goal with
            | X : chain _ _ _ = true |- _ => rename X into C
            end ]
      end ].

Ltac slot_cases i :=
  let Hi := fresh "Hi" in
  assert (Hi : i = 0 \/ i = 1 \/ i = 2 \/ i = 3 \/ i = 4 \/ i = 5
               \/ i = 6 \/ i = 7) by lia;
  destruct Hi as [-> | [-> | [-> | [-> | [-> | [-> | [-> | ->]]]]]]].

(** The table of offsets after [removeConfig(n)], [n] at most 6, on a
    store that satisfies the layout invariant; by cases on the number of
    used slots and on [n]. *)
Lemma removeConfig_table m n :
  store_ok m = true -> 1 <= n <= 6 -> ptr m n <> 0 ->
  let m' := snd (removeConfig n m) in
  nConfigs m' = nConfigs m - 1 /\
  (forall i, n <= i -> i + 1 < nConfigs m ->
     ptr m' i = ptr m (i + 1) - footprint m n) /\
  ptr m' (nConfigs m - 1) = 0 /\
  (forall i, 0 <= i < n -> ptr m' i = ptr m i).
Proof.
  destruct m as [h e]. intros S N P.
  unfold store_ok in S. cbn [header rom] in S.
  apply andb_prop in S as [S C]. apply andb_prop in S as [H P0].
  destruct (removeConfig_header (mkMachine h e) n H ltac:(lia) P) as [_ HH].
  cbv zeta.
  destruct (snd (removeConfig n (mkMachine h e))) as [h' e'].
  cbn [header] in HH. subst h'.
  header_cases H.
  cbn [header fingerprint selection curConfig configPtr] in *.
  unfold ptr in P, P0. cbn [header configPtr] in P, P0.
  chain_cases C.
  all: try (exfalso; cbn in P0; discriminate).
  all: assert (Hn : n = 1 \/ n = 2 \/ n = 3 \/ n = 4 \/ n = 5 \/ n = 6)
    by lia;
    destruct Hn as [-> | [-> | [-> | [-> | [-> | ->]]]]].
  all: try (exfalso; apply P; reflexivity).
  all: match goal with
       | |- context [map Z.of_nat (seq ?a ?b)] =>
           let v := eval cbv in (map Z.of_nat (seq a b)) in
           change (map Z.of_nat (seq a b)) with v
       end.
  all: unfold footprint, stored_count, ptr; cbn [header rom configPtr]; arr.
  all: repeat (rewrite shift_cons; arr;
               repeat match goal with
                      | Zp : (?p =? 0) = false |- context [?p =? 0] =>
                          rewrite Zp
                      end;
               change (0 =? 0) with true; cbv iota).
  all: cbn [shift_ptrs].
  all: rewrite !nConfigs_explicit.
  all: unfold sizeof_entry, sizeof_nEntries, sizeof_header in *.
  all: repeat match goal with
              | X : (_ <=? _) = true |- _ => apply Z.leb_le in X
              | X : (_ =? 0) = false |- _ => apply Z.eqb_neq in X
              end.
  all: repeat match goal with
              | |- context [u16 ?x] => rewrite (u16_small x) by lia
              end.
  all: repeat match goal with
              | |- context [?a =? 0] =>
                  first [ rewrite (proj2 (Z.eqb_neq a 0)) by lia
                        | rewrite (proj2 (Z.eqb_eq a 0)) by lia ]
              end.
  all: split; [reflexivity|].
  all: split; [|split].
  all: try (intros i I1 I2; slot_cases i; try lia; arr; lia).
  all: try (intros i I1; slot_cases i; try lia; arr; reflexivity).
  all: try (arr; reflexivity).
Qed.

(** *** Removing a block: the data of the next block *)
Lemma header_bytes_length h :
  List.length (curConfig h) = 7%nat -> List.length (configPtr h) = 8%nat ->
  List.length (header_bytes h) = 26%nat.
Proof.
  intros C P. unfold header_bytes. rewrite !length_app. cbn [List.length word_bytes].
  rewrite C.
  assert (L : forall l : list Z, List.length (flat_map word_bytes l) = (2 * List.length l)%nat).
  { induction l; simpl; lia. }
  rewrite L, P. reflexivity.
Qed.

(** One round of the loop of [removeConfig] on a used slot. *)
Lemma remove_loop_used cbi rest delta cb m :
  1 <= cbi <= 7 -> ptr m cbi <> 0 ->
  let cb1 := snd (readConfig cbi cb m) in
  remove_loop (cbi :: rest) delta cb m =
  remove_loop rest delta cb1
    (set_configPtr
       (mkMachine (header (set_configPtr m cbi 0))
          (eeprom_write_block
             (nEntries cb1 :: entries_bytes (nEntries cb1) (entry cb1))
             (ptr (set_configPtr m cbi 0) (cbi - 1)) (rom m)))
       (cbi - 1) (u16 (ptr m cbi - delta))).
Proof.
  intros R P. cbn [remove_loop].
  replace (ptr m cbi =? 0) with false by (symmetry; now apply Z.eqb_neq).
  rewrite !i8_small by lia. unfold writeConfig.
  replace (cbi - 1 <? 0) with false by (symmetry; apply Z.ltb_ge; lia).
  rewrite u8_small, geb_lt by (unfold N_CONFIGS; lia). cbn [orb].
  reflexivity.
Qed.

Lemma remove_loop_stop cbi rest delta cb m :
  ptr m cbi = 0 ->
  remove_loop (cbi :: rest) delta cb m = set_configPtr m (cbi - 1) 0.
Proof.
  intros P. cbn [remove_loop]. now rewrite P.
Qed.

Lemma word_at_range e a : 0 <= word_at e a < 65536.
Proof.
  unfold word_at. pose proof (peek_range e a). pose proof (peek_range e (a + 1)). lia.
Qed.

Lemma entries_at_ok e a n : forallb pair_ok (entries_at e a n) = true.
Proof.
  unfold entries_at. apply forallb_forall. intros x X.
  apply in_map_iff in X as (i & <- & _). apply pair_ok_true. cbn [fst snd].
  split; apply word_at_range.
Qed.

Lemma forallb_skipn {A} (P : A -> bool) (l : list A) : forall n,
  forallb P l = true -> forallb P (skipn n l) = true.
Proof.
  induction l as [|x l IH]; intros [|n] H; simpl in *; auto.
  apply andb_prop in H as [_ H]. now apply IH.
Qed.

Lemma readConfig_ok cbn cb m :
  0 <= cbn < 8 -> forallb pair_ok (entry cb) = true ->
  let cb' := snd (readConfig cbn cb m) in
  nEntries cb' = stored_count m cbn /\
  firstn (Z.to_nat (stored_count m cbn)) (entry cb') = stored_entries m cbn /\
  (stored_count m cbn <= 32 -> block_ok cb' = true).
Proof.
  intros R B. rewrite readConfig_in_range by assumption. cbn [snd nEntries entry].
  pose proof (peek_range (rom m) (ptr m cbn)) as PR. fold (stored_count m cbn) in PR.
  assert (L : List.length (stored_entries m cbn) = Z.to_nat (stored_count m cbn))
    by apply entries_at_length.
  split; [reflexivity|]. split.
  - rewrite <- L. rewrite firstn_app, Nat.sub_diag, firstn_all. cbn [firstn].
    apply app_nil_r.
  - intros U. unfold block_ok. cbn [nEntries entry].
    rewrite !andb_true_iff, !Z.leb_le. repeat split; try lia.
    + rewrite length_app, L. lia.
    + rewrite forallb_app. apply andb_true_intro. split.
      * apply entries_at_ok.
      * now apply forallb_skipn.
Qed.

Lemma readConfig_ext cbn cb m m' :
  0 <= cbn < 8 -> ptr m cbn = ptr m' cbn ->
  sizeof_header <= ptr m cbn -> ptr m cbn + 1 < 65536 ->
  (forall a, sizeof_header <= a -> rom m a = rom m' a) ->
  readConfig cbn cb m = readConfig cbn cb m'.
Proof.
  intros R P L U E. rewrite !readConfig_in_range by assumption.
  unfold stored_entries, stored_count. rewrite <- P.
  unfold sizeof_header in *.
  assert (C : peek (rom m) (ptr m cbn) = peek (rom m') (ptr m cbn))
    by (unfold peek; rewrite E by lia; reflexivity).
  rewrite <- C. f_equal. f_equal. f_equal.
  apply entries_at_ext. intros x X. apply E. rewrite u16_small in X by lia. lia.
Qed.

Lemma cbis_cons n :
  1 <= n <= 6 ->
  map Z.of_nat (seq (Z.to_nat (n + 1)) (Z.to_nat (7 - n))) =
  (n + 1) :: map Z.of_nat (seq (Z.to_nat (n + 2)) (Z.to_nat (6 - n))).
Proof.
  intros N. replace (Z.to_nat (7 - n)) with (S (Z.to_nat (6 - n))) by lia.
  cbn [seq map]. rewrite Z2Nat.id by lia.
  replace (S (Z.to_nat (n + 1))) with (Z.to_nat (n + 2)) by lia. reflexivity.
Qed.

Lemma move_next_general m n cb q c c1 :
  header_ok (header m) = true -> 1 <= n <= 6 ->
  ptr m n = q -> sizeof_header <= q ->
  stored_count m n = c -> 1 <= c <= 32 ->
  ptr m (n + 1) = q + 1 + 4 * c ->
  stored_count m (n + 1) = c1 -> 1 <= c1 <= 32 ->
  q + 1 + 4 * c + 1 + 4 * c1 <= 1024 ->
  (n < 6 -> ptr m (n + 2) = 0) ->
  forallb pair_ok (entry cb) = true ->
  readConfig n cb (snd (removeConfig n m)) = readConfig (n + 1) cb m.
Proof.
  intros H N Pn Q Cn RC Pn1 Cn1 RC1 End Last B.
  unfold sizeof_header in Q.
  assert (LC : List.length (curConfig (header m)) = 7%nat /\
               List.length (configPtr (header m)) = 8%nat).
  { unfold header_ok in H. rewrite !andb_true_iff, !Z.eqb_eq in H.
    unfold N_COMBOS, N_CONFIGS in H. lia. }
  destruct LC as [LCur LPtr].
  unfold removeConfig.
  replace (n <? 1) with false by (symmetry; apply Z.ltb_ge; lia).
  rewrite geb_lt by (unfold N_CONFIGS; lia).
  replace (ptr m n =? 0) with false by (symmetry; apply Z.eqb_neq; lia).
  cbn [orb snd]. rewrite i8_small by lia.
  set (m1 := set_curConfig m _).
  assert (P1 : forall i, ptr m1 i = ptr m i) by reflexivity.
  assert (R1 : rom m1 = rom m) by reflexivity.
  assert (S1 : forall i, stored_count m1 i = stored_count m i) by reflexivity.
  destruct (readConfig_ok n uninit m1 ltac:(lia) eq_refl) as (N0 & _ & B0).
  set (cb0 := snd (readConfig n uninit m1)) in *.
  rewrite S1, Cn in N0, B0. specialize (B0 ltac:(lia)).
  rewrite N0.
  replace (u16 (u16 (c * sizeof_entry) + sizeof_nEntries)) with (4 * c + 1)
    by (unfold sizeof_entry, sizeof_nEntries;
        rewrite (u16_small (c * 4)) by lia; rewrite u16_small by lia; lia).
  rewrite cbis_cons by assumption.
  rewrite remove_loop_used by (rewrite ?P1; lia). cbv zeta.
  assert (B0' : forallb pair_ok (entry cb0) = true).
  { unfold block_ok in B0. rewrite !andb_true_iff in B0. tauto. }
  destruct (readConfig_ok (n + 1) cb0 m1 ltac:(lia) B0') as (N1 & F1 & B1).
  set (cb1 := snd (readConfig (n + 1) cb0 m1)) in *.
  rewrite S1, Cn1 in N1, B1, F1. specialize (B1 ltac:(lia)).
  replace (n + 1 - 1) with n by lia.
  assert (Pq : ptr (set_configPtr m1 (n + 1) 0) n = q).
  { unfold ptr, set_configPtr. cbn [header configPtr].
    rewrite aget_aset_other by lia. exact Pn. }
  rewrite Pq, P1, Pn1, R1.
  replace (u16 (q + 1 + 4 * c - (4 * c + 1))) with q
    by (rewrite u16_small; lia).
  set (W := eeprom_write_block _ q (rom m)).
  set (M3 := set_configPtr _ n q).
  assert (L3 : List.length (curConfig (header M3)) = 7%nat /\
               List.length (configPtr (header M3)) = 8%nat).
  { unfold M3, set_configPtr, m1, set_curConfig.
    cbn [header curConfig configPtr]. rewrite !aset_length. split; [|exact LPtr].
    unfold header_ok in H. rewrite !andb_true_iff in H.
    destruct H as (((((H1 & H2) & H3) & H4) & H5) & H6).
    destruct (length_7 _ H3) as (a0 & b0 & c0 & d0 & e0 & f0 & g0 & ->).
    rewrite remap_all by lia. reflexivity. }
  assert (P3 : ptr M3 n = q).
  { unfold M3, ptr, set_configPtr, m1, set_curConfig.
    cbn [header configPtr].
    apply aget_aset_same. rewrite aset_length, LPtr. lia. }
  assert (R3 : rom M3 = W) by reflexivity.
  assert (MF : exists mf, remove_loop
                 (map Z.of_nat (seq (Z.to_nat (n + 2)) (Z.to_nat (6 - n))))
                 (4 * c + 1) cb1 M3 = mf /\
               rom mf = W /\ ptr mf n = q /\
               List.length (curConfig (header mf)) = 7%nat /\
               List.length (configPtr (header mf)) = 8%nat).
  { destruct (Z.eq_dec n 6) as [-> | N6].
    - exists M3. repeat split; try assumption; apply L3.
    - replace (Z.to_nat (6 - n)) with (S (Z.to_nat (5 - n))) by lia.
      cbn [seq map]. rewrite Z2Nat.id by lia.
      rewrite remove_loop_stop.
      + eexists. split; [reflexivity|]. split; [reflexivity|]. split.
        * unfold ptr, set_configPtr. cbn [header configPtr].
          rewrite aget_aset_other by lia. exact P3.
        * unfold set_configPtr. cbn [header curConfig configPtr].
          rewrite aset_length. exact L3.
      + unfold M3, ptr, set_configPtr, m1, set_curConfig.
        cbn [header configPtr]. rewrite !aget_aset_other by lia.
        apply Last. lia. }
  destruct MF as (mf & -> & RF & PF & LF1 & LF2).
  set (Mx := mkMachine (header mf) (rom m)).
  assert (Wx : snd (writeConfig n cb1 Mx) = mkMachine (header mf) W).
  { unfold writeConfig.
    replace (n <? 0) with false by (symmetry; apply Z.ltb_ge; lia).
    rewrite u8_small, geb_lt by (unfold N_CONFIGS; lia). cbn [orb snd].
    unfold Mx at 1. cbn [header]. f_equal. unfold W.
    change (ptr Mx n) with (ptr mf n). now rewrite PF. }
  rewrite (readConfig_ext n cb (writeHeader mf) (snd (writeConfig n cb1 Mx))).
  - rewrite read_after_write; try assumption; try lia.
    + rewrite readConfig_in_range by lia. rewrite Cn1, N1, F1. reflexivity.
    + change (ptr Mx n) with (ptr mf n). lia.
    + change (ptr Mx n) with (ptr mf n). lia.
  - lia.
  - rewrite Wx. reflexivity.
  - change (ptr (writeHeader mf) n) with (ptr mf n). unfold sizeof_header. lia.
  - change (ptr (writeHeader mf) n) with (ptr mf n). lia.
  - intros a A. rewrite Wx. cbn [rom]. unfold writeHeader. cbn [rom].
    rewrite write_outside; [exact (f_equal (fun f => f a) RF)|].
    right. rewrite header_bytes_length by assumption.
    unfold sizeof_header in A. lia.
Qed.

Lemma removeConfig_moves_next m n cb :
  store_ok m = true -> 1 <= n <= 6 -> nConfigs m = n + 2 ->
  forallb pair_ok (entry cb) = true ->
  readConfig n cb (snd (removeConfig n m)) = readConfig (n + 1) cb m.
Proof.
  destruct m as [h e]. intros S N K B.
  unfold store_ok in S. cbn [header rom] in S.
  apply andb_prop in S as [S C]. apply andb_prop in S as [H P0].
  apply (move_next_general (mkMachine h e) n cb
           (ptr (mkMachine h e) n) (stored_count (mkMachine h e) n)
           (stored_count (mkMachine h e) (n + 1)));
    try assumption; try reflexivity.
  all: header_cases H.
  all: cbn [header fingerprint selection curConfig configPtr] in *.
  all: unfold ptr in P0; cbn [header configPtr] in P0.
  all: chain_cases C.
  all: try (exfalso; cbn in P0; discriminate).
  all: assert (Hn : n = 1 \/ n = 2 \/ n = 3 \/ n = 4 \/ n = 5 \/ n = 6)
    by lia;
    destruct Hn as [-> | [-> | [-> | [-> | [-> | ->]]]]].
  all: rewrite nConfigs_explicit in K.
  all: repeat match goal with
              | Zp : (?p =? 0) = false, K : context [?p =? 0] |- _ =>
                  rewrite Zp in K
              end.
  all: change (0 =? 0) with true in K; cbv iota in K.
  all: try discriminate K.
  all: unfold stored_count, ptr; cbn [header rom configPtr]; arr.
  all: unfold sizeof_entry, sizeof_nEntries, sizeof_header in *.
  all: repeat match goal with
              | X : (_ <=? _) = true |- _ => apply Z.leb_le in X
              | X : (_ =? 0) = false |- _ => apply Z.eqb_neq in X
              end.
  all: try lia.
  all: try (intros _; reflexivity).
Qed.

(** *** Removing a block *)

Lemma aget_map_remapped n cur combo :
  1 <= n -> 0 <= combo < Z.of_nat (List.length cur) ->
  aget 0 (map (remapped n) cur) combo = remapped n (aget 0 cur combo).
Proof.
  intros N C. unfold aget.
  rewrite (nth_indep _ 0 (remapped n 0)) by (rewrite length_map; lia).
  apply map_nth.
Qed.

Lemma forallb_aget (P : Z -> bool) (l : list Z) i :
  forallb P l = true -> 0 <= i < Z.of_nat (List.length l) ->
  P (aget 0 l i) = true.
Proof.
  intros F I. rewrite forallb_forall in F. apply F.
  unfold aget. apply nth_In. lia.
Qed.

(** Two places where the compaction loop of [removeConfig] does not do
    what its comment announces; the theorem below leaves them out.

    In the loop [writeConfig(cbi - 1, cb)] writes at
    [header.configPtr[cbi - 1]], which the round before has set to 0 (only
    the first round finds the offset of the removed block there): from the
    second block behind the removed one on, the data goes to address 0 and
    the block keeps the bytes that were at its new offset.  Removing block
    1 of [store3], block 3 (two entries) ends up as a copy of block 2. *)
Lemma removeConfig_data_slip :
  readConfig 3 uninit store3 = (true, blockC) /\
  readConfig 2 uninit (snd (removeConfig 1 store3)) = (true, blockB).
Proof. split; reflexivity. Qed.

(** The slot behind the last used one is zeroed inside the loop only, and
    for block 7 the loop has no round: the table keeps all eight blocks. *)
Lemma removeConfig_last_slot_slip :
  nConfigs store8 = 8 /\
  fst (removeConfig 7 store8) = true /\
  nConfigs (snd (removeConfig 7 store8)) = 8.
Proof. repeat split; reflexivity. Qed.

(** C3 fails as stated: with combination 0 mapped to block 2, removing
    block 1 leaves combination 0 mapped to 1, the number of the removed
    block (and now of the block that was 2). *)
Lemma removeConfig_mapping_counterexample :
  let m := snd (setConfig 0 2 store3) in
  store_ok m = true /\ negb (ptr m 1 =? 0) = true /\
  aget 0 (curConfig (header m)) 0 = 2 /\
  fst (removeConfig 1 m) = true /\
  aget 0 (curConfig (header (snd (removeConfig 1 m)))) 0 = 1.
Proof. repeat split; reflexivity. Qed.

(** C3 (amended).  On a store that satisfies the layout invariant, for
    every [n] in 1..7 that addresses a used slot, [removeConfig(n)]
    returns true and rewrites every combo mapping: one equal to [n]
    becomes 0, one greater than [n] is decremented, the others stay.  For
    [n] up to 6 it also decreases [nConfigs()] by exactly 1, gives every
    block previously at an index [i] greater than [n] the index [i - 1]
    with its stored offset decreased by exactly the footprint of the
    removed block, zeroes the slot behind the last used one and leaves the
    offsets below [n] alone; the block previously at [n + 1], when it was
    the last used one, is read at index [n] with its count and entries
    unchanged.  For [n] = 0, [n] of 8 or more, or an unused slot it
    returns false and nothing changes. *)
Theorem removeConfig_spec (m : machine) (n : Z) (cb : configBlock) :
  store_ok m = true -> 0 <= n < 256 ->
  forallb pair_ok (entry cb) = true ->
  let m' := snd (removeConfig n m) in
  (1 <= n <= 7 /\ ptr m n <> 0 ->
   fst (removeConfig n m) = true /\
   (forall combo, 0 <= combo < 7 ->
      aget 0 (curConfig (header m')) combo =
      let v := aget 0 (curConfig (header m)) combo in
      if v =? n then 0 else if v >? n then v - 1 else v) /\
   (n <= 6 ->
    nConfigs m' = nConfigs m - 1 /\
    (forall i, n < i < nConfigs m ->
       ptr m' (i - 1) = ptr m i - footprint m n) /\
    ptr m' (nConfigs m - 1) = 0 /\
    (forall i, 0 <= i < n -> ptr m' i = ptr m i) /\
    (nConfigs m = n + 2 -> readConfig n cb m' = readConfig (n + 1) cb m)))
  /\
  (n = 0 \/ 8 <= n \/ ptr m n = 0 -> removeConfig n m = (false, m)).
Proof.
  intros S R B m'. subst m'. split.
  - intros [N P].
    assert (H : header_ok (header m) = true).
    { unfold store_ok in S. rewrite !andb_true_iff in S. tauto. }
    destruct (removeConfig_header m n H ltac:(lia) P) as [F HH].
    split; [exact F|]. split.
    + intros combo C. rewrite HH. cbn [curConfig].
      unfold header_ok in H. rewrite !andb_true_iff in H.
      destruct H as (((((H1 & H2) & H3) & H4) & H5) & H6).
      apply Z.eqb_eq in H3. unfold N_COMBOS in H3.
      rewrite aget_map_remapped by lia. cbv zeta. unfold remapped.
      destruct (aget 0 (curConfig (header m)) combo =? n); [reflexivity|].
      destruct (aget 0 (curConfig (header m)) combo >? n) eqn:G;
        [|reflexivity].
      apply u8_small.
      pose proof (forallb_aget is_u8 _ combo H4 ltac:(lia)) as U.
      apply is_u8_true in U. rewrite Z.gtb_ltb in G. apply Z.ltb_lt in G.
      lia.
    + intros N6.
      destruct (removeConfig_table m n S ltac:(lia) P) as (T1 & T2 & T3 & T4).
      split; [exact T1|]. split; [|split; [exact T3|split; [exact T4|]]].
      * intros i I. rewrite (T2 (i - 1)) by lia.
        replace (i - 1 + 1) with i by lia. reflexivity.
      * intros K. now apply removeConfig_moves_next.
  - intros F. unfold removeConfig.
    destruct (n <? 1) eqn:E1; [reflexivity|].
    destruct (n >=? N_CONFIGS) eqn:E2; [reflexivity|].
    destruct (ptr m n =? 0) eqn:E3; [reflexivity|].
    apply Z.ltb_ge in E1. rewrite Z.geb_leb in E2. apply Z.leb_gt in E2.
    apply Z.eqb_neq in E3. unfold N_CONFIGS in E2. lia.
Qed.

Lemma removeConfig_spec_witness :
  fst (removeConfig 2 store3) = true /\
  nConfigs (snd (removeConfig 2 store3)) = 3 /\
  ptr (snd (removeConfig 2 store3)) 2 = 36 /\
  readConfig 2 uninit (snd (removeConfig 2 store3)) = (true, blockC) /\
  removeConfig 0 store3 = (false, store3).
Proof.
  destruct (removeConfig_spec store3 2 uninit) as [Ok _];
    [vm_compute; reflexivity | lia | reflexivity |].
  destruct Ok as (F & _ & T); [split; [lia | vm_compute; discriminate]|].
  destruct T as (T1 & T2 & _ & _ & T5); [lia|].
  destruct (removeConfig_spec store3 0 uninit) as [_ No];
    [vm_compute; reflexivity | lia | reflexivity |].
  split; [exact F|]. split; [exact T1|]. split; [exact (T2 3 ltac:(split; reflexivity))|].
  split; [exact (T5 eq_refl) | apply No; now left].
Defined.

(** C7 fails as stated: combination index 7 is in 0..7 and block 0 is
    used, yet [setConfig(7, 0)] is refused: [curConfig] has seven cells. *)
Lemma setConfig_combo7_counterexample :
  negb (ptr factory 0 =? 0) = true /\
  setConfig 7 0 factory = (false, factory).
Proof. split; reflexivity. Qed.

(** C7 (amended).  For every combination index in 0..6 and every block
    number that addresses a used slot, [setConfig] maps the combination to
    the block, leaves every other field of the header alone, writes the
    header to the EEPROM and returns true; for a combination index of 7 or
    more, a block number of 8 or more, or an unused slot, it returns false
    and neither the header nor the EEPROM changes. *)
Theorem setConfig_spec (m : machine) (combo cbn : Z) :
  header_ok (header m) = true ->
  0 <= combo < 256 -> 0 <= cbn < 256 ->
  (combo < 7 /\ cbn < 8 /\ ptr m cbn <> 0 ->
   let m' := snd (setConfig combo cbn m) in
   fst (setConfig combo cbn m) = true /\
   aget 0 (curConfig (header m')) combo = cbn /\
   (forall j, 0 <= j -> j <> combo ->
      aget 0 (curConfig (header m')) j = aget 0 (curConfig (header m)) j) /\
   fingerprint (header m') = fingerprint (header m) /\
   selection (header m') = selection (header m) /\
   configPtr (header m') = configPtr (header m) /\
   stored_header m' = header m' /\
   (forall a, sizeof_header <= a -> rom m' a = rom m a)) /\
  (7 <= combo \/ 8 <= cbn \/ ptr m cbn = 0 ->
   setConfig combo cbn m = (false, m)).
Proof.
  intros H RC RN. split.
  - intros (C & N & P). unfold setConfig.
    rewrite (geb_lt cbn), (geb_lt combo)
      by (unfold N_CONFIGS, N_COMBOS; lia).
    replace (ptr m cbn =? 0) with false by (symmetry; now apply Z.eqb_neq).
    cbn [orb fst snd].
    set (m1 := set_curConfig m (aset (curConfig (header m)) combo cbn)).
    assert (H1 : header_ok (header m1) = true).
    { unfold header_ok in *. subst m1.
      cbn [set_curConfig header fingerprint selection curConfig configPtr].
      rewrite !andb_true_iff in *.
      destruct H as (((((H1 & H2) & H3) & H4) & H5) & H6).
      rewrite aset_length.
      repeat split; try assumption.
      apply forallb_aset; [apply is_u8_true; lia | assumption]. }
    assert (LC : Z.of_nat (List.length (curConfig (header m))) = 7).
    { unfold header_ok in H. repeat (apply andb_prop in H as [H ?]).
      now apply Z.eqb_eq. }
    split; [reflexivity|]. split; [|split].
    + unfold writeHeader, m1. cbn [header set_curConfig curConfig].
      apply aget_aset_same. lia.
    + intros j J NE. unfold writeHeader, m1.
      cbn [header set_curConfig curConfig]. apply aget_aset_other; auto.
    + do 3 (split; [reflexivity|]). split.
      * exact (writeHeader_stored m1 H1).
      * intros a A. rewrite writeHeader_rest by assumption. reflexivity.
  - intros F. unfold setConfig.
    destruct (cbn >=? N_CONFIGS) eqn:E1; [reflexivity|].
    destruct (combo >=? N_COMBOS) eqn:E2; [reflexivity|].
    destruct (ptr m cbn =? 0) eqn:E3; [reflexivity|].
    rewrite Z.geb_leb in E1, E2. apply Z.leb_gt in E1, E2.
    apply Z.eqb_neq in E3. unfold N_CONFIGS, N_COMBOS in *. lia.
Qed.

Lemma setConfig_spec_witness :
  fst (setConfig 3 0 factory) = true /\
  aget 0 (curConfig (header (snd (setConfig 3 0 factory)))) 3 = 0 /\
  setConfig 3 1 factory = (false, factory).
Proof.
  destruct (setConfig_spec factory 3 0) as [Ok _];
    [reflexivity | lia | lia |].
  destruct Ok as (R & C & _); [repeat split; (lia || discriminate)|].
  destruct (setConfig_spec factory 3 1) as [_ No];
    [reflexivity | lia | lia |].
  split; [exact R|]. split; [exact C|]. apply No. right; right. reflexivity.
Defined.


(** *** The layout the invariant describes *)

Import Layout.

Lemma used_footprints_explicit f s c e a0 a1 a2 a3 a4 a5 a6 a7 :
  used_footprints all_slots
    (mkMachine (mkHeader f s c [a0; a1; a2; a3; a4; a5; a6; a7]) e) =
  if a0 =? 0 then 0 else 1 + peek e a0 * 4 +
  (if a1 =? 0 then 0 else 1 + peek e a1 * 4 +
  (if a2 =? 0 then 0 else 1 + peek e a2 * 4 +
  (if a3 =? 0 then 0 else 1 + peek e a3 * 4 +
  (if a4 =? 0 then 0 else 1 + peek e a4 * 4 +
  (if a5 =? 0 then 0 else 1 + peek e a5 * 4 +
  (if a6 =? 0 then 0 else 1 + peek e a6 * 4 +
  (if a7 =? 0 then 0 else 1 + peek e a7 * 4 + 0))))))).
Proof. reflexivity. Qed.

Lemma used_entries_explicit f s c e a0 a1 a2 a3 a4 a5 a6 a7 :
  used_entries all_slots
    (mkMachine (mkHeader f s c [a0; a1; a2; a3; a4; a5; a6; a7]) e) =
  if a0 =? 0 then 0 else peek e a0 +
  (if a1 =? 0 then 0 else peek e a1 +
  (if a2 =? 0 then 0 else peek e a2 +
  (if a3 =? 0 then 0 else peek e a3 +
  (if a4 =? 0 then 0 else peek e a4 +
  (if a5 =? 0 then 0 else peek e a5 +
  (if a6 =? 0 then 0 else peek e a6 +
  (if a7 =? 0 then 0 else peek e a7 + 0))))))).
Proof. reflexivity. Qed.

Lemma store_shape m :
  store_ok m = true ->
  1 <= nConfigs m <= 8 /\
  (forall i, 0 <= i < nConfigs m -> ptr m i <> 0) /\
  (forall i, nConfigs m <= i < 8 -> ptr m i = 0) /\
  ptr m 0 = sizeof_header /\
  (forall i, 0 <= i -> i + 1 < nConfigs m ->
     ptr m (i + 1) = ptr m i + footprint m i) /\
  (forall i, 0 <= i < nConfigs m -> 1 <= stored_count m i <= 32) /\
  (forall i, 0 <= i < nConfigs m ->
     sizeof_header <= ptr m i /\ ptr m i + footprint m i <= store_end m) /\
  ptr m (nConfigs m - 1) + footprint m (nConfigs m - 1) = store_end m /\
  store_end m <= 1024 /\
  used_footprints all_slots m = nConfigs m + 4 * used_entries all_slots m.
Proof.
  destruct m as [h e]. intros S.
  unfold store_ok in S. cbn [header rom] in S.
  apply andb_prop in S as [S C]. apply andb_prop in S as [H P0].
  header_cases H.
  cbn [header fingerprint selection curConfig configPtr] in *.
  unfold ptr in P0. cbn [header configPtr] in P0.
  chain_cases C.
  all: try (exfalso; cbn in P0; discriminate).
  all: unfold store_end.
  all: rewrite !nConfigs_explicit, used_footprints_explicit,
         used_entries_explicit.
  all: repeat match goal with
              | Zp : (?p =? 0) = false |- context [?p =? 0] => rewrite Zp
              end.
  all: change (0 =? 0) with true; cbv iota.
  all: unfold footprint, stored_count, ptr; cbn [header rom configPtr].
  all: match goal with
       | |- context [aget 0 ?l (?a - 1)] =>
           let v := eval cbv in (a - 1) in change (a - 1) with v
       end.
  all: unfold sizeof_entry, sizeof_nEntries, sizeof_header in *.
  all: repeat match goal with
              | X : (_ <=? _) = true |- _ => apply Z.leb_le in X
              | X : (_ =? 0) = false |- _ => apply Z.eqb_neq in X
              end.
  all: split; [lia|].
  all: split; [intros i I1; slot_cases i; try lia; arr; lia|].
  all: split; [intros i I1; slot_cases i; try lia; arr; reflexivity|].
  all: split; [arr; lia|].
  all: split; [intros i I1 I2; slot_cases i; try lia; arr; lia|].
  all: split; [intros i I1; slot_cases i; try lia; arr; lia|].
  all: split; [intros i I1; slot_cases i; try lia; arr; lia|].
  all: split; [arr; lia|].
  all: split; lia.
Qed.


(** *** [freeSpace] on a store that keeps the layout *)

Lemma used_entries_nonneg m cbns : 0 <= used_entries cbns m.
Proof.
  induction cbns as [|c r IH]; cbn [used_entries]; [lia|].
  destruct (ptr m c =? 0); [lia|].
  pose proof (peek_range (rom m) (ptr m c)) as R.
  unfold stored_count. lia.
Qed.

Lemma freeSpace_loop_sum m cbns : forall fs cb,
  Forall (fun c => 0 <= c < 8) cbns ->
  4 * used_entries cbns m <= fs < 65536 ->
  freeSpace_loop cbns fs cb m = fs - 4 * used_entries cbns m.
Proof.
  induction cbns as [|c r IH]; intros fs cb F B;
    cbn [freeSpace_loop used_entries] in *; [lia|].
  inversion F as [|? ? C F']; subst.
  destruct (ptr m c =? 0); [lia|].
  rewrite (i8_small c) by lia.
  rewrite (readConfig_in_range m c cb C). cbn [snd nEntries].
  pose proof (peek_range (rom m) (ptr m c)) as R.
  fold (stored_count m c) in R.
  pose proof (used_entries_nonneg m r) as N.
  unfold sizeof_entry.
  rewrite (u16_small (stored_count m c * 4)) by lia.
  rewrite (u16_small (fs - stored_count m c * 4)) by lia.
  rewrite IH; [lia | assumption | lia].
Qed.

Lemma all_slots_range : Forall (fun c => 0 <= c < 8) all_slots.
Proof. repeat constructor; lia. Qed.

Lemma freeSpace_formula m :
  store_ok m = true ->
  freeSpace m = 1024 - sizeof_header - 4 * used_entries all_slots m /\
  freeSpace m = 1024 - store_end m + nConfigs m.
Proof.
  intros S.
  destruct (store_shape m S) as (K & _ & _ & _ & _ & _ & _ & _ & E & F).
  unfold store_end in *. unfold sizeof_header in *.
  unfold freeSpace. fold all_slots.
  rewrite freeSpace_loop_sum;
    [ | exact all_slots_range
      | unfold sizeof_header; rewrite (u16_small (1024 - 26)) by lia; lia ].
  unfold sizeof_header. rewrite (u16_small (1024 - 26)) by lia. lia.
Qed.

(** *** Counting and finding slots *)

Lemma nConfigs_loop_found m k : forall fuel a,
  1 <= a <= k -> k <= 8 -> k - a < Z.of_nat fuel ->
  (forall i, a <= i < k -> ptr m i <> 0) ->
  (k < 8 -> ptr m k = 0) ->
  nConfigs_loop fuel m a = k.
Proof.
  induction fuel as [|f IH]; intros a A K F U Z; [lia|].
  cbn [nConfigs_loop]. unfold N_CONFIGS.
  destruct (a <? 8) eqn:L.
  - apply Z.ltb_lt in L.
    destruct (ptr m a =? 0) eqn:P.
    + apply Z.eqb_eq in P.
      destruct (Z.eq_dec a k) as [->|N]; [reflexivity|].
      exfalso. apply (U a); [lia | exact P].
    + apply Z.eqb_neq in P.
      assert (a < k).
      { destruct (Z.eq_dec a k) as [->|N]; [|lia].
        exfalso. apply P. apply Z. lia. }
      rewrite (u8_small (a + 1)) by lia.
      apply IH; [lia | lia | lia | intros i I; apply U; lia | exact Z].
  - apply Z.ltb_ge in L. lia.
Qed.

Lemma nConfigs_unique m k :
  1 <= k <= 8 ->
  (forall i, 1 <= i < k -> ptr m i <> 0) ->
  (k < 8 -> ptr m k = 0) ->
  nConfigs m = k.
Proof.
  intros K U Z. unfold nConfigs.
  apply nConfigs_loop_found; try lia; assumption.
Qed.

Lemma first_unused_found m k : forall fuel c,
  -128 <= c <= k -> k < 127 -> k - c < Z.of_nat fuel ->
  (forall i, c <= i < k -> ptr m i <> 0) ->
  ptr m k = 0 ->
  first_unused fuel m c = k.
Proof.
  induction fuel as [|f IH]; intros c C K F U Z; [lia|].
  cbn [first_unused].
  destruct (ptr m c =? 0) eqn:P.
  - apply Z.eqb_eq in P.
    destruct (Z.eq_dec c k) as [->|N]; [reflexivity|].
    exfalso. apply (U c); [lia | exact P].
  - apply Z.eqb_neq in P.
    assert (c < k).
    { destruct (Z.eq_dec c k) as [->|N]; [|lia]. contradiction. }
    rewrite (i8_small (c + 1)) by lia.
    apply IH; [lia | lia | lia | intros i I; apply U; lia | exact Z].
Qed.


(** *** Building the invariant from the layout *)

Lemma store_ok_intro m k :
  header_ok (header m) = true -> 1 <= k <= 8 ->
  (forall i, 0 <= i < k -> ptr m i <> 0) ->
  (forall i, k <= i < 8 -> ptr m i = 0) ->
  ptr m 0 = sizeof_header ->
  (forall i, 0 <= i -> i + 1 < k -> ptr m (i + 1) = ptr m i + footprint m i) ->
  (forall i, 0 <= i < k -> 1 <= stored_count m i <= 32) ->
  ptr m (k - 1) + footprint m (k - 1) <= 1024 ->
  store_ok m = true.
Proof.
  destruct m as [h e]. intros H K U Z P0 R Cn En.
  cbn [header] in H. unfold store_ok. cbn [header rom]. rewrite H. cbn [andb].
  header_cases H.
  assert (Hk : k = 1 \/ k = 2 \/ k = 3 \/ k = 4 \/ k = 5 \/ k = 6
               \/ k = 7 \/ k = 8) by lia.
  destruct Hk as [-> | [-> | [-> | [-> | [-> | [-> | [-> | ->]]]]]]].
  all: unfold footprint, stored_count, ptr in *; cbn [header rom configPtr] in *.
  all: revert P0 En.
  all: try generalize (R 0 ltac:(lia) ltac:(lia));
       try generalize (R 1 ltac:(lia) ltac:(lia));
       try generalize (R 2 ltac:(lia) ltac:(lia));
       try generalize (R 3 ltac:(lia) ltac:(lia));
       try generalize (R 4 ltac:(lia) ltac:(lia));
       try generalize (R 5 ltac:(lia) ltac:(lia));
       try generalize (R 6 ltac:(lia) ltac:(lia)); clear R.
  all: repeat match goal with
              | X : forall i, _ |- _ =>
                  try generalize (X 0 ltac:(lia)); try generalize (X 1 ltac:(lia));
                  try generalize (X 2 ltac:(lia)); try generalize (X 3 ltac:(lia));
                  try generalize (X 4 ltac:(lia)); try generalize (X 5 ltac:(lia));
                  try generalize (X 6 ltac:(lia)); try generalize (X 7 ltac:(lia));
                  clear X
              end.
  all: arr.
  all: unfold sizeof_header, sizeof_nEntries, sizeof_entry.
  all: intros.
  all: subst.
  all: rewrite ?chain_cons, ?chain_nil.
  all: unfold sizeof_header, sizeof_nEntries, sizeof_entry.
  all: repeat match goal with
              | |- context [?a =? ?b] =>
                  first [ rewrite (proj2 (Z.eqb_neq a b)) by lia
                        | rewrite (proj2 (Z.eqb_eq a b)) by lia ]
              | |- context [?a <=? ?b] =>
                  rewrite (proj2 (Z.leb_le a b)) by lia
              end.
  all: cbn [negb andb forallb].
  all: try reflexivity.
Qed.


(** *** [addConfig] *)

Lemma block_ok_range cb : block_ok cb = true -> 0 <= nEntries cb <= 32.
Proof.
  unfold block_ok. intros B.
  apply andb_prop in B as [B _]. apply andb_prop in B as [B _].
  apply andb_prop in B as [L U].
  apply Z.leb_le in L. apply Z.leb_le in U. lia.
Qed.

Lemma header_ok_length h :
  header_ok h = true -> Z.of_nat (List.length (configPtr h)) = 8.
Proof.
  unfold header_ok. intros H.
  apply andb_prop in H as [H _]. apply andb_prop in H as [_ L].
  apply Z.eqb_eq in L. exact L.
Qed.

Lemma header_ok_set_ptr m cbn v :
  header_ok (header m) = true -> 0 <= v < 65536 ->
  header_ok (header (set_configPtr m cbn v)) = true.
Proof.
  unfold header_ok, set_configPtr.
  cbn [header fingerprint selection curConfig configPtr].
  intros H V.
  apply andb_prop in H as [H P]. apply andb_prop in H as [H L].
  rewrite H, aset_length, L. cbn [andb].
  apply forallb_aset; [apply is_u16_true; exact V | exact P].
Qed.

Lemma store_ok_header m : store_ok m = true -> header_ok (header m) = true.
Proof.
  unfold store_ok. intros S.
  apply andb_prop in S as [S _]. apply andb_prop in S as [H _]. exact H.
Qed.

Lemma addConfig_run m cb :
  store_ok m = true -> block_ok cb = true -> nConfigs m < 8 ->
  store_end m + sizeof_nEntries + nEntries cb * sizeof_entry <= 1024 ->
  addConfig cb m =
    (true,
     writeHeader
       (snd (writeConfig (nConfigs m) cb
               (set_configPtr m (nConfigs m) (store_end m))))).
Proof.
  intros S B K F.
  destruct (store_shape m S) as (K1 & U & Z & P0 & R & Cn & In & En & Le & Sum).
  destruct (freeSpace_formula m S) as [_ FS].
  pose proof (block_ok_range cb B) as N.
  unfold sizeof_nEntries, sizeof_entry, sizeof_header in *.
  unfold addConfig.
  assert (G : (u16 (nEntries cb * sizeof_entry) >? freeSpace m) = false).
  { rewrite FS. unfold sizeof_entry. rewrite u16_small by lia.
    rewrite Z.gtb_ltb. apply Z.ltb_ge. lia. }
  assert (P7 : ptr m (N_CONFIGS - 1) = 0) by (apply Z; unfold N_CONFIGS; lia).
  rewrite G, P7. change (0 =? 0) with true. cbn [orb negb].
  rewrite (first_unused_found m (nConfigs m));
    [ | lia | lia | change (Z.of_nat 7) with 7; lia
      | intros i I; apply U; lia | apply Z; lia ].
  rewrite (i8_small (nConfigs m - 1)) by lia.
  rewrite readConfig_in_range by lia. cbn [snd nEntries].
  assert (C := Cn (nConfigs m - 1) ltac:(lia)).
  unfold sizeof_nEntries, sizeof_entry.
  rewrite (u16_small (stored_count m (nConfigs m - 1) * 4)) by lia.
  replace (u16 (ptr m (nConfigs m - 1) + 1
                + stored_count m (nConfigs m - 1) * 4))
    with (store_end m); [reflexivity|].
  rewrite <- En. unfold footprint, sizeof_nEntries, sizeof_entry.
  rewrite u16_small; [lia|]. unfold footprint, sizeof_nEntries, sizeof_entry in En.
  destruct (In (nConfigs m - 1) ltac:(lia)) as [I1 I2]. lia.
Qed.


Lemma block_ok_cells cb :
  block_ok cb = true -> nEntries cb <= Z.of_nat (List.length (entry cb)).
Proof.
  unfold block_ok. intros B.
  apply andb_prop in B as [B _]. apply andb_prop in B as [_ L].
  now apply Z.leb_le in L.
Qed.

Lemma addConfig_appends m cb :
  store_ok m = true -> block_ok cb = true -> nConfigs m < 8 ->
  store_end m + sizeof_nEntries + nEntries cb * sizeof_entry <= 1024 ->
  let m' := snd (addConfig cb m) in
  fst (addConfig cb m) = true /\
  nConfigs m' = nConfigs m + 1 /\
  ptr m' (nConfigs m) = store_end m /\
  stored_count m' (nConfigs m) = nEntries cb /\
  stored_entries m' (nConfigs m) =
    firstn (Z.to_nat (nEntries cb)) (entry cb) /\
  (forall i, 0 <= i < nConfigs m -> same_block m m' i) /\
  selection (header m') = selection (header m) /\
  curConfig (header m') = curConfig (header m) /\
  stored_header m' = header m' /\
  (1 <= nEntries cb -> store_ok m' = true).
Proof.
  intros S B K F. cbv zeta. rewrite (addConfig_run m cb S B K F).
  cbn [fst snd].
  destruct (store_shape m S) as (K1 & U & Z & P0 & R & Cn & In & En & Le & Sum).
  pose proof (block_ok_range cb B) as N.
  pose proof (block_ok_cells cb B) as NC.
  pose proof (store_ok_header m S) as H.
  pose proof (header_ok_length _ H) as L8.
  unfold sizeof_nEntries, sizeof_entry, sizeof_header in *.
  set (k := nConfigs m) in *. set (E := store_end m) in *.
  assert (E26 : 26 < E).
  { destruct (In (k - 1) ltac:(lia)) as [I1 I2].
    pose proof (Cn (k - 1) ltac:(lia)).
    unfold footprint, sizeof_nEntries, sizeof_entry in I2. lia. }
  set (m1 := set_configPtr m k E).
  assert (H1 : header_ok (header m1) = true)
    by (apply header_ok_set_ptr; [exact H | lia]).
  assert (P1 : ptr m1 k = E).
  { unfold m1, set_configPtr, ptr. cbn [header configPtr].
    apply aget_aset_same. lia. }
  assert (P1o : forall i, 0 <= i -> i <> k -> ptr m1 i = ptr m i).
  { intros i I D. unfold m1, set_configPtr, ptr. cbn [header configPtr].
    apply aget_aset_other; [lia | congruence]. }
  assert (W : snd (writeConfig k cb m1) =
              mkMachine (header m1)
                (eeprom_write_block
                   (nEntries cb :: entries_bytes (nEntries cb) (entry cb))
                   E (rom m))).
  { unfold writeConfig.
    replace ((k <? 0) || (u8 k >=? N_CONFIGS)) with false.
    - cbn [snd]. rewrite P1. reflexivity.
    - symmetry. apply orb_false_intro; [apply Z.ltb_ge; lia|].
      rewrite u8_small by lia. apply geb_lt. unfold N_CONFIGS. lia. }
  set (m2 := snd (writeConfig k cb m1)) in *.
  assert (H2 : header m2 = header m1) by (rewrite W; reflexivity).
  set (m' := writeHeader m2).
  assert (Hm' : header m' = header m1) by exact H2.
  assert (Pm' : forall i, ptr m' i = ptr m1 i)
    by (intros i; unfold ptr; rewrite Hm'; reflexivity).
  assert (Rhigh : forall a, 26 <= a -> rom m' a = rom m2 a).
  { intros a A. unfold m'. apply writeHeader_rest;
      [rewrite H2; exact H1 | unfold sizeof_header; lia]. }
  assert (Rlow : forall a, 26 <= a < E -> rom m' a = rom m a).
  { intros a A. rewrite Rhigh by lia. rewrite W. cbn [rom].
    apply write_outside. left. lia. }
  assert (Same : forall i, 0 <= i < k -> same_block m m' i).
  { intros i I.
    destruct (In i I) as [I1 I2]. pose proof (Cn i I) as C.
    unfold footprint, sizeof_nEntries, sizeof_entry, sizeof_header in I1, I2.
    assert (Q : ptr m' i = ptr m i) by (rewrite Pm'; apply P1o; lia).
    assert (QC : stored_count m' i = stored_count m i).
    { unfold stored_count, peek. rewrite Q, Rlow by lia. reflexivity. }
    split; [exact Q|]. split; [exact QC|].
    unfold stored_entries. rewrite QC, Q.
    apply entries_at_ext. intros x X. apply Rlow.
    rewrite u16_small in X by lia. rewrite Z2Nat.id in X by lia. lia. }
  assert (RA := read_after_write m1 k cb uninit ltac:(lia) B
                  ltac:(rewrite P1; lia) ltac:(rewrite P1; lia)).
  fold m2 in RA.
  rewrite (readConfig_ext k uninit m2 m') in RA;
    [ | lia | unfold ptr; rewrite Hm', H2; reflexivity
      | unfold ptr; rewrite H2; fold (ptr m1 k); rewrite P1;
        unfold sizeof_header; lia
      | unfold ptr; rewrite H2; fold (ptr m1 k); rewrite P1; lia
      | intros a A; symmetry; apply Rhigh; unfold sizeof_header in A; lia ].
  rewrite readConfig_in_range in RA by lia.
  injection RA as RC RE.
  cbn [entry uninit] in RE. rewrite !skipn_nil, !app_nil_r in RE.
  assert (Pk : ptr m' k = E) by (rewrite Pm'; exact P1).
  split; [reflexivity|].
  split.
  { apply nConfigs_unique; [lia | |].
    - intros i I. destruct (Z.eq_dec i k) as [->|D].
      + rewrite Pk. lia.
      + rewrite Pm', P1o by lia. apply U. lia.
    - intros K8. rewrite Pm', P1o by lia. apply Z. lia. }
  split; [exact Pk|]. split; [exact RC|]. split; [exact RE|].
  split; [exact Same|].
  split; [rewrite Hm'; reflexivity|]. split; [rewrite Hm'; reflexivity|].
  split.
  { unfold m'. rewrite writeHeader_stored; [reflexivity|].
    rewrite H2. exact H1. }
  intros N1.
  apply (store_ok_intro m' (k + 1)).
  - rewrite Hm'. exact H1.
  - lia.
  - intros i I. destruct (Z.eq_dec i k) as [->|D].
    + rewrite Pk. lia.
    + destruct (Same i ltac:(lia)) as (Q & _). rewrite Q. apply U. lia.
  - intros i I. rewrite Pm', P1o by lia. apply Z. lia.
  - destruct (Same 0 ltac:(lia)) as (Q & _). rewrite Q. exact P0.
  - intros i I0 I1.
    destruct (Same i ltac:(lia)) as (Q & QC & _).
    unfold footprint. rewrite Q, QC. fold (footprint m i).
    destruct (Z.eq_dec (i + 1) k) as [D|D].
    + rewrite D, Pk. rewrite <- En.
      replace (k - 1) with i by lia. reflexivity.
    + destruct (Same (i + 1) ltac:(lia)) as (Q1 & _). rewrite Q1.
      apply R; lia.
  - intros i I. destruct (Z.eq_dec i k) as [->|D].
    + rewrite RC. lia.
    + destruct (Same i ltac:(lia)) as (_ & QC & _). rewrite QC.
      apply Cn. lia.
  - replace (k + 1 - 1) with k by lia. rewrite Pk.
    unfold footprint, sizeof_nEntries, sizeof_entry. rewrite RC. lia.
Qed.


Lemma addConfig_decision m cb :
  store_ok m = true -> 0 <= nEntries cb < 256 ->
  fst (addConfig cb m) =
    (nConfigs m <? 8)
    && (4 * nEntries cb <=? 1024 - sizeof_header - 4 * used_entries all_slots m)
  /\ (fst (addConfig cb m) = false -> snd (addConfig cb m) = m).
Proof.
  intros S N.
  destruct (store_shape m S) as (K1 & U & Z & _).
  destruct (freeSpace_formula m S) as [FS _].
  unfold addConfig. rewrite FS. unfold sizeof_entry, N_CONFIGS.
  rewrite u16_small by lia. change (8 - 1) with 7.
  rewrite Z.gtb_ltb.
  replace (nEntries cb * 4) with (4 * nEntries cb) by lia.
  rewrite Z.ltb_antisym.
  replace (ptr m 7 =? 0) with (nConfigs m <? 8).
  - destruct (4 * nEntries cb <=? _); destruct (nConfigs m <? 8);
      cbn [negb orb andb fst snd]; split; congruence.
  - destruct (nConfigs m <? 8) eqn:L.
    + apply Z.ltb_lt in L. symmetry. apply Z.eqb_eq. apply Z. lia.
    + apply Z.ltb_ge in L. symmetry. apply Z.eqb_neq. apply U. lia.
Qed.

Lemma ptr_bound m :
  store_ok m = true -> stored_count m 0 = 1 ->
  forall j : nat, Z.of_nat j + 1 < nConfigs m ->
    ptr m (Z.of_nat j + 1) <= 31 + 129 * Z.of_nat j.
Proof.
  intros S C0.
  destruct (store_shape m S) as (K1 & U & Z & P0 & R & Cn & _).
  unfold sizeof_header in P0.
  induction j as [|j IH]; intros J.
  - change (Z.of_nat 0) with 0 in *. rewrite (R 0) by lia.
    unfold footprint, sizeof_nEntries, sizeof_entry.
    rewrite P0, C0. lia.
  - rewrite Nat2Z.inj_succ in *.
    replace (Z.succ (Z.of_nat j) + 1) with ((Z.of_nat j + 1) + 1) by lia.
    rewrite R by lia.
    pose proof (Cn (Z.of_nat j + 1) ltac:(lia)).
    unfold footprint, sizeof_nEntries, sizeof_entry.
    specialize (IH ltac:(lia)). lia.
Qed.

Lemma factory_block_room m cb :
  store_ok m = true -> stored_count m 0 = 1 -> block_ok cb = true ->
  nConfigs m < 8 ->
  store_end m + sizeof_nEntries + nEntries cb * sizeof_entry <= 934.
Proof.
  intros S C0 B K.
  destruct (store_shape m S) as (K1 & U & Z & P0 & R & Cn & In & En & _).
  pose proof (block_ok_range cb B) as N.
  unfold sizeof_nEntries, sizeof_entry, sizeof_header in *.
  rewrite <- En. unfold footprint, sizeof_nEntries, sizeof_entry.
  destruct (Z.eq_dec (nConfigs m) 1) as [K0|K0].
  - rewrite K0. change (1 - 1) with 0. rewrite P0, C0. lia.
  - pose proof (ptr_bound m S C0 (Z.to_nat (nConfigs m - 2))) as PB.
    rewrite Z2Nat.id in PB by lia.
    replace (nConfigs m - 2 + 1) with (nConfigs m - 1) in PB by lia.
    specialize (PB ltac:(lia)).
    pose proof (Cn (nConfigs m - 1) ltac:(lia)). lia.
Qed.

Lemma addConfig_factory_room m cb :
  store_ok m = true -> stored_count m 0 = 1 -> block_ok cb = true ->
  (fst (addConfig cb m) = true <-> nConfigs m < 8) /\
  (nConfigs m < 8 -> 1 <= nEntries cb ->
   store_ok (snd (addConfig cb m)) = true /\
   stored_count (snd (addConfig cb m)) 0 = 1 /\
   store_end (snd (addConfig cb m)) <= 934).
Proof.
  intros S C0 B.
  pose proof (block_ok_range cb B) as N.
  destruct (addConfig_decision m cb S ltac:(lia)) as [D _].
  split.
  - split.
    + intros T. rewrite T in D. symmetry in D.
      apply andb_prop in D as [D _]. now apply Z.ltb_lt in D.
    + intros K.
      pose proof (factory_block_room m cb S C0 B K) as F.
      apply (addConfig_appends m cb S B K).
      unfold sizeof_nEntries, sizeof_entry in *. lia.
  - intros K N1.
    pose proof (factory_block_room m cb S C0 B K) as F.
    assert (F' : store_end m + sizeof_nEntries + nEntries cb * sizeof_entry
                 <= 1024) by lia.
    destruct (addConfig_appends m cb S B K F')
      as (_ & K' & Pk & Ck & _ & Same & _ & _ & _ & OK).
    specialize (OK N1).
    destruct (store_shape m S) as (K1 & _).
    destruct (Same 0 ltac:(lia)) as (_ & C0' & _).
    split; [exact OK|]. split; [rewrite C0'; exact C0|].
    destruct (store_shape _ OK) as (_ & _ & _ & _ & _ & _ & _ & En' & _).
    rewrite <- En', K'.
    replace (nConfigs m + 1 - 1) with (nConfigs m) by lia.
    rewrite Pk. unfold footprint. rewrite Ck. lia.
Qed.

Lemma used_slots m :
  store_ok m = true ->
  1 <= nConfigs m <= 8 /\
  forall i, 0 <= i < 8 -> (ptr m i <> 0 <-> i < nConfigs m).
Proof.
  intros S.
  destruct (store_shape m S) as (K1 & U & Z & _).
  split; [exact K1|]. intros i I. split.
  - intros P. destruct (Z_lt_le_dec i (nConfigs m)) as [L|L]; [exact L|].
    exfalso. apply P. apply Z. lia.
  - intros L. apply U. lia.
Qed.


(** *** The store: counting, free space and adding a block *)

(** On a store that keeps the layout, [nConfigs()] is between 1 and 8 and
    tells the used slots from the unused ones: slot [i] holds a block
    exactly when [i] is below [nConfigs()]. *)
Theorem used_slots_below_nConfigs (m : machine) :
  store_ok m = true ->
  1 <= nConfigs m <= 8 /\
  forall i, 0 <= i < 8 -> (ptr m i <> 0 <-> i < nConfigs m).
Proof. exact (used_slots m). Qed.

Lemma used_slots_below_nConfigs_witness :
  1 <= nConfigs store3 <= 8 /\
  forall i, 0 <= i < 8 -> (ptr store3 i <> 0 <-> i < nConfigs store3).
Proof.
  apply (used_slots_below_nConfigs store3). vm_compute. reflexivity.
Defined.

(** On a store that keeps the layout, [freeSpace()] is the 1024 bytes less
    the header and four bytes for every stored entry pair; the count byte
    of a block is not taken off, so the result exceeds the room behind the
    last block by [nConfigs()]. *)
Theorem freeSpace_counts_entries (m : machine) :
  store_ok m = true ->
  freeSpace m = 1024 - sizeof_header - 4 * used_entries all_slots m /\
  freeSpace m = 1024 - store_end m + nConfigs m.
Proof. exact (freeSpace_formula m). Qed.

Lemma freeSpace_counts_entries_witness :
  freeSpace store3 = 1024 - sizeof_header - 4 * used_entries all_slots store3
  /\ freeSpace store3 = 1024 - store_end store3 + nConfigs store3.
Proof.
  apply (freeSpace_counts_entries store3). vm_compute. reflexivity.
Defined.

(** When a slot is free and the block fits behind the last one,
    [addConfig] succeeds: the block lands in the first free slot, right
    behind the last block, with its count and its entry pairs; the blocks
    before it, the selection and the combo mapping stay as they were, the
    header is persisted, and (for a block that is not empty) the layout is
    kept. *)
Theorem addConfig_appends_block (m : machine) (cb : configBlock) :
  store_ok m = true -> block_ok cb = true -> nConfigs m < 8 ->
  store_end m + sizeof_nEntries + nEntries cb * sizeof_entry <= 1024 ->
  let m' := snd (addConfig cb m) in
  fst (addConfig cb m) = true /\
  nConfigs m' = nConfigs m + 1 /\
  ptr m' (nConfigs m) = store_end m /\
  stored_count m' (nConfigs m) = nEntries cb /\
  stored_entries m' (nConfigs m) =
    firstn (Z.to_nat (nEntries cb)) (entry cb) /\
  (forall i, 0 <= i < nConfigs m -> same_block m m' i) /\
  selection (header m') = selection (header m) /\
  curConfig (header m') = curConfig (header m) /\
  stored_header m' = header m' /\
  (1 <= nEntries cb -> store_ok m' = true).
Proof. exact (addConfig_appends m cb). Qed.

Lemma addConfig_appends_block_witness :
  let m' := snd (addConfig blockC factory) in
  fst (addConfig blockC factory) = true /\
  nConfigs m' = nConfigs factory + 1 /\
  ptr m' (nConfigs factory) = store_end factory /\
  stored_count m' (nConfigs factory) = nEntries blockC /\
  stored_entries m' (nConfigs factory) =
    firstn (Z.to_nat (nEntries blockC)) (entry blockC) /\
  (forall i, 0 <= i < nConfigs factory -> same_block factory m' i) /\
  selection (header m') = selection (header factory) /\
  curConfig (header m') = curConfig (header factory) /\
  stored_header m' = header m' /\
  (1 <= nEntries blockC -> store_ok m' = true).
Proof.
  apply (addConfig_appends_block factory blockC);
    vm_compute; congruence.
Defined.

(** [addConfig] on a store that keeps the layout succeeds exactly when
    slot 7 is free and four bytes per entry pair of the new block do not
    exceed what [freeSpace()] reports; when it fails, nothing changes. *)
Theorem addConfig_refusal (m : machine) (cb : configBlock) :
  store_ok m = true -> 0 <= nEntries cb < 256 ->
  fst (addConfig cb m) =
    (nConfigs m <? 8)
    && (4 * nEntries cb <=? 1024 - sizeof_header - 4 * used_entries all_slots m)
  /\ (fst (addConfig cb m) = false -> snd (addConfig cb m) = m).
Proof. exact (addConfig_decision m cb). Qed.

Lemma addConfig_refusal_witness :
  fst (addConfig blockA store8) =
    (nConfigs store8 <? 8)
    && (4 * nEntries blockA
        <=? 1024 - sizeof_header - 4 * used_entries all_slots store8)
  /\ (fst (addConfig blockA store8) = false ->
      snd (addConfig blockA store8) = store8).
Proof.
  apply (addConfig_refusal store8 blockA); [vm_compute; reflexivity|].
  vm_compute. split; congruence.
Defined.

(** While block 0 holds one entry pair, as the default block does, the
    EEPROM never runs out: a block of at most 32 entries is accepted
    exactly when fewer than 8 blocks are stored, and, the block being
    non-empty, the store then keeps the layout and still ends at or below
    address 934. *)
Theorem addConfig_has_room (m : machine) (cb : configBlock) :
  store_ok m = true -> stored_count m 0 = 1 -> block_ok cb = true ->
  (fst (addConfig cb m) = true <-> nConfigs m < 8) /\
  (nConfigs m < 8 -> 1 <= nEntries cb ->
   store_ok (snd (addConfig cb m)) = true /\
   stored_count (snd (addConfig cb m)) 0 = 1 /\
   store_end (snd (addConfig cb m)) <= 934).
Proof. exact (addConfig_factory_room m cb). Qed.

Lemma addConfig_has_room_witness :
  (fst (addConfig blockC store3) = true <-> nConfigs store3 < 8) /\
  (nConfigs store3 < 8 -> 1 <= nEntries blockC ->
   store_ok (snd (addConfig blockC store3)) = true /\
   stored_count (snd (addConfig blockC store3)) 0 = 1 /\
   store_end (snd (addConfig blockC store3)) <= 934).
Proof.
  apply (addConfig_has_room store3 blockC); vm_compute; reflexivity.
Defined.

End StoreFacts.

(* ================================================================== *)
Section CodecFacts.
Import Codec Console Grammar.

(** *** Running through the characters and the bytes *)

Lemma ascii_forall (P : ascii -> bool) :
  forallb P all_ascii = true -> forall a, P a = true.
Proof.
  intros H a. rewrite forallb_forall in H. apply H.
  unfold all_ascii. rewrite <- (ascii_nat_embedding a).
  apply in_map, in_seq. pose proof (nat_ascii_bounded a). lia.
Qed.

Lemma bytes_forall (P : Z -> bool) :
  forallb P bytes = true -> forall v, 0 <= v < 256 -> P v = true.
Proof.
  intros H v Hv. rewrite forallb_forall in H. apply H.
  unfold bytes. rewrite <- (Z2Nat.id v) by lia.
  apply in_map, in_seq. lia.
Qed.

Ltac by_ascii a :=
  revert a;
  match goal with
  | |- forall a, @?P a = true => apply (ascii_forall P); vm_compute; reflexivity
  end.

Ltac by_bytes :=
  match goal with
  | |- forall v, 0 <= v < 256 -> @?P v = true =>
    apply (bytes_forall P); vm_compute; reflexivity
  end.

Lemma modifiers_in (m : modifiers) : In m all_modifiers.
Proof.
  destruct m as [[[[] []] []] []]; cbn; tauto.
Qed.

Lemma buttons_in (b : buttons) : In b all_buttons.
Proof.
  destruct b as [[[] []] []]; cbn; tauto.
Qed.

(** The tests of the source on a letter, in terms of [is_letter]. *)
Lemma test_c a : (chr a =? chr "C") || (chr a =? chr "c") = is_letter "c" a.
Proof.
  apply eqb_prop. by_ascii a.
Qed.

Lemma test_a a : (chr a =? chr "A") || (chr a =? chr "a") = is_letter "a" a.
Proof.
  apply eqb_prop. by_ascii a.
Qed.

Lemma test_s a : (chr a =? chr "S") || (chr a =? chr "s") = is_letter "s" a.
Proof.
  apply eqb_prop. by_ascii a.
Qed.

Lemma test_g a : (chr a =? chr "G") || (chr a =? chr "g") = is_letter "g" a.
Proof.
  apply eqb_prop. by_ascii a.
Qed.

Lemma test_l a : (chr a =? chr "L") || (chr a =? chr "l") = is_letter "l" a.
Proof.
  apply eqb_prop. by_ascii a.
Qed.

Lemma test_m a : (chr a =? chr "M") || (chr a =? chr "m") = is_letter "m" a.
Proof.
  apply eqb_prop. by_ascii a.
Qed.

Lemma test_r a : (chr a =? chr "R") || (chr a =? chr "r") = is_letter "r" a.
Proof.
  apply eqb_prop. by_ascii a.
Qed.

Lemma string_cons a l :
  string_of_list_ascii (a :: l) = String a (string_of_list_ascii l).
Proof.
  reflexivity.
Qed.

Lemma charAt_cons a s : charAt (String a s) 0 = chr a.
Proof.
  reflexivity.
Qed.

(** The bits of a modifier set after one more letter. *)
Lemma modifier_bits_add a m :
  is_modifier a = true ->
  modifier_bits (add_modifier a m) =
  Z.lor (modifier_bits m)
        (if is_letter "c" a then KB_CTRL_MASK
         else if is_letter "a" a then KB_ALT_MASK
         else if is_letter "s" a then KB_SHIFT_MASK
         else KB_GUI_MASK).
Proof.
  revert a.
  assert (H : forall a, implb (is_modifier a)
     (forallb (fun m => modifier_bits (add_modifier a m) =?
        Z.lor (modifier_bits m)
        (if is_letter "c" a then KB_CTRL_MASK
         else if is_letter "a" a then KB_ALT_MASK
         else if is_letter "s" a then KB_SHIFT_MASK
         else KB_GUI_MASK)) all_modifiers) = true).
  { intro a. by_ascii a. }
  intros a Ha. specialize (H a). rewrite Ha in H. cbn [implb] in H.
  rewrite forallb_forall in H. apply Z.eqb_eq, H, modifiers_in.
Qed.

(** The scan of the modifiers takes every flag letter of a prefix of at
    most four and stops at the character after it. *)
Lemma scan_modifiers_flags fs : forall fuel rest base m nc,
  forallb is_modifier fs = true -> stops is_modifier rest = true ->
  (List.length fs < fuel)%nat ->
  scan_modifiers fuel (string_of_list_ascii (fs ++ rest))
                 (Z.lor base (modifier_bits m)) nc
  = (Z.lor base (modifier_bits (modifiers_from m fs)),
     remove1 (string_of_list_ascii rest),
     charAt (string_of_list_ascii rest) 0).
Proof.
  induction fs as [|a fs IH]; intros fuel rest base m nc Hfs Hrest Hlen.
  - destruct fuel as [|f]; [cbn in Hlen; lia|].
    cbn [app modifiers_from fold_left scan_modifiers].
    destruct rest as [|a rest].
    + reflexivity.
    + cbn [stops] in Hrest. rewrite string_cons, charAt_cons.
      rewrite test_c, test_a, test_s, test_g.
      unfold is_modifier in Hrest.
      destruct (is_letter "c" a), (is_letter "a" a), (is_letter "s" a),
        (is_letter "g" a); try discriminate Hrest. reflexivity.
  - destruct fuel as [|f]; [cbn in Hlen; lia|].
    cbn [forallb] in Hfs. apply andb_prop in Hfs. destruct Hfs as [Ha Hfs].
    cbn [app modifiers_from fold_left]. rewrite string_cons.
    cbn [scan_modifiers]. rewrite charAt_cons. cbn [remove1].
    rewrite test_c, test_a, test_s, test_g.
    pose proof (modifier_bits_add a m Ha) as Hb.
    unfold is_modifier in Ha.
    cbn [List.length] in Hlen.
    destruct (is_letter "c" a); [|destruct (is_letter "a" a);
      [|destruct (is_letter "s" a); [|destruct (is_letter "g" a);
        [|discriminate Ha]]]];
    cbn [orb]; rewrite <- Z.lor_assoc, <- Hb;
    apply (IH f rest base (add_modifier a m) (chr a) Hfs Hrest); lia.
Qed.

Lemma held_bits_add a b :
  is_button a = true ->
  held_bits (add_button a b) =
  Z.lor (held_bits b)
        (if is_letter "l" a then ME1_LEFT_MASK
         else if is_letter "m" a then ME1_MID_MASK
         else ME1_RIGHT_MASK).
Proof.
  revert a.
  assert (H : forall a, implb (is_button a)
     (forallb (fun b => held_bits (add_button a b) =?
        Z.lor (held_bits b)
        (if is_letter "l" a then ME1_LEFT_MASK
         else if is_letter "m" a then ME1_MID_MASK
         else ME1_RIGHT_MASK)) all_buttons) = true).
  { intro a. by_ascii a. }
  intros a Ha. specialize (H a). rewrite Ha in H. cbn [implb] in H.
  rewrite forallb_forall in H. apply Z.eqb_eq, H, buttons_in.
Qed.

Lemma click_bits_add a b :
  is_button a = true ->
  click_bits (add_button a b) =
  Z.lor (click_bits b)
        (if is_letter "l" a then ME3_LEFT_MASK
         else if is_letter "m" a then ME3_MID_MASK
         else ME3_RIGHT_MASK).
Proof.
  revert a.
  assert (H : forall a, implb (is_button a)
     (forallb (fun b => click_bits (add_button a b) =?
        Z.lor (click_bits b)
        (if is_letter "l" a then ME3_LEFT_MASK
         else if is_letter "m" a then ME3_MID_MASK
         else ME3_RIGHT_MASK)) all_buttons) = true).
  { intro a. by_ascii a. }
  intros a Ha. specialize (H a). rewrite Ha in H. cbn [implb] in H.
  rewrite forallb_forall in H. apply Z.eqb_eq, H, buttons_in.
Qed.

Lemma add_modifier_other a m : is_modifier a = false -> add_modifier a m = m.
Proof.
  unfold is_modifier, add_modifier. destruct m as [[[c al] s] g].
  destruct (is_letter "c" a), (is_letter "a" a), (is_letter "s" a),
    (is_letter "g" a); try discriminate; intros _;
  rewrite !orb_false_r; reflexivity.
Qed.

Lemma add_button_other a b : is_button a = false -> add_button a b = b.
Proof.
  unfold is_button, add_button. destruct b as [[l m] r].
  destruct (is_letter "l" a), (is_letter "m" a), (is_letter "r" a);
  try discriminate; intros _; rewrite !orb_false_r; reflexivity.
Qed.

Lemma button_not_modifier a : is_button a = true -> is_modifier a = false.
Proof.
  intro H. apply negb_true_iff. revert H. apply implb_true_iff.
  by_ascii a.
Qed.

Lemma modifier_not_button a : is_modifier a = true -> is_button a = false.
Proof.
  intro H. destruct (is_button a) eqn:B; [|reflexivity].
  apply button_not_modifier in B. congruence.
Qed.

(** The scan of a move takes up to seven flag letters: the modifiers go
    to the second code, the held buttons to the first. *)
Lemma scan_move_flags fs : forall fuel rest b0 b b1 m nc,
  forallb (fun a => is_modifier a || is_button a) fs = true ->
  stops (fun a => is_modifier a || is_button a) rest = true ->
  (List.length fs < fuel)%nat ->
  scan_move fuel (string_of_list_ascii (fs ++ rest))
            (Z.lor b0 (held_bits b)) (Z.lor b1 (modifier_bits m)) nc
  = (Z.lor b0 (held_bits (buttons_from b fs)),
     Z.lor b1 (modifier_bits (modifiers_from m fs)),
     remove1 (string_of_list_ascii rest),
     charAt (string_of_list_ascii rest) 0).
Proof.
  induction fs as [|a fs IH]; intros fuel rest b0 b b1 m nc Hfs Hrest Hlen.
  - destruct fuel as [|f]; [cbn in Hlen; lia|].
    cbn [app modifiers_from buttons_from fold_left scan_move].
    destruct rest as [|a rest].
    + reflexivity.
    + cbn [stops] in Hrest. rewrite string_cons, charAt_cons.
      rewrite test_c, test_a, test_s, test_g, test_l, test_m, test_r.
      unfold is_modifier, is_button in Hrest.
      destruct (is_letter "c" a), (is_letter "a" a), (is_letter "s" a),
        (is_letter "g" a), (is_letter "l" a), (is_letter "m" a),
        (is_letter "r" a); try discriminate Hrest. reflexivity.
  - destruct fuel as [|f]; [cbn in Hlen; lia|].
    cbn [forallb] in Hfs. apply andb_prop in Hfs. destruct Hfs as [Ha Hfs].
    cbn [app modifiers_from buttons_from fold_left]. rewrite string_cons.
    cbn [scan_move]. rewrite charAt_cons. cbn [remove1].
    rewrite test_c, test_a, test_s, test_g, test_l, test_m, test_r.
    change ME_CTRL_MASK with KB_CTRL_MASK.
    change ME_ALT_MASK with KB_ALT_MASK.
    change ME_SHIFT_MASK with KB_SHIFT_MASK.
    change ME_GUI_MASK with KB_GUI_MASK.
    cbn [List.length] in Hlen.
    destruct (is_modifier a) eqn:Hm.
    + pose proof (modifier_bits_add a m Hm) as Hb.
      rewrite (add_button_other a b (modifier_not_button a Hm)).
      unfold is_modifier in Hm.
      destruct (is_letter "c" a); [|destruct (is_letter "a" a);
        [|destruct (is_letter "s" a); [|destruct (is_letter "g" a);
          [|discriminate Hm]]]];
      cbn [orb]; rewrite <- (Z.lor_assoc b1), <- Hb;
      apply (IH f rest b0 b b1 (add_modifier a m) (chr a) Hfs Hrest); lia.
    + cbn [orb] in Ha. pose proof (held_bits_add a b Ha) as Hb.
      rewrite (add_modifier_other a m Hm).
      unfold is_modifier in Hm.
      destruct (is_letter "c" a); [discriminate Hm|].
      destruct (is_letter "a" a); [discriminate Hm|].
      destruct (is_letter "s" a); [discriminate Hm|].
      destruct (is_letter "g" a); [discriminate Hm|].
      unfold is_button in Ha.
      destruct (is_letter "l" a); [|destruct (is_letter "m" a);
        [|destruct (is_letter "r" a); [|discriminate Ha]]];
      cbn [orb]; rewrite <- (Z.lor_assoc b0), <- Hb;
      apply (IH f rest b0 (add_button a b) b1 m (chr a) Hfs Hrest); lia.
Qed.

(** *** Amounts *)

Lemma i8_range x : -128 <= i8 x <= 127.
Proof.
  unfold i8. pose proof (Z.mod_pos_bound (x + 128) 256). lia.
Qed.

Lemma digit_value_range a : is_digit a = true -> 0 <= digit_value a <= 9.
Proof.
  intro H.
  assert (E : (0 <=? digit_value a) && (digit_value a <=? 9) = true).
  { revert H. apply implb_true_iff. by_ascii a. }
  apply andb_prop in E. lia.
Qed.

Lemma stops_digit rest :
  stops is_digit rest = true ->
  isdigit (charAt (string_of_list_ascii rest) 0) = false.
Proof.
  destruct rest as [|a rest]; cbn [stops]; intro H.
  - reflexivity.
  - rewrite string_cons, charAt_cons. apply negb_true_iff, H.
Qed.

(** The digit loop of the parsers: [nc] holds the first digit, the others
    follow in [sp]. *)
Lemma digits_app ds : forall fuel rest val d0,
  forallb is_digit ds = true ->
  (stops is_digit rest = true /\ (List.length ds < fuel)%nat)
  \/ S (List.length ds) = fuel ->
  digits fuel (string_of_list_ascii (ds ++ rest)) val (chr d0)
  = (number8 (i8 (val * 10 + digit_value d0)) ds,
     remove1 (string_of_list_ascii rest),
     charAt (string_of_list_ascii rest) 0).
Proof.
  induction ds as [|d ds IH]; intros fuel rest val d0 Hds Hstop.
  - destruct fuel as [|f]; [cbn in Hstop; lia|].
    cbn [app number8 fold_left digits List.length] in *.
    fold (digit_value d0).
    destruct Hstop as [[Hs _]|Hf].
    + rewrite (stops_digit rest Hs). reflexivity.
    + injection Hf as <-.
      destruct (negb (isdigit (charAt (string_of_list_ascii rest) 0)));
      reflexivity.
  - destruct fuel as [|f]; [cbn in Hstop; lia|].
    cbn [forallb] in Hds. apply andb_prop in Hds. destruct Hds as [Hd Hds].
    cbn [app number8 fold_left List.length] in *. rewrite string_cons.
    cbn [digits]. rewrite charAt_cons. cbn [remove1].
    fold (digit_value d0). unfold is_digit in Hd. rewrite Hd. cbn [negb].
    apply IH; [exact Hds|].
    destruct Hstop as [[Hs Hl]|Hf]; [left; split; [exact Hs|lia]|right; lia].
Qed.

Lemma sign_tests sg :
  is_sign sg = true ->
  (chr sg =? chr "+") = Ascii.eqb sg "+"
  /\ (chr sg =? chr "+") || (chr sg =? chr "-") = true.
Proof.
  intro H.
  assert (E : Bool.eqb (chr sg =? chr "+") (Ascii.eqb sg "+")
              && ((chr sg =? chr "+") || (chr sg =? chr "-")) = true).
  { revert H. apply implb_true_iff. by_ascii sg. }
  apply andb_prop in E. destruct E as [E1 E2]. split.
  - apply eqb_prop, E1.
  - exact E2.
Qed.

Lemma number_cons d0 ds :
  number (d0 :: ds)
  = fold_left (fun n a => 10 * n + digit_value a) ds (digit_value d0).
Proof.
  unfold number. cbn [fold_left]. reflexivity.
Qed.

Lemma number8_number d0 ds :
  is_digit d0 = true -> forallb is_digit ds = true ->
  (List.length ds <= 2)%nat ->
  number8 (i8 (0 * 10 + digit_value d0)) ds = i8 (number (d0 :: ds)).
Proof.
  intros H0 Hds Hlen. pose proof (digit_value_range d0 H0) as R0.
  rewrite number_cons. change (0 * 10) with 0. rewrite Z.add_0_l.
  destruct ds as [|d1 [|d2 [|d3 ds]]]; cbn [List.length] in Hlen; [| | |lia];
  cbn [forallb] in Hds; cbn [number8 fold_left].
  - reflexivity.
  - apply andb_prop in Hds. destruct Hds as [H1 _].
    pose proof (digit_value_range d1 H1) as R1.
    rewrite (i8_small (digit_value d0)) by lia. apply f_equal. lia.
  - apply andb_prop in Hds. destruct Hds as [H1 Hds].
    apply andb_prop in Hds. destruct Hds as [H2 _].
    pose proof (digit_value_range d1 H1) as R1.
    pose proof (digit_value_range d2 H2) as R2.
    rewrite (i8_small (digit_value d0)) by lia.
    rewrite (i8_small (digit_value d0 * 10 + digit_value d1)) by lia.
    apply f_equal. lia.
Qed.

Lemma land_value x : Z.land x ME_VALUE_MASK = u8 x.
Proof.
  change ME_VALUE_MASK with (Z.ones 8). rewrite Z.land_ones by lia.
  reflexivity.
Qed.

Lemma u8_i8 x : u8 (i8 x) = u8 x.
Proof.
  unfold u8, i8. rewrite Zminus_mod_idemp_l. apply f_equal2; lia.
Qed.

Lemma u8_opp_i8 x : u8 (- i8 x) = u8 (- x).
Proof.
  unfold u8, i8.
  replace (- ((x + 128) mod 256 - 128)) with (128 - (x + 128) mod 256) by lia.
  rewrite Zminus_mod_idemp_r. apply f_equal2; lia.
Qed.

(** A signed amount of one to three digits is never refused: the value
    field receives the signed number modulo 256. *)
Lemma amount_app sg d0 ds rest :
  is_sign sg = true -> is_digit d0 = true -> forallb is_digit ds = true ->
  (List.length ds <= 2)%nat ->
  stops is_digit rest = true \/ List.length ds = 2%nat ->
  amount (string_of_list_ascii ((d0 :: ds) ++ rest)) (chr sg)
  = (false, u8 (signed sg (number (d0 :: ds))),
     remove1 (string_of_list_ascii rest),
     charAt (string_of_list_ascii rest) 0).
Proof.
  intros Hsg H0 Hds Hlen Hstop.
  destruct (sign_tests sg Hsg) as [E1 E2].
  unfold amount. rewrite E2, E1. cbn [app]. rewrite string_cons, charAt_cons.
  cbn [remove1 negb orb]. unfold is_digit in H0. rewrite H0. cbn [negb].
  rewrite (digits_app ds 3 rest 0 d0 Hds)
    by (destruct Hstop; [left; split; [assumption|lia]|right; lia]).
  rewrite (number8_number d0 ds H0 Hds Hlen).
  pose proof (i8_range (number (d0 :: ds))) as R.
  replace (i8 (number (d0 :: ds)) >? 255) with false
    by (symmetry; rewrite Z.gtb_ltb; apply Z.ltb_ge; lia).
  cbn [orb]. rewrite land_value. unfold signed.
  destruct (Ascii.eqb sg "+"); [rewrite u8_i8|rewrite u8_opp_i8]; reflexivity.
Qed.

(** *** What the parsers make of a valid text *)

Lemma flags_ok_parts held most fs :
  flags_ok held most fs = true ->
  forallb (fun a => is_modifier a || (held && is_button a)) fs = true
  /\ Z.of_nat (List.length fs) <= most.
Proof.
  unfold flags_ok, width. intro H. apply andb_prop in H.
  destruct H as [H1 H2]. split; [exact H2|lia].
Qed.

Lemma flags_modifiers most fs :
  flags_ok false most fs = true -> forallb is_modifier fs = true.
Proof.
  intro H. apply flags_ok_parts in H. destruct H as [H _].
  rewrite forallb_forall in *. intros a Ha. specialize (H a Ha).
  cbn [andb] in H. rewrite orb_false_r in H. exact H.
Qed.

Lemma flags_held most fs :
  flags_ok true most fs = true ->
  forallb (fun a => is_modifier a || is_button a) fs = true.
Proof.
  intro H. apply flags_ok_parts in H. destruct H as [H _]. exact H.
Qed.

Lemma amount_ok_parts bound sg ds :
  amount_ok bound sg ds = true ->
  exists d0 ds', ds = d0 :: ds' /\ is_sign sg = true /\ is_digit d0 = true
    /\ forallb is_digit ds' = true /\ (List.length ds' <= 2)%nat
    /\ number ds <= bound.
Proof.
  unfold amount_ok, width. intro H.
  apply andb_prop in H. destruct H as [H H5]. apply Z.leb_le in H5.
  apply andb_prop in H. destruct H as [H H4].
  apply andb_prop in H. destruct H as [H H3]. apply Z.leb_le in H3.
  apply andb_prop in H. destruct H as [H1 H2]. apply Z.leb_le in H2.
  destruct ds as [|d0 ds']; [cbn [List.length] in H2; lia|].
  exists d0, ds'. cbn [forallb List.length] in *.
  apply andb_prop in H4. destruct H4 as [H0 H4].
  repeat split; try assumption; lia.
Qed.

Lemma sign_stops sg :
  is_sign sg = true ->
  is_modifier sg = false /\ is_button sg = false /\ is_digit sg = false.
Proof.
  intro H.
  assert (E : negb (is_modifier sg) && negb (is_button sg)
              && negb (is_digit sg) = true).
  { revert H. apply implb_true_iff. by_ascii sg. }
  apply andb_prop in E. destruct E as [E E3].
  apply andb_prop in E. destruct E as [E1 E2].
  repeat split; apply negb_true_iff; assumption.
Qed.

(** A wheel spec: up to four modifier letters, a sign and one to three
    digits. *)
Lemma parseW_text fs sg ds bound :
  flags_ok false 4 fs = true -> amount_ok bound sg ds = true ->
  parseW (string_of_list_ascii (fs ++ sg :: ds))
  = Z.lor (Z.lor CE_TYPE_MASK (modifier_bits (modifiers_of fs)))
          (u8 (signed sg (number ds))).
Proof.
  intros Hfs Hds.
  destruct (amount_ok_parts _ _ _ Hds) as (d0 & ds' & -> & Hsg & H0 & Hds' & Hl & _).
  destruct (sign_stops sg Hsg) as (S1 & _ & _).
  unfold parseW.
  change CE_TYPE_MASK with (Z.lor CE_TYPE_MASK (modifier_bits no_modifiers)) at 1.
  rewrite (scan_modifiers_flags fs 5 (sg :: d0 :: ds') CE_TYPE_MASK no_modifiers 0
             (flags_modifiers 4 fs Hfs)).
  - rewrite string_cons, charAt_cons. cbn [remove1 wheel_value].
    rewrite <- (app_nil_r (d0 :: ds')) at 1.
    rewrite (amount_app sg d0 ds' [] Hsg H0 Hds' Hl) by (left; reflexivity).
    reflexivity.
  - cbn [stops]. rewrite S1. reflexivity.
  - apply flags_ok_parts in Hfs. lia.
Qed.

(** A move spec: up to seven flag letters and two signed amounts. *)
Lemma parseM_text fs sx dx sy dy bx by' :
  flags_ok true 7 fs = true ->
  amount_ok bx sx dx = true -> amount_ok by' sy dy = true ->
  parseM (string_of_list_ascii (fs ++ (sx :: dx) ++ (sy :: dy)))
  = u32 (Z.lor
      (Z.shiftl (Z.lor (Z.lor (SET_ME_TYPE CE_TYPE_MASK ME_TYPE_X)
                              (held_bits (buttons_of fs)))
                       (u8 (signed sx (number dx)))) 16)
      (Z.lor (Z.lor (SET_ME_TYPE CE_TYPE_MASK ME_TYPE_Y)
                    (modifier_bits (modifiers_of fs)))
             (u8 (signed sy (number dy))))).
Proof.
  intros Hfs Hx Hy.
  destruct (amount_ok_parts _ _ _ Hx)
    as (x0 & xs & -> & Hsx & Hx0 & Hxs & Hlx & _).
  destruct (amount_ok_parts _ _ _ Hy)
    as (y0 & ys & -> & Hsy & Hy0 & Hys & Hly & _).
  destruct (sign_stops sx Hsx) as (S1 & S2 & _).
  destruct (sign_stops sy Hsy) as (_ & _ & S3).
  unfold parseM.
  pose proof (scan_move_flags fs 8 ((sx :: x0 :: xs) ++ sy :: y0 :: ys)
                (SET_ME_TYPE CE_TYPE_MASK ME_TYPE_X) no_buttons
                (SET_ME_TYPE CE_TYPE_MASK ME_TYPE_Y) no_modifiers 0
                (flags_held 7 fs Hfs)) as E.
  change (Z.lor (SET_ME_TYPE CE_TYPE_MASK ME_TYPE_X) (held_bits no_buttons))
    with (SET_ME_TYPE CE_TYPE_MASK ME_TYPE_X) in E.
  change (Z.lor (SET_ME_TYPE CE_TYPE_MASK ME_TYPE_Y)
                (modifier_bits no_modifiers))
    with (SET_ME_TYPE CE_TYPE_MASK ME_TYPE_Y) in E.
  rewrite E.
  - cbn [app]. rewrite string_cons, charAt_cons. cbn [remove1 move_value].
    change (x0 :: xs ++ sy :: y0 :: ys) with ((x0 :: xs) ++ sy :: y0 :: ys).
    rewrite (amount_app sx x0 xs (sy :: y0 :: ys) Hsx Hx0 Hxs Hlx)
      by (left; cbn [stops]; rewrite S3; reflexivity).
    cbv beta iota. rewrite string_cons, charAt_cons. cbn [remove1].
    rewrite <- (app_nil_r (y0 :: ys)) at 1.
    rewrite (amount_app sy y0 ys [] Hsy Hy0 Hys Hly) by (left; reflexivity).
    reflexivity.
  - cbn [app stops]. rewrite S1, S2. reflexivity.
  - apply flags_ok_parts in Hfs. lia.
Qed.

Lemma button_tests a :
  is_button a = true -> (u8 (chr a) =? 0) = false.
Proof.
  intro H. apply negb_true_iff. revert H. apply implb_true_iff. by_ascii a.
Qed.

(** The button letters of a click spec. *)
Lemma click_buttons_app bs : forall fuel base b b0,
  is_button b0 = true -> forallb is_button bs = true ->
  (List.length bs < fuel)%nat ->
  click_buttons fuel (string_of_list_ascii bs)
                (Z.lor base (click_bits b)) (chr b0)
  = (false, Z.lor base (click_bits (buttons_from b (b0 :: bs)))).
Proof.
  induction bs as [|b1 bs IH]; intros fuel base b b0 H0 Hbs Hlen;
  (destruct fuel as [|f]; [cbn in Hlen; lia|]);
  cbn [click_buttons]; rewrite (button_tests b0 H0);
  rewrite test_l, test_m, test_r;
  pose proof (click_bits_add b0 b H0) as Hb;
  cbn [buttons_from fold_left]; unfold is_button in H0.
  - assert (E : forall ans, click_buttons f (remove1 (string_of_list_ascii []))
                  ans (charAt (string_of_list_ascii []) 0) = (false, ans)).
    { intro ans. destruct f; reflexivity. }
    destruct (is_letter "l" b0); [|destruct (is_letter "m" b0);
      [|destruct (is_letter "r" b0); [|discriminate H0]]];
    rewrite E, <- Z.lor_assoc, <- Hb; reflexivity.
  - cbn [forallb] in Hbs. apply andb_prop in Hbs. destruct Hbs as [H1 Hbs].
    cbn [List.length] in Hlen.
    rewrite string_cons, charAt_cons. cbn [remove1].
    destruct (is_letter "l" b0); [|destruct (is_letter "m" b0);
      [|destruct (is_letter "r" b0); [|discriminate H0]]];
    rewrite <- Z.lor_assoc, <- Hb;
    apply (IH f base (add_button b0 b) b1 H1 Hbs); lia.
Qed.

(** A click spec: up to four modifier letters and one to three button
    letters. *)
Lemma parseC_text fs b0 bs :
  flags_ok false 4 fs = true ->
  forallb is_button (b0 :: bs) = true -> (List.length bs <= 2)%nat ->
  parseC (string_of_list_ascii (fs ++ b0 :: bs))
  = Z.lor (Z.lor (SET_ME_TYPE CE_TYPE_MASK ME_TYPE_CLICK)
                 (modifier_bits (modifiers_of fs)))
          (click_bits (buttons_of (b0 :: bs))).
Proof.
  intros Hfs Hbs Hlen. cbn [forallb] in Hbs. apply andb_prop in Hbs.
  destruct Hbs as [H0 Hbs].
  unfold parseC.
  pose proof (scan_modifiers_flags fs 5 (b0 :: bs)
                (SET_ME_TYPE CE_TYPE_MASK ME_TYPE_CLICK) no_modifiers 0
                (flags_modifiers 4 fs Hfs)) as E.
  change (Z.lor (SET_ME_TYPE CE_TYPE_MASK ME_TYPE_CLICK)
                (modifier_bits no_modifiers))
    with (SET_ME_TYPE CE_TYPE_MASK ME_TYPE_CLICK) in E.
  rewrite E.
  - rewrite string_cons, charAt_cons. cbn [remove1 click_value].
    rewrite (button_tests b0 H0).
    rewrite <- (Z.lor_0_r (Z.lor _ (modifier_bits (modifiers_from _ fs)))).
    change 0 with (click_bits no_buttons) at 1.
    rewrite (click_buttons_app bs 3 _ no_buttons b0 H0 Hbs) by lia.
    reflexivity.
  - cbn [stops]. rewrite (button_not_modifier b0 H0). reflexivity.
  - apply flags_ok_parts in Hfs. lia.
Qed.

(** The code of a quoted character: the shift bit is cleared. *)
Lemma quoted_code m c :
  isPrintable (chr c) = true ->
  u16 (Z.land (u16 (Z.lor (Z.lor 0 (modifier_bits m)) (Z.land (chr c) 0x7F)))
              (Z.lnot KB_SHIFT_MASK))
  = Z.lor (modifier_bits (no_shift m)) (chr c).
Proof.
  revert c.
  assert (H : forall c, implb (isPrintable (chr c))
     (forallb (fun m =>
        u16 (Z.land (u16 (Z.lor (Z.lor 0 (modifier_bits m))
                                (Z.land (chr c) 0x7F)))
                    (Z.lnot KB_SHIFT_MASK))
        =? Z.lor (modifier_bits (no_shift m)) (chr c)) all_modifiers) = true).
  { intro c. by_ascii c. }
  intros c Hc. specialize (H c). rewrite Hc in H. cbn [implb] in H.
  rewrite forallb_forall in H. apply Z.eqb_eq, H, modifiers_in.
Qed.

(** A keyboard spec with a quoted character. *)
Lemma parseK_quoted fs c :
  flags_ok false 4 fs = true -> isPrintable (chr c) = true ->
  parseK (string_of_list_ascii (fs ++ ["'"%char; c]))
  = Z.lor (modifier_bits (no_shift (modifiers_of fs))) (chr c).
Proof.
  intros Hfs Hc. unfold parseK.
  pose proof (scan_modifiers_flags fs 5 ["'"%char; c] 0 no_modifiers 0
                (flags_modifiers 4 fs Hfs)) as E.
  change (Z.lor 0 (modifier_bits no_modifiers)) with 0 in E.
  rewrite E.
  - rewrite string_cons, charAt_cons. cbn [remove1 key_value].
    rewrite Z.eqb_refl. rewrite string_cons, charAt_cons. rewrite Hc.
    cbn [negb]. apply quoted_code, Hc.
  - reflexivity.
  - apply flags_ok_parts in Hfs. lia.
Qed.

Lemma test_x a : (chr a =? chr "x") || (chr a =? chr "X") = is_letter "x" a.
Proof.
  apply eqb_prop. by_ascii a.
Qed.

(** The value the source computes from two hexadecimal digits: a capital
    F in the low place takes 32 off it. *)
Lemma hex_code h l :
  is_hex h = true -> is_hex l = true ->
  u8 (Z.shiftl (hex_digit (chr h)) 4 + hex_digit (chr l))
  = if Ascii.eqb l "F" then u8 (16 * hex_value h + hex_value l - 32)
    else 16 * hex_value h + hex_value l.
Proof.
  revert h.
  assert (H : forall h, (if is_hex h then
     forallb (fun l => if is_hex l then
        u8 (Z.shiftl (hex_digit (chr h)) 4 + hex_digit (chr l))
        =? (if Ascii.eqb l "F" then u8 (16 * hex_value h + hex_value l - 32)
            else 16 * hex_value h + hex_value l)
        else true) all_ascii else true) = true).
  { intro h. by_ascii h. }
  intros h Hh Hl. specialize (H h). rewrite Hh in H.
  pose proof (ascii_forall _ H l) as E. cbv beta in E. rewrite Hl in E.
  apply Z.eqb_eq, E.
Qed.

Lemma hex_value_range h : is_hex h = true -> 0 <= hex_value h <= 15.
Proof.
  intro H.
  assert (E : (0 <=? hex_value h) && (hex_value h <=? 15) = true).
  { revert H. apply implb_true_iff. by_ascii h. }
  apply andb_prop in E. lia.
Qed.

(** A byte put under the modifier bits of a keyboard code. *)
Lemma key_code m v :
  0 <= v < 256 ->
  u16 (Z.lor (Z.lor 0 (modifier_bits m)) v) = Z.lor (modifier_bits m) v.
Proof.
  revert v.
  assert (H : forall v, 0 <= v < 256 ->
     forallb (fun m => u16 (Z.lor (Z.lor 0 (modifier_bits m)) v)
                       =? Z.lor (modifier_bits m) v) all_modifiers = true).
  { by_bytes. }
  intros v Hv. specialize (H v Hv). rewrite forallb_forall in H.
  apply Z.eqb_eq, H, modifiers_in.
Qed.

(** A keyboard spec with two hexadecimal digits. *)
Lemma parseK_hex fs x h l :
  flags_ok false 4 fs = true -> is_letter "x" x = true ->
  is_hex h = true -> is_hex l = true ->
  parseK (string_of_list_ascii (fs ++ ["0"%char; x; h; l]))
  = Z.lor (modifier_bits (modifiers_of fs))
          (if Ascii.eqb l "F" then u8 (16 * hex_value h + hex_value l - 32)
           else 16 * hex_value h + hex_value l).
Proof.
  intros Hfs Hx Hh Hl. unfold parseK.
  pose proof (scan_modifiers_flags fs 5 ["0"%char; x; h; l] 0 no_modifiers 0
                (flags_modifiers 4 fs Hfs)) as E.
  change (Z.lor 0 (modifier_bits no_modifiers)) with 0 in E.
  rewrite E.
  - rewrite string_cons, charAt_cons. cbn [remove1 key_value].
    change (chr "0" =? chr "'") with false. rewrite Z.eqb_refl. cbv iota.
    rewrite !string_cons, charAt_cons. cbn [remove1]. rewrite test_x, Hx.
    cbn [String.length string_of_list_ascii Nat.add]. cbn [andb].
    change (Z.of_nat 2 =? 2) with true. cbv iota.
    change (charAt (String h (String l "")) 0) with (chr h).
    change (charAt (String h (String l "")) 1) with (chr l).
    unfold is_hex in Hh, Hl. rewrite Hh, Hl. cbn [negb orb].
    fold (is_hex h) in Hh. fold (is_hex l) in Hl.
    rewrite (hex_code h l Hh Hl).
    pose proof (hex_value_range h Hh). pose proof (hex_value_range l Hl).
    apply key_code. destruct (Ascii.eqb l "F").
    + apply Z.mod_pos_bound. lia.
    + lia.
  - reflexivity.
  - apply flags_ok_parts in Hfs. lia.
Qed.

(** *** Reading a text *)

Lemma buttons_from_modifiers fs : forall b,
  forallb is_modifier fs = true -> buttons_from b fs = b.
Proof.
  induction fs as [|a fs IH]; intros b H; [reflexivity|].
  cbn [forallb] in H. apply andb_prop in H. destruct H as [Ha H].
  cbn [buttons_from fold_left].
  rewrite (add_button_other a b (modifier_not_button a Ha)). apply IH, H.
Qed.

Lemma read_prefix_app held fs : forall rest m b,
  forallb (fun a => is_modifier a || (held && is_button a)) fs = true ->
  stops (fun a => is_modifier a || (held && is_button a)) rest = true ->
  read_prefix held (fs ++ rest) m b
  = (modifiers_from m fs, buttons_from b fs, rest).
Proof.
  induction fs as [|a fs IH]; intros rest m b Hfs Hrest.
  - cbn [app modifiers_from buttons_from fold_left].
    destruct rest as [|a rest]; [reflexivity|].
    cbn [stops] in Hrest. apply negb_true_iff, orb_false_iff in Hrest.
    destruct Hrest as [H1 H2]. cbn [read_prefix]. rewrite H1, H2. reflexivity.
  - cbn [forallb] in Hfs. apply andb_prop in Hfs. destruct Hfs as [Ha Hfs].
    cbn [app read_prefix modifiers_from buttons_from fold_left].
    destruct (is_modifier a) eqn:Hm.
    + rewrite (add_button_other a b (modifier_not_button a Hm)).
      apply IH; assumption.
    + cbn [orb] in Ha. rewrite Ha.
      rewrite (add_modifier_other a m Hm). apply IH; assumption.
Qed.

Lemma read_digits_app ds : forall rest n,
  forallb is_digit ds = true -> stops is_digit rest = true ->
  read_digits (ds ++ rest) n
  = (fold_left (fun n a => 10 * n + digit_value a) ds n, rest).
Proof.
  induction ds as [|d ds IH]; intros rest n Hds Hrest.
  - cbn [app fold_left]. destruct rest as [|a rest]; [reflexivity|].
    cbn [stops] in Hrest. apply negb_true_iff in Hrest.
    cbn [read_digits]. rewrite Hrest. reflexivity.
  - cbn [forallb] in Hds. apply andb_prop in Hds. destruct Hds as [Hd Hds].
    cbn [app read_digits fold_left]. rewrite Hd. apply IH; assumption.
Qed.

Lemma read_signed_app sg d0 ds rest :
  is_sign sg = true -> is_digit d0 = true -> forallb is_digit ds = true ->
  stops is_digit rest = true ->
  read_signed (sg :: (d0 :: ds) ++ rest)
  = Some (signed sg (number (d0 :: ds)), rest).
Proof.
  intros Hsg H0 Hds Hrest. cbn [app read_signed]. rewrite Hsg, H0. cbn [andb].
  change (d0 :: ds ++ rest) with ((d0 :: ds) ++ rest).
  rewrite (read_digits_app (d0 :: ds) rest 0)
    by (cbn [forallb]; try rewrite H0; assumption).
  reflexivity.
Qed.

Lemma list_of_append s1 s2 :
  list_ascii_of_string (s1 ++ s2)
  = list_ascii_of_string s1 ++ list_ascii_of_string s2.
Proof.
  induction s1 as [|a s1 IH]; [reflexivity|].
  cbn [append list_ascii_of_string app]. rewrite IH. reflexivity.
Qed.

(** *** What a display shows of a code *)

(** A code made of a type, modifier bits and a byte shows the letters of
    its modifiers and keeps the byte in its value field. *)
Lemma modifiers_shape base m v :
  In base [0; CE_TYPE_MASK; SET_ME_TYPE CE_TYPE_MASK ME_TYPE_Y;
           SET_ME_TYPE CE_TYPE_MASK ME_TYPE_CLICK] ->
  0 <= v < 256 ->
  let e := Z.lor (Z.lor base (modifier_bits m)) v in
  eType e = eType base
  /\ print_modifiers e = string_of_list_ascii (modifier_letters m)
  /\ Z.land e ME_VALUE_MASK = v /\ 0 <= e < 65536.
Proof.
  intros Hb Hv.
  assert (E : (fun v =>
    let e := Z.lor (Z.lor base (modifier_bits m)) v in
    (eType e =? eType base)
    && String.eqb (print_modifiers e)
                  (string_of_list_ascii (modifier_letters m))
    && (Z.land e ME_VALUE_MASK =? v) && (0 <=? e) && (e <? 65536)) v = true).
  { revert v Hv. cbn [In] in Hb.
    destruct Hb as [<-|[<-|[<-|[<-|[]]]]];
    destruct m as [[[[] []] []] []]; by_bytes. }
  cbv beta zeta in E.
  apply andb_prop in E. destruct E as [E E5]. apply Z.ltb_lt in E5.
  apply andb_prop in E. destruct E as [E E4]. apply Z.leb_le in E4.
  apply andb_prop in E. destruct E as [E E3]. apply Z.eqb_eq in E3.
  apply andb_prop in E. destruct E as [E1 E2]. apply Z.eqb_eq in E1.
  apply String.eqb_eq in E2. cbv zeta. repeat split; assumption.
Qed.

(** The first code of a move: type, held buttons and a byte. *)
Lemma held_shape b v :
  0 <= v < 256 ->
  let e := Z.lor (Z.lor (SET_ME_TYPE CE_TYPE_MASK ME_TYPE_X) (held_bits b)) v in
  eType e = chr "m"
  /\ (when (negb (Z.land e ME1_LEFT_MASK =? 0)%Z) "l"
      ++ when (negb (Z.land e ME1_MID_MASK =? 0)%Z) "m"
      ++ when (negb (Z.land e ME1_RIGHT_MASK =? 0)%Z) "r")%string
     = string_of_list_ascii (button_letters b)
  /\ Z.land e ME_VALUE_MASK = v /\ 0 <= e < 65536.
Proof.
  intros Hv.
  assert (E : (fun v =>
    let e := Z.lor (Z.lor (SET_ME_TYPE CE_TYPE_MASK ME_TYPE_X) (held_bits b)) v in
    (eType e =? chr "m")
    && String.eqb (when (negb (Z.land e ME1_LEFT_MASK =? 0)%Z) "l"
                   ++ when (negb (Z.land e ME1_MID_MASK =? 0)%Z) "m"
                   ++ when (negb (Z.land e ME1_RIGHT_MASK =? 0)%Z) "r")
                  (string_of_list_ascii (button_letters b))
    && (Z.land e ME_VALUE_MASK =? v) && (0 <=? e) && (e <? 65536)) v = true).
  { revert v Hv. destruct b as [[[] []] []]; by_bytes. }
  cbv beta zeta in E.
  apply andb_prop in E. destruct E as [E E5]. apply Z.ltb_lt in E5.
  apply andb_prop in E. destruct E as [E E4]. apply Z.leb_le in E4.
  apply andb_prop in E. destruct E as [E E3]. apply Z.eqb_eq in E3.
  apply andb_prop in E. destruct E as [E1 E2]. apply Z.eqb_eq in E1.
  apply String.eqb_eq in E2. cbv zeta. repeat split; assumption.
Qed.

(** The text of an amount: a sign and digits that spell the value field
    as a signed byte. *)
Lemma print_amount_shape v :
  0 <= v < 256 ->
  exists sg d0 ds,
    list_ascii_of_string (print_amount v) = sg :: d0 :: ds
    /\ is_sign sg = true /\ is_digit d0 = true /\ forallb is_digit ds = true
    /\ signed sg (number (d0 :: ds)) = i8 v.
Proof.
  intro Hv.
  assert (E : (fun v =>
    match list_ascii_of_string (print_amount v) with
    | sg :: d0 :: ds =>
      is_sign sg && is_digit d0 && forallb is_digit ds
      && (signed sg (number (d0 :: ds)) =? i8 v)
    | _ => false
    end) v = true).
  { revert v Hv. by_bytes. }
  cbv beta in E.
  destruct (list_ascii_of_string (print_amount v)) as [|sg [|d0 ds]];
    try discriminate E.
  exists sg, d0, ds.
  apply andb_prop in E. destruct E as [E E4]. apply Z.eqb_eq in E4.
  apply andb_prop in E. destruct E as [E E3].
  apply andb_prop in E. destruct E as [E1 E2]. repeat split; assumption.
Qed.

Lemma print_amount_low e v :
  0 <= v < 256 -> Z.land e ME_VALUE_MASK = v ->
  print_amount e = print_amount v.
Proof.
  intros Hv He. unfold print_amount. rewrite He, land_value.
  unfold u8. rewrite Z.mod_small by lia. reflexivity.
Qed.

Lemma modifier_letters_ok held m :
  forallb (fun a => is_modifier a || (held && is_button a))
          (modifier_letters m) = true
  /\ modifiers_of (modifier_letters m) = m.
Proof.
  destruct held, m as [[[[] []] []] []]; split; reflexivity.
Qed.

Lemma letters_ok m b :
  forallb (fun a => is_modifier a || (true && is_button a))
          (modifier_letters m ++ button_letters b) = true
  /\ modifiers_of (modifier_letters m ++ button_letters b) = m
  /\ buttons_of (modifier_letters m ++ button_letters b) = b.
Proof.
  destruct m as [[[[] []] []] []], b as [[[] []] []];
  repeat split; reflexivity.
Qed.

Lemma button_letters_ok b :
  stops (fun a => is_modifier a || (false && is_button a))
        (button_letters b) = true
  /\ read_buttons (button_letters b) no_buttons = Some b
  /\ (b <> no_buttons -> button_letters b <> []).
Proof.
  destruct b as [[[] []] []]; repeat split; try reflexivity;
  intro H; try discriminate; exfalso; apply H; reflexivity.
Qed.

Lemma read_action_k s :
  read_action (chr "k") s
  = let '(m, _, rest) := read_prefix false s no_modifiers no_buttons in
    match read_key rest with
    | Some v => Some (mkAction (chr "k") m no_buttons [v])
    | None => None
    end.
Proof.
  reflexivity.
Qed.

Lemma read_action_w s :
  read_action (chr "w") s
  = let '(m, _, rest) := read_prefix false s no_modifiers no_buttons in
    match read_signed rest with
    | Some (v, []) => Some (mkAction (chr "w") m no_buttons [v])
    | _ => None
    end.
Proof.
  reflexivity.
Qed.

Lemma read_action_m s :
  read_action (chr "m") s
  = let '(m, b, rest) := read_prefix true s no_modifiers no_buttons in
    match read_signed rest with
    | Some (x, rest) =>
      match read_signed rest with
      | Some (y, []) => Some (mkAction (chr "m") m b [x; y])
      | _ => None
      end
    | None => None
    end.
Proof.
  reflexivity.
Qed.

Lemma read_action_c s :
  read_action (chr "c") s
  = let '(m, _, rest) := read_prefix false s no_modifiers no_buttons in
    match rest with
    | [] => None
    | _ => match read_buttons rest no_buttons with
           | Some b => Some (mkAction (chr "c") m b [])
           | None => None
           end
    end.
Proof.
  reflexivity.
Qed.

Lemma shown_k a b :
  eType a = chr "k" ->
  shown a b = read_action (chr "k") (list_ascii_of_string (textK a)).
Proof.
  unfold shown, display_direction. intros ->. reflexivity.
Qed.

Lemma shown_w a b :
  eType a = chr "w" ->
  shown a b = read_action (chr "w") (list_ascii_of_string (textW a)).
Proof.
  unfold shown, display_direction. intros ->. reflexivity.
Qed.

Lemma shown_m a b :
  eType a = chr "m" ->
  shown a b = read_action (chr "m") (list_ascii_of_string (textM a b)).
Proof.
  unfold shown, display_direction. intros ->. reflexivity.
Qed.

Lemma shown_c a b :
  eType a = chr "c" ->
  shown a b = read_action (chr "c") (list_ascii_of_string (textC a)).
Proof.
  unfold shown, display_direction. intros ->. reflexivity.
Qed.

(** The display of a wheel code spells the modifiers and the value field
    as a signed byte. *)
Lemma wheel_shown m v b :
  0 <= v < 256 ->
  shown (Z.lor (Z.lor CE_TYPE_MASK (modifier_bits m)) v) b
  = Some (mkAction (chr "w") m no_buttons [i8 v]).
Proof.
  intro Hv.
  destruct (modifiers_shape CE_TYPE_MASK m v) as (E1 & E2 & E3 & _);
    [cbn [In]; tauto|exact Hv|].
  rewrite shown_w by (rewrite E1; reflexivity).
  unfold textW. rewrite E2, (print_amount_low _ v Hv E3).
  rewrite list_of_append, list_ascii_of_string_of_list_ascii.
  destruct (print_amount_shape v Hv) as (sg & d0 & ds & EL & Hsg & H0 & Hds & Hval).
  rewrite EL. destruct (sign_stops sg Hsg) as (S1 & S2 & _).
  destruct (modifier_letters_ok false m) as [F1 F2].
  rewrite read_action_w.
  rewrite (read_prefix_app false (modifier_letters m) _ _ _ F1)
    by (cbn [stops]; rewrite S1; reflexivity).
  fold (modifiers_of (modifier_letters m)). rewrite F2.
  rewrite <- (app_nil_r ds).
  change (sg :: d0 :: ds ++ []) with (sg :: (d0 :: ds) ++ []).
  rewrite (read_signed_app sg d0 ds [] Hsg H0 Hds) by reflexivity.
  rewrite Hval. reflexivity.
Qed.

(** The text of a key: a quoted character or hexadecimal digits that spell
    the value field. *)
Lemma key_text_reads v :
  0 <= v < 256 ->
  let ks := i8 v in
  let t := list_ascii_of_string
             (if isPrintable ks && (ks >? chr " ")
              then String "'" (String (ascii_of ks) "")
              else ("0x" ++ print_hex (u8 ks))%string) in
  read_key t = Some v
  /\ stops (fun a => is_modifier a || (false && is_button a)) t = true.
Proof.
  intro Hv.
  assert (E : (fun v =>
    let ks := i8 v in
    let t := list_ascii_of_string
               (if isPrintable ks && (ks >? chr " ")
                then String "'" (String (ascii_of ks) "")
                else ("0x" ++ print_hex (u8 ks))%string) in
    match read_key t with
    | Some w => (w =? v)
                && stops (fun a => is_modifier a || (false && is_button a)) t
    | None => false
    end) v = true).
  { revert v Hv. by_bytes. }
  cbv beta zeta in E. cbv zeta.
  destruct (read_key _) as [w|]; [|discriminate E].
  apply andb_prop in E. destruct E as [E1 E2]. apply Z.eqb_eq in E1.
  split; [congruence|exact E2].
Qed.

(** The display of a keyboard code spells its modifiers and its value
    field. *)
Lemma key_shown m v b :
  0 <= v < 256 ->
  shown (Z.lor (modifier_bits m) v) b
  = Some (mkAction (chr "k") m no_buttons [v]).
Proof.
  intro Hv. rewrite <- (Z.lor_0_l (modifier_bits m)).
  destruct (modifiers_shape 0 m v) as (E1 & E2 & E3 & _);
    [cbn [In]; tauto|exact Hv|].
  rewrite shown_k by (rewrite E1; reflexivity).
  unfold textK. cbv zeta. change KB_VALUE_MASK with ME_VALUE_MASK.
  rewrite E2, E3.
  rewrite list_of_append, list_ascii_of_string_of_list_ascii.
  destruct (key_text_reads v Hv) as [K1 K2]. cbv zeta in K1, K2.
  destruct (modifier_letters_ok false m) as [F1 F2].
  rewrite read_action_k.
  rewrite (read_prefix_app false (modifier_letters m) _ _ _ F1 K2).
  fold (modifiers_of (modifier_letters m)). rewrite F2, K1. reflexivity.
Qed.

(** The display of a click code spells its modifiers and its buttons. *)
Lemma click_shown m b b' :
  b <> no_buttons ->
  shown (Z.lor (Z.lor (SET_ME_TYPE CE_TYPE_MASK ME_TYPE_CLICK)
                      (modifier_bits m)) (click_bits b)) b'
  = Some (mkAction (chr "c") m b []).
Proof.
  intro Hb. unfold shown, display_direction.
  destruct m as [[[[] []] []] []], b as [[[] []] []];
  try (exfalso; apply Hb; reflexivity); reflexivity.
Qed.

Lemma append_assoc (s1 s2 s3 : string) :
  ((s1 ++ s2) ++ s3 = s1 ++ (s2 ++ s3))%string.
Proof.
  induction s1 as [|a s1 IH]; [reflexivity|].
  cbn [append]. rewrite IH. reflexivity.
Qed.

Lemma textM_split a b :
  textM a b
  = (print_modifiers b
     ++ (when (negb (Z.land a ME1_LEFT_MASK =? 0)%Z) "l"
         ++ when (negb (Z.land a ME1_MID_MASK =? 0)%Z) "m"
         ++ when (negb (Z.land a ME1_RIGHT_MASK =? 0)%Z) "r")
     ++ print_amount a ++ print_amount b)%string.
Proof.
  unfold textM. rewrite !append_assoc. reflexivity.
Qed.

(** The display of the two codes of a move spells the modifiers of the
    second, the held buttons of the first and both value fields. *)
Lemma move_shown m b vx vy :
  0 <= vx < 256 -> 0 <= vy < 256 ->
  shown (Z.lor (Z.lor (SET_ME_TYPE CE_TYPE_MASK ME_TYPE_X) (held_bits b)) vx)
        (Z.lor (Z.lor (SET_ME_TYPE CE_TYPE_MASK ME_TYPE_Y) (modifier_bits m)) vy)
  = Some (mkAction (chr "m") m b [i8 vx; i8 vy]).
Proof.
  intros Hx Hy.
  destruct (held_shape b vx Hx) as (X1 & X2 & X3 & _).
  destruct (modifiers_shape (SET_ME_TYPE CE_TYPE_MASK ME_TYPE_Y) m vy)
    as (_ & Y2 & Y3 & _); [cbn [In]; tauto|exact Hy|].
  cbv zeta in X1, X2, X3, Y2, Y3.
  rewrite shown_m by exact X1.
  rewrite textM_split.
  rewrite Y2, X2, (print_amount_low _ vx Hx X3), (print_amount_low _ vy Hy Y3).
  rewrite !list_of_append, !list_ascii_of_string_of_list_ascii.
  rewrite app_assoc.
  destruct (print_amount_shape vx Hx)
    as (sx & x0 & xs & EX & Hsx & Hx0 & Hxs & Hxv).
  destruct (print_amount_shape vy Hy)
    as (sy & y0 & ys & EY & Hsy & Hy0 & Hys & Hyv).
  rewrite EX, EY.
  destruct (sign_stops sx Hsx) as (S1 & S2 & _).
  destruct (sign_stops sy Hsy) as (_ & _ & S3).
  destruct (letters_ok m b) as (F1 & F2 & F3).
  rewrite read_action_m.
  rewrite (read_prefix_app true (modifier_letters m ++ button_letters b) _ _ _ F1)
    by (cbn [stops app andb]; rewrite S1, S2; reflexivity).
  fold (modifiers_of (modifier_letters m ++ button_letters b)).
  fold (buttons_of (modifier_letters m ++ button_letters b)).
  rewrite F2, F3.
  change ((sx :: x0 :: xs) ++ sy :: y0 :: ys)
    with (sx :: (x0 :: xs) ++ sy :: y0 :: ys).
  rewrite (read_signed_app sx x0 xs (sy :: y0 :: ys) Hsx Hx0 Hxs)
    by (cbn [stops]; rewrite S3; reflexivity).
  rewrite <- (app_nil_r ys).
  change (sy :: y0 :: ys ++ []) with (sy :: (y0 :: ys) ++ []).
  rewrite (read_signed_app sy y0 ys [] Hsy Hy0 Hys) by reflexivity.
  rewrite Hxv, Hyv. reflexivity.
Qed.

(** *** The two halves of the result of [parseM] *)

Lemma halves x y :
  0 <= x < 65536 -> 0 <= y < 65536 ->
  Z.shiftr (u32 (Z.lor (Z.shiftl x 16) y)) 16 = x
  /\ Z.land (u32 (Z.lor (Z.shiftl x 16) y)) 0xFFFF = y.
Proof.
  intros Hx Hy.
  assert (L : Z.land (Z.shiftl x 16) y = 0).
  { apply Z.bits_inj'. intros n Hn. rewrite Z.land_spec, Z.bits_0.
    destruct (Z.ltb_spec n 16) as [Hlt|Hge].
    - rewrite Z.shiftl_spec_low by lia. reflexivity.
    - replace y with (y mod 2 ^ 16) by (apply Z.mod_small; lia).
      rewrite Z.mod_pow2_bits_high by lia. apply andb_false_r. }
  assert (E : Z.lor (Z.shiftl x 16) y = x * 65536 + y).
  { rewrite <- (Z.lxor_lor _ _ L), <- (Z.add_nocarry_lxor _ _ L).
    rewrite Z.shiftl_mul_pow2 by lia. reflexivity. }
  rewrite E. unfold u32. rewrite Z.mod_small by lia. split.
  - rewrite Z.shiftr_div_pow2 by lia. change (2 ^ 16) with 65536.
    rewrite Z.div_add_l by lia. rewrite Z.div_small by lia. lia.
  - change 0xFFFF with (Z.ones 16). rewrite Z.land_ones by lia.
    change (2 ^ 16) with 65536. rewrite Z.add_comm, Z.mod_add by lia.
    apply Z.mod_small. lia.
Qed.

(** Whatever the text, a result of [parseM] other than 0 has two halves
    other than 0. *)
Lemma scan_move_shape fuel : forall sp b m nc,
  exists b' m' sp' nc',
    scan_move fuel sp
      (Z.lor (SET_ME_TYPE CE_TYPE_MASK ME_TYPE_X) (held_bits b))
      (Z.lor (SET_ME_TYPE CE_TYPE_MASK ME_TYPE_Y) (modifier_bits m)) nc
    = (Z.lor (SET_ME_TYPE CE_TYPE_MASK ME_TYPE_X) (held_bits b'),
       Z.lor (SET_ME_TYPE CE_TYPE_MASK ME_TYPE_Y) (modifier_bits m'),
       sp', nc').
Proof.
  induction fuel as [|f IH]; intros sp b m nc.
  - exists b, m, sp, nc. reflexivity.
  - cbn [scan_move]. rewrite <- !Z.lor_assoc.
    destruct m as [[[c al] s] g], b as [[l mi] r].
    destruct (_ || _).
    { replace (Z.lor (modifier_bits (c, al, s, g)) ME_CTRL_MASK)
        with (modifier_bits (true, al, s, g))
        by (destruct c, al, s, g; reflexivity). apply IH. }
    destruct (_ || _).
    { replace (Z.lor (modifier_bits (c, al, s, g)) ME_ALT_MASK)
        with (modifier_bits (c, true, s, g))
        by (destruct c, al, s, g; reflexivity). apply IH. }
    destruct (_ || _).
    { replace (Z.lor (modifier_bits (c, al, s, g)) ME_SHIFT_MASK)
        with (modifier_bits (c, al, true, g))
        by (destruct c, al, s, g; reflexivity). apply IH. }
    destruct (_ || _).
    { replace (Z.lor (modifier_bits (c, al, s, g)) ME_GUI_MASK)
        with (modifier_bits (c, al, s, true))
        by (destruct c, al, s, g; reflexivity). apply IH. }
    destruct (_ || _).
    { replace (Z.lor (held_bits (l, mi, r)) ME1_LEFT_MASK)
        with (held_bits (true, mi, r))
        by (destruct l, mi, r; reflexivity). apply IH. }
    destruct (_ || _).
    { replace (Z.lor (held_bits (l, mi, r)) ME1_MID_MASK)
        with (held_bits (l, true, r))
        by (destruct l, mi, r; reflexivity). apply IH. }
    destruct (_ || _).
    { replace (Z.lor (held_bits (l, mi, r)) ME1_RIGHT_MASK)
        with (held_bits (l, mi, true))
        by (destruct l, mi, r; reflexivity). apply IH. }
    exists (l, mi, r), (c, al, s, g), (remove1 sp), (charAt sp 0).
    reflexivity.
Qed.

Lemma amount_value sp nc : 0 <= snd (fst (fst (amount sp nc))) < 256.
Proof.
  unfold amount.
  match goal with
  | |- context [if ?b then (0, ?s, ?c) else ?d] =>
    destruct (if b then (0, s, c) else d) as [[val sp'] nc']
  end.
  cbn [fst snd]. rewrite land_value. apply Z.mod_pos_bound. lia.
Qed.

Lemma parseM_halves s :
  parseM s = 0
  \/ (Z.shiftr (parseM s) 16 <> 0 /\ Z.land (parseM s) 0xFFFF <> 0).
Proof.
  unfold parseM.
  destruct (scan_move_shape 8 s no_buttons no_modifiers 0)
    as (b & m & sp & nc & E).
  change (Z.lor (SET_ME_TYPE CE_TYPE_MASK ME_TYPE_X) (held_bits no_buttons))
    with (SET_ME_TYPE CE_TYPE_MASK ME_TYPE_X) in E.
  change (Z.lor (SET_ME_TYPE CE_TYPE_MASK ME_TYPE_Y)
                (modifier_bits no_modifiers))
    with (SET_ME_TYPE CE_TYPE_MASK ME_TYPE_Y) in E.
  rewrite E. cbn [move_value].
  pose proof (amount_value sp nc) as R1.
  destruct (amount sp nc) as [[[bad1 v1] sp1] nc1]. cbn [fst snd] in R1.
  destruct bad1; [left; reflexivity|].
  pose proof (amount_value sp1 nc1) as R2.
  destruct (amount sp1 nc1) as [[[bad2 v2] sp2] nc2]. cbn [fst snd] in R2.
  destruct bad2; [left; reflexivity|]. right.
  destruct (held_shape b v1 R1) as (T1 & _ & _ & B1).
  destruct (modifiers_shape (SET_ME_TYPE CE_TYPE_MASK ME_TYPE_Y) m v2
              (or_intror (or_intror (or_introl eq_refl))) R2)
    as (T2 & _ & _ & B2).
  cbv zeta in T1, B1, T2, B2.
  destruct (halves _ _ B1 B2) as [E1 E2]. rewrite E1, E2. split.
  - intro Z0. rewrite Z0 in T1. discriminate T1.
  - intro Z0. rewrite Z0 in T2. discriminate T2.
Qed.

(** *** What a valid text spells *)

Lemma lower_code_letter l a :
  In l ["k"; "w"; "m"; "c"]%char -> is_letter l a = true ->
  lower_code (chr a) = chr l.
Proof.
  intros Hl.
  assert (E : forall a,
    (if is_letter l a then lower_code (chr a) =? chr l else true) = true).
  { cbn [In] in Hl. destruct Hl as [<-|[<-|[<-|[<-|[]]]]];
    intro c; by_ascii c. }
  intro Ha. specialize (E a). rewrite Ha in E. apply Z.eqb_eq, E.
Qed.

Lemma read_action_letter l a s :
  In l ["k"; "w"; "m"; "c"]%char -> is_letter l a = true ->
  read_action (chr a) s = read_action (chr l) s.
Proof.
  intros Hl Ha. unfold read_action.
  rewrite (lower_code_letter l a Hl Ha).
  cbn [In] in Hl. destruct Hl as [<-|[<-|[<-|[<-|[]]]]]; reflexivity.
Qed.

Lemma letters_differ l l' a :
  is_letter l a = true -> Ascii.eqb l l' = false -> is_letter l' a = false.
Proof.
  unfold is_letter. intros H1 H2. apply Ascii.eqb_eq in H1.
  rewrite H1. exact H2.
Qed.

Lemma test_k a : (chr a =? chr "K") || (chr a =? chr "k") = is_letter "k" a.
Proof.
  apply eqb_prop. by_ascii a.
Qed.

Lemma test_w a : (chr a =? chr "W") || (chr a =? chr "w") = is_letter "w" a.
Proof.
  apply eqb_prop. by_ascii a.
Qed.

(** The type letter of a spec is its own [uint8_t]. *)
Lemma letter_k_code a : is_letter "k" a = true -> u8 (chr a) = chr a.
Proof.
  intro H.
  assert (E : (u8 (chr a) =? chr a) = true).
  { revert H. apply implb_true_iff. by_ascii a. }
  apply Z.eqb_eq, E.
Qed.

(** The codes entered for a spec of each type. *)
Lemma codes_k a spec :
  is_letter "k" a = true -> codes (chr a) spec = (parseK spec, 0).
Proof.
  intro H. unfold codes, parse_single.
  rewrite test_m, test_k, H, (letters_differ "k" "m" a H); reflexivity.
Qed.

Lemma codes_w a spec :
  is_letter "w" a = true -> codes (chr a) spec = (parseW spec, 0).
Proof.
  intro H. unfold codes, parse_single.
  rewrite test_m, test_k, test_w, H, (letters_differ "w" "m" a H),
    (letters_differ "w" "k" a H); reflexivity.
Qed.

Lemma codes_c a spec :
  is_letter "c" a = true -> codes (chr a) spec = (parseC spec, 0).
Proof.
  intro H. unfold codes, parse_single.
  rewrite test_m, test_k, test_w, test_c, H, (letters_differ "c" "m" a H),
    (letters_differ "c" "k" a H), (letters_differ "c" "w" a H); reflexivity.
Qed.

Lemma codes_m a spec :
  is_letter "m" a = true ->
  codes (chr a) spec
  = (Z.shiftr (parseM spec) 16, Z.land (parseM spec) 0xFFFF).
Proof.
  intro H. unfold codes. rewrite test_m, H. reflexivity.
Qed.

Lemma flags_prefix held most fs :
  flags_ok held most fs = true ->
  forallb (fun a => is_modifier a || (held && is_button a)) fs = true.
Proof.
  intro H. apply flags_ok_parts in H. tauto.
Qed.

Lemma spelled_quoted fs c :
  flags_ok false 4 fs = true ->
  read_action (chr "k") (fs ++ ["'"%char; c])
  = Some (mkAction (chr "k") (modifiers_of fs) no_buttons [chr c]).
Proof.
  intro Hfs. rewrite read_action_k.
  rewrite (read_prefix_app false fs _ _ _ (flags_prefix _ _ _ Hfs))
    by reflexivity.
  reflexivity.
Qed.

Lemma spelled_hex fs x h l :
  flags_ok false 4 fs = true -> is_letter "x" x = true ->
  is_hex h = true -> is_hex l = true ->
  read_action (chr "k") (fs ++ ["0"%char; x; h; l])
  = Some (mkAction (chr "k") (modifiers_of fs) no_buttons
                   [16 * hex_value h + hex_value l]).
Proof.
  intros Hfs Hx Hh Hl. rewrite read_action_k.
  rewrite (read_prefix_app false fs _ _ _ (flags_prefix _ _ _ Hfs))
    by reflexivity.
  cbn [read_key]. rewrite Hx, Hh, Hl. reflexivity.
Qed.

Lemma spelled_amount fs sg ds bound :
  flags_ok false 4 fs = true -> amount_ok bound sg ds = true ->
  read_action (chr "w") (fs ++ sg :: ds)
  = Some (mkAction (chr "w") (modifiers_of fs) no_buttons
                   [signed sg (number ds)]).
Proof.
  intros Hfs Hds.
  destruct (amount_ok_parts _ _ _ Hds)
    as (d0 & ds' & -> & Hsg & H0 & Hds' & _ & _).
  destruct (sign_stops sg Hsg) as (S1 & _ & _).
  rewrite read_action_w.
  rewrite (read_prefix_app false fs _ _ _ (flags_prefix _ _ _ Hfs))
    by (cbn [stops andb]; rewrite S1; reflexivity).
  rewrite <- (app_nil_r ds') at 1.
  change (sg :: d0 :: ds' ++ []) with (sg :: (d0 :: ds') ++ []).
  rewrite (read_signed_app sg d0 ds' [] Hsg H0 Hds') by reflexivity.
  reflexivity.
Qed.

Lemma spelled_amounts fs sx dx sy dy bx by' :
  flags_ok true 7 fs = true ->
  amount_ok bx sx dx = true -> amount_ok by' sy dy = true ->
  read_action (chr "m") (fs ++ (sx :: dx) ++ (sy :: dy))
  = Some (mkAction (chr "m") (modifiers_of fs) (buttons_of fs)
                   [signed sx (number dx); signed sy (number dy)]).
Proof.
  intros Hfs Hx Hy.
  destruct (amount_ok_parts _ _ _ Hx)
    as (x0 & xs & -> & Hsx & Hx0 & Hxs & _ & _).
  destruct (amount_ok_parts _ _ _ Hy)
    as (y0 & ys & -> & Hsy & Hy0 & Hys & _ & _).
  destruct (sign_stops sx Hsx) as (S1 & S2 & _).
  destruct (sign_stops sy Hsy) as (_ & _ & S3).
  rewrite read_action_m.
  rewrite (read_prefix_app true fs _ _ _ (flags_prefix _ _ _ Hfs))
    by (cbn [stops app andb]; rewrite S1, S2; reflexivity).
  change ((sx :: x0 :: xs) ++ sy :: y0 :: ys)
    with (sx :: (x0 :: xs) ++ sy :: y0 :: ys).
  rewrite (read_signed_app sx x0 xs (sy :: y0 :: ys) Hsx Hx0 Hxs)
    by (cbn [stops]; rewrite S3; reflexivity).
  rewrite <- (app_nil_r ys) at 1.
  change (sy :: y0 :: ys ++ []) with (sy :: (y0 :: ys) ++ []).
  rewrite (read_signed_app sy y0 ys [] Hsy Hy0 Hys) by reflexivity.
  reflexivity.
Qed.

Lemma read_buttons_all bs : forall b,
  forallb is_button bs = true ->
  read_buttons bs b = Some (buttons_from b bs).
Proof.
  induction bs as [|a bs IH]; intros b H; [reflexivity|].
  cbn [forallb] in H. apply andb_prop in H. destruct H as [Ha H].
  cbn [read_buttons buttons_from fold_left]. rewrite Ha. apply IH, H.
Qed.

Lemma spelled_clicked fs b0 bs :
  flags_ok false 4 fs = true -> forallb is_button (b0 :: bs) = true ->
  read_action (chr "c") (fs ++ b0 :: bs)
  = Some (mkAction (chr "c") (modifiers_of fs) (buttons_of (b0 :: bs)) []).
Proof.
  intros Hfs Hbs. pose proof Hbs as Hbs'. cbn [forallb] in Hbs.
  apply andb_prop in Hbs. destruct Hbs as [H0 _].
  rewrite read_action_c.
  rewrite (read_prefix_app false fs _ _ _ (flags_prefix _ _ _ Hfs))
    by (cbn [stops andb]; rewrite (button_not_modifier b0 H0); reflexivity).
  rewrite (read_buttons_all (b0 :: bs) no_buttons Hbs'). reflexivity.
Qed.

(** A button once named stays in the set. *)
Lemma buttons_from_named bs : forall b,
  b <> no_buttons -> buttons_from b bs <> no_buttons.
Proof.
  induction bs as [|a bs IH]; intros b Hb; [exact Hb|].
  cbn [buttons_from fold_left]. apply IH.
  unfold add_button, no_buttons in *. destruct b as [[l m] r].
  destruct l, m, r; try (exfalso; apply Hb; reflexivity); cbn [orb];
  discriminate.
Qed.

Lemma buttons_of_named b0 bs :
  is_button b0 = true -> buttons_of (b0 :: bs) <> no_buttons.
Proof.
  intro H0. unfold buttons_of. cbn [buttons_from fold_left].
  apply buttons_from_named.
  unfold is_button in H0. unfold add_button, no_buttons. cbn [orb].
  destruct (is_letter "l" b0), (is_letter "m" b0), (is_letter "r" b0);
  try discriminate.
Qed.

(** *** Parsing a valid text and displaying the result *)

Lemma i8_u8 x : i8 (u8 x) = i8 x.
Proof.
  unfold i8, u8. rewrite Zplus_mod_idemp_l. reflexivity.
Qed.

Lemma printable_range c : isPrintable (chr c) = true -> 0 <= chr c < 256.
Proof.
  unfold isPrintable. intro H. apply andb_prop in H. lia.
Qed.

Lemma signed_small sg n :
  0 <= n <= 127 -> i8 (signed sg n) = signed sg n.
Proof.
  intro H. apply i8_small. unfold signed. destruct (Ascii.eqb sg "+"); lia.
Qed.

Lemma number_from_nonneg ds : forall n,
  0 <= n -> forallb is_digit ds = true ->
  0 <= fold_left (fun n a => 10 * n + digit_value a) ds n.
Proof.
  induction ds as [|d ds IH]; intros n Hn H; [exact Hn|].
  cbn [forallb] in H. apply andb_prop in H. destruct H as [Hd H].
  cbn [fold_left]. apply IH; [|exact H].
  pose proof (digit_value_range d Hd). lia.
Qed.

Lemma amount_ok_range bound sg ds :
  amount_ok bound sg ds = true -> 0 <= number ds <= bound.
Proof.
  intro H. unfold amount_ok in H.
  apply andb_prop in H. destruct H as [H H5]. apply Z.leb_le in H5.
  apply andb_prop in H. destruct H as [_ H4].
  split; [|exact H5]. apply number_from_nonneg; [lia|exact H4].
Qed.

Lemma round_trip_quoted lt fs c :
  is_letter "k" lt = true -> flags_ok false 4 fs = true ->
  isPrintable (chr c) = true ->
  spelled (mkSpec lt fs (Quoted c))
  = Some (mkAction (chr "k") (modifiers_of fs) no_buttons [chr c])
  /\ round_trip (mkSpec lt fs (Quoted c))
     = Some (mkAction (chr "k") (no_shift (modifiers_of fs)) no_buttons
                      [chr c]).
Proof.
  intros Hlt Hfs Hc. unfold spelled, round_trip, text.
  cbn [letter flags what body_text]. split.
  - rewrite (read_action_letter "k" lt) by (cbn [In]; tauto).
    apply spelled_quoted, Hfs.
  - rewrite (codes_k lt _ Hlt). cbn [fst snd].
    rewrite (parseK_quoted fs c Hfs Hc).
    apply key_shown, printable_range, Hc.
Qed.

Lemma round_trip_hex lt fs x h l :
  is_letter "k" lt = true -> flags_ok false 4 fs = true ->
  is_letter "x" x = true -> is_hex h = true -> is_hex l = true ->
  Ascii.eqb l "F" = false ->
  spelled (mkSpec lt fs (Hex x h l))
  = Some (mkAction (chr "k") (modifiers_of fs) no_buttons
                   [16 * hex_value h + hex_value l])
  /\ round_trip (mkSpec lt fs (Hex x h l))
     = Some (mkAction (chr "k") (modifiers_of fs) no_buttons
                      [16 * hex_value h + hex_value l]).
Proof.
  intros Hlt Hfs Hx Hh Hl HF. unfold spelled, round_trip, text.
  cbn [letter flags what body_text]. split.
  - rewrite (read_action_letter "k" lt) by (cbn [In]; tauto).
    apply spelled_hex; assumption.
  - rewrite (codes_k lt _ Hlt). cbn [fst snd].
    rewrite (parseK_hex fs x h l Hfs Hx Hh Hl), HF.
    pose proof (hex_value_range h Hh). pose proof (hex_value_range l Hl).
    apply key_shown. lia.
Qed.

Lemma round_trip_amount lt fs sg ds bound :
  is_letter "w" lt = true -> flags_ok false 4 fs = true ->
  amount_ok bound sg ds = true ->
  spelled (mkSpec lt fs (Amount sg ds))
  = Some (mkAction (chr "w") (modifiers_of fs) no_buttons
                   [signed sg (number ds)])
  /\ round_trip (mkSpec lt fs (Amount sg ds))
     = Some (mkAction (chr "w") (modifiers_of fs) no_buttons
                      [i8 (signed sg (number ds))]).
Proof.
  intros Hlt Hfs Hds. unfold spelled, round_trip, text.
  cbn [letter flags what body_text]. split.
  - rewrite (read_action_letter "w" lt) by (cbn [In]; tauto).
    apply (spelled_amount fs sg ds bound); assumption.
  - rewrite (codes_w lt _ Hlt). cbn [fst snd].
    rewrite (parseW_text fs sg ds bound Hfs Hds).
    rewrite wheel_shown by apply u8_range. rewrite i8_u8. reflexivity.
Qed.

Lemma round_trip_amounts lt fs sx dx sy dy bx by' :
  is_letter "m" lt = true -> flags_ok true 7 fs = true ->
  amount_ok bx sx dx = true -> amount_ok by' sy dy = true ->
  spelled (mkSpec lt fs (Amounts sx dx sy dy))
  = Some (mkAction (chr "m") (modifiers_of fs) (buttons_of fs)
                   [signed sx (number dx); signed sy (number dy)])
  /\ round_trip (mkSpec lt fs (Amounts sx dx sy dy))
     = Some (mkAction (chr "m") (modifiers_of fs) (buttons_of fs)
                      [i8 (signed sx (number dx)); i8 (signed sy (number dy))]).
Proof.
  intros Hlt Hfs Hx Hy. unfold spelled, round_trip, text.
  cbn [letter flags what body_text]. split.
  - rewrite (read_action_letter "m" lt) by (cbn [In]; tauto).
    apply (spelled_amounts fs sx dx sy dy bx by'); assumption.
  - rewrite (codes_m lt _ Hlt). cbn [fst snd].
    rewrite (parseM_text fs sx dx sy dy bx by' Hfs Hx Hy).
    pose proof (u8_range (signed sx (number dx))) as Rx.
    pose proof (u8_range (signed sy (number dy))) as Ry.
    destruct (held_shape (buttons_of fs) _ Rx) as (_ & _ & _ & Bx).
    destruct (modifiers_shape (SET_ME_TYPE CE_TYPE_MASK ME_TYPE_Y)
                (modifiers_of fs) _ (or_intror (or_intror (or_introl eq_refl)))
                Ry) as (_ & _ & _ & By).
    cbv zeta in Bx, By.
    destruct (halves _ _ Bx By) as [E1 E2]. rewrite E1, E2.
    rewrite (move_shown _ _ _ _ Rx Ry), !i8_u8. reflexivity.
Qed.

Lemma round_trip_clicked lt fs b0 bs :
  is_letter "c" lt = true -> flags_ok false 4 fs = true ->
  forallb is_button (b0 :: bs) = true -> (List.length bs <= 2)%nat ->
  spelled (mkSpec lt fs (Clicked (b0 :: bs)))
  = Some (mkAction (chr "c") (modifiers_of fs) (buttons_of (b0 :: bs)) [])
  /\ round_trip (mkSpec lt fs (Clicked (b0 :: bs)))
     = Some (mkAction (chr "c") (modifiers_of fs) (buttons_of (b0 :: bs)) []).
Proof.
  intros Hlt Hfs Hbs Hlen. unfold spelled, round_trip, text.
  cbn [letter flags what body_text]. split.
  - rewrite (read_action_letter "c" lt) by (cbn [In]; tauto).
    apply spelled_clicked; assumption.
  - rewrite (codes_c lt _ Hlt). cbn [fst snd].
    rewrite (parseC_text fs b0 bs Hfs Hbs Hlen).
    apply click_shown, buttons_of_named.
    cbn [forallb] in Hbs. apply andb_prop in Hbs. tauto.
Qed.

(** *** Whatever the text *)

(** The scan keeps the answer a type under modifier bits. *)
Lemma scan_modifiers_shape fuel : forall sp base m nc,
  exists m' sp' nc',
    scan_modifiers fuel sp (Z.lor base (modifier_bits m)) nc
    = (Z.lor base (modifier_bits m'), sp', nc').
Proof.
  induction fuel as [|f IH]; intros sp base m nc.
  - exists m, sp, nc. reflexivity.
  - cbn [scan_modifiers]. rewrite <- !Z.lor_assoc.
    destruct m as [[[c al] s] g].
    destruct (_ || _).
    { replace (Z.lor (modifier_bits (c, al, s, g)) KB_CTRL_MASK)
        with (modifier_bits (true, al, s, g))
        by (destruct c, al, s, g; reflexivity). apply IH. }
    destruct (_ || _).
    { replace (Z.lor (modifier_bits (c, al, s, g)) KB_ALT_MASK)
        with (modifier_bits (c, true, s, g))
        by (destruct c, al, s, g; reflexivity). apply IH. }
    destruct (_ || _).
    { replace (Z.lor (modifier_bits (c, al, s, g)) KB_SHIFT_MASK)
        with (modifier_bits (c, al, true, g))
        by (destruct c, al, s, g; reflexivity). apply IH. }
    destruct (_ || _).
    { replace (Z.lor (modifier_bits (c, al, s, g)) KB_GUI_MASK)
        with (modifier_bits (c, al, s, true))
        by (destruct c, al, s, g; reflexivity). apply IH. }
    exists (c, al, s, g), (remove1 sp), (charAt sp 0). reflexivity.
Qed.

Lemma click_buttons_shape fuel : forall sp base b nc,
  exists bad b',
    click_buttons fuel sp (Z.lor base (click_bits b)) nc
    = (bad, Z.lor base (click_bits b')).
Proof.
  induction fuel as [|f IH]; intros sp base b nc.
  - exists false, b. reflexivity.
  - cbn [click_buttons]. rewrite <- !Z.lor_assoc.
    destruct b as [[l mi] r].
    destruct (u8 nc =? 0); [exists false, (l, mi, r); reflexivity|].
    destruct (_ || _).
    { replace (Z.lor (click_bits (l, mi, r)) ME3_LEFT_MASK)
        with (click_bits (true, mi, r))
        by (destruct l, mi, r; reflexivity). apply IH. }
    destruct (_ || _).
    { replace (Z.lor (click_bits (l, mi, r)) ME3_MID_MASK)
        with (click_bits (l, true, r))
        by (destruct l, mi, r; reflexivity). apply IH. }
    destruct (_ || _).
    { replace (Z.lor (click_bits (l, mi, r)) ME3_RIGHT_MASK)
        with (click_bits (l, mi, true))
        by (destruct l, mi, r; reflexivity). apply IH. }
    exists true, (l, mi, r). reflexivity.
Qed.

Lemma click_bits_range b : 0 <= click_bits b < 256.
Proof.
  destruct b as [[[] []] []]; vm_compute; split; congruence.
Qed.

(** The code of a quoted character, for a printable value. *)
Lemma quoted_value m v :
  isPrintable v = true ->
  u16 (Z.land (u16 (Z.lor (Z.lor 0 (modifier_bits m)) (Z.land v 0x7F)))
              (Z.lnot KB_SHIFT_MASK))
  = Z.lor (modifier_bits (no_shift m)) v.
Proof.
  intro Hv.
  assert (R : 0 <= v < 256)
    by (unfold isPrintable in Hv; apply andb_prop in Hv; lia).
  revert v R Hv.
  assert (H : forall v, 0 <= v < 256 ->
     (if isPrintable v then
        forallb (fun m =>
          u16 (Z.land (u16 (Z.lor (Z.lor 0 (modifier_bits m))
                                  (Z.land v 0x7F)))
                      (Z.lnot KB_SHIFT_MASK))
          =? Z.lor (modifier_bits (no_shift m)) v) all_modifiers
      else true) = true).
  { by_bytes. }
  intros v R Hv. specialize (H v R). rewrite Hv in H.
  rewrite forallb_forall in H. apply Z.eqb_eq, H, modifiers_in.
Qed.

Lemma parseK_shape s :
  exists m v, 0 <= v < 256 /\ parseK s = Z.lor (modifier_bits m) v.
Proof.
  unfold parseK.
  destruct (scan_modifiers_shape 5 s 0 no_modifiers 0) as (m & sp & nc & E).
  change (Z.lor 0 (modifier_bits no_modifiers)) with 0 in E. rewrite E.
  assert (Zero : exists m v, 0 <= v < 256 /\ 0 = Z.lor (modifier_bits m) v).
  { exists no_modifiers, 0. split; [lia|reflexivity]. }
  cbn [key_value].
  destruct (nc =? chr "'").
  - destruct (isPrintable (charAt sp 0)) eqn:P; cbn [negb]; [|exact Zero].
    exists (no_shift m), (charAt sp 0). split.
    + unfold isPrintable in P. apply andb_prop in P. lia.
    + apply quoted_value, P.
  - destruct (nc =? chr "0"); [|exact Zero].
    destruct (_ && _); [|exact Zero].
    destruct (_ || _); [exact Zero|].
    exists m, (u8 (Z.shiftl (hex_digit (charAt (remove1 sp) 0)) 4
                   + hex_digit (charAt (remove1 sp) 1))).
    split; [apply u8_range|]. apply key_code, u8_range.
Qed.

Lemma parseW_shape s :
  parseW s = 0
  \/ exists m v, 0 <= v < 256
       /\ parseW s = Z.lor (Z.lor CE_TYPE_MASK (modifier_bits m)) v.
Proof.
  unfold parseW.
  destruct (scan_modifiers_shape 5 s CE_TYPE_MASK no_modifiers 0)
    as (m & sp & nc & E).
  change (Z.lor CE_TYPE_MASK (modifier_bits no_modifiers))
    with CE_TYPE_MASK in E.
  rewrite E. cbn [wheel_value].
  pose proof (amount_value sp nc) as R.
  destruct (amount sp nc) as [[[bad v] sp1] nc1]. cbn [fst snd] in R.
  destruct bad; [left; reflexivity|]. right. exists m, v. tauto.
Qed.

Lemma parseC_shape s :
  parseC s = 0
  \/ exists m b,
       parseC s = Z.lor (Z.lor (SET_ME_TYPE CE_TYPE_MASK ME_TYPE_CLICK)
                               (modifier_bits m)) (click_bits b).
Proof.
  unfold parseC.
  destruct (scan_modifiers_shape 5 s (SET_ME_TYPE CE_TYPE_MASK ME_TYPE_CLICK)
              no_modifiers 0) as (m & sp & nc & E).
  change (Z.lor (SET_ME_TYPE CE_TYPE_MASK ME_TYPE_CLICK)
                (modifier_bits no_modifiers))
    with (SET_ME_TYPE CE_TYPE_MASK ME_TYPE_CLICK) in E.
  rewrite E. cbn [click_value].
  destruct (u8 nc =? 0); [left; reflexivity|].
  destruct (click_buttons_shape 3 sp
              (Z.lor (SET_ME_TYPE CE_TYPE_MASK ME_TYPE_CLICK)
                     (modifier_bits m)) no_buttons nc) as (bad & b & B).
  change (click_bits no_buttons) with 0 in B. rewrite Z.lor_0_r in B.
  rewrite B. destruct bad; [left; reflexivity|]. right. exists m, b.
  reflexivity.
Qed.


(** *** More flag letters than the scan takes *)

Lemma scan_step a f sp base m nc :
  is_modifier a = true ->
  scan_modifiers (S f) (String a sp) (Z.lor base (modifier_bits m)) nc
  = scan_modifiers f sp (Z.lor base (modifier_bits (add_modifier a m)))
                   (chr a).
Proof.
  intro Ha. cbn [scan_modifiers]. rewrite charAt_cons. cbn [remove1].
  rewrite test_c, test_a, test_s, test_g.
  pose proof (modifier_bits_add a m Ha) as Hb. unfold is_modifier in Ha.
  destruct (is_letter "c" a); [|destruct (is_letter "a" a);
    [|destruct (is_letter "s" a); [|destruct (is_letter "g" a);
      [|discriminate Ha]]]];
  cbn [orb]; rewrite <- Z.lor_assoc, <- Hb; reflexivity.
Qed.

Lemma scan_modifiers_all fs : forall rest base m nc a,
  forallb is_modifier (fs ++ [a]) = true ->
  exists m',
    scan_modifiers (S (List.length fs))
                   (string_of_list_ascii (fs ++ a :: rest))
                   (Z.lor base (modifier_bits m)) nc
    = (Z.lor base (modifier_bits m'), string_of_list_ascii rest, chr a).
Proof.
  induction fs as [|a0 fs IH]; intros rest base m nc a H;
  cbn [app forallb] in H; apply andb_prop in H; destruct H as [H0 H];
  cbn [app List.length]; rewrite string_cons, (scan_step _ _ _ _ _ _ H0).
  - exists (add_modifier a m). reflexivity.
  - apply IH, H.
Qed.

Lemma move_step_modifier a f sp a0 base m nc :
  is_modifier a = true ->
  scan_move (S f) (String a sp) a0 (Z.lor base (modifier_bits m)) nc
  = scan_move f sp a0 (Z.lor base (modifier_bits (add_modifier a m))) (chr a).
Proof.
  intro Ha. cbn [scan_move]. rewrite charAt_cons. cbn [remove1].
  rewrite test_c, test_a, test_s, test_g.
  change ME_CTRL_MASK with KB_CTRL_MASK.
  change ME_ALT_MASK with KB_ALT_MASK.
  change ME_SHIFT_MASK with KB_SHIFT_MASK.
  change ME_GUI_MASK with KB_GUI_MASK.
  pose proof (modifier_bits_add a m Ha) as Hb. unfold is_modifier in Ha.
  destruct (is_letter "c" a); [|destruct (is_letter "a" a);
    [|destruct (is_letter "s" a); [|destruct (is_letter "g" a);
      [|discriminate Ha]]]];
  cbn [orb]; rewrite <- Z.lor_assoc, <- Hb; reflexivity.
Qed.

Lemma move_step_button a f sp base b a1 nc :
  is_button a = true ->
  scan_move (S f) (String a sp) (Z.lor base (held_bits b)) a1 nc
  = scan_move f sp (Z.lor base (held_bits (add_button a b))) a1 (chr a).
Proof.
  intro Ha. cbn [scan_move]. rewrite charAt_cons. cbn [remove1].
  rewrite test_c, test_a, test_s, test_g, test_l, test_m, test_r.
  pose proof (button_not_modifier a Ha) as Hm.
  pose proof (held_bits_add a b Ha) as Hb. unfold is_modifier in Hm.
  destruct (is_letter "c" a); [discriminate Hm|].
  destruct (is_letter "a" a); [discriminate Hm|].
  destruct (is_letter "s" a); [discriminate Hm|].
  destruct (is_letter "g" a); [discriminate Hm|].
  unfold is_button in Ha.
  destruct (is_letter "l" a); [|destruct (is_letter "m" a);
    [|destruct (is_letter "r" a); [|discriminate Ha]]];
  cbn [orb]; rewrite <- Z.lor_assoc, <- Hb; reflexivity.
Qed.

Lemma move_step a f sp b0 b b1 m nc :
  is_modifier a || is_button a = true ->
  exists b' m',
    scan_move (S f) (String a sp) (Z.lor b0 (held_bits b))
              (Z.lor b1 (modifier_bits m)) nc
    = scan_move f sp (Z.lor b0 (held_bits b'))
                (Z.lor b1 (modifier_bits m')) (chr a).
Proof.
  intro H. destruct (is_modifier a) eqn:Hm.
  - exists b, (add_modifier a m). apply move_step_modifier, Hm.
  - cbn [orb] in H. exists (add_button a b), m. apply move_step_button, H.
Qed.

Lemma scan_move_all fs : forall rest b0 b b1 m nc a,
  forallb (fun a => is_modifier a || is_button a) (fs ++ [a]) = true ->
  exists x y,
    scan_move (S (List.length fs)) (string_of_list_ascii (fs ++ a :: rest))
              (Z.lor b0 (held_bits b)) (Z.lor b1 (modifier_bits m)) nc
    = (x, y, string_of_list_ascii rest, chr a).
Proof.
  induction fs as [|a0 fs IH]; intros rest b0 b b1 m nc a H;
  cbn [app forallb] in H; apply andb_prop in H; destruct H as [H0 H];
  cbn [app List.length]; rewrite string_cons.
  - destruct (move_step a 0 (string_of_list_ascii rest) b0 b b1 m nc H0)
      as (b' & m' & E).
    rewrite E. eexists. eexists. reflexivity.
  - destruct (move_step a0 (S (List.length fs))
                (string_of_list_ascii (fs ++ a :: rest)) b0 b b1 m nc H0)
      as (b' & m' & E).
    rewrite E. apply IH, H.
Qed.

(** A flag letter is no quote, no zero, no sign and not NUL. *)
Lemma flag_tests a :
  is_modifier a || is_button a = true ->
  (chr a =? chr "'") = false /\ (chr a =? chr "0") = false
  /\ (chr a =? chr "+") || (chr a =? chr "-") = false
  /\ (u8 (chr a) =? 0) = false.
Proof.
  intro H.
  assert (E : negb (chr a =? chr "'") && negb (chr a =? chr "0")
              && negb ((chr a =? chr "+") || (chr a =? chr "-"))
              && negb (u8 (chr a) =? 0) = true).
  { revert H. apply implb_true_iff. by_ascii a. }
  apply andb_prop in E. destruct E as [E E4].
  apply andb_prop in E. destruct E as [E E3].
  apply andb_prop in E. destruct E as [E1 E2].
  repeat split; apply negb_true_iff; assumption.
Qed.

(** Without a sign an amount is bad. *)
Lemma amount_no_sign sp nc :
  (nc =? chr "+") || (nc =? chr "-") = false ->
  fst (fst (fst (amount sp nc))) = true.
Proof.
  intro H. unfold amount. rewrite H. cbn [negb orb]. reflexivity.
Qed.

Lemma beyond_four fs a rest :
  forallb is_modifier (fs ++ [a]) = true -> List.length fs = 4%nat ->
  parseK (string_of_list_ascii (fs ++ a :: rest)) = 0
  /\ parseW (string_of_list_ascii (fs ++ a :: rest)) = 0
  /\ parseC (string_of_list_ascii (fs ++ a :: rest)) = 0.
Proof.
  intros H L.
  assert (Ha : is_modifier a = true).
  { rewrite forallb_app in H. apply andb_prop in H. destruct H as [_ H].
    cbn [forallb] in H. rewrite andb_true_r in H. exact H. }
  destruct (flag_tests a) as (T1 & T2 & T3 & T4); [rewrite Ha; reflexivity|].
  unfold parseK, parseW, parseC. repeat split.
  - destruct (scan_modifiers_all fs rest 0 no_modifiers 0 a H) as [m E].
    change (Z.lor 0 (modifier_bits no_modifiers)) with 0 in E.
    rewrite L in E. rewrite E. cbn [key_value]. rewrite T1, T2. reflexivity.
  - destruct (scan_modifiers_all fs rest CE_TYPE_MASK no_modifiers 0 a H)
      as [m E].
    change (Z.lor CE_TYPE_MASK (modifier_bits no_modifiers))
      with CE_TYPE_MASK in E.
    rewrite L in E. rewrite E. cbn [wheel_value].
    pose proof (amount_no_sign (string_of_list_ascii rest) (chr a) T3) as B.
    destruct (amount _ _) as [[[bad v] sp1] nc1]. cbn [fst] in B.
    rewrite B. reflexivity.
  - destruct (scan_modifiers_all fs rest
                (SET_ME_TYPE CE_TYPE_MASK ME_TYPE_CLICK) no_modifiers 0 a H)
      as [m E].
    change (Z.lor (SET_ME_TYPE CE_TYPE_MASK ME_TYPE_CLICK)
                  (modifier_bits no_modifiers))
      with (SET_ME_TYPE CE_TYPE_MASK ME_TYPE_CLICK) in E.
    rewrite L in E. rewrite E. cbn [click_value click_buttons]. rewrite T4.
    rewrite test_l, test_m, test_r.
    pose proof (modifier_not_button a Ha) as Hb. unfold is_button in Hb.
    destruct (is_letter "l" a); [discriminate Hb|].
    destruct (is_letter "m" a); [discriminate Hb|].
    destruct (is_letter "r" a); [discriminate Hb|]. reflexivity.
Qed.

Lemma beyond_seven fs a rest :
  forallb (fun a => is_modifier a || is_button a) (fs ++ [a]) = true ->
  List.length fs = 7%nat ->
  parseM (string_of_list_ascii (fs ++ a :: rest)) = 0.
Proof.
  intros H L.
  assert (Ha : is_modifier a || is_button a = true).
  { rewrite forallb_app in H. apply andb_prop in H. destruct H as [_ H].
    cbn [forallb] in H. rewrite andb_true_r in H. exact H. }
  destruct (flag_tests a Ha) as (_ & _ & T3 & _).
  unfold parseM.
  destruct (scan_move_all fs rest (SET_ME_TYPE CE_TYPE_MASK ME_TYPE_X)
              no_buttons (SET_ME_TYPE CE_TYPE_MASK ME_TYPE_Y) no_modifiers
              0 a H) as (x & y & E).
  change (Z.lor (SET_ME_TYPE CE_TYPE_MASK ME_TYPE_X) (held_bits no_buttons))
    with (SET_ME_TYPE CE_TYPE_MASK ME_TYPE_X) in E.
  change (Z.lor (SET_ME_TYPE CE_TYPE_MASK ME_TYPE_Y)
                (modifier_bits no_modifiers))
    with (SET_ME_TYPE CE_TYPE_MASK ME_TYPE_Y) in E.
  rewrite L in E. rewrite E. cbn [move_value].
  pose proof (amount_no_sign (string_of_list_ascii rest) (chr a) T3) as B.
  destruct (amount _ _) as [[[bad v] sp1] nc1]. cbn [fst] in B.
  rewrite B. reflexivity.
Qed.

(** *** What follows a spec *)

Lemma parseK_quoted_rest fs c rest :
  flags_ok false 4 fs = true -> isPrintable (chr c) = true ->
  parseK (string_of_list_ascii (fs ++ "'"%char :: c :: rest))
  = Z.lor (modifier_bits (no_shift (modifiers_of fs))) (chr c).
Proof.
  intros Hfs Hc. unfold parseK.
  pose proof (scan_modifiers_flags fs 5 ("'"%char :: c :: rest) 0
                no_modifiers 0 (flags_modifiers 4 fs Hfs)) as E.
  change (Z.lor 0 (modifier_bits no_modifiers)) with 0 in E.
  rewrite E.
  - rewrite string_cons, charAt_cons. cbn [remove1 key_value].
    rewrite Z.eqb_refl. rewrite string_cons, charAt_cons. rewrite Hc.
    cbn [negb]. apply quoted_code, Hc.
  - reflexivity.
  - apply flags_ok_parts in Hfs. lia.
Qed.

Lemma parseW_rest fs sg ds bound rest :
  flags_ok false 4 fs = true -> amount_ok bound sg ds = true ->
  stops is_digit rest = true \/ List.length ds = 3%nat ->
  parseW (string_of_list_ascii (fs ++ (sg :: ds) ++ rest))
  = Z.lor (Z.lor CE_TYPE_MASK (modifier_bits (modifiers_of fs)))
          (u8 (signed sg (number ds))).
Proof.
  intros Hfs Hds Hrest.
  destruct (amount_ok_parts _ _ _ Hds)
    as (d0 & ds' & -> & Hsg & H0 & Hds' & Hl & _).
  destruct (sign_stops sg Hsg) as (S1 & _ & _).
  unfold parseW.
  pose proof (scan_modifiers_flags fs 5 ((sg :: d0 :: ds') ++ rest)
                CE_TYPE_MASK no_modifiers 0 (flags_modifiers 4 fs Hfs)) as E.
  change (Z.lor CE_TYPE_MASK (modifier_bits no_modifiers))
    with CE_TYPE_MASK in E.
  rewrite E.
  - cbn [app]. rewrite string_cons, charAt_cons. cbn [remove1 wheel_value].
    change (d0 :: ds' ++ rest) with ((d0 :: ds') ++ rest).
    rewrite (amount_app sg d0 ds' rest Hsg H0 Hds' Hl)
      by (destruct Hrest as [Hr|Hr]; [left; exact Hr|right];
          cbn [List.length] in Hr; lia).
    reflexivity.
  - cbn [app stops]. rewrite S1. reflexivity.
  - apply flags_ok_parts in Hfs. lia.
Qed.

(** The type of the first half of a result of [parseM]. *)
Lemma parseM_type s :
  parseM s = 0
  \/ (eType (Z.shiftr (parseM s) 16) = chr "m"
      /\ eType (Z.land (parseM s) 0xFFFF) = chr "m").
Proof.
  unfold parseM.
  destruct (scan_move_shape 8 s no_buttons no_modifiers 0)
    as (b & m & sp & nc & E).
  change (Z.lor (SET_ME_TYPE CE_TYPE_MASK ME_TYPE_X) (held_bits no_buttons))
    with (SET_ME_TYPE CE_TYPE_MASK ME_TYPE_X) in E.
  change (Z.lor (SET_ME_TYPE CE_TYPE_MASK ME_TYPE_Y)
                (modifier_bits no_modifiers))
    with (SET_ME_TYPE CE_TYPE_MASK ME_TYPE_Y) in E.
  rewrite E. cbn [move_value].
  pose proof (amount_value sp nc) as R1.
  destruct (amount sp nc) as [[[bad1 v1] sp1] nc1]. cbn [fst snd] in R1.
  destruct bad1; [left; reflexivity|].
  pose proof (amount_value sp1 nc1) as R2.
  destruct (amount sp1 nc1) as [[[bad2 v2] sp2] nc2]. cbn [fst snd] in R2.
  destruct bad2; [left; reflexivity|]. right.
  destruct (held_shape b v1 R1) as (T1 & _ & _ & B1).
  destruct (modifiers_shape (SET_ME_TYPE CE_TYPE_MASK ME_TYPE_Y) m v2
              (or_intror (or_intror (or_introl eq_refl))) R2)
    as (T2 & _ & _ & B2).
  cbv zeta in T1, B1, T2, B2.
  destruct (halves _ _ B1 B2) as [E1 E2]. rewrite E1, E2.
  split; [exact T1|exact T2].
Qed.

(** *** The codec: what the parsers return and what the display shows *)

(** Up to four modifier letters, a quote and a printable character, and
    whatever follows: [parseK] returns the code of the character under the
    bits of the modifiers named, the shift bit cleared. *)
Theorem parseK_quoted_char fs c rest :
  flags_ok false 4 fs = true -> isPrintable (chr c) = true ->
  parseK (string_of_list_ascii (fs ++ "'"%char :: c :: rest))
  = Z.lor (modifier_bits (no_shift (modifiers_of fs))) (chr c).
Proof.
  exact (parseK_quoted_rest fs c rest).
Qed.

Lemma parseK_quoted_char_witness :
  flags_ok false 4 ["s"; "C"]%char = true /\ isPrintable (chr "a") = true
  /\ parseK "sC'axyz" = 0x0861.
Proof.
  split; [reflexivity|]. split; [reflexivity|].
  exact (parseK_quoted_char ["s"; "C"]%char "a" ["x"; "y"; "z"]%char
           eq_refl eq_refl).
Defined.

(** Up to four modifier letters, [0x] or [0X] and two hexadecimal digits:
    [parseK] returns the bits of the modifiers over the value of the
    digits, but with a capital F as the second digit the value is 32 less,
    modulo 256. *)
Theorem parseK_hex_digits fs x h l :
  flags_ok false 4 fs = true -> is_letter "x" x = true ->
  is_hex h = true -> is_hex l = true ->
  parseK (string_of_list_ascii (fs ++ ["0"%char; x; h; l]))
  = Z.lor (modifier_bits (modifiers_of fs))
          (if Ascii.eqb l "F" then u8 (16 * hex_value h + hex_value l - 32)
           else 16 * hex_value h + hex_value l).
Proof.
  exact (parseK_hex fs x h l).
Qed.

Lemma parseK_hex_digits_witness :
  flags_ok false 4 ["a"%char] = true /\ is_letter "x" "X" = true
  /\ is_hex "d" = true /\ is_hex "A" = true /\ is_hex "F" = true
  /\ parseK "a0XdA" = 0x04DA /\ parseK "a0XdF" = 0x04BF.
Proof.
  do 5 (split; [reflexivity|]). split.
  - exact (parseK_hex_digits ["a"%char] "X" "d" "A"
             eq_refl eq_refl eq_refl eq_refl).
  - exact (parseK_hex_digits ["a"%char] "X" "d" "F"
             eq_refl eq_refl eq_refl eq_refl).
Defined.

(** Up to four modifier letters, a sign and one to three digits, followed
    by no further digit: [parseW] never refuses the amount, whatever its
    magnitude; the value field is the signed number modulo 256. *)
Theorem parseW_signed fs sg ds rest :
  flags_ok false 4 fs = true -> amount_ok 999 sg ds = true ->
  stops is_digit rest = true \/ List.length ds = 3%nat ->
  parseW (string_of_list_ascii (fs ++ (sg :: ds) ++ rest))
  = Z.lor (Z.lor CE_TYPE_MASK (modifier_bits (modifiers_of fs)))
          (u8 (signed sg (number ds))).
Proof.
  exact (parseW_rest fs sg ds 999 rest).
Qed.

Lemma parseW_signed_witness :
  flags_ok false 4 ["g"%char] = true
  /\ amount_ok 999 "-" ["3"; "0"; "0"]%char = true
  /\ parseW "g-3007" = 0x81D4.
Proof.
  split; [reflexivity|]. split; [reflexivity|].
  exact (parseW_signed ["g"%char] "-" ["3"; "0"; "0"]%char ["7"%char]
           eq_refl eq_refl (or_intror eq_refl)).
Defined.

(** Up to seven flag letters and two signed amounts of one to three
    digits: [parseM] never refuses them; the held buttons and the first
    amount make the high half, the modifiers and the second amount the low
    half. *)
Theorem parseM_signed fs sx dx sy dy :
  flags_ok true 7 fs = true ->
  amount_ok 999 sx dx = true -> amount_ok 999 sy dy = true ->
  parseM (string_of_list_ascii (fs ++ (sx :: dx) ++ (sy :: dy)))
  = u32 (Z.lor
      (Z.shiftl (Z.lor (Z.lor (SET_ME_TYPE CE_TYPE_MASK ME_TYPE_X)
                              (held_bits (buttons_of fs)))
                       (u8 (signed sx (number dx)))) 16)
      (Z.lor (Z.lor (SET_ME_TYPE CE_TYPE_MASK ME_TYPE_Y)
                    (modifier_bits (modifiers_of fs)))
             (u8 (signed sy (number dy))))).
Proof.
  exact (parseM_text fs sx dx sy dy 999 999).
Qed.

Lemma parseM_signed_witness :
  flags_ok true 7 ["c"; "L"]%char = true
  /\ amount_ok 999 "+" ["5"%char] = true
  /\ amount_ok 999 "-" ["2"; "5"; "7"]%char = true
  /\ parseM "cL+5-257" = 0x9405A8FF.
Proof.
  do 3 (split; [reflexivity|]).
  exact (parseM_signed ["c"; "L"]%char "+" ["5"%char] "-" ["2"; "5"; "7"]%char
           eq_refl eq_refl eq_refl).
Defined.

(** Up to four modifier letters and one to three button letters: [parseC]
    returns the click type over the bits of the modifiers and of the
    buttons named. *)
Theorem parseC_letters fs b0 bs :
  flags_ok false 4 fs = true ->
  forallb is_button (b0 :: bs) = true -> (List.length bs <= 2)%nat ->
  parseC (string_of_list_ascii (fs ++ b0 :: bs))
  = Z.lor (Z.lor (SET_ME_TYPE CE_TYPE_MASK ME_TYPE_CLICK)
                 (modifier_bits (modifiers_of fs)))
          (click_bits (buttons_of (b0 :: bs))).
Proof.
  exact (parseC_text fs b0 bs).
Qed.

Lemma parseC_letters_witness :
  flags_ok false 4 ["S"%char] = true
  /\ forallb is_button ["r"; "L"]%char = true
  /\ parseC "SrL" = 0xB203.
Proof.
  do 2 (split; [reflexivity|]).
  exact (parseC_letters ["S"%char] "r" ["L"%char] eq_refl eq_refl
           (le_S _ _ (le_n 1))).
Defined.

(** For every valid spec other than a hexadecimal key with a capital F in
    the low place, the text is read as an action, and the display of the
    code or codes its parser produces spells the action as the device
    holds it: the same type, the same modifier set but for the shift of a
    quoted character, which is dropped, the same buttons, and every amount
    or distance reduced to a signed byte.  Where no character is quoted
    and the magnitudes are at most 127 the display spells the very action
    of the spec. *)
Theorem display_after_parse (d : spec) :
  valid_within 255 false d = true ->
  spelled d <> None
  /\ round_trip d = option_map (as_held (is_quoted d)) (spelled d)
  /\ (is_quoted d = false -> valid_within 127 false d = true ->
      round_trip d = spelled d).
Proof.
  destruct d as [lt fs [c|x h l|sg ds|sx dx sy dy|bs]];
  unfold valid_within; cbn [what letter flags is_quoted]; intro V.
  - apply andb_prop in V. destruct V as [V Hc].
    apply andb_prop in V. destruct V as [Hlt Hfs].
    destruct (round_trip_quoted lt fs c Hlt Hfs Hc) as [S R].
    rewrite S, R. repeat split; [discriminate|discriminate].
  - apply andb_prop in V. destruct V as [V HF]. cbn [orb] in HF.
    apply negb_true_iff in HF.
    apply andb_prop in V. destruct V as [V Hl].
    apply andb_prop in V. destruct V as [V Hh].
    apply andb_prop in V. destruct V as [V Hx].
    apply andb_prop in V. destruct V as [Hlt Hfs].
    destruct (round_trip_hex lt fs x h l Hlt Hfs Hx Hh Hl HF) as [S R].
    rewrite S, R. repeat split; discriminate.
  - apply andb_prop in V. destruct V as [V Hds].
    apply andb_prop in V. destruct V as [Hlt Hfs].
    destruct (round_trip_amount lt fs sg ds 255 Hlt Hfs Hds) as [S R].
    rewrite S, R. repeat split; [discriminate|].
    intros _ V'. apply andb_prop in V'. destruct V' as [_ Hds'].
    apply amount_ok_range in Hds'. rewrite signed_small by lia. reflexivity.
  - apply andb_prop in V. destruct V as [V Hy].
    apply andb_prop in V. destruct V as [V Hx].
    apply andb_prop in V. destruct V as [Hlt Hfs].
    destruct (round_trip_amounts lt fs sx dx sy dy 255 255 Hlt Hfs Hx Hy)
      as [S R].
    rewrite S, R. repeat split; [discriminate|].
    intros _ V'. apply andb_prop in V'. destruct V' as [V' Hy'].
    apply andb_prop in V'. destruct V' as [_ Hx'].
    apply amount_ok_range in Hx', Hy'. rewrite !signed_small by lia.
    reflexivity.
  - apply andb_prop in V. destruct V as [V Hbs].
    apply andb_prop in V. destruct V as [V Hw3]. apply Z.leb_le in Hw3.
    apply andb_prop in V. destruct V as [V Hw1]. apply Z.leb_le in Hw1.
    apply andb_prop in V. destruct V as [Hlt Hfs].
    unfold width in Hw1, Hw3.
    destruct bs as [|b0 bs]; [cbn [List.length] in Hw1; lia|].
    cbn [List.length] in Hw3.
    destruct (round_trip_clicked lt fs b0 bs Hlt Hfs Hbs) as [S R]; [lia|].
    rewrite S, R. repeat split; discriminate.
Qed.

Lemma display_after_parse_witness :
  valid_within 255 false (mkSpec "W" ["c"; "G"]%char (Amount "-" ["1"; "2"]%char))
  = true
  /\ round_trip (mkSpec "W" ["c"; "G"]%char (Amount "-" ["1"; "2"]%char))
     = spelled (mkSpec "W" ["c"; "G"]%char (Amount "-" ["1"; "2"]%char))
  /\ round_trip (mkSpec "k" ["s"%char] (Quoted "a"))
     = option_map (as_held true) (spelled (mkSpec "k" ["s"%char] (Quoted "a"))).
Proof.
  destruct (display_after_parse
              (mkSpec "W" ["c"; "G"]%char (Amount "-" ["1"; "2"]%char)))
    as (_ & _ & H); [vm_compute; reflexivity|].
  destruct (display_after_parse (mkSpec "k" ["s"%char] (Quoted "a")))
    as (_ & H' & _); [vm_compute; reflexivity|].
  split; [vm_compute; reflexivity|]. split; [|exact H'].
  apply H; vm_compute; reflexivity.
Defined.

(** Whatever the text, a parser returns 0 or a code of its own type: the
    display and the main loop take every code for the kind of spec it was
    parsed as.  [parseK] returns modifier bits over a byte, also when it
    fails. *)
Theorem parsers_keep_type (s : string) :
  eType (parseK s) = chr "k"
  /\ (parseW s = 0 \/ eType (parseW s) = chr "w")
  /\ (parseC s = 0 \/ eType (parseC s) = chr "c")
  /\ (parseM s = 0
      \/ (eType (Z.shiftr (parseM s) 16) = chr "m"
          /\ eType (Z.land (parseM s) 0xFFFF) = chr "m")).
Proof.
  split; [|split; [|split]].
  - destruct (parseK_shape s) as (m & v & Hv & ->).
    rewrite <- (Z.lor_0_l (modifier_bits m)).
    destruct (modifiers_shape 0 m v (or_introl eq_refl) Hv) as (E & _).
    exact E.
  - destruct (parseW_shape s) as [E|(m & v & Hv & ->)]; [left; exact E|].
    right.
    destruct (modifiers_shape CE_TYPE_MASK m v
                (or_intror (or_introl eq_refl)) Hv) as (E & _).
    exact E.
  - destruct (parseC_shape s) as [E|(m & b & ->)]; [left; exact E|]. right.
    destruct (modifiers_shape (SET_ME_TYPE CE_TYPE_MASK ME_TYPE_CLICK) m
                (click_bits b)
                (or_intror (or_intror (or_intror (or_introl eq_refl))))
                (click_bits_range b)) as (E & _).
    exact E.
  - exact (parseM_type s).
Qed.

(** The scans take four modifier letters, in a move seven flag letters: a
    text that starts with one more is refused by every parser. *)
Theorem flags_beyond_limit fs a gs b rest :
  forallb is_modifier (fs ++ [a]) = true -> List.length fs = 4%nat ->
  forallb (fun a => is_modifier a || is_button a) (gs ++ [b]) = true ->
  List.length gs = 7%nat ->
  parseK (string_of_list_ascii (fs ++ a :: rest)) = 0
  /\ parseW (string_of_list_ascii (fs ++ a :: rest)) = 0
  /\ parseC (string_of_list_ascii (fs ++ a :: rest)) = 0
  /\ parseM (string_of_list_ascii (gs ++ b :: rest)) = 0.
Proof.
  intros Hf Lf Hg Lg.
  destruct (beyond_four fs a rest Hf Lf) as (K & W & C).
  repeat split; try assumption. exact (beyond_seven gs b rest Hg Lg).
Qed.

Lemma flags_beyond_limit_witness :
  parseK "casgc'a" = 0 /\ parseW "casgc+1" = 0 /\ parseC "casgcl" = 0
  /\ parseM "casglmrc+1+1" = 0.
Proof.
  destruct (flags_beyond_limit ["c"; "a"; "s"; "g"]%char "c"
              ["c"; "a"; "s"; "g"; "l"; "m"; "r"]%char "c" []
              eq_refl eq_refl eq_refl eq_refl) as (_ & _ & _ & M).
  destruct (flags_beyond_limit ["c"; "a"; "s"; "g"]%char "c"
              ["c"; "a"; "s"; "g"; "l"; "m"; "r"]%char "c"
              ["'"; "a"]%char eq_refl eq_refl eq_refl eq_refl) as (K & _).
  destruct (flags_beyond_limit ["c"; "a"; "s"; "g"]%char "c"
              ["c"; "a"; "s"; "g"; "l"; "m"; "r"]%char "c"
              ["+"; "1"]%char eq_refl eq_refl eq_refl eq_refl) as (_ & W & _).
  destruct (flags_beyond_limit ["c"; "a"; "s"; "g"]%char "c"
              ["c"; "a"; "s"; "g"; "l"; "m"; "r"]%char "c"
              ["l"]%char eq_refl eq_refl eq_refl eq_refl) as (_ & _ & C & _).
  split; [exact K|]. split; [exact W|]. split; [exact C|].
  vm_compute. reflexivity.
Defined.

End CodecFacts.

(* ================================================================== *)
Section ConsoleFacts.
Import Store Codec Console Grammar.

(** *** The words of the line *)

Lemma getWord_cons cmd l i :
  0 <= i -> getWord (cmd :: l) (1 + i) = nth (Z.to_nat i) l EmptyString.
Proof.
  intro H. unfold getWord.
  replace (Z.to_nat (1 + i)) with (S (Z.to_nat i)) by lia. reflexivity.
Qed.

Lemma round_ext l1 l2 eNum cb :
  getWord l1 (1 + 2 * eNum) = getWord l2 (1 + 2 * eNum) ->
  getWord l1 (2 + 2 * eNum) = getWord l2 (2 + 2 * eNum) ->
  onNew_round l1 eNum cb = onNew_round l2 eNum cb.
Proof.
  intros H1 H2. unfold onNew_round. rewrite H1, H2. reflexivity.
Qed.

(** A round on a keyboard pair one of whose specs parses to 0 is bad. *)
Lemma round_zero_key line eNum cb k s0 w2 :
  getWord line (1 + 2 * eNum) = String k s0 ->
  getWord line (2 + 2 * eNum) = w2 ->
  is_letter "k" k = true -> parseK s0 = 0 \/ parseK w2 = 0 ->
  exists cb', onNew_round line eNum cb = Some (true, cb').
Proof.
  intros W1 W2 Hk Hz. unfold onNew_round. rewrite W1, W2.
  cbn [String.length]. rewrite Nat2Z.inj_succ.
  replace (Z.succ (Z.of_nat (String.length s0)) =? 0) with false
    by (symmetry; apply Z.eqb_neq; lia).
  rewrite charAt_cons, (letter_k_code k Hk). cbn [remove1].
  rewrite test_m, (letters_differ "k" "m" k Hk) by reflexivity.
  unfold parse_single. rewrite test_k, Hk.
  destruct Hz as [Z0|Z1].
  - rewrite Z0. cbn [Z.eqb orb]. rewrite orb_true_r. cbn [orb].
    eexists. reflexivity.
  - rewrite Z1. cbn [Z.eqb]. rewrite !orb_true_r. eexists. reflexivity.
Qed.

Lemma set_entry_count cb n dir v : nEntries (set_entry cb n dir v) = nEntries cb.
Proof.
  reflexivity.
Qed.

(** A round that goes on adds one entry or two. *)
Lemma round_count line eNum cb cb' :
  onNew_round line eNum cb = Some (false, cb') ->
  0 <= nEntries cb < MAX_ENTRIES ->
  nEntries cb < nEntries cb' <= nEntries cb + 2.
Proof.
  unfold onNew_round, MAX_ENTRIES. intros H R.
  destruct (Z.of_nat (String.length (getWord line (1 + 2 * eNum))) =? 0);
    [discriminate H|].
  destruct ((u8 (charAt (getWord line (1 + 2 * eNum)) 0) =? chr "M")
            || (u8 (charAt (getWord line (1 + 2 * eNum)) 0) =? chr "m")).
  - match type of H with
    | Some (?b, _) = _ => destruct b eqn:B; [discriminate H|]
    end.
    injection H as <-. cbn [nEntries].
    repeat match goal with
    | |- context [nEntries (if ?c then _ else _)] => destruct c
    end; rewrite ?set_entry_count; unfold u8; rewrite Z.mod_small; lia.
  - match type of H with
    | Some (?b, _) = _ => destruct b eqn:B; [discriminate H|]
    end.
    injection H as <-. cbn [nEntries].
    repeat match goal with
    | |- context [nEntries (if ?c then _ else _)] => destruct c
    end; rewrite ?set_entry_count; unfold u8; rewrite Z.mod_small; lia.
Qed.

Lemma round_none line eNum cb :
  onNew_round line eNum cb = None ->
  getWord line (1 + 2 * eNum) = EmptyString.
Proof.
  unfold onNew_round. intro H.
  destruct (getWord line (1 + 2 * eNum)) as [|a s]; [reflexivity|].
  cbn [String.length] in H. rewrite Nat2Z.inj_succ in H.
  replace (Z.succ (Z.of_nat (String.length s)) =? 0) with false in H
    by (symmetry; apply Z.eqb_neq; lia).
  destruct (_ || _) in H; discriminate H.
Qed.

(** The loop on a line whose words [pre] before a pair that makes its
    round bad are refused, or fill fewer than 32 entries: the pair is read
    and the request is bad. *)
Lemma loop_reads cmd pre rest :
  Forall (fun w => w <> EmptyString) pre -> Nat.Even (List.length pre) ->
  (forall eNum cb, 2 * eNum = Z.of_nat (List.length pre) ->
     exists cb', onNew_round (cmd :: pre ++ rest) eNum cb = Some (true, cb')) ->
  forall fuel eNum cb,
    0 <= eNum <= nEntries cb -> 2 * eNum <= Z.of_nat (List.length pre) ->
    33 <= Z.of_nat fuel + nEntries cb ->
    fst (onNew_loop fuel (cmd :: pre) eNum cb) = true
    \/ nEntries (snd (onNew_loop fuel (cmd :: pre) eNum cb)) < MAX_ENTRIES ->
    fst (onNew_loop fuel (cmd :: pre ++ rest) eNum cb) = true.
Proof.
  intros Hne [h Hev] Hbad.
  induction fuel as [|f IH]; intros eNum cb He Hpre Hfuel Hacc;
  unfold MAX_ENTRIES in *.
  - cbn [onNew_loop fst snd] in Hacc.
    destruct Hacc as [Hacc|Hacc]; [discriminate Hacc|lia].
  - cbn [onNew_loop] in *. unfold MAX_ENTRIES in *.
    destruct (nEntries cb <? 32) eqn:Hn.
    2:{ apply Z.ltb_ge in Hn. cbn [fst snd] in Hacc.
        destruct Hacc as [Hacc|Hacc]; [discriminate Hacc|lia]. }
    apply Z.ltb_lt in Hn.
    destruct (Z.eq_dec (2 * eNum) (Z.of_nat (List.length pre))) as [Heq|Hneq].
    + destruct (Hbad eNum cb Heq) as [cb' R]. rewrite R. reflexivity.
    + assert (Hin : 2 * eNum + 2 <= Z.of_nat (List.length pre)) by lia.
      rewrite (round_ext (cmd :: pre ++ rest) (cmd :: pre)).
      2:{ rewrite !getWord_cons by lia. apply app_nth1. lia. }
      2:{ replace (2 + 2 * eNum) with (1 + (1 + 2 * eNum)) by lia.
          rewrite !getWord_cons by lia. apply app_nth1. lia. }
      destruct (onNew_round (cmd :: pre) eNum cb) as [[bad cb']|] eqn:R.
      * destruct bad; [reflexivity|].
        pose proof (round_count _ _ _ _ R) as C. unfold MAX_ENTRIES in C.
        assert (E : u8 (eNum + 1) = eNum + 1)
          by (unfold u8; apply Z.mod_small; lia).
        rewrite E in *. apply IH; try lia. exact Hacc.
      * apply round_none in R. rewrite getWord_cons in R by lia.
        rewrite Forall_forall in Hne. exfalso.
        apply (Hne (nth (Z.to_nat (2 * eNum)) pre EmptyString));
          [apply nth_In; lia|exact R].
Qed.

Lemma words_after cmd pre rest eNum :
  2 * eNum = Z.of_nat (List.length pre) ->
  getWord (cmd :: pre ++ rest) (1 + 2 * eNum) = nth 0 rest EmptyString
  /\ getWord (cmd :: pre ++ rest) (2 + 2 * eNum) = nth 1 rest EmptyString.
Proof.
  intro H. split.
  - rewrite getWord_cons by lia. rewrite app_nth2 by lia.
    replace (Z.to_nat (2 * eNum) - List.length pre)%nat with 0%nat by lia.
    reflexivity.
  - replace (2 + 2 * eNum) with (1 + (1 + 2 * eNum)) by lia.
    rewrite getWord_cons by lia. rewrite app_nth2 by lia.
    replace (Z.to_nat (1 + 2 * eNum) - List.length pre)%nat with 1%nat by lia.
    reflexivity.
Qed.

(** Whether a round is bad depends on its two words alone, unless the
    block is nearly full. *)
Lemma round_bad_words l1 e1 cb1 c1 l2 e2 cb2 :
  onNew_round l1 e1 cb1 = Some (true, c1) ->
  getWord l1 (1 + 2 * e1) = getWord l2 (1 + 2 * e2) ->
  getWord l1 (2 + 2 * e1) = getWord l2 (2 + 2 * e2) ->
  nEntries cb1 + 1 < MAX_ENTRIES ->
  exists c2, onNew_round l2 e2 cb2 = Some (true, c2).
Proof.
  unfold onNew_round, MAX_ENTRIES. intros H W0 W1 Hn. rewrite <- W0, <- W1.
  set (w0 := getWord l1 (1 + 2 * e1)) in *.
  set (w1 := getWord l1 (2 + 2 * e1)) in *.
  set (d0 := parseM (remove1 w0)) in *. set (d1 := parseM w1) in *.
  set (st := u8 (charAt w0 0)) in *.
  set (e0 := parse_single st (remove1 w0) 0) in *.
  set (e1' := parse_single st w1 e0) in *.
  clearbody e1' e0 st d1 d0 w1 w0.
  destruct (Z.of_nat (String.length w0) =? 0); [discriminate H|].
  destruct ((st =? chr "M") || (st =? chr "m")).
  - injection H as Hbad _.
    replace (nEntries cb1 + 1 >=? 32) with false in Hbad
      by (symmetry; rewrite Z.geb_leb; apply Z.leb_gt; lia).
    rewrite orb_false_r in Hbad.
    match goal with
    | |- exists c2, Some (?b, _) = _ =>
      assert (E : b = true)
    end.
    { destruct (Z.of_nat (String.length w1) =? 0), (d0 =? 0), (d1 =? 0);
      try discriminate Hbad; rewrite ?orb_true_r; reflexivity. }
    rewrite E. eexists. reflexivity.
  - injection H as Hbad _. rewrite Hbad. eexists. reflexivity.
Qed.

(** The fuel of [gather] is never used up: with one round more the result
    is the same. *)
Lemma loop_fuel line : forall fuel eNum cb,
  0 <= nEntries cb -> 33 <= Z.of_nat fuel + nEntries cb ->
  onNew_loop (S fuel) line eNum cb = onNew_loop fuel line eNum cb.
Proof.
  induction fuel as [|f IH]; intros eNum cb H0 Hf.
  - cbn [onNew_loop]. unfold MAX_ENTRIES.
    replace (nEntries cb <? 32) with false
      by (symmetry; apply Z.ltb_ge; lia).
    reflexivity.
  - change (onNew_loop (S (S f)) line eNum cb)
      with (if nEntries cb <? MAX_ENTRIES then
              match onNew_round line eNum cb with
              | None => (false, cb)
              | Some (bad, cb') =>
                if bad then (true, cb')
                else onNew_loop (S f) line (u8 (eNum + 1)) cb'
              end
            else (false, cb)).
    change (onNew_loop (S f) line eNum cb)
      with (if nEntries cb <? MAX_ENTRIES then
              match onNew_round line eNum cb with
              | None => (false, cb)
              | Some (bad, cb') =>
                if bad then (true, cb')
                else onNew_loop f line (u8 (eNum + 1)) cb'
              end
            else (false, cb)).
    destruct (nEntries cb <? MAX_ENTRIES) eqn:Hn; [|reflexivity].
    apply Z.ltb_lt in Hn.
    destruct (onNew_round line eNum cb) as [[bad cb']|] eqn:R; [|reflexivity].
    destruct bad; [reflexivity|].
    pose proof (round_count _ _ _ _ R) as C. apply IH; lia.
Qed.

(** *** The entries gathered *)

Lemma set_entry_length cb n dir v :
  List.length (entry (set_entry cb n dir v)) = List.length (entry cb).
Proof.
  apply aset_length.
Qed.

Lemma set_entry_other cb n dir v i :
  0 <= i -> n <> i ->
  aget (0, 0) (entry (set_entry cb n dir v)) i = aget (0, 0) (entry cb) i.
Proof.
  intros Hi Hn. apply aget_aset_other; assumption.
Qed.

Lemma set_entry_same cb n dir v :
  0 <= n < Z.of_nat (List.length (entry cb)) ->
  aget (0, 0) (entry (set_entry cb n dir v)) n
  = if dir =? 0 then (v, snd (aget (0, 0) (entry cb) n))
    else (fst (aget (0, 0) (entry cb) n), v).
Proof.
  intro Hn. unfold set_entry. cbn [entry]. apply aget_aset_same, Hn.
Qed.

(** A round that goes on leaves no code 0 among the entries. *)
Lemma round_nonzero line eNum cb cb' :
  onNew_round line eNum cb = Some (false, cb') ->
  List.length (entry cb) = 32%nat -> 0 <= nEntries cb < MAX_ENTRIES ->
  nonzero_entries cb ->
  nonzero_entries cb' /\ List.length (entry cb') = 32%nat.
Proof.
  unfold onNew_round, MAX_ENTRIES. intros H L R Inv.
  pose proof (parseM_halves (remove1 (getWord line (1 + 2 * eNum)))) as P0.
  pose proof (parseM_halves (getWord line (2 + 2 * eNum))) as P1.
  set (w0 := getWord line (1 + 2 * eNum)) in *.
  set (w1 := getWord line (2 + 2 * eNum)) in *.
  set (d0 := parseM (remove1 w0)) in *. set (d1 := parseM w1) in *.
  set (st := u8 (charAt w0 0)) in *.
  set (e0 := parse_single st (remove1 w0) 0) in *.
  set (e1 := parse_single st w1 e0) in *.
  clearbody e1 e0 st d1 d0 w1 w0.
  destruct (Z.of_nat (String.length w0) =? 0); [discriminate H|].
  destruct ((st =? chr "M") || (st =? chr "m")).
  - injection H as Hbad Hcb. rewrite Hbad in Hcb. subst cb'.
    apply orb_false_elim in Hbad. destruct Hbad as [Hbad Z1].
    apply orb_false_elim in Hbad. destruct Hbad as [Hbad Z0].
    apply orb_false_elim in Hbad. destruct Hbad as [_ Hfull].
    rewrite Z0, Z1. apply Z.eqb_neq in Z0, Z1.
    destruct P0 as [P0|[X0 Y0]]; [contradiction|].
    destruct P1 as [P1|[X1 Y1]]; [contradiction|].
    assert (Hn1 : nEntries cb + 1 < 32).
    { destruct (Z.geb_spec (nEntries cb + 1) 32); [discriminate Hfull|lia]. }
    unfold set_entry. cbn [nEntries entry Z.eqb].
    split; [|rewrite !aset_length; exact L].
    intros i Hi. cbn [nEntries entry] in *.
    unfold u8 in Hi. rewrite Z.mod_small in Hi by lia.
    destruct (Z.eq_dec i (nEntries cb + 1)) as [->|N1];
      [|destruct (Z.eq_dec i (nEntries cb)) as [->|N0]];
    repeat first
      [ rewrite aget_aset_other by lia
      | rewrite aget_aset_same by (rewrite ?aset_length, L; lia) ];
    cbn [fst snd]; try (split; assumption).
    apply Inv. lia.
  - injection H as Hbad Hcb. rewrite Hbad in Hcb. subst cb'.
    apply orb_false_elim in Hbad. destruct Hbad as [Hbad Z1].
    apply orb_false_elim in Hbad. destruct Hbad as [_ Z0].
    rewrite Z0, Z1. apply Z.eqb_neq in Z0, Z1.
    unfold set_entry. cbn [nEntries entry Z.eqb].
    split; [|rewrite !aset_length; exact L].
    intros i Hi. cbn [nEntries entry] in *.
    unfold u8 in Hi. rewrite Z.mod_small in Hi by lia.
    destruct (Z.eq_dec i (nEntries cb)) as [->|N0];
    repeat first
      [ rewrite aget_aset_other by lia
      | rewrite aget_aset_same by (rewrite ?aset_length, L; lia) ];
    cbn [fst snd]; try (split; assumption).
    apply Inv. lia.
Qed.

(** An accepted request gathers a block without a code 0. *)
Lemma loop_nonzero line : forall fuel eNum cb,
  List.length (entry cb) = 32%nat -> 0 <= nEntries cb ->
  nonzero_entries cb ->
  fst (onNew_loop fuel line eNum cb) = false ->
  nonzero_entries (snd (onNew_loop fuel line eNum cb)).
Proof.
  induction fuel as [|f IH]; intros eNum cb L R Inv H; [exact Inv|].
  cbn [onNew_loop] in *.
  destruct (nEntries cb <? MAX_ENTRIES) eqn:Hn; [|exact Inv].
  apply Z.ltb_lt in Hn.
  destruct (onNew_round line eNum cb) as [[bad cb']|] eqn:Rd; [|exact Inv].
  destruct bad; [discriminate H|].
  destruct (round_nonzero _ _ _ _ Rd L (conj R Hn) Inv) as [Inv' L'].
  pose proof (round_count _ _ _ _ Rd (conj R Hn)) as C.
  apply IH; try assumption. lia.
Qed.

Lemma round_bound line eNum cb cb' :
  onNew_round line eNum cb = Some (false, cb') ->
  0 <= nEntries cb < MAX_ENTRIES -> nEntries cb' <= MAX_ENTRIES.
Proof.
  unfold onNew_round, MAX_ENTRIES. intros H R.
  set (w0 := getWord line (1 + 2 * eNum)) in *.
  set (w1 := getWord line (2 + 2 * eNum)) in *.
  set (d0 := parseM (remove1 w0)) in *. set (d1 := parseM w1) in *.
  set (st := u8 (charAt w0 0)) in *.
  set (e0 := parse_single st (remove1 w0) 0) in *.
  set (e1 := parse_single st w1 e0) in *.
  clearbody e1 e0 st d1 d0 w1 w0.
  destruct (Z.of_nat (String.length w0) =? 0); [discriminate H|].
  destruct ((st =? chr "M") || (st =? chr "m")).
  - injection H as Hbad Hcb. rewrite Hbad in Hcb. subst cb'.
    apply orb_false_elim in Hbad. destruct Hbad as [Hbad Z1].
    apply orb_false_elim in Hbad. destruct Hbad as [Hbad Z0].
    apply orb_false_elim in Hbad. destruct Hbad as [_ Hfull].
    rewrite Z0, Z1. cbn [nEntries]. rewrite !set_entry_count.
    destruct (Z.geb_spec (nEntries cb + 1) 32); [discriminate Hfull|].
    unfold u8. rewrite Z.mod_small; lia.
  - injection H as Hbad Hcb. rewrite Hbad in Hcb. subst cb'.
    apply orb_false_elim in Hbad. destruct Hbad as [Hbad Z1].
    apply orb_false_elim in Hbad. destruct Hbad as [_ Z0].
    rewrite Z0, Z1. cbn [nEntries]. rewrite !set_entry_count.
    unfold u8. rewrite Z.mod_small; lia.
Qed.

Lemma loop_bound line : forall fuel eNum cb,
  0 <= nEntries cb <= MAX_ENTRIES ->
  fst (onNew_loop fuel line eNum cb) = false ->
  0 <= nEntries (snd (onNew_loop fuel line eNum cb)) <= MAX_ENTRIES.
Proof.
  induction fuel as [|f IH]; intros eNum cb R H; [exact R|].
  cbn [onNew_loop] in *.
  destruct (nEntries cb <? MAX_ENTRIES) eqn:Hn; [|exact R].
  apply Z.ltb_lt in Hn.
  destruct (onNew_round line eNum cb) as [[bad cb']|] eqn:Rd; [|exact R].
  destruct bad; [discriminate H|].
  pose proof (round_count _ _ _ _ Rd) as C.
  pose proof (round_bound _ _ _ _ Rd) as B.
  apply IH; [lia|exact H].
Qed.

(** The loop leaves off at 32 entries: the words after them are not
    read. *)
Lemma loop_full cmd pre rest :
  Forall (fun w => w <> EmptyString) pre -> Nat.Even (List.length pre) ->
  forall fuel eNum cb,
    0 <= eNum <= nEntries cb -> 2 * eNum <= Z.of_nat (List.length pre) ->
    fst (onNew_loop fuel (cmd :: pre) eNum cb) = false ->
    nEntries (snd (onNew_loop fuel (cmd :: pre) eNum cb)) = MAX_ENTRIES ->
    onNew_loop fuel (cmd :: pre ++ rest) eNum cb
    = onNew_loop fuel (cmd :: pre) eNum cb.
Proof.
  intros Hne [h Hev].
  induction fuel as [|f IH]; intros eNum cb He Hpre Hacc Hfull;
    [reflexivity|].
  cbn [onNew_loop] in *. unfold MAX_ENTRIES in *.
  destruct (nEntries cb <? 32) eqn:Hn; [|reflexivity].
  apply Z.ltb_lt in Hn.
  destruct (Z.eq_dec (2 * eNum) (Z.of_nat (List.length pre))) as [Heq|Hneq].
  - exfalso.
    assert (R : onNew_round (cmd :: pre) eNum cb = None).
    { unfold onNew_round. rewrite getWord_cons by lia.
      rewrite nth_overflow by lia. reflexivity. }
    rewrite R in Hfull. cbn [snd] in Hfull. lia.
  - assert (Hin : 2 * eNum + 2 <= Z.of_nat (List.length pre)) by lia.
    rewrite (round_ext (cmd :: pre ++ rest) (cmd :: pre)).
    2:{ rewrite !getWord_cons by lia. apply app_nth1. lia. }
    2:{ replace (2 + 2 * eNum) with (1 + (1 + 2 * eNum)) by lia.
        rewrite !getWord_cons by lia. apply app_nth1. lia. }
    destruct (onNew_round (cmd :: pre) eNum cb) as [[bad cb']|] eqn:R;
      [|reflexivity].
    destruct bad; [reflexivity|].
    pose proof (round_count _ _ _ _ R) as C. unfold MAX_ENTRIES in C.
    assert (E : u8 (eNum + 1) = eNum + 1)
      by (unfold u8; apply Z.mod_small; lia).
    rewrite E in *. apply IH; try lia; assumption.
Qed.

(** A pair that is refused when it stands alone. *)
Lemma alone_bad cmd w1 w2 cells :
  w1 <> EmptyString -> fst (gather [cmd; w1; w2] cells) = true ->
  exists c1, onNew_round [cmd; w1; w2] 0 (mkConfig 0 cells) = Some (true, c1).
Proof.
  intros Hw H. unfold gather in H.
  change (onNew_loop 33 [cmd; w1; w2] 0 (mkConfig 0 cells))
    with (match onNew_round [cmd; w1; w2] 0 (mkConfig 0 cells) with
          | None => (false, mkConfig 0 cells)
          | Some (bad, cb') =>
            if bad then (true, cb')
            else onNew_loop 32 [cmd; w1; w2] (u8 (0 + 1)) cb'
          end) in H.
  destruct (onNew_round [cmd; w1; w2] 0 (mkConfig 0 cells))
    as [[bad cb']|] eqn:R; [|discriminate H].
  destruct bad; [exists cb'; reflexivity|].
  exfalso. pose proof (round_count _ _ _ _ R) as C.
  cbn [nEntries] in C. unfold MAX_ENTRIES in C.
  change (u8 (0 + 1)) with 1 in H. cbn [onNew_loop] in H.
  destruct (nEntries cb' <? MAX_ENTRIES); [|discriminate H].
  replace (onNew_round [cmd; w1; w2] 1 cb') with (@None (bool * configBlock))
    in H by reflexivity.
  discriminate H.
Qed.


(** *** The handler of [new] *)

Lemma refused_unchanged line cells m :
  fst (gather line cells) = true -> onNew line cells m = m.
Proof.
  unfold onNew. destruct (gather line cells) as [bad cb]. cbn [fst].
  intros ->. reflexivity.
Qed.

Lemma gather_reads cmd pre rest cells :
  Forall (fun w => w <> EmptyString) pre -> Nat.Even (List.length pre) ->
  fst (gather (cmd :: pre) cells) = true
  \/ nEntries (snd (gather (cmd :: pre) cells)) < MAX_ENTRIES ->
  (forall eNum cb, 2 * eNum = Z.of_nat (List.length pre) ->
     exists cb', onNew_round (cmd :: pre ++ rest) eNum cb = Some (true, cb')) ->
  fst (gather (cmd :: pre ++ rest) cells) = true.
Proof.
  intros Hne Hev Hacc Hbad. unfold gather in *.
  apply (loop_reads cmd pre rest Hne Hev Hbad); cbn [nEntries]; try lia.
  exact Hacc.
Qed.

(** A request is refused as a whole, and the store stays as it is, for one
    pair that would be refused standing alone: read after words that are
    themselves refused or fill fewer than 32 entries, the pair makes the
    request bad whatever follows it.  [rest] holds the pair and what
    follows; a missing second spec counts as the empty word. *)
Theorem onNew_refuses_pair cmd pre rest cells cells' m :
  Forall (fun w => w <> EmptyString) pre -> Nat.Even (List.length pre) ->
  fst (gather (cmd :: pre) cells) = true
  \/ nEntries (snd (gather (cmd :: pre) cells)) < MAX_ENTRIES ->
  nth 0 rest EmptyString <> EmptyString ->
  fst (gather [cmd; nth 0 rest EmptyString; nth 1 rest EmptyString] cells')
  = true ->
  fst (gather (cmd :: pre ++ rest) cells) = true
  /\ onNew (cmd :: pre ++ rest) cells m = m.
Proof.
  intros Hne Hev Hacc Hw Halone.
  destruct (alone_bad _ _ _ _ Hw Halone) as [c1 R1].
  assert (G : fst (gather (cmd :: pre ++ rest) cells) = true).
  { apply gather_reads; try assumption. intros eNum cb He.
    destruct (words_after cmd pre rest eNum He) as [W0 W1].
    apply (round_bad_words _ _ _ _ _ _ _ R1).
    - rewrite W0. reflexivity.
    - rewrite W1. reflexivity.
    - cbn [nEntries]. unfold MAX_ENTRIES. lia. }
  split; [exact G|apply refused_unchanged, G].
Qed.

Lemma onNew_refuses_pair_witness :
  fst (gather ["new"; "k'a"; "'b"; "w+1"; "-x"; "cl"; "r"]%string
              (repeat (0, 0) 32)) = true
  /\ onNew ["new"; "k'a"; "'b"; "w+1"; "-x"; "cl"; "r"]%string
           (repeat (0, 0) 32) factory = factory.
Proof.
  apply (onNew_refuses_pair "new" ["k'a"; "'b"]%string
           ["w+1"; "-x"; "cl"; "r"]%string (repeat (0, 0) 32)
           (repeat (0, 0) 32) factory).
  - repeat constructor; discriminate.
  - exists 1%nat. reflexivity.
  - right. vm_compute. reflexivity.
  - discriminate.
  - vm_compute. reflexivity.
Defined.

(** A first spec without a second one makes the request bad. *)
Theorem onNew_missing_second cmd pre w1 cells m :
  Forall (fun w => w <> EmptyString) pre -> Nat.Even (List.length pre) ->
  fst (gather (cmd :: pre) cells) = true
  \/ nEntries (snd (gather (cmd :: pre) cells)) < MAX_ENTRIES ->
  w1 <> EmptyString ->
  fst (gather (cmd :: pre ++ [w1]) cells) = true
  /\ onNew (cmd :: pre ++ [w1]) cells m = m.
Proof.
  intros Hne Hev Hacc Hw.
  assert (G : fst (gather (cmd :: pre ++ [w1]) cells) = true).
  { apply gather_reads; try assumption. intros eNum cb He.
    destruct (words_after cmd pre [w1] eNum He) as [W0 W1].
    unfold onNew_round. rewrite W0, W1. cbn [nth String.length].
    destruct w1 as [|a w1]; [contradiction|].
    cbn [String.length]. rewrite Nat2Z.inj_succ.
    replace (Z.succ (Z.of_nat (String.length w1)) =? 0) with false
      by (symmetry; apply Z.eqb_neq; lia).
    change (Z.of_nat 0 =? 0) with true. cbn [orb].
    destruct (_ || _); eexists; reflexivity. }
  split; [exact G|apply refused_unchanged, G].
Qed.

Lemma onNew_missing_second_witness :
  fst (gather ["new"; "k'a"; "'b"; "k'c"]%string (repeat (0, 0) 32)) = true
  /\ onNew ["new"; "k'a"; "'b"; "k'c"]%string (repeat (0, 0) 32) factory
     = factory.
Proof.
  apply (onNew_missing_second "new" ["k'a"; "'b"]%string "k'c"%string
           (repeat (0, 0) 32) factory).
  - repeat constructor; discriminate.
  - exists 1%nat. reflexivity.
  - right. vm_compute. reflexivity.
  - discriminate.
Defined.

(** A keyboard pair with a spec that parses to 0, as [0x00] does, makes
    the request bad when it is read: the code 0 of the key 0x00 without
    modifiers is taken for a failure. *)
Theorem onNew_zero_key cmd pre post k s0 w2 cells m :
  Forall (fun w => w <> EmptyString) pre -> Nat.Even (List.length pre) ->
  fst (gather (cmd :: pre) cells) = true
  \/ nEntries (snd (gather (cmd :: pre) cells)) < MAX_ENTRIES ->
  is_letter "k" k = true -> parseK s0 = 0 \/ parseK w2 = 0 ->
  fst (gather (cmd :: pre ++ String k s0 :: w2 :: post) cells) = true
  /\ onNew (cmd :: pre ++ String k s0 :: w2 :: post) cells m = m.
Proof.
  intros Hne Hev Hacc Hk Hz.
  assert (G : fst (gather (cmd :: pre ++ String k s0 :: w2 :: post) cells)
              = true).
  { apply gather_reads; try assumption. intros eNum cb He.
    destruct (words_after cmd pre (String k s0 :: w2 :: post) eNum He)
      as [W0 W1].
    apply (round_zero_key _ _ _ k s0 w2); assumption. }
  split; [exact G|apply refused_unchanged, G].
Qed.

Lemma onNew_zero_key_witness :
  parseK "0x00" = 0
  /\ fst (gather ["new"; "k'a"; "'b"; "K0xDA"; "0x00"; "w+1"; "-1"]%string
                 (repeat (0, 0) 32)) = true
  /\ onNew ["new"; "k'a"; "'b"; "K0xDA"; "0x00"; "w+1"; "-1"]%string
           (repeat (0, 0) 32) factory = factory.
Proof.
  split; [vm_compute; reflexivity|].
  apply (onNew_zero_key "new" ["k'a"; "'b"]%string ["w+1"; "-1"]%string
           "K" "0xDA" "0x00" (repeat (0, 0) 32) factory).
  - repeat constructor; discriminate.
  - exists 1%nat. reflexivity.
  - right. vm_compute. reflexivity.
  - reflexivity.
  - right. vm_compute. reflexivity.
Defined.

(** At 32 entries the loop leaves off: whatever follows the words that
    gave them is not read, not even to be refused. *)
Theorem onNew_stops_at_32 cmd pre rest cells m :
  Forall (fun w => w <> EmptyString) pre -> Nat.Even (List.length pre) ->
  fst (gather (cmd :: pre) cells) = false ->
  nEntries (snd (gather (cmd :: pre) cells)) = MAX_ENTRIES ->
  gather (cmd :: pre ++ rest) cells = gather (cmd :: pre) cells
  /\ onNew (cmd :: pre ++ rest) cells m = onNew (cmd :: pre) cells m.
Proof.
  intros Hne Hev Hacc Hfull.
  assert (G : gather (cmd :: pre ++ rest) cells = gather (cmd :: pre) cells).
  { unfold gather in *.
    apply (loop_full cmd pre rest Hne Hev); cbn [nEntries]; try lia;
    assumption. }
  split; [exact G|]. unfold onNew. rewrite G. reflexivity.
Qed.

Lemma onNew_stops_at_32_witness :
  gather ("new" :: List.concat (repeat ["k'a"; "'b"] 32)
                ++ ["k0x00"; "0x00"])%string (repeat (0, 0) 32)
  = gather ("new" :: List.concat (repeat ["k'a"; "'b"] 32))%string
           (repeat (0, 0) 32)
  /\ onNew ("new" :: List.concat (repeat ["k'a"; "'b"] 32)
                  ++ ["k0x00"; "0x00"])%string (repeat (0, 0) 32) factory
     = onNew ("new" :: List.concat (repeat ["k'a"; "'b"] 32))%string
             (repeat (0, 0) 32) factory.
Proof.
  apply (onNew_stops_at_32 "new"
           (List.concat (repeat ["k'a"; "'b"]%string 32))
           ["k0x00"; "0x00"]%string (repeat (0, 0) 32) factory).
  - apply Forall_forall. intros w Hw. vm_compute in Hw.
    repeat (destruct Hw as [<-|Hw]; [discriminate|]). contradiction.
  - exists 32%nat. reflexivity.
  - vm_compute. reflexivity.
  - vm_compute. reflexivity.
Defined.

(** The block of an accepted request has at most 32 entries and no code 0
    among them, in either direction. *)
Theorem gather_entries line cells :
  List.length cells = 32%nat -> fst (gather line cells) = false ->
  nonzero_entries (snd (gather line cells))
  /\ 0 <= nEntries (snd (gather line cells)) <= MAX_ENTRIES.
Proof.
  intros L H. unfold gather in *. split.
  - apply loop_nonzero; cbn [nEntries entry]; try assumption; try lia.
    intros i Hi. cbn [nEntries] in Hi. lia.
  - apply loop_bound; [cbn [nEntries]; unfold MAX_ENTRIES; lia|exact H].
Qed.

Lemma gather_entries_witness :
  nonzero_entries
    (snd (gather ["new"; "mc+1-1"; "l+0+0"; "k'a"; "'b"]%string
                 (repeat (0, 0) 32)))
  /\ 0 <= nEntries
            (snd (gather ["new"; "mc+1-1"; "l+0+0"; "k'a"; "'b"]%string
                         (repeat (0, 0) 32))) <= MAX_ENTRIES.
Proof.
  apply (gather_entries ["new"; "mc+1-1"; "l+0+0"; "k'a"; "'b"]%string
           (repeat (0, 0) 32)).
  - reflexivity.
  - vm_compute. reflexivity.
Defined.

End ConsoleFacts.

(* ================================================================== *)
(** ** The commands [use] and [remove] *)
(* ================================================================== *)

Section CommandFacts.
Import Store Codec Console Grammar Layout Commands.

Lemma u8_i32 x : u8 (i32 x) = u8 x.
Proof.
  unfold u8, i32.
  rewrite (Z.mod_eq (x + 2147483648) 4294967296) by lia.
  replace (x + 2147483648
           - 4294967296 * ((x + 2147483648) / 4294967296) - 2147483648)
    with (x + (- 16777216 * ((x + 2147483648) / 4294967296)) * 256) by lia.
  apply Z_mod_plus_full.
Qed.

Lemma i8_i32 x : i8 (i32 x) = i8 x.
Proof. rewrite <- (i8_u8 (i32 x)), u8_i32. apply i8_u8. Qed.

Lemma gather_digits_number ds : forall n,
  forallb is_digit ds = true ->
  gather_digits (string_of_list_ascii ds) n
  = fold_left (fun n a => 10 * n + digit_value a) ds n.
Proof.
  induction ds as [|a r IH]; intros n D; [reflexivity|].
  cbn [forallb] in D. apply andb_prop in D as [Da Dr].
  cbn [string_of_list_ascii gather_digits fold_left].
  unfold is_digit in Da. rewrite Da. rewrite (IH _ Dr).
  unfold digit_value. f_equal. lia.
Qed.

Lemma digit_char a :
  is_digit a = true ->
  isspace (chr a) = false /\ (chr a =? chr "-") = false
  /\ (chr a =? chr "+") = false.
Proof.
  unfold is_digit, isdigit, isspace.
  change (chr "0") with 48. change (chr "9") with 57.
  change (chr "-") with 45. change (chr "+") with 43.
  intros D. apply andb_prop in D as [L U].
  apply Z.leb_le in L. apply Z.leb_le in U.
  repeat split.
  - apply orb_false_intro; [apply Z.eqb_neq; lia|].
    apply andb_false_intro2. apply Z.leb_gt. lia.
  - apply Z.eqb_neq. lia.
  - apply Z.eqb_neq. lia.
Qed.

Lemma toInt_decimal a ds :
  forallb is_digit (a :: ds) = true ->
  toInt (string_of_list_ascii (a :: ds)) = i32 (number (a :: ds)).
Proof.
  intros D. pose proof D as D'.
  cbn [forallb] in D'. apply andb_prop in D' as [Da _].
  destruct (digit_char a Da) as (S & M & P).
  unfold toInt. cbn [string_of_list_ascii skip_space]. rewrite S, M, P.
  change (String a (string_of_list_ascii ds))
    with (string_of_list_ascii (a :: ds)).
  rewrite (gather_digits_number _ 0 D). reflexivity.
Qed.

Lemma toCbn_cases token m :
  toCbn token m = 8
  \/ (0 <= toCbn token m < 8 /\ ptr m (toCbn token m) <> 0
      /\ toCbn token m = u8 (toInt token)).
Proof.
  unfold toCbn. cbv zeta. unfold N_CONFIGS.
  destruct (negb (isdigit (charAt token 0))
            || (Z.of_nat (String.length token) =? 0)
            || (u8 (toInt token) <? 0) || (u8 (toInt token) >=? 8)
            || (ptr m (u8 (toInt token)) =? 0)) eqn:C; [left; reflexivity|].
  right.
  apply orb_false_elim in C as [C P]. apply orb_false_elim in C as [C G].
  apply orb_false_elim in C as [_ L].
  apply Z.ltb_ge in L. rewrite Z.geb_leb in G. apply Z.leb_gt in G.
  apply Z.eqb_neq in P. repeat split; try lia; assumption.
Qed.

Lemma toCbn_decimal a ds m :
  forallb is_digit (a :: ds) = true ->
  toCbn (string_of_list_ascii (a :: ds)) m
  = let n := number (a :: ds) mod 256 in
    if (n <? 8) && negb (ptr m n =? 0) then n else 8.
Proof.
  intros D. pose proof D as D'.
  cbn [forallb] in D'. apply andb_prop in D' as [Da _].
  unfold toCbn. rewrite (toInt_decimal a ds D), u8_i32.
  cbn [string_of_list_ascii String.length].
  unfold charAt. cbn [String.get]. unfold is_digit in Da. rewrite Da.
  cbv zeta. fold (u8 (number (a :: ds))).
  set (n := u8 (number (a :: ds))).
  assert (R : 0 <= n < 256) by apply u8_range.
  unfold N_CONFIGS. cbn [negb orb].
  replace (Z.of_nat (S (String.length (string_of_list_ascii ds))) =? 0)
    with false by (symmetry; apply Z.eqb_neq; lia).
  replace (n <? 0) with false by (symmetry; apply Z.ltb_ge; lia).
  rewrite Z.geb_leb, Z.leb_antisym. cbn [orb].
  destruct (n <? 8); cbn [negb orb andb]; [|reflexivity].
  destruct (ptr m n =? 0); reflexivity.
Qed.

Lemma onUse_cases line m :
  onUse line m = m
  \/ exists combo cbn,
       0 <= combo < 7 /\ 0 <= cbn < 8 /\ ptr m cbn <> 0
       /\ combo = i8 (toInt (getWord line 1))
       /\ cbn = u8 (toInt (getWord line 2))
       /\ setConfig combo cbn m = (true, onUse line m).
Proof.
  unfold onUse. cbv zeta.
  set (combo := i8 (toInt (getWord line 1))).
  destruct (toCbn_cases (getWord line 2) m) as [E | (R & P & E)].
  - left. rewrite E. unfold N_CONFIGS. change (8 =? 8) with true.
    rewrite !orb_true_r. reflexivity.
  - set (cbn := toCbn (getWord line 2) m) in *.
    destruct ((combo <? 0) || (u8 combo >=? N_COMBOS) || (cbn =? N_CONFIGS))
      eqn:C; [left; reflexivity|].
    right. exists combo, cbn.
    apply orb_false_elim in C as [C _]. apply orb_false_elim in C as [L G].
    apply Z.ltb_ge in L. pose proof (i8_range (toInt (getWord line 1))) as I.
    fold combo in I. rewrite u8_small in G by lia.
    rewrite Z.geb_leb in G. apply Z.leb_gt in G. unfold N_COMBOS in G.
    split; [lia|]. split; [exact R|]. split; [exact P|].
    split; [reflexivity|]. split; [exact E|].
    unfold setConfig.
    rewrite (geb_lt cbn), (geb_lt combo) by (unfold N_CONFIGS, N_COMBOS; lia).
    replace (ptr m cbn =? 0) with false by (symmetry; now apply Z.eqb_neq).
    reflexivity.
Qed.

Lemma onUse_decimal cmd c cs n ns m :
  forallb is_digit (c :: cs) = true -> forallb is_digit (n :: ns) = true ->
  0 <= number (c :: cs) < 7 -> 0 <= number (n :: ns) < 8 ->
  ptr m (number (n :: ns)) <> 0 ->
  setConfig (number (c :: cs)) (number (n :: ns)) m
  = (true, onUse [cmd; string_of_list_ascii (c :: cs);
                  string_of_list_ascii (n :: ns)] m).
Proof.
  intros Dc Dn Rc Rn P.
  unfold onUse. cbv zeta.
  change (getWord [cmd; string_of_list_ascii (c :: cs);
                   string_of_list_ascii (n :: ns)] 1)
    with (string_of_list_ascii (c :: cs)).
  change (getWord [cmd; string_of_list_ascii (c :: cs);
                   string_of_list_ascii (n :: ns)] 2)
    with (string_of_list_ascii (n :: ns)).
  rewrite (toCbn_decimal n ns m Dn), (toInt_decimal c cs Dc), i8_i32.
  cbv zeta. rewrite (Z.mod_small (number (n :: ns)) 256) by lia.
  rewrite (i8_small (number (c :: cs))) by lia.
  replace (number (n :: ns) <? 8) with true by (symmetry; apply Z.ltb_lt; lia).
  replace (ptr m (number (n :: ns)) =? 0) with false
    by (symmetry; now apply Z.eqb_neq).
  cbn [negb andb].
  rewrite u8_small by lia. unfold N_COMBOS, N_CONFIGS.
  replace (number (c :: cs) <? 0) with false by (symmetry; apply Z.ltb_ge; lia).
  rewrite (geb_lt (number (c :: cs)) 7) by lia.
  replace (number (n :: ns) =? 8) with false by (symmetry; apply Z.eqb_neq; lia).
  cbn [orb]. unfold setConfig.
  rewrite (geb_lt (number (n :: ns))), (geb_lt (number (c :: cs)))
    by (unfold N_CONFIGS, N_COMBOS; lia).
  replace (ptr m (number (n :: ns)) =? 0) with false
    by (symmetry; now apply Z.eqb_neq).
  reflexivity.
Qed.

Lemma onRemove_cases line m :
  onRemove line m = m
  \/ exists n,
       1 <= n < 8 /\ ptr m n <> 0 /\ n = u8 (toInt (getWord line 1))
       /\ removeConfig n m = (true, onRemove line m).
Proof.
  unfold onRemove.
  destruct (toCbn_cases (getWord line 1) m) as [E | (R & P & E)].
  - left. rewrite E. reflexivity.
  - set (n := toCbn (getWord line 1) m) in *.
    destruct (Z.eq_dec n 0) as [N0|N0].
    + left. rewrite N0. reflexivity.
    + right. exists n. split; [lia|]. split; [exact P|]. split; [exact E|].
      unfold removeConfig.
      replace (n <? 1) with false by (symmetry; apply Z.ltb_ge; lia).
      rewrite (geb_lt n) by (unfold N_CONFIGS; lia).
      replace (ptr m n =? 0) with false by (symmetry; now apply Z.eqb_neq).
      reflexivity.
Qed.

(** A word that does not begin with a digit names no block. *)
Lemma toCbn_no_digit token m :
  isdigit (charAt token 0) = false -> toCbn token m = 8.
Proof. intros D. unfold toCbn. rewrite D. reflexivity. Qed.

Lemma onRemove_no_digit line m :
  isdigit (charAt (getWord line 1) 0) = false -> onRemove line m = m.
Proof.
  intros D. unfold onRemove. rewrite (toCbn_no_digit _ m D). reflexivity.
Qed.

Lemma onRemove_decimal cmd a ds m :
  forallb is_digit (a :: ds) = true ->
  let n := number (a :: ds) mod 256 in
  let line := [cmd; string_of_list_ascii (a :: ds)] in
  (n = 0 \/ 8 <= n \/ ptr m n = 0 -> onRemove line m = m) /\
  (1 <= n < 8 -> ptr m n <> 0 ->
   removeConfig n m = (true, onRemove line m) /\
   (store_ok m = true -> n <= 6 ->
    nConfigs (onRemove line m) = nConfigs m - 1)).
Proof.
  intros D n line. unfold onRemove.
  change (getWord line 1) with (string_of_list_ascii (a :: ds)).
  rewrite (toCbn_decimal a ds m D). cbv zeta. fold n.
  split.
  - intros [Z0 | [G | P]].
    + rewrite Z0. destruct ((0 <? 8) && negb (ptr m 0 =? 0)); reflexivity.
    + replace (n <? 8) with false by (symmetry; apply Z.ltb_ge; lia).
      reflexivity.
    + rewrite P. change (0 =? 0) with true. rewrite andb_false_r.
      reflexivity.
  - intros R P.
    replace (n <? 8) with true by (symmetry; apply Z.ltb_lt; lia).
    replace (ptr m n =? 0) with false by (symmetry; now apply Z.eqb_neq).
    cbn [negb andb].
    assert (E : removeConfig n m = (true, snd (removeConfig n m))).
    { unfold removeConfig.
      replace (n <? 1) with false by (symmetry; apply Z.ltb_ge; lia).
      rewrite (geb_lt n) by (unfold N_CONFIGS; lia).
      replace (ptr m n =? 0) with false by (symmetry; now apply Z.eqb_neq).
      reflexivity. }
    split; [exact E|].
    intros S N6.
    exact (proj1 (removeConfig_table m n S ltac:(lia) P)).
Qed.

(** A word made of decimal digits names the block whose number is its
    value modulo 256, when that is below 8 and the slot is used; any other
    value gives 8, the answer for no block. *)
Theorem toCbn_reads_decimal (a : ascii) (ds : list ascii) (m : machine) :
  forallb is_digit (a :: ds) = true ->
  toCbn (string_of_list_ascii (a :: ds)) m
  = let n := number (a :: ds) mod 256 in
    if (n <? 8) && negb (ptr m n =? 0) then n else 8.
Proof. exact (toCbn_decimal a ds m). Qed.

Lemma toCbn_reads_decimal_witness :
  toCbn "258" store3
  = let n := number ["2"; "5"; "8"]%char mod 256 in
    if (n <? 8) && negb (ptr store3 n =? 0) then n else 8.
Proof.
  apply (toCbn_reads_decimal "2" ["5"; "8"]%char store3). reflexivity.
Defined.

(** [onUse] leaves the store alone or does what a successful [setConfig]
    does, for a combo between 0 and 6 (the first word as an [int8_t]) and a
    used block (the second word as a [uint8_t]); words that are the
    decimal texts of such a combo and such a block are accepted. *)
Theorem onUse_is_setConfig (m : machine) :
  (forall line,
     onUse line m = m
     \/ exists combo cbn,
          0 <= combo < 7 /\ 0 <= cbn < 8 /\ ptr m cbn <> 0
          /\ combo = i8 (toInt (getWord line 1))
          /\ cbn = u8 (toInt (getWord line 2))
          /\ setConfig combo cbn m = (true, onUse line m))
  /\ (forall cmd c cs n ns,
        forallb is_digit (c :: cs) = true ->
        forallb is_digit (n :: ns) = true ->
        0 <= number (c :: cs) < 7 -> 0 <= number (n :: ns) < 8 ->
        ptr m (number (n :: ns)) <> 0 ->
        setConfig (number (c :: cs)) (number (n :: ns)) m
        = (true, onUse [cmd; string_of_list_ascii (c :: cs);
                        string_of_list_ascii (n :: ns)] m)).
Proof.
  split.
  - intros line. exact (onUse_cases line m).
  - intros cmd c cs n ns. exact (onUse_decimal cmd c cs n ns m).
Qed.

Lemma onUse_is_setConfig_witness :
  setConfig (number ["4"]%char) (number ["2"]%char) store3
  = (true, onUse ["use"; "4"; "2"]%string store3).
Proof.
  apply (proj2 (onUse_is_setConfig store3) "use"%string "4"%char []
               "2"%char []); vm_compute;
    first [congruence | split; congruence].
Defined.

(** [onRemove] leaves the store alone or does what a successful
    [removeConfig] does, for a used block between 1 and 7 (the word as a
    [uint8_t]).  A word that does not begin with a digit removes nothing.
    A word of decimal digits stands for its value modulo 256: nothing is
    removed when that is 0, above 7 or an unused slot, and otherwise the
    block of that number is removed, which, up to block 6 of a store that
    keeps the layout, leaves one block less. *)
Theorem onRemove_is_removeConfig (m : machine) :
  (forall line,
     onRemove line m = m
     \/ exists n,
          1 <= n < 8 /\ ptr m n <> 0 /\ n = u8 (toInt (getWord line 1))
          /\ removeConfig n m = (true, onRemove line m))
  /\ (forall line,
        isdigit (charAt (getWord line 1) 0) = false -> onRemove line m = m)
  /\ (forall cmd a ds,
        forallb is_digit (a :: ds) = true ->
        let n := number (a :: ds) mod 256 in
        let line := [cmd; string_of_list_ascii (a :: ds)] in
        (n = 0 \/ 8 <= n \/ ptr m n = 0 -> onRemove line m = m) /\
        (1 <= n < 8 -> ptr m n <> 0 ->
         removeConfig n m = (true, onRemove line m) /\
         (store_ok m = true -> n <= 6 ->
          nConfigs (onRemove line m) = nConfigs m - 1))).
Proof.
  split; [|split].
  - intros line. exact (onRemove_cases line m).
  - intros line. exact (onRemove_no_digit line m).
  - intros cmd a ds. exact (onRemove_decimal cmd a ds m).
Qed.

Lemma onRemove_is_removeConfig_witness :
  removeConfig 2 store3 = (true, onRemove ["remove"; "2"]%string store3) /\
  nConfigs (onRemove ["remove"; "2"]%string store3) = nConfigs store3 - 1 /\
  onRemove ["remove"; "-254"]%string store3 = store3 /\
  onRemove ["remove"; "0"]%string store3 = store3 /\
  onRemove ["remove"; "9"]%string store3 = store3.
Proof.
  destruct (onRemove_is_removeConfig store3) as (_ & No & Dec).
  destruct (Dec "remove"%string "2"%char [] eq_refl) as (_ & Yes).
  destruct Yes as (R & N); [vm_compute; split; congruence
                           | vm_compute; congruence |].
  split; [exact R|]. split; [apply N; [reflexivity | vm_compute; congruence]|].
  split; [apply No; reflexivity|].
  split.
  - apply (proj1 (Dec "remove"%string "0"%char [] eq_refl)).
    left. reflexivity.
  - apply (proj1 (Dec "remove"%string "9"%char [] eq_refl)).
    right. left. vm_compute. congruence.
Defined.

End CommandFacts.


(* ================================================================== *)
(** ** A request that is accepted, in the store *)
(* ================================================================== *)

Section RequestFacts.
Import Store Codec Console Grammar Layout.

Lemma parseK_range s : 0 <= parseK s < 65536.
Proof.
  destruct (parseK_shape s) as (m & v & V & ->).
  destruct (modifiers_shape 0 m v) as (_ & _ & _ & R);
    [cbn [In]; tauto | exact V |].
  cbv zeta in R. rewrite Z.lor_0_l in R. exact R.
Qed.

Lemma parseW_range s : 0 <= parseW s < 65536.
Proof.
  destruct (parseW_shape s) as [-> | (m & v & V & ->)]; [lia|].
  destruct (modifiers_shape CE_TYPE_MASK m v) as (_ & _ & _ & R);
    [cbn [In]; tauto | exact V |].
  exact R.
Qed.

Lemma parseC_range s : 0 <= parseC s < 65536.
Proof.
  destruct (parseC_shape s) as [-> | (m & b & ->)]; [lia|].
  destruct (modifiers_shape (SET_ME_TYPE CE_TYPE_MASK ME_TYPE_CLICK) m
              (click_bits b)) as (_ & _ & _ & R);
    [cbn [In]; tauto | apply click_bits_range |].
  exact R.
Qed.

Lemma parseM_range s : 0 <= parseM s < 4294967296.
Proof.
  unfold parseM, move_value.
  destruct (scan_move _ _ _ _ _) as [[[a0 a1] sp] nc].
  destruct (amount sp nc) as [[[bad v] sp'] nc'].
  destruct bad; [lia|].
  destruct (amount sp' nc') as [[[bad' v'] sp''] nc''].
  destruct bad'; [lia|].
  unfold u32. apply Z.mod_pos_bound. lia.
Qed.

Lemma parseM_parts s :
  0 <= Z.shiftr (parseM s) 16 < 65536
  /\ 0 <= Z.land (parseM s) 0xFFFF < 65536.
Proof.
  pose proof (parseM_range s) as R. split.
  - rewrite Z.shiftr_div_pow2 by lia. change (2 ^ 16) with 65536.
    split; [apply Z.div_pos; lia|].
    apply Z.div_lt_upper_bound; lia.
  - change 0xFFFF with (Z.ones 16). rewrite Z.land_ones by lia.
    change (2 ^ 16) with 65536. apply Z.mod_pos_bound. lia.
Qed.

Lemma parse_single_range st s e :
  0 <= e < 65536 -> 0 <= parse_single st s e < 65536.
Proof.
  intros E. unfold parse_single.
  destruct ((st =? chr "K") || (st =? chr "k")); [apply parseK_range|].
  destruct ((st =? chr "W") || (st =? chr "w")); [apply parseW_range|].
  destruct ((st =? chr "C") || (st =? chr "c")); [apply parseC_range|].
  exact E.
Qed.

Lemma forallb_upd_pairs (l : list (Z * Z)) : forall n p,
  pair_ok p = true -> forallb pair_ok l = true ->
  forallb pair_ok (upd l n p) = true.
Proof.
  induction l as [|x l IH]; intros [|n] p P F; cbn [upd forallb] in *;
    try reflexivity.
  - apply andb_prop in F as [_ F]. now rewrite P, F.
  - apply andb_prop in F as [X F]. rewrite X. cbn [andb]. now apply IH.
Qed.

Lemma pair_ok_aget (l : list (Z * Z)) i :
  forallb pair_ok l = true -> pair_ok (aget (0, 0) l i) = true.
Proof.
  intros F. unfold aget.
  destruct (nth_in_or_default (Z.to_nat i) l (0, 0)) as [I | ->];
    [|reflexivity].
  rewrite forallb_forall in F. now apply F.
Qed.

Lemma set_entry_ok cb n dir v :
  cells_ok cb -> 0 <= v < 65536 -> cells_ok (set_entry cb n dir v).
Proof.
  intros [L F] V. split; [rewrite set_entry_length; exact L|].
  unfold set_entry. cbn [entry]. unfold aset.
  destruct (n <? 0); [exact F|].
  apply forallb_upd_pairs; [|exact F].
  pose proof (pair_ok_aget (entry cb) n F) as P.
  apply pair_ok_true in P. apply pair_ok_true.
  destruct (dir =? 0); cbn [fst snd]; lia.
Qed.

Lemma round_ok line eNum cb bad cb' :
  onNew_round line eNum cb = Some (bad, cb') -> cells_ok cb -> cells_ok cb'.
Proof.
  unfold onNew_round. intros H Ok.
  pose proof (parseM_parts (remove1 (getWord line (1 + 2 * eNum))))
    as [X0 Y0].
  pose proof (parseM_parts (getWord line (2 + 2 * eNum))) as [X1 Y1].
  pose proof (parse_single_range
                (u8 (charAt (getWord line (1 + 2 * eNum)) 0))
                (remove1 (getWord line (1 + 2 * eNum))) 0 ltac:(lia)) as E0.
  pose proof (parse_single_range
                (u8 (charAt (getWord line (1 + 2 * eNum)) 0))
                (getWord line (2 + 2 * eNum)) _ E0) as E1.
  set (w0 := getWord line (1 + 2 * eNum)) in *.
  set (w1 := getWord line (2 + 2 * eNum)) in *.
  set (d0 := parseM (remove1 w0)) in *. set (d1 := parseM w1) in *.
  set (st := u8 (charAt w0 0)) in *.
  set (e0 := parse_single st (remove1 w0) 0) in *.
  set (e1 := parse_single st w1 e0) in *.
  clearbody e1 e0 st d1 d0 w1 w0.
  destruct (Z.of_nat (String.length w0) =? 0); [discriminate H|].
  destruct ((st =? chr "M") || (st =? chr "m")).
  - injection H as _ Hcb. subst cb'.
    set (c1 := if d0 =? 0 then cb
               else set_entry (set_entry cb (nEntries cb) 0 (Z.shiftr d0 16))
                              (nEntries cb + 1) 0 (Z.land d0 65535)).
    assert (Ok1 : cells_ok c1)
      by (unfold c1; destruct (d0 =? 0);
          [exact Ok | apply set_entry_ok; [apply set_entry_ok|]; assumption]).
    assert (N1 : nEntries c1 = nEntries cb)
      by (unfold c1; destruct (d0 =? 0); reflexivity).
    set (c2 := if d1 =? 0 then c1
               else set_entry (set_entry c1 (nEntries c1) 1 (Z.shiftr d1 16))
                              (nEntries c1 + 1) 1 (Z.land d1 65535)).
    assert (Ok2 : cells_ok c2)
      by (unfold c2; destruct (d1 =? 0);
          [exact Ok1 | apply set_entry_ok; [apply set_entry_ok|]; assumption]).
    match goal with |- cells_ok (if ?b then _ else _) => destruct b end;
      exact Ok2.
  - injection H as _ Hcb. subst cb'.
    set (c1 := if e0 =? 0 then cb else set_entry cb (nEntries cb) 0 e0).
    assert (Ok1 : cells_ok c1)
      by (unfold c1; destruct (e0 =? 0);
          [exact Ok | apply set_entry_ok; assumption]).
    set (c2 := if e1 =? 0 then c1 else set_entry c1 (nEntries c1) 1 e1).
    assert (Ok2 : cells_ok c2)
      by (unfold c2; destruct (e1 =? 0);
          [exact Ok1 | apply set_entry_ok; assumption]).
    match goal with |- cells_ok (if ?b then _ else _) => destruct b end;
      exact Ok2.
Qed.

Lemma loop_ok line : forall fuel eNum cb,
  cells_ok cb -> cells_ok (snd (onNew_loop fuel line eNum cb)).
Proof.
  induction fuel as [|f IH]; intros eNum cb Ok; [exact Ok|].
  cbn [onNew_loop].
  destruct (nEntries cb <? MAX_ENTRIES); [|exact Ok].
  destruct (onNew_round line eNum cb) as [[bad cb']|] eqn:Rd; [|exact Ok].
  pose proof (round_ok _ _ _ _ _ Rd Ok) as Ok'.
  destruct bad; [exact Ok' | apply IH; exact Ok'].
Qed.

Lemma gather_block_ok line cells :
  List.length cells = 32%nat -> forallb pair_ok cells = true ->
  fst (gather line cells) = false ->
  block_ok (snd (gather line cells)) = true.
Proof.
  intros L F H.
  assert (B : 0 <= nEntries (snd (gather line cells)) <= MAX_ENTRIES)
    by (apply loop_bound; [cbn [nEntries]; unfold MAX_ENTRIES; lia | exact H]).
  destruct (loop_ok line 33 0 (mkConfig 0 cells)) as [L' F'];
    [split; assumption|].
  fold (gather line cells) in L', F'.
  unfold MAX_ENTRIES in B. unfold block_ok. rewrite F', L'.
  rewrite !andb_true_r. apply andb_true_intro. split.
  - apply andb_true_intro. split; apply Z.leb_le; lia.
  - apply Z.leb_le. change (Z.of_nat 32) with 32. lia.
Qed.

Lemma onNew_stores line cells m :
  List.length cells = 32%nat -> forallb pair_ok cells = true ->
  store_ok m = true -> stored_count m 0 = 1 -> nConfigs m < 8 ->
  fst (gather line cells) = false ->
  1 <= nEntries (snd (gather line cells)) ->
  let cb := snd (gather line cells) in
  let m' := onNew line cells m in
  nConfigs m' = nConfigs m + 1 /\
  stored_count m' (nConfigs m) = nEntries cb /\
  stored_entries m' (nConfigs m) = firstn (Z.to_nat (nEntries cb)) (entry cb)
  /\ (forall i, 0 <= i < nConfigs m -> same_block m m' i) /\
  store_ok m' = true /\ stored_count m' 0 = 1.
Proof.
  intros L F S C0 K H N. cbv zeta.
  pose proof (gather_block_ok line cells L F H) as B.
  unfold onNew. destruct (gather line cells) as [bad cb].
  cbn [fst snd] in *. subst bad.
  pose proof (factory_block_room m cb S C0 B K) as R.
  assert (R' : store_end m + sizeof_nEntries + nEntries cb * sizeof_entry
               <= 1024) by lia.
  destruct (addConfig_appends m cb S B K R')
    as (_ & K' & _ & Ck & Ce & Same & _ & _ & _ & OK).
  destruct (store_shape m S) as (K1 & _).
  destruct (Same 0 ltac:(lia)) as (_ & C0' & _).
  split; [exact K'|]. split; [exact Ck|]. split; [exact Ce|].
  split; [exact Same|]. split; [exact (OK N)|]. rewrite C0'. exact C0.
Qed.

(** A request that [onNew] accepts with at least one entry, on a store
    that keeps the layout, has the one-entry block 0 and a free slot, ends
    up in the first free slot with the count and the entry pairs gathered;
    the earlier blocks stay, and the store keeps the layout and its block
    0. *)
Theorem onNew_stores_block (line : list string) (cells : list (Z * Z))
  (m : machine) :
  List.length cells = 32%nat -> forallb pair_ok cells = true ->
  store_ok m = true -> stored_count m 0 = 1 -> nConfigs m < 8 ->
  fst (gather line cells) = false ->
  1 <= nEntries (snd (gather line cells)) ->
  let cb := snd (gather line cells) in
  let m' := onNew line cells m in
  nConfigs m' = nConfigs m + 1 /\
  stored_count m' (nConfigs m) = nEntries cb /\
  stored_entries m' (nConfigs m) = firstn (Z.to_nat (nEntries cb)) (entry cb)
  /\ (forall i, 0 <= i < nConfigs m -> same_block m m' i) /\
  store_ok m' = true /\ stored_count m' 0 = 1.
Proof. exact (onNew_stores line cells m). Qed.

Lemma onNew_stores_block_witness :
  let line := ["new"; "kc'a"; "'b"; "w+3"; "-3"]%string in
  let cells := repeat (0, 0) 32 in
  let cb := snd (gather line cells) in
  let m' := onNew line cells factory in
  nConfigs m' = nConfigs factory + 1 /\
  stored_count m' (nConfigs factory) = nEntries cb /\
  stored_entries m' (nConfigs factory)
  = firstn (Z.to_nat (nEntries cb)) (entry cb)
  /\ (forall i, 0 <= i < nConfigs factory -> same_block factory m' i) /\
  store_ok m' = true /\ stored_count m' 0 = 1.
Proof.
  apply (onNew_stores_block ["new"; "kc'a"; "'b"; "w+3"; "-3"]%string
           (repeat (0, 0) 32) factory); vm_compute;
    first [congruence | split; congruence].
Defined.

End RequestFacts.


(* ================================================================== *)
(** ** Playing a movement *)
(* ================================================================== *)

Section JogFacts.
Import Decoder Store Codec Console Grammar Layout Commands Jog.

Ltac run_bytes :=
  match goal with
  | |- forall v, 0 <= v < 256 -> @?P v = true =>
    apply (bytes_forall P); vm_compute; reflexivity
  end.

(** *** The calls for a code *)

Lemma code_tests base m v :
  In base [0; CE_TYPE_MASK; SET_ME_TYPE CE_TYPE_MASK ME_TYPE_Y;
           SET_ME_TYPE CE_TYPE_MASK ME_TYPE_CLICK] ->
  0 <= v < 256 ->
  let e := Z.lor (Z.lor base (modifier_bits m)) v in
  (negb (Z.land e KB_CTRL_MASK =? 0), negb (Z.land e KB_ALT_MASK =? 0),
   negb (Z.land e KB_SHIFT_MASK =? 0), negb (Z.land e KB_GUI_MASK =? 0)) = m.
Proof.
  intros Hb Hv.
  assert (E : (fun v =>
    let e := Z.lor (Z.lor base (modifier_bits m)) v in
    let '(c, al, s, g) := m in
    Bool.eqb (negb (Z.land e KB_CTRL_MASK =? 0)) c
    && Bool.eqb (negb (Z.land e KB_ALT_MASK =? 0)) al
    && Bool.eqb (negb (Z.land e KB_SHIFT_MASK =? 0)) s
    && Bool.eqb (negb (Z.land e KB_GUI_MASK =? 0)) g) v = true).
  { revert v Hv. cbn [In] in Hb.
    destruct Hb as [<-|[<-|[<-|[<-|[]]]]];
    destruct m as [[[[] []] []] []]; run_bytes. }
  cbv beta zeta in E. destruct m as [[[c al] s] g].
  apply andb_prop in E as [E E4]. apply andb_prop in E as [E E3].
  apply andb_prop in E as [E1 E2].
  apply eqb_prop in E1, E2, E3, E4. cbv zeta.
  rewrite E1, E2, E3, E4. reflexivity.
Qed.

Lemma code_modifiers base m v :
  In base [0; CE_TYPE_MASK; SET_ME_TYPE CE_TYPE_MASK ME_TYPE_Y;
           SET_ME_TYPE CE_TYPE_MASK ME_TYPE_CLICK] ->
  0 <= v < 256 ->
  let e := Z.lor (Z.lor base (modifier_bits m)) v in
  key_modifiers e = modifier_presses m
  /\ mouse_modifiers e = modifier_presses m.
Proof.
  intros Hb Hv. pose proof (code_tests base m v Hb Hv) as T.
  cbv zeta in *. set (e := Z.lor (Z.lor base (modifier_bits m)) v) in *.
  clearbody e. destruct m as [[[c al] s] g].
  injection T as T1 T2 T3 T4.
  unfold key_modifiers, mouse_modifiers, press_if, modifier_presses.
  change ME_CTRL_MASK with KB_CTRL_MASK. change ME_ALT_MASK with KB_ALT_MASK.
  change ME_SHIFT_MASK with KB_SHIFT_MASK. change ME_GUI_MASK with KB_GUI_MASK.
  rewrite T1, T2, T3, T4. split; reflexivity.
Qed.

Lemma held_buttons b v :
  0 <= v < 256 ->
  held_mask
    (Z.lor (Z.lor (SET_ME_TYPE CE_TYPE_MASK ME_TYPE_X) (held_bits b)) v)
  = button_mask b.
Proof.
  intros Hv.
  assert (E : (fun v =>
    held_mask
      (Z.lor (Z.lor (SET_ME_TYPE CE_TYPE_MASK ME_TYPE_X) (held_bits b)) v)
    =? button_mask b) v = true).
  { revert v Hv. destruct b as [[[] []] []]; run_bytes. }
  cbv beta in E. now apply Z.eqb_eq in E.
Qed.

Lemma clicked_buttons m b :
  click_mask
    (Z.lor (Z.lor (SET_ME_TYPE CE_TYPE_MASK ME_TYPE_CLICK) (modifier_bits m))
           (click_bits b))
  = button_mask b.
Proof.
  destruct m as [[[[] []] []] []]; destruct b as [[[] []] []];
    vm_compute; reflexivity.
Qed.

Lemma play_entry_key m v b :
  0 <= v < 256 ->
  play_entry (Z.lor (modifier_bits m) v) b
  = perform (mkAction (chr "k") m no_buttons [v]).
Proof.
  intros Hv. rewrite <- (Z.lor_0_l (modifier_bits m)).
  destruct (modifiers_shape 0 m v) as (E1 & _ & E3 & _);
    [cbn [In]; tauto | exact Hv |].
  destruct (code_modifiers 0 m v) as (K & _);
    [cbn [In]; tauto | exact Hv |].
  cbv zeta in *. unfold play_entry. cbv zeta. rewrite E1.
  change (eType 0 =? chr "k") with true. cbv iota.
  unfold play_key. change KB_VALUE_MASK with ME_VALUE_MASK.
  rewrite K, E3. reflexivity.
Qed.

Lemma play_entry_wheel m v b :
  0 <= v < 256 ->
  play_entry (Z.lor (Z.lor CE_TYPE_MASK (modifier_bits m)) v) b
  = perform (mkAction (chr "w") m no_buttons [i8 v]).
Proof.
  intros Hv.
  destruct (modifiers_shape CE_TYPE_MASK m v) as (E1 & _ & E3 & _);
    [cbn [In]; tauto | exact Hv |].
  destruct (code_modifiers CE_TYPE_MASK m v) as (_ & K);
    [cbn [In]; tauto | exact Hv |].
  cbv zeta in *. unfold play_entry. cbv zeta. rewrite E1.
  change (eType CE_TYPE_MASK) with (chr "w").
  change (chr "w" =? chr "k") with false.
  change (chr "w" =? chr "m") with false.
  change (chr "w" =? chr "w") with true. cbv iota.
  unfold play_wheel. rewrite K, E3. reflexivity.
Qed.

Lemma play_entry_click m b b' :
  play_entry (Z.lor (Z.lor (SET_ME_TYPE CE_TYPE_MASK ME_TYPE_CLICK)
                           (modifier_bits m)) (click_bits b)) b'
  = perform (mkAction (chr "c") m b []).
Proof.
  pose proof (click_bits_range b) as Hv.
  destruct (modifiers_shape (SET_ME_TYPE CE_TYPE_MASK ME_TYPE_CLICK) m
              (click_bits b)) as (E1 & _);
    [cbn [In]; tauto | exact Hv |].
  destruct (code_modifiers (SET_ME_TYPE CE_TYPE_MASK ME_TYPE_CLICK) m
              (click_bits b)) as (_ & K);
    [cbn [In]; tauto | exact Hv |].
  cbv zeta in *. unfold play_entry. cbv zeta. rewrite E1.
  change (eType (SET_ME_TYPE CE_TYPE_MASK ME_TYPE_CLICK)) with (chr "c").
  change (chr "c" =? chr "k") with false.
  change (chr "c" =? chr "m") with false.
  change (chr "c" =? chr "w") with false. cbv iota.
  unfold play_click. rewrite K, clicked_buttons. reflexivity.
Qed.

Lemma play_entry_move m b vx vy :
  0 <= vx < 256 -> 0 <= vy < 256 ->
  play_entry
    (Z.lor (Z.lor (SET_ME_TYPE CE_TYPE_MASK ME_TYPE_X) (held_bits b)) vx)
    (Z.lor (Z.lor (SET_ME_TYPE CE_TYPE_MASK ME_TYPE_Y) (modifier_bits m)) vy)
  = perform (mkAction (chr "m") m b [i8 vx; i8 vy]).
Proof.
  intros Hx Hy.
  destruct (held_shape b vx Hx) as (X1 & _ & X3 & _).
  destruct (modifiers_shape (SET_ME_TYPE CE_TYPE_MASK ME_TYPE_Y) m vy)
    as (_ & _ & Y3 & _); [cbn [In]; tauto | exact Hy |].
  destruct (code_modifiers (SET_ME_TYPE CE_TYPE_MASK ME_TYPE_Y) m vy)
    as (_ & K); [cbn [In]; tauto | exact Hy |].
  cbv zeta in *. unfold play_entry. cbv zeta. rewrite X1.
  change (chr "m" =? chr "k") with false.
  change (chr "m" =? chr "m") with true. cbv iota.
  unfold play_move. rewrite K, X3, Y3, (held_buttons b vx Hx). reflexivity.
Qed.

(** *** From the text of a spec to the calls *)

Lemma plays_spelled d :
  valid_within 255 false d = true ->
  exists act,
    spelled d = Some act /\ played d = perform (as_held (is_quoted d) act).
Proof.
  destruct d as [lt fs [c|x h l|sg ds|sx dx sy dy|bs]];
  unfold valid_within, played, text;
  cbn [what letter flags is_quoted body_text]; intro V.
  - apply andb_prop in V. destruct V as [V Hc].
    apply andb_prop in V. destruct V as [Hlt Hfs].
    destruct (round_trip_quoted lt fs c Hlt Hfs Hc) as [S _].
    eexists. split; [exact S|].
    rewrite (codes_k lt _ Hlt). cbn [fst snd].
    rewrite (parseK_quoted fs c Hfs Hc).
    apply play_entry_key, printable_range, Hc.
  - apply andb_prop in V. destruct V as [V HF]. cbn [orb] in HF.
    apply negb_true_iff in HF.
    apply andb_prop in V. destruct V as [V Hl].
    apply andb_prop in V. destruct V as [V Hh].
    apply andb_prop in V. destruct V as [V Hx].
    apply andb_prop in V. destruct V as [Hlt Hfs].
    destruct (round_trip_hex lt fs x h l Hlt Hfs Hx Hh Hl HF) as [S _].
    eexists. split; [exact S|].
    rewrite (codes_k lt _ Hlt). cbn [fst snd].
    rewrite (parseK_hex fs x h l Hfs Hx Hh Hl), HF.
    pose proof (hex_value_range h Hh). pose proof (hex_value_range l Hl).
    apply play_entry_key. lia.
  - apply andb_prop in V. destruct V as [V Hds].
    apply andb_prop in V. destruct V as [Hlt Hfs].
    destruct (round_trip_amount lt fs sg ds 255 Hlt Hfs Hds) as [S _].
    eexists. split; [exact S|].
    rewrite (codes_w lt _ Hlt). cbn [fst snd].
    rewrite (parseW_text fs sg ds 255 Hfs Hds).
    rewrite play_entry_wheel by apply u8_range. rewrite i8_u8. reflexivity.
  - apply andb_prop in V. destruct V as [V Hy].
    apply andb_prop in V. destruct V as [V Hx].
    apply andb_prop in V. destruct V as [Hlt Hfs].
    destruct (round_trip_amounts lt fs sx dx sy dy 255 255 Hlt Hfs Hx Hy)
      as [S _].
    eexists. split; [exact S|].
    rewrite (codes_m lt _ Hlt). cbn [fst snd].
    rewrite (parseM_text fs sx dx sy dy 255 255 Hfs Hx Hy).
    pose proof (u8_range (signed sx (number dx))) as Rx.
    pose proof (u8_range (signed sy (number dy))) as Ry.
    destruct (held_shape (buttons_of fs) _ Rx) as (_ & _ & _ & Bx).
    destruct (modifiers_shape (SET_ME_TYPE CE_TYPE_MASK ME_TYPE_Y)
                (modifiers_of fs) _ (or_intror (or_intror (or_introl eq_refl)))
                Ry) as (_ & _ & _ & By).
    cbv zeta in Bx, By.
    destruct (halves _ _ Bx By) as [E1 E2]. rewrite E1, E2.
    rewrite (play_entry_move _ _ _ _ Rx Ry), !i8_u8. reflexivity.
  - apply andb_prop in V. destruct V as [V Hbs].
    apply andb_prop in V. destruct V as [V Hw3]. apply Z.leb_le in Hw3.
    apply andb_prop in V. destruct V as [V Hw1]. apply Z.leb_le in Hw1.
    apply andb_prop in V. destruct V as [Hlt Hfs].
    unfold width in Hw1, Hw3.
    destruct bs as [|b0 bs]; [cbn [List.length] in Hw1; lia|].
    cbn [List.length] in Hw3.
    destruct (round_trip_clicked lt fs b0 bs Hlt Hfs Hbs) as [S _]; [lia|].
    eexists. split; [exact S|].
    rewrite (codes_c lt _ Hlt). cbn [fst snd].
    rewrite (parseC_text fs b0 bs Hfs Hbs) by lia.
    apply play_entry_click.
Qed.



(** *** The loop over the entries *)

Lemma eType_cases a :
  eType a = chr "k" \/ eType a = chr "m" \/ eType a = chr "w"
  \/ eType a = chr "c".
Proof.
  unfold eType.
  destruct (Z.land a CE_TYPE_MASK =? 0); [tauto|]. cbv zeta.
  destruct (u8 (ME_TYPE a) =? ME_TYPE_CLICK); [tauto|].
  destruct (u8 (ME_TYPE a) =? ME_TYPE_WHEEL); tauto.
Qed.

Lemma play_step f cb dir e :
  e < nEntries cb ->
  play (S f) cb dir e
  = play_entry (cell cb e dir) (cell cb (u8 (e + 1)) dir)
    ++ play f cb dir
         (if eType (cell cb e dir) =? chr "m" then u8 (u8 (e + 1) + 1)
          else u8 (e + 1)).
Proof.
  intros E. cbn [play]. apply Z.ltb_lt in E. rewrite E.
  unfold play_entry. cbv zeta.
  destruct (eType_cases (cell cb e dir)) as [T|[T|[T|T]]]; rewrite T;
    reflexivity.
Qed.

Lemma play_done f cb dir e : nEntries cb <= e -> play f cb dir e = [].
Proof.
  intros E. destruct f as [|f]; [reflexivity|]. cbn [play].
  apply Z.ltb_ge in E. rewrite E. reflexivity.
Qed.

Lemma play_fuel cb dir k : forall f e,
  0 <= e -> nEntries cb <= 254 -> nEntries cb - e <= Z.of_nat f ->
  play (f + k) cb dir e = play f cb dir e.
Proof.
  induction f as [|f IH]; intros e E N F.
  - rewrite !play_done by (cbn in F; lia). reflexivity.
  - destruct (Z_lt_le_dec e (nEntries cb)) as [L|L];
      [|rewrite !play_done by lia; reflexivity].
    change (S f + k)%nat with (S (f + k)).
    rewrite !play_step by exact L. f_equal.
    rewrite (u8_small (e + 1)) by lia.
    rewrite (u8_small (e + 1 + 1)) by lia.
    destruct (eType (cell cb e dir) =? chr "m"); apply IH; lia.
Qed.

(** *** Nothing stays pressed *)

Lemma held_after_app c1 c2 st :
  held_after (c1 ++ c2) st = held_after c2 (held_after c1 st).
Proof. apply fold_left_app. Qed.

Ltac split_tests :=
  unfold key_modifiers, mouse_modifiers, press_if, held_mask, pick;
  repeat match goal with
         | |- context [negb (Z.land ?e ?mask =? 0)] =>
             destruct (negb (Z.land e mask =? 0))
         end.

Lemma key_released a : held_after (play_key a) (false, 0) = (false, 0).
Proof. unfold play_key. split_tests; reflexivity. Qed.

Lemma wheel_released a : held_after (play_wheel a) (false, 0) = (false, 0).
Proof. unfold play_wheel. split_tests; reflexivity. Qed.

Lemma click_released a : held_after (play_click a) (false, 0) = (false, 0).
Proof. unfold play_click. split_tests; reflexivity. Qed.

Lemma move_released a b :
  held_after (play_move a b) (false, 0) = (false, 0).
Proof. unfold play_move. split_tests; reflexivity. Qed.

Lemma play_released cb dir : forall f e,
  held_after (play f cb dir e) (false, 0) = (false, 0).
Proof.
  induction f as [|f IH]; intros e; [reflexivity|].
  cbn [play]. destruct (e <? nEntries cb); [|reflexivity].
  cbv zeta.
  repeat match goal with
         | |- context [if ?t =? ?c then _ else _] => destruct (t =? c)
         end;
    rewrite ?held_after_app,
      ?key_released, ?move_released, ?wheel_released, ?click_released;
    apply IH.
Qed.

Lemma wheel_part_released cells m s :
  held_after (fst (wheel_part cells m s)) (false, 0) = (false, 0).
Proof.
  unfold wheel_part. destruct (movement s); cbn [fst];
    try reflexivity; apply play_released.
Qed.



(** *** The block that a movement plays *)

Lemma header_ok_cur_length h :
  header_ok h = true -> Z.of_nat (List.length (curConfig h)) = 7.
Proof.
  unfold header_ok. intros H.
  apply andb_prop in H as [H _]. apply andb_prop in H as [H _].
  apply andb_prop in H as [H _]. apply andb_prop in H as [_ L].
  apply Z.eqb_eq in L. exact L.
Qed.

Lemma header_ok_set_cur m c n :
  header_ok (header m) = true -> 0 <= n < 256 ->
  header_ok (header (set_curConfig m (aset (curConfig (header m)) c n)))
  = true.
Proof.
  unfold header_ok, set_curConfig.
  cbn [header fingerprint selection curConfig configPtr].
  intros H V.
  apply andb_prop in H as [H P]. apply andb_prop in H as [H LP].
  apply andb_prop in H as [H C]. apply andb_prop in H as [H LC].
  rewrite H, aset_length, LC, LP, P. cbn [andb]. rewrite !andb_true_r.
  apply forallb_aset; [apply is_u8_true; exact V | exact C].
Qed.

Lemma use_then_wheel cmd c cs n ns cells m s :
  store_ok m = true ->
  forallb is_digit (c :: cs) = true -> forallb is_digit (n :: ns) = true ->
  0 <= number (c :: cs) < 7 -> 0 <= number (n :: ns) < 8 ->
  ptr m (number (n :: ns)) <> 0 ->
  selection (header m) = number (c :: cs) ->
  movement s <> none ->
  wheel_part cells
    (onUse [cmd; string_of_list_ascii (c :: cs);
            string_of_list_ascii (n :: ns)] m) s
  = (play 256 (snd (readConfig (number (n :: ns)) (mkConfig 0 cells) m))
          (direction (movement s)) 0,
     with_movement s none).
Proof.
  intros S Dc Dn Rc Rn P Sel M.
  pose proof (onUse_decimal cmd c cs n ns m Dc Dn Rc Rn P) as U.
  set (line := [cmd; string_of_list_ascii (c :: cs);
                string_of_list_ascii (n :: ns)]) in *.
  set (cv := number (c :: cs)) in *. set (nv := number (n :: ns)) in *.
  unfold setConfig in U.
  rewrite (geb_lt nv), (geb_lt cv) in U by (unfold N_CONFIGS, N_COMBOS; lia).
  replace (ptr m nv =? 0) with false in U by (symmetry; now apply Z.eqb_neq).
  cbn [orb] in U. injection U as U. rewrite <- U.
  pose proof (store_ok_header m S) as H.
  pose proof (header_ok_cur_length _ H) as L7.
  pose proof (header_ok_set_cur m cv nv H ltac:(lia)) as H1.
  set (m1 := set_curConfig m (aset (curConfig (header m)) cv nv)) in *.
  assert (Q : selected (writeHeader m1) = nv).
  { unfold selected, writeHeader, m1, set_curConfig.
    cbn [header curConfig selection]. rewrite Sel.
    apply aget_aset_same. lia. }
  destruct (store_shape m S) as (K1 & _ & Z & _ & _ & _ & In & _ & Le & _).
  assert (Kn : nv < nConfigs m).
  { destruct (Z_lt_le_dec nv (nConfigs m)) as [L|L]; [exact L|].
    exfalso. apply P. apply Z. lia. }
  destruct (In nv ltac:(lia)) as [I1 I2].
  assert (F : 0 <= footprint m nv).
  { unfold footprint, sizeof_nEntries, sizeof_entry.
    pose proof (peek_range (rom m) (ptr m nv)). unfold stored_count. lia. }
  assert (RC : readConfig nv (mkConfig 0 cells) (writeHeader m1)
               = readConfig nv (mkConfig 0 cells) m).
  { apply readConfig_ext;
      [lia | reflexivity | exact I1 | change (ptr m nv + 1 < 65536); lia |].
    intros a A. apply (writeHeader_rest m1 a H1 A). }
  unfold wheel_part. rewrite Q, (i8_small nv), RC by lia.
  destruct (movement s); [reflexivity | congruence | reflexivity].
Qed.

(** *** The buttons *)

Lemma binary_aset b i v :
  binary b = true -> (v =? 0) || (v =? 1) = true ->
  binary (aset b i v) = true.
Proof.
  unfold binary. intros B V. apply andb_prop in B as [L F].
  rewrite aset_length, L. cbn [andb].
  apply (forallb_aset (fun v => (v =? 0) || (v =? 1))); assumption.
Qed.

Lemma binary_aget b i :
  binary b = true -> (aget 0 b i =? 0) || (aget 0 b i =? 1) = true.
Proof.
  unfold binary. intros B. apply andb_prop in B as [L F].
  unfold aget. destruct (nth_in_or_default (Z.to_nat i) b 0) as [I | ->];
    [|reflexivity].
  rewrite forallb_forall in F. now apply F.
Qed.

Lemma debounce_keeps i x p :
  binary (button p) = true -> binary (curButton x) = true ->
  binary (button (debounce i x p)) = true
  /\ pendingCombo (debounce i x p) = pendingCombo p
  /\ pendingMillis (debounce i x p) = pendingMillis p
  /\ led (debounce i x p) = led p.
Proof.
  intros B C. unfold debounce.
  destruct (negb (aget 0 (curButton x) i =? aget 0 (button p) i));
    [|cbn; auto].
  destruct (aget 0 (buttonMillis p) i =? 0); [cbn; auto|].
  destruct (u32 (u32 (curMillis x) - aget 0 (buttonMillis p) i)
            >? DEBOUNCE_MILLIS); [|auto].
  cbn [button pendingCombo pendingMillis led]. split; [|auto].
  apply binary_aset; [exact B | apply binary_aget; exact C].
Qed.

Lemma debounced_keeps x p :
  binary (button p) = true -> binary (curButton x) = true ->
  binary (button (debounced x p)) = true
  /\ pendingCombo (debounced x p) = pendingCombo p
  /\ pendingMillis (debounced x p) = pendingMillis p
  /\ led (debounced x p) = led p.
Proof.
  intros B C. unfold debounced. cbn [fold_left].
  destruct (debounce_keeps 0 x p B C) as (B0 & P0 & M0 & L0).
  destruct (debounce_keeps 1 x _ B0 C) as (B1 & P1 & M1 & L1).
  destruct (debounce_keeps 2 x _ B1 C) as (B2 & P2 & M2 & L2).
  split; [exact B2|]. split; [congruence|]. split; congruence.
Qed.

Lemma binary_cases b :
  binary b = true ->
  exists x y z, b = [x; y; z] /\ (x = 0 \/ x = 1) /\ (y = 0 \/ y = 1)
                /\ (z = 0 \/ z = 1).
Proof.
  unfold binary. intros B. apply andb_prop in B as [L F].
  apply Z.eqb_eq in L.
  destruct b as [|x [|y [|z [|w r]]]]; cbn [List.length] in L; try lia.
  cbn [forallb] in F.
  apply andb_prop in F as [X F]. apply andb_prop in F as [Y F].
  apply andb_prop in F as [Z0 _].
  exists x, y, z. split; [reflexivity|].
  apply orb_prop in X, Y, Z0.
  repeat split;
    match goal with
    | H : (?v =? 0) = true \/ (?v =? 1) = true |- ?v = 0 \/ ?v = 1 =>
        destruct H as [H|H]; apply Z.eqb_eq in H; auto
    end.
Qed.

Lemma combo_shown b :
  binary b = true ->
  0 <= combo_of b <= 7
  /\ shows (negb (aget 0 b 0 =? 0), negb (aget 0 b 1 =? 0),
            negb (aget 0 b 2 =? 0)) (combo_of b).
Proof.
  intros B. destruct (binary_cases b B) as (x & y & z & -> & X & Y & Z0).
  destruct X as [-> | ->]; destruct Y as [-> | ->]; destruct Z0 as [-> | ->];
    vm_compute; (split; [split; congruence | reflexivity]).
Qed.

Lemma first_shown sel :
  0 <= sel < 7 ->
  1 <= u8 (sel + 1) <= 7
  /\ shows (negb (Z.land (u8 (sel + 1)) 1 =? 0),
            negb (Z.land (u8 (sel + 1)) 2 =? 0),
            negb (Z.land (u8 (sel + 1)) 4 =? 0)) (u8 (sel + 1)).
Proof.
  intros R.
  assert (C : sel = 0 \/ sel = 1 \/ sel = 2 \/ sel = 3 \/ sel = 4 \/ sel = 5
              \/ sel = 6) by lia.
  destruct C as [-> | [-> | [-> | [-> | [-> | [-> | ->]]]]]];
    vm_compute; (split; [split; congruence | reflexivity]).
Qed.



Lemma chord_steady x p m :
  binary (button p) = true -> 0 <= selection (header m) < 7 ->
  pendingCombo p = 0
  \/ (1 <= pendingCombo p <= 7 /\ shows (led p) (pendingCombo p)) ->
  let p' := fst (chord x p m) in
  let m' := snd (chord x p m) in
  button p' = button p /\ buttonMillis p' = buttonMillis p
  /\ 1 <= pendingCombo p' <= 7 /\ shows (led p') (pendingCombo p')
  /\ 0 <= selection (header m') < 7
  /\ curConfig (header m') = curConfig (header m)
  /\ configPtr (header m') = configPtr (header m)
  /\ (m' = m
      \/ (combo_of (button p) = 0
          /\ selection (header m') = pendingCombo p' - 1
          /\ m' = writeHeader (set_selection m (pendingCombo p' - 1)))).
Proof.
  intros B S P. cbv zeta. unfold chord. cbv zeta.
  destruct (combo_shown (button p) B) as (CR & CS).
  destruct (first_shown _ S) as (FR & FS).
  set (p1 := if pendingCombo p =? 0
             then mkPanel (button p) (buttonMillis p)
                    (u8 (selection (header m) + 1)) (pendingMillis p)
                    (negb (Z.land (u8 (selection (header m) + 1)) 1 =? 0),
                     negb (Z.land (u8 (selection (header m) + 1)) 2 =? 0),
                     negb (Z.land (u8 (selection (header m) + 1)) 4 =? 0))
             else p).
  assert (P1 : button p1 = button p /\ buttonMillis p1 = buttonMillis p
               /\ 1 <= pendingCombo p1 <= 7
               /\ shows (led p1) (pendingCombo p1)).
  { unfold p1. destruct (pendingCombo p =? 0) eqn:Z0.
    - cbn [button buttonMillis pendingCombo led]. auto.
    - apply Z.eqb_neq in Z0. destruct P as [P | [P1 P2]]; [contradiction|].
      auto. }
  destruct P1 as (B1 & M1 & R1 & S1). rewrite !B1. clearbody p1.
  destruct (negb (combo_of (button p) =? 0)) eqn:C0.
  - destruct (negb (pendingCombo p1 =? combo_of (button p))).
    + destruct (pendingMillis p1 =? 0).
      * cbn [fst snd button buttonMillis pendingCombo led]. auto 10.
      * destruct (u32 (u32 (curMillis x) - pendingMillis p1)
                  >? FINGER_MILLIS).
        -- cbn [fst snd button buttonMillis pendingCombo led].
           apply negb_true_iff, Z.eqb_neq in C0.
           repeat split; auto; lia.
        -- cbn [fst snd]. auto 10.
    + cbn [fst snd button buttonMillis pendingCombo led]. auto 10.
  - apply negb_false_iff, Z.eqb_eq in C0.
    destruct (negb (pendingCombo p1 - 1 =? selection (header m))).
    + cbn [fst snd]. rewrite (u8_small (pendingCombo p1 - 1)) by lia.
      unfold writeHeader, set_selection.
      cbn [header selection curConfig configPtr].
      repeat split; auto; try lia.
    + cbn [fst snd]. auto 10.
Qed.

Lemma button_part_steady x p m :
  steady p m -> binary (curButton x) = true ->
  let p' := fst (button_part x p m) in
  let m' := snd (button_part x p m) in
  steady p' m' /\ 1 <= pendingCombo p' <= 7
  /\ curConfig (header m') = curConfig (header m)
  /\ configPtr (header m') = configPtr (header m)
  /\ (m' = m
      \/ (combo_of (button p') = 0
          /\ selection (header m') = pendingCombo p' - 1
          /\ m' = writeHeader (set_selection m (pendingCombo p' - 1)))).
Proof.
  intros (B & S & P) C. cbv zeta. unfold button_part.
  destruct (debounced_keeps x p B C) as (B' & P' & _ & L').
  assert (Pd : pendingCombo (debounced x p) = 0
               \/ (1 <= pendingCombo (debounced x p) <= 7
                   /\ shows (led (debounced x p))
                            (pendingCombo (debounced x p))))
    by (rewrite P', L'; exact P).
  destruct (chord_steady x (debounced x p) m B' S Pd)
    as (E1 & _ & E2 & E3 & E4 & E5 & E6 & E7).
  cbv zeta in *.
  split; [|split; [exact E2|split; [exact E5|split; [exact E6|]]]].
  - split; [rewrite E1; exact B'|]. split; [exact E4|]. right. auto.
  - rewrite E1. exact E7.
Qed.

Lemma passes_steady xs : forall p m,
  steady p m -> forallb (fun x => binary (curButton x)) xs = true ->
  steady (fst (passes xs p m)) (snd (passes xs p m))
  /\ curConfig (header (snd (passes xs p m))) = curConfig (header m)
  /\ configPtr (header (snd (passes xs p m))) = configPtr (header m)
  /\ (xs <> [] -> 1 <= pendingCombo (fst (passes xs p m)) <= 7).
Proof.
  induction xs as [|x r IH]; intros p m St F.
  - cbn [passes fst snd]. split; [exact St|]. split; [reflexivity|].
    split; [reflexivity|]. intros N. contradiction N. reflexivity.
  - cbn [forallb] in F. apply andb_prop in F as [Fx Fr].
    cbn [passes].
    destruct (button_part_steady x p m St Fx) as (St' & R' & C' & P' & _).
    cbv zeta in *.
    destruct (button_part x p m) as [p' m']. cbn [fst snd] in *.
    destruct (IH p' m' St' Fr) as (St2 & C2 & P2 & R2).
    split; [exact St2|]. split; [congruence|]. split; [congruence|].
    intros _. destruct r as [|y r']; [exact R'|].
    apply R2. discriminate.
Qed.

(** *** Debouncing *)

Lemma chord_buttons x p m :
  button (fst (chord x p m)) = button p
  /\ buttonMillis (fst (chord x p m)) = buttonMillis p.
Proof.
  unfold chord. cbv zeta.
  destruct (pendingCombo p =? 0);
  repeat match goal with
         | |- context [if ?b then _ else _] => destruct b
         end; cbn [fst button buttonMillis]; auto.
Qed.

Lemma debounce_other i j x p :
  0 <= i -> i <> j ->
  aget 0 (button (debounce j x p)) i = aget 0 (button p) i
  /\ aget 0 (buttonMillis (debounce j x p)) i = aget 0 (buttonMillis p) i.
Proof.
  intros I N. unfold debounce.
  repeat match goal with
         | |- context [if ?b then _ else _] => destruct b
         end; cbn [button buttonMillis];
    rewrite ?aget_aset_other by (try lia; congruence); auto.
Qed.

Lemma debounce_lengths j x p :
  List.length (button (debounce j x p)) = List.length (button p)
  /\ List.length (buttonMillis (debounce j x p))
     = List.length (buttonMillis p).
Proof.
  unfold debounce.
  repeat match goal with
         | |- context [if ?b then _ else _] => destruct b
         end; cbn [button buttonMillis]; rewrite ?aset_length; auto.
Qed.

Lemma debounce_glitch i x p t0 lo :
  0 <= i < Z.of_nat (List.length (buttonMillis p)) ->
  0 <= t0 <= lo -> lo <= curMillis x <= t0 + DEBOUNCE_MILLIS ->
  t0 + DEBOUNCE_MILLIS < 4294967296 ->
  in_span t0 lo (aget 0 (buttonMillis p) i) ->
  aget 0 (button (debounce i x p)) i = aget 0 (button p) i
  /\ in_span t0 (curMillis x) (aget 0 (buttonMillis (debounce i x p)) i).
Proof.
  intros I T X W Sp. unfold debounce, DEBOUNCE_MILLIS in *.
  assert (U : u32 (curMillis x) = curMillis x)
    by (unfold u32; apply Z.mod_small; lia).
  rewrite U.
  destruct (negb (aget 0 (curButton x) i =? aget 0 (button p) i)).
  - destruct (aget 0 (buttonMillis p) i =? 0) eqn:Z0.
    + cbn [button buttonMillis]. split; [reflexivity|].
      rewrite aget_aset_same by lia. right. lia.
    + apply Z.eqb_neq in Z0. destruct Sp as [Sp|Sp]; [contradiction|].
      replace (u32 (curMillis x - aget 0 (buttonMillis p) i) >? 10)
        with false.
      * split; [reflexivity|]. right. lia.
      * symmetry. rewrite Z.gtb_ltb. apply Z.ltb_ge.
        unfold u32. rewrite Z.mod_small by lia. lia.
  - cbn [button buttonMillis]. split; [reflexivity|].
    rewrite aget_aset_same by lia. left. reflexivity.
Qed.



Lemma debounced_glitch i x p t0 lo :
  0 <= i < 3 -> List.length (buttonMillis p) = 3%nat ->
  0 <= t0 <= lo -> lo <= curMillis x <= t0 + DEBOUNCE_MILLIS ->
  t0 + DEBOUNCE_MILLIS < 4294967296 ->
  in_span t0 lo (aget 0 (buttonMillis p) i) ->
  aget 0 (button (debounced x p)) i = aget 0 (button p) i
  /\ in_span t0 (curMillis x) (aget 0 (buttonMillis (debounced x p)) i)
  /\ List.length (buttonMillis (debounced x p)) = 3%nat.
Proof.
  intros I L T X W Sp. unfold debounced. cbn [fold_left].
  set (p0 := debounce 0 x p). set (p1 := debounce 1 x p0).
  destruct (debounce_lengths 0 x p) as [_ L0]. fold p0 in L0.
  destruct (debounce_lengths 1 x p0) as [_ L1]. fold p1 in L1.
  destruct (debounce_lengths 2 x p1) as [_ L2].
  split; [|split; [|congruence]].
  - assert (C : i = 0 \/ i = 1 \/ i = 2) by lia.
    destruct C as [-> | [-> | ->]].
    + destruct (debounce_other 0 2 x p1) as [E2 _]; [lia | lia |].
      destruct (debounce_other 0 1 x p0) as [E1 _]; [lia | lia |].
      fold p1 in E1. rewrite E2, E1.
      apply (debounce_glitch 0 x p t0 lo); try assumption. rewrite L. lia.
    + destruct (debounce_other 1 2 x p1) as [E2 _]; [lia | lia |].
      destruct (debounce_other 1 0 x p) as [E0 M0]; [lia | lia |].
      fold p0 in E0, M0. rewrite E2, <- E0.
      apply (debounce_glitch 1 x p0 t0 lo); try assumption;
        [rewrite L0, L; lia | rewrite M0; exact Sp].
    + destruct (debounce_other 2 1 x p0) as [E1 M1]; [lia | lia |].
      destruct (debounce_other 2 0 x p) as [E0 M0]; [lia | lia |].
      fold p0 in E0, M0. fold p1 in E1, M1. rewrite <- E0, <- E1.
      apply (debounce_glitch 2 x p1 t0 lo); try assumption;
        [rewrite L1, L0, L; lia | rewrite M1, M0; exact Sp].
  - assert (C : i = 0 \/ i = 1 \/ i = 2) by lia.
    destruct C as [-> | [-> | ->]].
    + destruct (debounce_other 0 2 x p1) as [_ M2]; [lia | lia |].
      destruct (debounce_other 0 1 x p0) as [_ M1]; [lia | lia |].
      fold p1 in M1. rewrite M2, M1.
      apply (debounce_glitch 0 x p t0 lo); try assumption. rewrite L. lia.
    + destruct (debounce_other 1 2 x p1) as [_ M2]; [lia | lia |].
      destruct (debounce_other 1 0 x p) as [_ M0]; [lia | lia |].
      fold p0 in M0. rewrite M2.
      apply (debounce_glitch 1 x p0 t0 lo); try assumption;
        [rewrite L0, L; lia | rewrite M0; exact Sp].
    + destruct (debounce_other 2 1 x p0) as [_ M1]; [lia | lia |].
      destruct (debounce_other 2 0 x p) as [_ M0]; [lia | lia |].
      fold p0 in M0. fold p1 in M1.
      apply (debounce_glitch 2 x p1 t0 lo); try assumption;
        [rewrite L1, L0, L; lia | rewrite M1, M0; exact Sp].
Qed.

Lemma passes_glitch i t0 : forall xs p m lo,
  0 <= i < 3 -> List.length (buttonMillis p) = 3%nat ->
  0 <= t0 <= lo -> t0 + DEBOUNCE_MILLIS < 4294967296 ->
  ascending lo xs = true ->
  forallb (fun x => curMillis x <=? t0 + DEBOUNCE_MILLIS) xs = true ->
  in_span t0 lo (aget 0 (buttonMillis p) i) ->
  aget 0 (button (fst (passes xs p m))) i = aget 0 (button p) i.
Proof.
  induction xs as [|x r IH]; intros p m lo I L T W A F Sp; [reflexivity|].
  cbn [ascending forallb] in A, F.
  apply andb_prop in A as [A1 A2]. apply andb_prop in F as [F1 F2].
  apply Z.leb_le in A1, F1.
  destruct (debounced_glitch i x p t0 lo I L T (conj A1 F1) W Sp)
    as (E & Sp' & L').
  destruct (chord_buttons x (debounced x p) m) as [CB CM].
  cbn [passes]. unfold button_part.
  destruct (chord x (debounced x p) m) as [p' m']. cbn [fst] in CB, CM.
  rewrite (IH p' m' (curMillis x)); try assumption.
  - rewrite CB. exact E.
  - rewrite CM. exact L'.
  - lia.
  - rewrite CM. exact Sp'.
Qed.

Lemma glitch_ignored i t0 xs p m :
  0 <= i < 3 -> List.length (buttonMillis p) = 3%nat ->
  aget 0 (buttonMillis p) i = 0 ->
  0 <= t0 -> t0 + DEBOUNCE_MILLIS < 4294967296 ->
  ascending t0 xs = true ->
  forallb (fun x => curMillis x <=? t0 + DEBOUNCE_MILLIS) xs = true ->
  aget 0 (button (fst (passes xs p m))) i = aget 0 (button p) i.
Proof.
  intros I L Z0 T W A F.
  apply (passes_glitch i t0 xs p m t0); try assumption; [lia|].
  left. exact Z0.
Qed.



(** *** An entry of a block, played *)

Lemma play_entry_ignores a b b' :
  eType a <> chr "m" -> play_entry a b = play_entry a b'.
Proof.
  intros N. unfold play_entry. cbv zeta.
  destruct (eType a =? chr "k"); [reflexivity|].
  destruct (eType a =? chr "m") eqn:M; [|reflexivity].
  apply Z.eqb_eq in M. contradiction.
Qed.

Lemma play_spec d cb dir e f :
  valid_within 255 false d = true -> e < nEntries cb ->
  cell cb e dir
  = fst (codes (chr (letter d)) (string_of_list_ascii (text d))) ->
  (eType (cell cb e dir) = chr "m" ->
   cell cb (u8 (e + 1)) dir
   = snd (codes (chr (letter d)) (string_of_list_ascii (text d)))) ->
  exists act,
    spelled d = Some act
    /\ play (S f) cb dir e
       = perform (as_held (is_quoted d) act)
         ++ play f cb dir
              (if eType (cell cb e dir) =? chr "m" then u8 (u8 (e + 1) + 1)
               else u8 (e + 1)).
Proof.
  intros V E A B.
  destruct (plays_spelled d V) as (act & S & P).
  exists act. split; [exact S|].
  rewrite (play_step f cb dir e E). f_equal.
  rewrite <- P. unfold played. rewrite <- A.
  destruct (Z.eq_dec (eType (cell cb e dir)) (chr "m")) as [M|M].
  - rewrite (B M). reflexivity.
  - apply play_entry_ignores. exact M.
Qed.

(** An entry of a block that holds the code of a valid spec, other than
    a hexadecimal key with a capital F as low digit, is played as the
    action that the spec spells, as the device holds it (an amount as a
    signed byte, a quoted character without shift): the modifier keys,
    then the key, the move, the wheel step or the click, then the
    release; the loop goes on behind the entry, two cells on for a
    move. *)
Theorem play_performs_spec (d : spec) (cb : configBlock) (dir e : Z)
  (f : nat) :
  valid_within 255 false d = true -> e < nEntries cb ->
  cell cb e dir
  = fst (codes (chr (letter d)) (string_of_list_ascii (text d))) ->
  (eType (cell cb e dir) = chr "m" ->
   cell cb (u8 (e + 1)) dir
   = snd (codes (chr (letter d)) (string_of_list_ascii (text d)))) ->
  exists act,
    spelled d = Some act
    /\ play (S f) cb dir e
       = perform (as_held (is_quoted d) act)
         ++ play f cb dir
              (if eType (cell cb e dir) =? chr "m" then u8 (u8 (e + 1) + 1)
               else u8 (e + 1)).
Proof. exact (play_spec d cb dir e f). Qed.

Lemma play_performs_spec_witness :
  let d := mkSpec "m" ["c"; "l"]%char (Amounts "+" ["5"]%char "-" ["7"]%char) in
  let cb := mkConfig 2 [(Z.shiftr (parseM "cl+5-7") 16, 0);
                        (Z.land (parseM "cl+5-7") 0xFFFF, 0)] in
  exists act,
    spelled d = Some act
    /\ play 1 cb 0 0
       = perform (as_held (is_quoted d) act)
         ++ play 0 cb 0
              (if eType (cell cb 0 0) =? chr "m" then u8 (u8 (0 + 1) + 1)
               else u8 (0 + 1)).
Proof.
  apply (play_performs_spec
           (mkSpec "m" ["c"; "l"]%char
                   (Amounts "+" ["5"]%char "-" ["7"]%char))
           (mkConfig 2 [(Z.shiftr (parseM "cl+5-7") 16, 0);
                        (Z.land (parseM "cl+5-7") 0xFFFF, 0)]) 0 0 0);
    vm_compute;
    first [congruence | split; congruence].
Defined.

(** After the calls of a movement no key and no mouse button is held,
    whatever the block holds; and for a block of at most 254 entries the
    256 rounds of the model see the loop through. *)
Theorem play_releases_everything (cb : configBlock) (dir e : Z) (f : nat) :
  held_after (play f cb dir e) (false, 0) = (false, 0)
  /\ (nEntries cb <= 254 ->
      forall k, play (256 + k) cb dir 0 = play 256 cb dir 0).
Proof.
  split; [apply play_released|].
  intros N k. apply play_fuel; [lia | exact N |].
  change (Z.of_nat 256) with 256. lia.
Qed.

Lemma play_releases_everything_witness :
  nEntries blockC <= 254
  /\ play (256 + 7) blockC 1 0 = play 256 blockC 1 0.
Proof.
  split; [vm_compute; congruence|].
  apply (proj2 (play_releases_everything blockC 1 0 0)
               ltac:(vm_compute; congruence) 7%nat).
Defined.

(** Once [use] has mapped the selected combo to a used block, a movement
    is played with the entries stored for that block, in the direction of
    the movement, and the mailbox is cleared. *)
Theorem use_then_movement (cmd : string) (c : ascii) (cs : list ascii)
  (n : ascii) (ns : list ascii) (cells : list (Z * Z)) (m : machine)
  (s : vars) :
  store_ok m = true ->
  forallb is_digit (c :: cs) = true -> forallb is_digit (n :: ns) = true ->
  0 <= number (c :: cs) < 7 -> 0 <= number (n :: ns) < 8 ->
  ptr m (number (n :: ns)) <> 0 ->
  selection (header m) = number (c :: cs) ->
  movement s <> none ->
  wheel_part cells
    (onUse [cmd; string_of_list_ascii (c :: cs);
            string_of_list_ascii (n :: ns)] m) s
  = (play 256 (snd (readConfig (number (n :: ns)) (mkConfig 0 cells) m))
          (direction (movement s)) 0,
     with_movement s none).
Proof. exact (use_then_wheel cmd c cs n ns cells m s). Qed.

Lemma use_then_movement_witness :
  wheel_part [] (onUse ["use"; "1"; "3"]%string store3)
             (mkVars (low, rose) (0, 0) cc)
  = (play 256 (snd (readConfig (number ["3"]%char) (mkConfig 0 []) store3))
          (direction cc) 0,
     with_movement (mkVars (low, rose) (0, 0) cc) none).
Proof.
  apply (use_then_movement "use" "1" [] "3" [] [] store3
           (mkVars (low, rose) (0, 0) cc)); vm_compute;
    first [congruence | split; congruence].
Defined.

(** The button logic keeps its state in shape over any number of passes
    whose pins read 0 or 1: the debounced buttons hold 0 or 1, the
    selection stays an index of the combo mapping, the pending chord is
    between 1 and 7 from the first pass on and the LED shows it; the combo
    mapping and the offsets of the blocks are never touched. *)
Theorem buttons_keep_selection (xs : list pass) (p : panel) (m : machine) :
  steady p m -> forallb (fun x => binary (curButton x)) xs = true ->
  steady (fst (passes xs p m)) (snd (passes xs p m))
  /\ curConfig (header (snd (passes xs p m))) = curConfig (header m)
  /\ configPtr (header (snd (passes xs p m))) = configPtr (header m)
  /\ (xs <> [] -> 1 <= pendingCombo (fst (passes xs p m)) <= 7).
Proof. exact (passes_steady xs p m). Qed.

Lemma buttons_keep_selection_witness :
  let xs := [mkPass [1; 0; 1] 100; mkPass [1; 0; 1] 120;
             mkPass [1; 0; 1] 130; mkPass [1; 0; 1] 300;
             mkPass [0; 0; 0] 310; mkPass [0; 0; 0] 330] in
  steady (fst (passes xs power_on factory)) (snd (passes xs power_on factory))
  /\ curConfig (header (snd (passes xs power_on factory)))
     = curConfig (header factory)
  /\ configPtr (header (snd (passes xs power_on factory)))
     = configPtr (header factory)
  /\ (xs <> [] -> 1 <= pendingCombo (fst (passes xs power_on factory)) <= 7).
Proof.
  apply (buttons_keep_selection
           [mkPass [1; 0; 1] 100; mkPass [1; 0; 1] 120;
            mkPass [1; 0; 1] 130; mkPass [1; 0; 1] 300;
            mkPass [0; 0; 0] 310; mkPass [0; 0; 0] 330] power_on factory).
  - split; [reflexivity|]. split; [vm_compute; split; congruence|].
    left. reflexivity.
  - reflexivity.
Defined.

(** Whatever the pins read during passes that span at most 10 ms, with
    no wrap of [millis()] inside the span, a button whose debounce timer
    is idle at the start keeps its debounced state. *)
Theorem short_glitch_is_ignored (i t0 : Z) (xs : list pass) (p : panel)
  (m : machine) :
  0 <= i < 3 -> List.length (buttonMillis p) = 3%nat ->
  aget 0 (buttonMillis p) i = 0 ->
  0 <= t0 -> t0 + DEBOUNCE_MILLIS < 4294967296 ->
  ascending t0 xs = true ->
  forallb (fun x => curMillis x <=? t0 + DEBOUNCE_MILLIS) xs = true ->
  aget 0 (button (fst (passes xs p m))) i = aget 0 (button p) i.
Proof. exact (glitch_ignored i t0 xs p m). Qed.

Lemma short_glitch_is_ignored_witness :
  let xs := [mkPass [1; 0; 0] 1000; mkPass [0; 0; 0] 1004;
             mkPass [1; 0; 0] 1005; mkPass [1; 0; 0] 1010] in
  aget 0 (button (fst (passes xs power_on factory))) 0
  = aget 0 (button power_on) 0.
Proof.
  apply (short_glitch_is_ignored 0 1000
           [mkPass [1; 0; 0] 1000; mkPass [0; 0; 0] 1004;
            mkPass [1; 0; 0] 1005; mkPass [1; 0; 0] 1010] power_on factory);
    vm_compute;
    first [congruence | split; congruence].
Defined.


End JogFacts.
